(* ===== verification/_CoqProject ===== *)
-Q . S2P
Prelude.v
Text.v
StdMap.v
WrappingIntegers.v
ByteStream.v
StreamReassembler.v
Buffer.v
Checksum.v
Parser.v
TCPHeader.v
HeaderText.v
TCPSegment.v
TCPReceiver.v
TCPSender.v
TCPState.v
EndToEnd.v
Datagrams.v
Liveness.v
Tests.v
Util.v
Random.v
FileDescriptor.v
OSLogic.v
Handles.v
EventLoop.v
Address.v
Socket.v
Tun.v
Webget.v
Doctests.v
