(* ===== verification/Prelude.v ===== *)
(** * Verification of the Sponge TCP library

    Sponge (src/libsponge) is the user-level TCP of the CS144 laboratories: a
    flow-controlled byte stream, a reassembler of out-of-order excerpts, 32-bit wrapping
    sequence numbers, a receiver, a sender with a retransmission timer, and the packet
    code (buffers, integer codecs, Internet checksum, header and segment). This library
    models these parts in their C++ form and proves what they are for.

    ** The parts and the files

    - Prelude.v: C++ outcomes ([Ok], [Throw], [Undefined] for undefined behaviour) with
      their monad, the wrap-around of unsigned integers ([to_u8] to [to_u64]), byte
      strings ([bytes], [zlen], [slice], [substr]), hint databases and tactics.
    - StdMap.v: std::map with integer keys as a sorted association list.
    - WrappingIntegers.v: wrapping_integers.hh/.cc ([wrap], [unwrap], the operators).
    - ByteStream.v: byte_stream.hh/.cc, every method; the specification is a bounded FIFO.
    - StreamReassembler.v: stream_reassembler.hh/.cc; [push_substring] with its two loops
      over the map of excerpts ([assemble_loop], [merge_loop]). The contract [push_spec]
      is what the receiver relies on.
    - Buffer.v: util/buffer.hh/.cc ([Buffer], [BufferList], [BufferViewList]).
    - Checksum.v: [InternetChecksum] of util/util.hh/.cc.
    - Parser.v: util/parser.hh/.cc ([NetParser] as a state monad, [NetUnparser]).
    - TCPHeader.v, TCPSegment.v: tcp_helpers/tcp_header.hh/.cc and tcp_segment.hh/.cc,
      parse and serialize.
    - TCPReceiver.v: tcp_receiver.hh/.cc; [segment_received] with its early returns.
    - TCPSender.v: tcp_sender.hh/.cc and the constants of tcp_helpers/tcp_config.hh;
      [fill_window], [ack_received], [tick], [send_empty_segment].
    - TCPState.v: tcp_helpers/tcp_state.hh/.cc, the summaries of receiver and sender.
    - EndToEnd.v: a sender and a receiver joined by a network that loses, duplicates and
      reorders; this file models no source file, it composes the others.
    - Liveness.v: progress of that composition: the invariant on SYN segments, and runs made
      of rounds ([round], [fair_run]). It models no source file either.
    - Datagrams.v: the same composition on bytes, with [TCPSegment::serialize] and [parse]
      between the two ends and damaged datagrams; related to EndToEnd.v by a simulation.
    - Tests.v: the unit tests under src/tests of byte stream, reassembler, receiver and
      sender, translated with their harnesses and run on the model.
    - Text.v: the text functions of the C++ library (numbers in a base, [std::to_string],
      [std::stoi], null-terminated strings); HeaderText.v: [TCPHeader::to_string] and
      [summary] and the insertion of a sequence number; Util.v: [timestamp_ms], [hexdump]
      and the texts of exceptions.
    - FileDescriptor.v: util/file_descriptor.hh/.cc and [SystemCall] of util/util.cc over a
      kernel given by the classes [Kernel] (its calls) and [KernelLaws] (their contracts);
      wrappers live in a shared store, and effects survive exceptions (monad [os]).
    - Handles.v: the reference-counted objects [FileDescriptor] over that store: [construct],
      [duplicate_handle], the two moves, [destroy] and calls of methods, with [use_count].
    - EventLoop.v: util/eventloop.hh/.cc, [wait_next_event] over those objects, which its rules
      own; closures can do anything with the program's objects, throw and add rules.
    - Random.v: [get_random_generator] of util/util.hh/.cc; the engine it seeds is
      [std::seed_seq] and [std::mt19937] of the C++ library, modelled as the standard
      defines them.
    - OSLogic.v: weakest preconditions for [os], with a postcondition for returns and one
      for exceptions; the rules that the following files use. It models no source file.
    - Address.v: util/address.hh/.cc over the classes [Resolver] and [ResolverLaws], and
      [FdAdapterConfig] of tcp_helpers/tcp_config.hh. [Platform] is what C++ leaves to the
      implementation: a copy of nothing from a null pointer, and the maximal string size.
    - Socket.v: util/socket.hh/.cc over the classes [SocketKernel], [SocketLaws] and
      [Platform].
    - Tun.v: util/tun.hh/.cc over [TunKernel] and [TunLaws]; the kernel may choose the name
      of a device.
    - Webget.v: apps/webget.cc, the program on top of the sockets, in a monad with output.
    - Doctests.v: doctests/, the three programs over codecs, addresses and sockets, with the
      scopes of their local objects ([local]) and socketpair(2) as a class.

    ** How state and operations correspond

    A C++ object is a record with the members of the class under their names; a method is
    a function from the record (and arguments) to the new record and the result, in
    [outcome] where the code can throw or leave the defined behaviour. Members that the
    owner changes through a reference ([stream_in()], [stream_out()], [segments_out()])
    have an explicit update function. A [size_t] or [uint64_t] is an integer kept in
    range by [to_u64] where the code can wrap; a [char] is a byte. A loop is a recursive
    function over the data it consumes. Some loops need fuel: [fold_carries] (two rounds,
    shown to be enough), [fill_loop] (which without enough fuel has no result; one evaluation
    of the condition per free sequence number of the window and one more is enough by
    [fill_loop_terminates]) and [write_views] (one round more than there
    are bytes; every round but the last transfers one, and [write_views_spec] excludes
    the lack of fuel), as do [show_digits] (a number has no more digits than bits) and the
    loop [print_all] of webget, whose fuel is an argument and which [print_all_spec] shows
    to end with two rounds more than there are bytes to read. The first loop of the event
    loop has fuel because closures can go on adding rules; one unit per rule is enough when
    they add none. Iterators over std::map become the remaining part of the sorted list.

    ** What the theorems show

    - Numbers and bytes: [unwrap] returns the closest number in its class, wrapping and
      unwrapping are inverse, parsing inverts serializing for integers, headers and
      segments (checksum included), and the result of parsing is classified on every
      input. Buffer lists act on the concatenated string.
    - Streams: a byte stream is a bounded FIFO; the reassembler, for any reads and any pushes
      of excerpts of one stream that do not start beyond the window, holds exactly the pushed bytes inside its window and
      delivers exactly a prefix of the stream, and ends its output exactly at the end.
    - The receiver, for segments of one stream in any division, order and multiplicity:
      in-order delivery, the exact effect of each segment, and the exact acknowledgment
      number and window. These theorems use only the contract of the reassembler.
    - The sender, for any acknowledgments whatsoever: segments tile the sequence space and
      carry the application's bytes, the outstanding ones are kept without gaps, an expiry
      retransmits the oldest one with exponential back-off (until a window is zero), and the
      loop terminates.
    - The composition: delivered bytes are a prefix of written bytes; what is acknowledged
      has been received in order; a retransmission makes progress in every state, and a run
      with enough rounds, whatever happens between them, completes the connection.
    - On bytes: the composition with serialized, parsed and possibly damaged datagrams and
      the one on segments simulate each other.
    - Where the code departs from its documentation or its purpose, a theorem says so:
      entries of the reassembler that are never erased, excerpts beyond the window,
      writes after the end of a stream, the name table of [as_string], the dropped
      verdict on short headers, the zero-window flag that is never reset, and the SYN
      that is not counted against the window.
    - The system side: [write] transfers a prefix on every path and everything when asked
      to, [read] returns the next bytes, for every kernel that keeps the contracts (an
      instance of each interface shows that they can be kept). The event loop is memory safe
      while rules disappear and destroys the descriptors of erased rules; it reports
      [Success] without an event in two cases, and reads past its array when a callback
      adds a rule.
    - Addresses and sockets: constructed addresses are well formed, comparison is equality,
      numbers and texts of addresses are read back; [recv], [sendto], [accept] and the
      TUN constructor are exact on every path, and an exception leaks no descriptor. The program webget sends its request, prints all of the answer and
      closes its socket.
    - Ownership: under any use of its objects a wrapper with a handle exists and exactly its
      last handle closes it; in a [careful] program, which wraps only open descriptors, never
      closes one twice and has no close(2) fail, it has an open descriptor of its own until
      it is closed. The examples of doctests/ leave no descriptor open whichever of their
      calls fails, but for one leak ([pair_lost], [pair_leaks], [example_3_leaks]).
    - The engine of [get_random_generator] starts and stays in a live state of 624 words.
    - Text: [hexdump] draws its reference picture, and the text of a header determines it.

    ** Bounds

    Streams are shorter than [2 ^ 63] bytes and capacities smaller than [2 ^ 63], so that
    indices and window edges fit 64 bits; the sequence number of an arriving segment is
    less than [2 ^ 31] away from the receiver's checkpoint ([near]), unless the segment is
    [bare] (no SYN, no FIN, no payload), which may have any number. EndToEnd.v derives
    this for streams of up to [2 ^ 63] bytes, whose sequence numbers wrap many times, from
    the lifetime of segments: the network delivers no segment and no acknowledgment that
    the sender is [2 ^ 31] sequence numbers past ([fresh], [fresh_ack]; an advertisement
    bears, for the statement only, how much the receiver had in order when it gave it); for streams below
    [2 ^ 31 - 2] bytes this always holds ([short_allowed]). The checksum theorems bound the
    message so that the 32-bit accumulator does not overflow.

    ** What is not modelled

    Lines printed for debugging by the sender and the receiver, the memory of resolver
    results, the output stream of a destructor that caught an exception, the entropy of the
    random device, the exhaustion of memory, and the system below its calls, which are interfaces with laws. In the
    files on addresses, sockets and programs a handle is a position in the store of
    wrappers, and a destructor runs where the model says so; in EventLoop.v closures do not
    call [wait_next_event] of their own loop, and what a closure captures is not destroyed
    with its rule. The initial sequence number is a parameter of
    [tcp_sender]. The files that CMake generates under build are left out.
    The repository at this commit has no TCPConnection: how a
    connection combines sender and receiver is modelled only by EndToEnd.v.

    ** Plan

    The order of the components follows the data: streams and numbers, then reassembly,
    the wire format, receiver and sender, and their composition. The
    system side follows the calls: descriptors and their handles, event loop, addresses,
    sockets, and the programs that use them. Every component of the repository is modelled,
    and nothing of the plan is left. *)
From Stdlib Require Export ZArith Lia Zify ZifyBool.
From coqutil Require Export Byte.
From stdpp Require Export base tactics list option numbers strings.
Export stdpp.list_basics.list stdpp.list_relations.list stdpp.list_monad.list stdpp.list_misc.list.

#[global] Open Scope Z_scope.
#[export] Set Warnings "-clear-no-such-hyp".

(** * Machine integers: a w-bit unsigned value is a [Z] kept below [2 ^ w] *)

Definition to_u8 (z : Z) : Z := z mod 2 ^ 8.
Definition to_u16 (z : Z) : Z := z mod 2 ^ 16.
Definition to_u32 (z : Z) : Z := z mod 2 ^ 32.
Definition to_u64 (z : Z) : Z := z mod 2 ^ 64.

(** The value of a w-bit pattern read as a two's complement [int32_t]. *)
Definition to_i32 (z : Z) : Z :=
  if to_u32 z <? 2 ^ 31 then to_u32 z else to_u32 z - 2 ^ 32.

(** The conversion to [ssize_t]. *)
Definition to_i64 (z : Z) : Z :=
  if to_u64 z <? 2 ^ 63 then to_u64 z else to_u64 z - 2 ^ 64.

(** * Byte strings *)

Abbreviation bytes := (list Init.Byte.byte).

#[global] Instance byte_eq_dec : EqDecision Init.Byte.byte := Strings.Byte.byte_eq_dec.

(** The bytes of a string literal. *)
Definition str (s : string) : bytes := String.list_byte_of_string s.
Arguments str s%_string.

(** [std::string::size], [std::deque::size], [std::string_view::size]. *)
Definition zlen {A} (l : list A) : Z := Z.of_nat (length l).

(** * Outcomes of C++ code *)

(** The exceptions the modelled code throws, by their C++ class. A [runtime_error] has the
    text it is constructed with, a [tagged_error] what was attempted and the code of its
    category: [errno] for [unix_error] and the result of a resolver function for
    [gai_error]. *)
Inductive exception :=
| out_of_range
| length_error
| invalid_argument
| runtime_error (text : bytes)
| unix_error (attempt : bytes) (errno : Z)
| gai_error (attempt : bytes) (code : Z).

(** What a call does: it returns a value, throws an exception, or has undefined
    behaviour (an access the C++ standard gives no meaning to). *)
Inductive outcome (A : Type) :=
| Ok (a : A)
| Throw (e : exception)
| Undefined.
Arguments Ok {A} a.
Arguments Throw {A} e.
Arguments Undefined {A}.

#[global] Instance outcome_ret : MRet outcome := fun A a => Ok a.
#[global] Instance outcome_bind : MBind outcome := fun A B f c =>
  match c with Ok a => f a | Throw e => Throw e | Undefined => Undefined end.

Definition is_ok {A} (c : outcome A) : bool := match c with Ok _ => true | _ => false end.

(** * Substrings *)

(** The elements of [l] with index in [a, b). *)
Definition slice {A} (l : list A) (a b : Z) : list A :=
  take (Z.to_nat (b - a)) (drop (Z.to_nat a) l).

(** [std::string::substr(pos, n)]: at most [n] characters from [pos], which must
    not lie beyond the end. *)
Definition substr (s : bytes) (pos n : Z) : outcome bytes :=
  if zlen s <? pos then Throw out_of_range
  else Ok (slice s pos (Z.min (pos + n) (zlen s))).

(** The default of the second argument of [substr], [std::string::npos]. *)
Definition npos : Z := 2 ^ 64 - 1.

(** [std::string::resize(n)]: cut to [n] characters or pad with null characters. *)
Definition resize (s : bytes) (n : Z) : bytes :=
  take (Z.to_nat n) s ++ replicate (Z.to_nat n - length s) (byte.of_Z 0).

#[global] Arguments zlen {A} l : simpl never.
#[global] Arguments slice {A} l a b : simpl never.
#[global] Arguments to_u8 z : simpl never.
#[global] Arguments to_u16 z : simpl never.
#[global] Arguments to_u32 z : simpl never.
#[global] Arguments to_u64 z : simpl never.

(** * Automation *)

Create HintDb sponge.

(** Destruct the condition of every [if] of the goal, keeping its meaning for [lia]. *)
Ltac case_if :=
  match goal with
  | |- context [if ?b then _ else _] =>
      let H := fresh "Hif" in destruct b eqn:H
  end.

Ltac case_if_in H :=
  match type of H with
  | context [if ?b then _ else _] =>
      let E := fresh "Hif" in destruct b eqn:E
  end.

Lemma Ok_inj {A} (a b : A) : Ok a = Ok b -> a = b.
Proof. by injection 1. Qed.

(** Invert the equations between outcomes, down to the components of the results. *)
Ltac inv_outcome :=
  repeat match goal with
  | H : Ok _ = Ok _ |- _ => apply Ok_inj in H
  | H : (_, _) = (_, _) |- _ => apply pair_equal_spec in H as [? ?]
  | H : Ok _ = Throw _ |- _ => discriminate H
  | H : Ok _ = Undefined |- _ => discriminate H
  | H : Throw _ = Ok _ |- _ => discriminate H
  | H : Undefined = Ok _ |- _ => discriminate H
  end; subst.

(** Arithmetic on machine integers: unfold the wraps and evaluate the bounds. *)
Ltac unfold_words := unfold to_u8, to_u16, to_u32, to_u64 in *.
Ltac word_lia := unfold_words; Z.to_euclidean_division_equations; lia.

(** Closed facts about concrete inputs, by evaluation. *)
Ltac by_compute :=
  repeat split; try (vm_compute; first [reflexivity | discriminate | congruence]).

(** * Lemmas on outcomes *)

Lemma bind_ok_inv {A B} (c : outcome A) (f : A -> outcome B) (b : B) :
  mbind f c = Ok b -> exists a, c = Ok a /\ f a = Ok b.
Proof. destruct c; simpl; intros H; inv_outcome; eauto. Qed.

Lemma bind_ok {A B} (c : outcome A) (f : A -> outcome B) (a : A) :
  c = Ok a -> mbind f c = f a.
Proof. by intros ->. Qed.

(** * Lemmas on machine integers *)

Section words.
Implicit Types z : Z.

Lemma to_u8_range z : 0 <= to_u8 z < 2 ^ 8.
Proof. apply Z.mod_pos_bound; lia. Qed.
Lemma to_u16_range z : 0 <= to_u16 z < 2 ^ 16.
Proof. apply Z.mod_pos_bound; lia. Qed.
Lemma to_u32_range z : 0 <= to_u32 z < 2 ^ 32.
Proof. apply Z.mod_pos_bound; lia. Qed.
Lemma to_u64_range z : 0 <= to_u64 z < 2 ^ 64.
Proof. apply Z.mod_pos_bound; lia. Qed.

Lemma to_u8_small z : 0 <= z < 2 ^ 8 -> to_u8 z = z.
Proof. apply Z.mod_small. Qed.
Lemma to_u16_small z : 0 <= z < 2 ^ 16 -> to_u16 z = z.
Proof. apply Z.mod_small. Qed.
Lemma to_u32_small z : 0 <= z < 2 ^ 32 -> to_u32 z = z.
Proof. apply Z.mod_small. Qed.
Lemma to_u64_small z : 0 <= z < 2 ^ 64 -> to_u64 z = z.
Proof. apply Z.mod_small. Qed.
Lemma to_i64_small z : 0 <= z < 2 ^ 63 -> to_i64 z = z.
Proof. intros Hz. unfold to_i64. rewrite to_u64_small by lia. case_match; lia. Qed.
End words.

#[export] Hint Resolve to_u8_range to_u16_range to_u32_range to_u64_range : sponge.

(** * Lemmas on lengths and slices *)

Section slices.
Context {A : Type}.
Implicit Types l : list A.

Lemma zlen_nonneg l : 0 <= zlen l.
Proof. unfold zlen; lia. Qed.

Lemma zlen_nil : zlen (@nil A) = 0.
Proof. reflexivity. Qed.

Lemma zlen_cons x l : zlen (x :: l) = 1 + zlen l.
Proof. unfold zlen; simpl; lia. Qed.

Lemma zlen_app l1 l2 : zlen (l1 ++ l2) = zlen l1 + zlen l2.
Proof. unfold zlen; rewrite length_app; lia. Qed.

Lemma zlen_zero l : zlen l = 0 -> l = [].
Proof. destruct l; [done | rewrite zlen_cons; pose proof (zlen_nonneg l); lia]. Qed.

Lemma zlen_slice l a b :
  0 <= a -> a <= b -> b <= zlen l -> zlen (slice l a b) = b - a.
Proof. unfold zlen, slice; rewrite length_take, length_drop; lia. Qed.

Lemma zlen_slice_le l a b : a <= b -> zlen (slice l a b) <= b - a.
Proof. unfold zlen, slice; rewrite length_take, length_drop; lia. Qed.

Lemma slice_nil l a b : b <= a -> slice l a b = [].
Proof. intros; unfold slice; replace (Z.to_nat (b - a)) with 0%nat by lia; done. Qed.

Lemma slice_full l : slice l 0 (zlen l) = l.
Proof. unfold slice, zlen; simpl; rewrite drop_0, firstn_all2; [done | lia]. Qed.

Lemma slice_take l n : slice l 0 n = take (Z.to_nat n) l.
Proof. unfold slice; rewrite Z.sub_0_r; done. Qed.

Lemma slice_drop l n : 0 <= n -> slice l n (zlen l) = drop (Z.to_nat n) l.
Proof. intros; unfold slice, zlen. rewrite firstn_all2; [done | rewrite length_drop; lia]. Qed.

Lemma slice_app l a b c :
  0 <= a -> a <= b -> b <= c -> slice l a b ++ slice l b c = slice l a c.
Proof.
  intros. unfold slice.
  replace (Z.to_nat (c - a)) with (Z.to_nat (b - a) + Z.to_nat (c - b))%nat by lia.
  rewrite <- take_take_drop, drop_drop. do 3 f_equal. lia.
Qed.

Lemma slice_slice l a b c d :
  0 <= a -> 0 <= c -> c <= d -> d <= b - a ->
  slice (slice l a b) c d = slice l (a + c) (a + d).
Proof.
  intros. unfold slice.
  rewrite skipn_firstn_comm, take_take, drop_drop. f_equal; [lia|].
  f_equal; lia.
Qed.

Lemma slice_app_l l1 l2 a b :
  0 <= a -> b <= zlen l1 -> slice (l1 ++ l2) a b = slice l1 a b.
Proof.
  intros Ha Hb. unfold slice, zlen in *.
  destruct (decide (b <= a)).
  { replace (Z.to_nat (b - a)) with 0%nat by lia; done. }
  rewrite drop_app_le by lia. rewrite take_app_le; [done | rewrite length_drop; lia].
Qed.

Lemma slice_app_r l1 l2 a b :
  zlen l1 <= a -> slice (l1 ++ l2) a b = slice l2 (a - zlen l1) (b - zlen l1).
Proof.
  intros Ha. pose proof (zlen_nonneg l1). unfold slice, zlen in *.
  rewrite drop_app_ge by lia. f_equal; [lia | f_equal; lia].
Qed.

Lemma slice_lookup l a b i :
  0 <= a -> 0 <= i < b - a -> slice l a b !! Z.to_nat i = l !! Z.to_nat (a + i).
Proof.
  intros. unfold slice. rewrite lookup_take_lt by lia.
  rewrite lookup_drop. f_equal. lia.
Qed.
End slices.

Create Rewrite HintDb zlen.
#[export] Hint Rewrite @zlen_nil @zlen_cons @zlen_app : zlen.

(** [substr] succeeds when the position lies in the string. *)
Lemma substr_ok (s : bytes) pos n :
  pos <= zlen s -> substr s pos n = Ok (slice s pos (Z.min (pos + n) (zlen s))).
Proof. intros; unfold substr; case_if; [lia | done]. Qed.

(** A property of all elements passes to a sublist. *)
Lemma Forall_sublist {A} (P : A -> Prop) (l1 l2 : list A) :
  l1 `sublist_of` l2 -> Forall P l2 -> Forall P l1.
Proof. induction 1; intros HF; inversion HF; subst; auto. Qed.

(** Padding a string that is not longer than the new size. *)
Lemma resize_pad (s : bytes) n :
  zlen s <= n ->
  resize s n = s ++ replicate (Z.to_nat n - length s) (byte.of_Z 0) /\ zlen (resize s n) = n.
Proof.
  pose proof (zlen_nonneg s). unfold resize, zlen in *. intros.
  rewrite length_app, length_take, length_replicate. split; [|lia].
  by rewrite firstn_all2 by lia.
Qed.
