(* ===== verification/Text.v ===== *)
(** Text of the C++ standard library that the code produces and reads: integers inserted in
    a stream in a base ([std::hex], [std::dec]), [std::to_string], [std::stoi],
    [std::setw] with [std::setfill], [std::boolalpha] and null-terminated strings. *)
From S2P Require Import Prelude.

(** * Definitions *)

(** The character of a digit, lower case above nine. *)
Definition digit_char (d : Z) : Init.Byte.byte := byte.of_Z (if d <? 10 then 48 + d else 87 + d).

(** The value of the character of a digit, or -1. *)
Definition digit_value (c : Init.Byte.byte) : Z :=
  let z := byte.unsigned c in
  if (48 <=? z) && (z <=? 57) then z - 48
  else if (97 <=? z) && (z <=? 102) then z - 87
  else -1.

Definition is_digit (base : Z) (c : Init.Byte.byte) : bool := (0 <=? digit_value c) && (digit_value c <? base).

(** The digits of [n], the least significant one first, in front of [acc]. *)
Fixpoint show_digits (fuel : nat) (base n : Z) (acc : bytes) : bytes :=
  match fuel with
  | O => acc
  | S fuel' =>
      if n <? base then digit_char n :: acc
      else show_digits fuel' base (n / base) (digit_char (n mod base) :: acc)
  end.

(** An unsigned integer inserted in a stream; a number has no more digits than bits. *)
Definition show_base (base n : Z) : bytes := show_digits (S (Z.to_nat (Z.log2 n))) base n [].

(** [std::to_string] of an [int]. *)
Definition to_string (n : Z) : bytes := if n <? 0 then str "-" ++ show_base 10 (- n) else show_base 10 n.

(** A [bool] inserted under [std::boolalpha]. *)
Definition show_bool (b : bool) : bytes := if b then str "true" else str "false".

(** [std::setw(width)] with the fill character [fill], right aligned. *)
Definition pad_left (width : nat) (fill : Init.Byte.byte) (s : bytes) : bytes :=
  replicate (width - length s) fill ++ s.

(** The number a sequence of digits stands for. *)
Definition digits_value (base : Z) (ds : bytes) : Z :=
  fold_left (fun v c => v * base + digit_value c) ds 0.

(** The longest prefix of characters that satisfy [p], and what follows it. *)
Fixpoint span {A} (p : A -> bool) (l : list A) : list A * list A :=
  match l with
  | x :: l' => if p x then let r := span p l' in (x :: r.1, r.2) else ([], l)
  | [] => ([], [])
  end.

(** [isspace] and [isprint] of the C locale. *)
Definition is_space (c : Init.Byte.byte) : bool :=
  let z := byte.unsigned c in (z =? 32) || ((9 <=? z) && (z <=? 13)).

Definition is_print (c : Init.Byte.byte) : bool :=
  let z := byte.unsigned c in (32 <=? z) && (z <=? 126).

(** A null-terminated string: the characters before the first null character. *)
Definition c_string (s : bytes) : bytes := (span (fun c => negb (byte.unsigned c =? 0)) s).1.

(** The sign that may come first in the text of an integer. *)
Definition split_sign (s : bytes) : bool * bytes :=
  match s with
  | c :: s' =>
      if byte.unsigned c =? 45 then (true, s')
      else if byte.unsigned c =? 43 then (false, s')
      else (false, s)
  | [] => (false, [])
  end.

(** The decimal digits at the start of [s], with the sign read before them, as an [int]. *)
Definition read_int (negative : bool) (s : bytes) : outcome Z :=
  match (span (is_digit 10) s).1 with
  | [] => Throw invalid_argument
  | ds =>
      let v := if negative then - digits_value 10 ds else digits_value 10 ds in
      if (- 2 ^ 31 <=? v) && (v <? 2 ^ 31) then Ok v else Throw out_of_range
  end.

(** [std::stoi(s)]: white space, a sign and decimal digits; what follows is ignored. *)
Definition stoi (s : bytes) : outcome Z :=
  let '(negative, s') := split_sign (span is_space s).2 in read_int negative s'.

(** * Lemmas *)

(** ** Prefixes of characters *)

Lemma span_app {A} (p : A -> bool) (l1 l2 : list A) :
  Forall (fun x => p x = true) l1 -> match l2 with x :: _ => p x = false | [] => True end ->
  span p (l1 ++ l2) = (l1, l2).
Proof.
  intros H1 H2. induction H1 as [|x l1 Hx _ IH]; simpl.
  - destruct l2 as [|y l2]; [done|]. simpl. by rewrite H2.
  - by rewrite Hx, IH.
Qed.

Lemma span_split {A} (p : A -> bool) (l : list A) : (span p l).1 ++ (span p l).2 = l.
Proof. induction l as [|x l IH]; [done|]. simpl. destruct (p x); [simpl; by rewrite IH | done]. Qed.

Lemma span_all {A} (p : A -> bool) (l : list A) : Forall (fun x => p x = true) (span p l).1.
Proof.
  induction l as [|x l IH]; simpl; [constructor|]. destruct (p x) eqn:E; simpl; [by constructor | constructor].
Qed.

(** Two texts that end a field at the same separator have the same field. *)
Lemma field_inj {A} (p : A -> bool) (l1 l1' l2 l2' : list A) (c c' : A) :
  Forall (fun x => p x = true) l1 -> Forall (fun x => p x = true) l1' -> p c = false -> p c' = false ->
  l1 ++ c :: l2 = l1' ++ c' :: l2' -> l1 = l1' /\ c :: l2 = c' :: l2'.
Proof.
  intros H1 H1' Hc Hc' E.
  pose proof (span_app p l1 (c :: l2) H1 Hc) as S1. pose proof (span_app p l1' (c' :: l2') H1' Hc') as S2.
  rewrite E, S2 in S1. by injection S1 as -> -> ->.
Qed.

Lemma c_string_app s rest :
  Forall (fun c => byte.unsigned c <> 0) s -> c_string (s ++ byte.of_Z 0 :: rest) = s.
Proof.
  intros Hs. unfold c_string. rewrite span_app; [done | | done].
  eapply Forall_impl; [exact Hs|]. simpl. intros c Hc. lia.
Qed.

Lemma c_string_no_null s : Forall (fun c => byte.unsigned c <> 0) (c_string s).
Proof. eapply Forall_impl; [apply span_all|]. simpl. intros c Hc. lia. Qed.

Lemma c_string_id s : Forall (fun c => byte.unsigned c <> 0) s -> c_string s = s.
Proof.
  intros Hs. unfold c_string. rewrite <- (app_nil_r s) at 1. rewrite span_app; [done | | done].
  eapply Forall_impl; [exact Hs|]. simpl. intros c Hc. lia.
Qed.

(** ** Digits *)

Lemma digit_value_char d : 0 <= d < 16 -> digit_value (digit_char d) = d.
Proof.
  intros Hd. unfold digit_value, digit_char.
  assert (byte.unsigned (byte.of_Z (if d <? 10 then 48 + d else 87 + d)) = if d <? 10 then 48 + d else 87 + d) as ->.
  { rewrite byte.unsigned_of_Z. unfold byte.wrap. apply Z.mod_small. case_if; lia. }
  destruct (d <? 10) eqn:E; repeat case_if; lia.
Qed.

Lemma is_digit_char base d : 0 <= d < base -> base <= 16 -> is_digit base (digit_char d) = true.
Proof. intros. unfold is_digit. rewrite digit_value_char by lia. lia. Qed.

Lemma digits_value_app base ds d :
  digits_value base (ds ++ [d]) = digits_value base ds * base + digit_value d.
Proof. unfold digits_value. by rewrite fold_left_app. Qed.

(** The digits of a number stand for it. *)
Lemma show_digits_spec base : 2 <= base <= 16 -> forall fuel n acc,
  (0 < fuel)%nat -> 0 <= n < 2 ^ Z.of_nat fuel ->
  exists ds, show_digits fuel base n acc = ds ++ acc /\ ds <> [] /\
    Forall (fun c => is_digit base c = true) ds /\ digits_value base ds = n.
Proof.
  intros Hb. induction fuel as [|fuel IH]; intros n acc Hf Hn; [lia|]. simpl.
  destruct (n <? base) eqn:E.
  - exists [digit_char n]. repeat split; [done | | ].
    + constructor; [apply is_digit_char; lia | constructor].
    + unfold digits_value. simpl. rewrite digit_value_char; lia.
  - assert (0 <= n / base < 2 ^ Z.of_nat fuel) as Hq.
    { split; [apply Z.div_pos; lia|]. apply Z.div_lt_upper_bound; [lia|].
      rewrite Nat2Z.inj_succ, Z.pow_succ_r in Hn by lia. nia. }
    assert (0 < fuel)%nat as Hf'.
    { destruct fuel; [|lia]. simpl in Hq. pose proof (Z.div_le_lower_bound n base 1). lia. }
    pose proof (Z.mod_pos_bound n base ltac:(lia)) as Hm.
    destruct (IH (n / base) (digit_char (n mod base) :: acc) Hf' Hq) as (ds & -> & _ & Hds & Hv).
    exists (ds ++ [digit_char (n mod base)]). split; [by rewrite <- app_assoc|].
    split; [by destruct ds|]. split.
    + apply Forall_app. split; [done|]. constructor; [apply is_digit_char; lia | constructor].
    + rewrite digits_value_app, Hv, digit_value_char by lia. pose proof (Z.div_mod n base). lia.
Qed.

Lemma show_base_spec base n :
  2 <= base <= 16 -> 0 <= n ->
  show_base base n <> [] /\ Forall (fun c => is_digit base c = true) (show_base base n) /\
  digits_value base (show_base base n) = n.
Proof.
  intros Hb Hn. unfold show_base.
  destruct (show_digits_spec base Hb (S (Z.to_nat (Z.log2 n))) n []) as (ds & E & Hne & Hds & Hv); [lia | |].
  - split; [lia|]. rewrite Nat2Z.inj_succ, Z2Nat.id by apply Z.log2_nonneg.
    destruct (decide (n = 0)) as [->|]; [done|]. apply Z.log2_spec. lia.
  - rewrite app_nil_r in E. rewrite E. auto.
Qed.

Lemma show_base_inj base n n' :
  2 <= base <= 16 -> 0 <= n -> 0 <= n' -> show_base base n = show_base base n' -> n = n'.
Proof.
  intros Hb Hn Hn' E. destruct (show_base_spec base n Hb Hn) as (_ & _ & <-).
  rewrite E. apply show_base_spec; done.
Qed.

(** The number of digits. *)
Lemma show_digits_length base k : 2 <= base -> forall fuel n acc,
  0 <= n < base ^ Z.of_nat (S k) -> (length (show_digits fuel base n acc) <= S k + length acc)%nat.
Proof.
  intros Hb. induction k as [|k IH]; intros fuel n acc Hn.
  - destruct fuel; simpl; [lia|]. case_if; [simpl; lia|]. simpl in Hn. lia.
  - destruct fuel as [|fuel]; simpl; [lia|]. case_if; [simpl; lia|].
    specialize (IH fuel (n / base) (digit_char (n mod base) :: acc)). simpl in IH.
    etrans; [apply IH|lia]. split; [apply Z.div_pos; lia|]. apply Z.div_lt_upper_bound; [lia|].
    rewrite Nat2Z.inj_succ, Z.pow_succ_r in Hn by lia. lia.
Qed.

Lemma show_base_length base k n :
  2 <= base -> 0 <= n < base ^ Z.of_nat (S k) -> (length (show_base base n) <= S k)%nat.
Proof. intros Hb Hn. unfold show_base. pose proof (show_digits_length base k Hb (S (Z.to_nat (Z.log2 n))) n [] Hn). simpl in *. lia. Qed.

(** The characters of a number in hexadecimal are neither separators nor null. *)
Lemma digit_range base c : is_digit base c = true -> 48 <= byte.unsigned c <= 102.
Proof. unfold is_digit, digit_value. repeat case_if; lia. Qed.

Lemma decimal_range c : is_digit 10 c = true -> 48 <= byte.unsigned c <= 57.
Proof. unfold is_digit, digit_value. repeat case_if; lia. Qed.

(** The digits of a number that is an [int] with its sign are read as it. *)
Lemma read_int_digits (negative : bool) n rest :
  0 <= n -> - 2 ^ 31 <= (if negative then - n else n) < 2 ^ 31 ->
  match rest with c :: _ => is_digit 10 c = false | [] => True end ->
  read_int negative (show_base 10 n ++ rest) = Ok (if negative then - n else n).
Proof.
  intros Hn Hr Hrest. destruct (show_base_spec 10 n ltac:(lia) Hn) as (Hne & Hds & Hv).
  unfold read_int. rewrite span_app by done. cbn [fst].
  destruct (show_base 10 n) eqn:E; [done|]. cbv zeta. rewrite Hv. case_if; [done | lia].
Qed.

(** Decimal digits start with neither white space nor a sign. *)
Lemma stoi_digits ds rest :
  ds <> [] -> Forall (fun c => is_digit 10 c = true) ds -> stoi (ds ++ rest) = read_int false (ds ++ rest).
Proof.
  intros Hne Hds. destruct ds as [|c ds]; [done|]. inversion Hds as [|? ? Hc _]; subst.
  pose proof (decimal_range c Hc). unfold stoi. simpl. unfold is_space.
  case_if; [lia|]. simpl. case_if; [lia|]. case_if; [lia | done].
Qed.

(** [std::stoi] reads back what [std::to_string] wrote, whatever follows that is not a
    digit. *)
Lemma stoi_to_string n rest :
  - 2 ^ 31 <= n < 2 ^ 31 -> match rest with c :: _ => is_digit 10 c = false | [] => True end ->
  stoi (to_string n ++ rest) = Ok n.
Proof.
  intros Hn Hrest. unfold to_string. case_if.
  - change (stoi ((str "-" ++ show_base 10 (- n)) ++ rest)) with (read_int true (show_base 10 (- n) ++ rest)).
    rewrite read_int_digits by (done || lia). f_equal. lia.
  - destruct (show_base_spec 10 n ltac:(lia) ltac:(lia)) as (Hne & Hds & _).
    rewrite stoi_digits by done. by rewrite read_int_digits by (done || lia).
Qed.

(** ** Padding *)

Lemma pad_left_length width fill s : (length s <= width)%nat -> length (pad_left width fill s) = width.
Proof. intros. unfold pad_left. rewrite length_app, length_replicate. lia. Qed.

(** Zeros in front do not change a number. *)
Lemma digits_value_pad base width s : digits_value base (pad_left width (digit_char 0) s) = digits_value base s.
Proof.
  unfold pad_left, digits_value. rewrite fold_left_app. f_equal.
  induction (width - length s)%nat as [|n IH]; [done|]. simpl. by rewrite digit_value_char, Z.add_0_r by lia.
Qed.

#[export] Hint Resolve c_string_no_null : sponge.
