(* ===== verification/StdMap.v ===== *)
(** The part of [std::map<uint64_t, V>] the program uses: an association list kept
    strictly increasing in its keys, which is the order the C++ iterators visit.
    [find], [insert] (which keeps an existing entry) and assignment through
    [operator[]] are the C++ members of these names; erasing at an iterator is
    dropping the entry the loop has reached. *)
From S2P Require Import Prelude.

Section stdmap.
Context {V : Type}.
Implicit Types m : list (Z * V).

Fixpoint map_find (k : Z) (m : list (Z * V)) : option V :=
  match m with
  | [] => None
  | (k', v) :: m' => if k =? k' then Some v else map_find k m'
  end.

(** [std::map::insert]: no effect when the key is present. *)
Fixpoint map_insert (k : Z) (v : V) (m : list (Z * V)) : list (Z * V) :=
  match m with
  | [] => [(k, v)]
  | (k', v') :: m' =>
      if k <? k' then (k, v) :: m
      else if k =? k' then m
      else (k', v') :: map_insert k v m'
  end.

(** [m[k] = v]. *)
Fixpoint map_assign (k : Z) (v : V) (m : list (Z * V)) : list (Z * V) :=
  match m with
  | [] => [(k, v)]
  | (k', v') :: m' =>
      if k <? k' then (k, v) :: m
      else if k =? k' then (k, v) :: m'
      else (k', v') :: map_assign k v m'
  end.

(** The representation invariant: keys strictly increase. *)
Fixpoint map_sorted (m : list (Z * V)) : Prop :=
  match m with
  | [] => True
  | (k, _) :: m' => Forall (fun e => k < e.1) m' /\ map_sorted m'
  end.

Lemma map_sorted_lt k v m : Forall (fun e => k < e.1) m -> map_sorted m -> map_sorted ((k, v) :: m).
Proof. done. Qed.

Lemma map_sorted_app m1 m2 : map_sorted (m1 ++ m2) -> map_sorted m1 /\ map_sorted m2.
Proof.
  induction m1 as [|[k v] m1 IH]; simpl; [done|].
  rewrite Forall_app. intros [[? ?] ?]. destruct IH; auto.
Qed.

Lemma map_sorted_snoc m k v :
  map_sorted m -> Forall (fun e => e.1 < k) m -> map_sorted (m ++ [(k, v)]).
Proof.
  induction m as [|[k' v'] m IH]; simpl; [done|].
  intros [Hlt Hs] Hk. inversion Hk; subst. split; [|auto].
  apply Forall_app; split; [done|]. by constructor.
Qed.

Lemma map_insert_Forall (P : Z * V -> Prop) k v m :
  P (k, v) -> Forall P m -> Forall P (map_insert k v m).
Proof.
  intros HP. induction m as [|[k' v'] m IH]; simpl; intros Hm; [by constructor|].
  repeat case_if; [by constructor | done |].
  inversion Hm; subst. constructor; auto.
Qed.

Lemma map_assign_Forall (P : Z * V -> Prop) k v m :
  P (k, v) -> Forall P m -> Forall P (map_assign k v m).
Proof.
  intros HP. induction m as [|[k' v'] m IH]; simpl; intros Hm; [by constructor|].
  inversion Hm; subst. repeat case_if; repeat constructor; auto.
Qed.

Lemma map_insert_sorted k v m : map_sorted m -> map_sorted (map_insert k v m).
Proof.
  induction m as [|[k' v'] m IH]; simpl; [done|].
  intros [Hlt Hs]. repeat case_if; simpl; try done.
  - split; [|done]. constructor; [simpl; lia|].
    eapply Forall_impl; [exact Hlt|]; simpl; lia.
  - split; [|auto]. apply map_insert_Forall; [simpl; lia | done].
Qed.

Lemma map_assign_sorted k v m : map_sorted m -> map_sorted (map_assign k v m).
Proof.
  induction m as [|[k' v'] m IH]; simpl; [done|].
  intros [Hlt Hs]. repeat case_if; simpl.
  - split; [|done]. constructor; [simpl; lia|].
    eapply Forall_impl; [exact Hlt|]; simpl; lia.
  - split; [|done]. eapply Forall_impl; [exact Hlt|]; simpl; lia.
  - split; [|auto]. apply map_assign_Forall; [simpl; lia | done].
Qed.

(** A key above every stored key is appended at the end. *)
Lemma map_insert_max k v m :
  Forall (fun e => e.1 < k) m -> map_insert k v m = m ++ [(k, v)].
Proof.
  induction m as [|[k' v'] m IH]; intros Hm; simpl; [done|].
  inversion Hm; subst; simpl in *. repeat case_if; [lia | lia |].
  f_equal; auto.
Qed.

Lemma map_find_None k m : map_find k m = None -> forall v, ~ (k, v) ∈ m.
Proof.
  induction m as [|[k' v'] m IH]; simpl; intros H v Hin.
  - by apply not_elem_of_nil in Hin.
  - case_if_in H; [done|]. apply elem_of_cons in Hin as [Heq | Hin].
    + injection Heq; lia.
    + by eapply IH.
Qed.

Lemma map_find_Some k v m : map_find k m = Some v -> (k, v) ∈ m.
Proof.
  induction m as [|[k' v'] m IH]; simpl; [done|].
  intros H. case_if_in H.
  - replace k' with k by lia. simplify_eq. left.
  - right; auto.
Qed.

Lemma map_find_elem k v m : map_sorted m -> (k, v) ∈ m -> map_find k m = Some v.
Proof.
  induction m as [|[k' v'] m IH]; simpl; intros Hs Hin.
  - by apply not_elem_of_nil in Hin.
  - destruct Hs as [Hlt Hs]. apply elem_of_cons in Hin as [Heq | Hin].
    + injection Heq as -> ->. by rewrite Z.eqb_refl.
    + rewrite Forall_forall in Hlt. specialize (Hlt _ Hin). simpl in Hlt.
      case_if; [lia | auto].
Qed.

(** Membership after an [insert] of an absent key. *)
Lemma elem_of_map_insert k v m e :
  map_find k m = None -> e ∈ map_insert k v m <-> e = (k, v) \/ e ∈ m.
Proof.
  induction m as [|[k' v'] m IH]; simpl; intros Hf.
  - rewrite list_elem_of_singleton, elem_of_nil. naive_solver.
  - case_if_in Hf; [done|]. case_if; rewrite !elem_of_cons; [naive_solver|].
    rewrite IH by done. naive_solver.
Qed.

(** Membership after assigning to a present key: the old value is gone. *)
Lemma elem_of_map_assign k v v0 m e :
  map_sorted m -> map_find k m = Some v0 ->
  e ∈ map_assign k v m <-> e = (k, v) \/ (e ∈ m /\ e.1 <> k).
Proof.
  induction m as [|[k' v'] m IH]; simpl; [done|].
  intros [Hlt Hs] Hf. rewrite Forall_forall in Hlt. case_if_in Hf.
  - assert (k = k') as <- by lia. rewrite Z.ltb_irrefl, elem_of_cons.
    rewrite elem_of_cons. split; [|naive_solver].
    intros [-> | Hin]; [by left | right; split; [by right|]].
    specialize (Hlt _ Hin). simpl in *; lia.
  - case_if.
    { apply map_find_Some in Hf. specialize (Hlt _ Hf). simpl in *; lia. }
    rewrite !elem_of_cons, IH by done. naive_solver lia.
Qed.
End stdmap.

#[export] Hint Resolve map_insert_sorted map_assign_sorted map_insert_Forall map_assign_Forall : sponge.
