(* ===== verification/WrappingIntegers.v ===== *)
(** 32-bit wrapping sequence numbers: wrapping_integers.hh and wrapping_integers.cc.
    A [WrappingInt32] is its raw value; [wrap] and [unwrap] convert between 64-bit
    absolute sequence numbers and sequence numbers relative to an initial sequence
    number. The theorems give [unwrap] its documented meaning (the absolute number
    that wraps to [n] and is closest to the checkpoint) for every checkpoint below
    [2 ^ 64 - 2 ^ 31], the round trip, and the meaning of the signed difference. *)
From S2P Require Import Prelude.

Record WrappingInt32 := { raw_value : Z }.

#[global] Instance WrappingInt32_eq_dec : EqDecision WrappingInt32.
Proof. solve_decision. Defined.

(** The type invariant of a [uint32_t] member. *)
Definition wi_wf (a : WrappingInt32) : Prop := 0 <= raw_value a < 2 ^ 32.

Definition wrap (n : Z) (isn : WrappingInt32) : WrappingInt32 :=
  let i := to_u32 (Z.land n 0xFFFFFFFF) in
  let r := to_u32 (i + raw_value isn) in
  {| raw_value := r |}.

Definition unwrap (n isn : WrappingInt32) (checkpoint : Z) : Z :=
  let m := wrap checkpoint isn in
  let mm := raw_value m in
  let nn := raw_value n in
  let offset := to_u32 (nn - mm) in
  if (offset <? Z.shiftl 1 31) || (checkpoint <? Z.shiftl 1 32 - offset)
  then to_u64 (checkpoint + offset)
  else to_u64 (to_u64 (checkpoint - Z.shiftl 1 32) + offset).

(** [operator-(WrappingInt32, WrappingInt32)]: the offset, as an [int32_t]. *)
Definition wi_diff (a b : WrappingInt32) : Z := to_i32 (raw_value a - raw_value b).

(** [operator==] and [operator!=]. *)
Definition wi_eqb (a b : WrappingInt32) : bool := raw_value a =? raw_value b.
Definition wi_neqb (a b : WrappingInt32) : bool := negb (wi_eqb a b).

(** [operator+(WrappingInt32, uint32_t)]. *)
Definition wi_add (a : WrappingInt32) (b : Z) : WrappingInt32 :=
  {| raw_value := to_u32 (raw_value a + b) |}.

(** [operator-(WrappingInt32, uint32_t)]: adds the 32-bit negation. *)
Definition wi_sub (a : WrappingInt32) (b : Z) : WrappingInt32 := wi_add a (to_u32 (- b)).

(** * Lemmas *)

Lemma wrap_raw n isn : raw_value (wrap n isn) = (n + raw_value isn) mod 2 ^ 32.
Proof.
  unfold wrap, to_u32; simpl raw_value.
  change 0xFFFFFFFF with (Z.ones 32). rewrite Z.land_ones by lia.
  rewrite Z.mod_mod by lia. apply Z.add_mod_idemp_l. lia.
Qed.

Lemma wrap_wf n isn : wi_wf (wrap n isn).
Proof. unfold wi_wf. rewrite wrap_raw. apply Z.mod_pos_bound. lia. Qed.

#[export] Hint Resolve wrap_wf : sponge.

Lemma wi_ext a b : raw_value a = raw_value b -> a = b.
Proof. destruct a, b; simpl; congruence. Qed.

(** Two absolute numbers wrap to the same sequence number iff they are congruent. *)
Lemma wrap_eq_iff x y isn : wrap x isn = wrap y isn <-> x mod 2 ^ 32 = y mod 2 ^ 32.
Proof.
  split.
  - intros H. apply (f_equal raw_value) in H. rewrite !wrap_raw in H. word_lia.
  - intros H. apply wi_ext. rewrite !wrap_raw. word_lia.
Qed.

(** The offset [unwrap] computes is the distance forward from the checkpoint. *)
Lemma unwrap_offset n isn checkpoint :
  wi_wf n ->
  exists q, raw_value n = raw_value (wrap checkpoint isn)
            + to_u32 (raw_value n - raw_value (wrap checkpoint isn)) + q * 2 ^ 32.
Proof.
  intros. unfold to_u32.
  exists ((raw_value n - raw_value (wrap checkpoint isn)) / 2 ^ 32).
  pose proof (Z.div_mod (raw_value n - raw_value (wrap checkpoint isn)) (2 ^ 32)). lia.
Qed.

(** The candidates for [unwrap]: the numbers congruent to [checkpoint + offset]. *)
Lemma wrap_offset_class x isn checkpoint n :
  wi_wf n -> wrap x isn = n ->
  exists q, x = checkpoint + to_u32 (raw_value n - raw_value (wrap checkpoint isn)) + q * 2 ^ 32.
Proof.
  intros Hwf <-. rewrite !wrap_raw. unfold to_u32.
  exists ((x - checkpoint) / 2 ^ 32).
  rewrite <- Zminus_mod.
  replace (x + raw_value isn - (checkpoint + raw_value isn)) with (x - checkpoint) by lia.
  pose proof (Z.div_mod (x - checkpoint) (2 ^ 32)). lia.
Qed.

(** The value of [unwrap], with the 64-bit wrap-arounds discharged. *)
Lemma unwrap_value n isn checkpoint :
  0 <= checkpoint <= 2 ^ 64 - 2 ^ 31 ->
  let offset := to_u32 (raw_value n - raw_value (wrap checkpoint isn)) in
  unwrap n isn checkpoint
  = if (offset <? 2 ^ 31) || (checkpoint <? 2 ^ 32 - offset)
    then checkpoint + offset else checkpoint - 2 ^ 32 + offset.
Proof.
  intros Hc offset. unfold unwrap. fold offset.
  change (Z.shiftl 1 31) with (2 ^ 31). change (Z.shiftl 1 32) with (2 ^ 32).
  pose proof (to_u32_range (raw_value n - raw_value (wrap checkpoint isn))) as Ho.
  fold offset in Ho. clearbody offset. case_if; word_lia.
Qed.

Lemma unwrap_in_class n isn checkpoint :
  wi_wf n -> 0 <= checkpoint <= 2 ^ 64 - 2 ^ 31 -> wrap (unwrap n isn checkpoint) isn = n.
Proof.
  intros Hwf Hc. rewrite unwrap_value by done.
  apply wi_ext. rewrite wrap_raw. unfold wi_wf in Hwf. rewrite wrap_raw.
  case_if; word_lia.
Qed.

Lemma unwrap_range n isn checkpoint :
  0 <= checkpoint <= 2 ^ 64 - 2 ^ 31 -> 0 <= unwrap n isn checkpoint < 2 ^ 64.
Proof.
  intros Hc. rewrite unwrap_value by done.
  pose proof (to_u32_range (raw_value n - raw_value (wrap checkpoint isn))).
  case_if; lia.
Qed.

Lemma unwrap_closest n isn checkpoint x :
  wi_wf n -> 0 <= checkpoint <= 2 ^ 64 - 2 ^ 31 -> 0 <= x -> wrap x isn = n ->
  Z.abs (unwrap n isn checkpoint - checkpoint) <= Z.abs (x - checkpoint).
Proof.
  intros Hwf Hc Hx Hw. rewrite unwrap_value by done.
  destruct (wrap_offset_class x isn checkpoint n Hwf Hw) as [q ->].
  pose proof (to_u32_range (raw_value n - raw_value (wrap checkpoint isn))).
  set (o := to_u32 _) in *. clearbody o. case_if; nia.
Qed.

(** A number less than [2 ^ 31] away from the checkpoint is recovered exactly. *)
Lemma unwrap_wrap x isn checkpoint :
  0 <= checkpoint <= 2 ^ 64 - 2 ^ 31 -> 0 <= x -> Z.abs (x - checkpoint) < 2 ^ 31 ->
  unwrap (wrap x isn) isn checkpoint = x.
Proof.
  intros Hc Hx Hd. rewrite unwrap_value by done.
  destruct (wrap_offset_class x isn checkpoint _ (wrap_wf x isn) eq_refl) as [q Hq].
  pose proof (to_u32_range (raw_value (wrap x isn) - raw_value (wrap checkpoint isn))).
  set (o := to_u32 _) in *. clearbody o. case_if; nia.
Qed.

#[export] Hint Resolve unwrap_range : sponge.

(** * Properties *)

(** C15: for every valid sequence number and every checkpoint up to [2 ^ 64 - 2 ^ 31],
    [unwrap] returns a 64-bit absolute sequence number that wraps to [n], and no
    absolute sequence number that wraps to [n] is closer to the checkpoint. *)
Theorem unwrap_correct n isn checkpoint :
  wi_wf n -> 0 <= checkpoint <= 2 ^ 64 - 2 ^ 31 ->
  0 <= unwrap n isn checkpoint < 2 ^ 64 /\
  wrap (unwrap n isn checkpoint) isn = n /\
  (forall x, 0 <= x -> wrap x isn = n ->
     Z.abs (unwrap n isn checkpoint - checkpoint) <= Z.abs (x - checkpoint)).
Proof. auto using unwrap_range, unwrap_in_class, unwrap_closest. Qed.

Lemma unwrap_correct_witness :
  unwrap {| raw_value := 5 |} {| raw_value := 2 ^ 32 - 3 |} (2 ^ 32 + 7) = 2 ^ 32 + 8 /\
  wrap (unwrap {| raw_value := 5 |} {| raw_value := 2 ^ 32 - 3 |} (2 ^ 32 + 7))
    {| raw_value := 2 ^ 32 - 3 |} = {| raw_value := 5 |}.
Proof.
  split; [vm_compute; reflexivity|].
  apply (unwrap_correct {| raw_value := 5 |} {| raw_value := 2 ^ 32 - 3 |} (2 ^ 32 + 7));
    unfold wi_wf; simpl; lia.
Defined.

(** [unwrap] inverts [wrap] for every absolute sequence number less than [2 ^ 31]
    away from the checkpoint, whatever the initial sequence number. *)
Lemma wrap_unwrap_roundtrip x isn checkpoint :
  0 <= checkpoint <= 2 ^ 64 - 2 ^ 31 -> 0 <= x -> Z.abs (x - checkpoint) < 2 ^ 31 ->
  unwrap (wrap x isn) isn checkpoint = x.
Proof. apply unwrap_wrap. Qed.

Lemma wrap_unwrap_roundtrip_witness :
  unwrap (wrap (2 ^ 40 + 1) {| raw_value := 77 |}) {| raw_value := 77 |} (2 ^ 40 - 2 ^ 30)
  = 2 ^ 40 + 1.
Proof. apply (wrap_unwrap_roundtrip (2 ^ 40 + 1) {| raw_value := 77 |} (2 ^ 40 - 2 ^ 30)); lia. Defined.

(** The signed difference [a - b] is the least-magnitude number of steps from [b]
    to [a]: it lies in [-2 ^ 31, 2 ^ 31), [b] plus it is [a] by [operator+], and [a]
    minus it is [b] by [operator-]. *)
Lemma wi_diff_correct a b :
  wi_wf a -> wi_wf b ->
  - 2 ^ 31 <= wi_diff a b < 2 ^ 31 /\
  wi_add b (to_u32 (wi_diff a b)) = a /\
  wi_sub a (to_u32 (wi_diff a b)) = b.
Proof.
  unfold wi_wf, wi_sub, wi_add, wi_diff, to_i32. intros Ha Hb.
  split; [case_if; word_lia|].
  split; apply wi_ext; simpl raw_value; case_if; word_lia.
Qed.
