(* ===== verification/ByteStream.v ===== *)
(** The flow-controlled in-memory byte stream: byte_stream.hh and byte_stream.cc.
    The state is the C++ object's; the loops of [write] and [pop_output] are the
    recursive functions [write_loop] and [pop_loop], one unfolding per iteration.
    Reading past the buffer ([peek_output] or [pop_output] beyond [bts.size()]) is
    undefined behaviour in C++ and [Undefined] here. The abstract specification is a
    bounded FIFO of bytes ([fifo]), and the refinement theorem relates every
    sequence of calls to it. *)
From S2P Require Import Prelude.

Record ByteStream := {
  bts : bytes;
  b_size : Z;
  read_count : Z;
  write_count : Z;
  end_flag : bool;
  _error : bool
}.

(** The constructor. *)
Definition byte_stream (capacity : Z) : ByteStream :=
  {| bts := []; b_size := capacity; read_count := 0; write_count := 0;
     end_flag := false; _error := false |}.

Definition buffer_size (s : ByteStream) : Z := zlen (bts s).
Definition buffer_empty (s : ByteStream) : bool := match bts s with [] => true | _ => false end.
Definition input_ended (s : ByteStream) : bool := end_flag s.
Definition eof (s : ByteStream) : bool := end_flag s && buffer_empty s.
Definition error (s : ByteStream) : bool := _error s.
Definition bytes_written (s : ByteStream) : Z := write_count s.
Definition bytes_read (s : ByteStream) : Z := read_count s.
Definition remaining_capacity (s : ByteStream) : Z := to_u64 (b_size s - zlen (bts s)).

Definition end_input (s : ByteStream) : ByteStream :=
  {| bts := bts s; b_size := b_size s; read_count := read_count s;
     write_count := write_count s; end_flag := true; _error := _error s |}.

Definition set_error (s : ByteStream) : ByteStream :=
  {| bts := bts s; b_size := b_size s; read_count := read_count s;
     write_count := write_count s; end_flag := end_flag s; _error := true |}.

(** One iteration of the loop of [write]: [push_back(data[i])] and [write_count++]. *)
Definition push_back (s : ByteStream) (c : Init.Byte.byte) : ByteStream :=
  {| bts := bts s ++ [c]; b_size := b_size s; read_count := read_count s;
     write_count := to_u64 (write_count s + 1); end_flag := end_flag s; _error := _error s |}.

(** [while (i < len)] over the characters of [data] still to be visited. *)
Fixpoint write_loop (n : nat) (data : bytes) (s : ByteStream) : ByteStream :=
  match n, data with
  | S n', c :: data' => write_loop n' data' (push_back s c)
  | _, _ => s
  end.

Definition write (s : ByteStream) (data : bytes) : Z * ByteStream :=
  let rem := remaining_capacity s in
  let len := zlen data in
  let len := if rem <? len then rem else len in
  (len, write_loop (Z.to_nat len) data s).

Definition peek_output (s : ByteStream) (len : Z) : outcome bytes :=
  if len <=? zlen (bts s) then Ok (take (Z.to_nat len) (bts s)) else Undefined.

(** One iteration of the loop of [pop_output]: [pop_front()] and [read_count++]. *)
Definition pop_front (s : ByteStream) : outcome ByteStream :=
  match bts s with
  | [] => Undefined
  | _ :: rest =>
      Ok {| bts := rest; b_size := b_size s; read_count := to_u64 (read_count s + 1);
            write_count := write_count s; end_flag := end_flag s; _error := _error s |}
  end.

Fixpoint pop_loop (n : nat) (s : ByteStream) : outcome ByteStream :=
  match n with
  | O => Ok s
  | S n' => s' ← pop_front s; pop_loop n' s'
  end.

Definition pop_output (s : ByteStream) (len : Z) : outcome ByteStream :=
  pop_loop (Z.to_nat len) s.

Definition read (s : ByteStream) (len : Z) : outcome (bytes * ByteStream) :=
  let length := if buffer_size s <? len then buffer_size s else len in
  str ← peek_output s length;
  s' ← pop_output s length;
  Ok (str, s').

(** * The abstract specification: a bounded FIFO with its history *)

(** The calls a client can make. *)
Inductive call :=
| Write (data : bytes)
| Read (len : Z)
| Pop (len : Z)
| EndInput
| SetError.

(** One call on the object: the bytes it accepted, the bytes it removed, and the new
    state. *)
Definition step (s : ByteStream) (c : call) : outcome (bytes * bytes * ByteStream) :=
  match c with
  | Write data => let '(n, s') := write s data in Ok (take (Z.to_nat n) data, [], s')
  | Read len => '(str, s') ← read s len; Ok ([], str, s')
  | Pop len => str ← peek_output s len; s' ← pop_output s len; Ok ([], str, s')
  | EndInput => Ok ([], [], end_input s)
  | SetError => Ok ([], [], set_error s)
  end.

(** A sequence of calls: all the bytes accepted and all the bytes removed. *)
Fixpoint run (s : ByteStream) (cs : list call) : outcome (bytes * bytes * ByteStream) :=
  match cs with
  | [] => Ok ([], [], s)
  | c :: cs' =>
      '(w, r, s') ← step s c;
      '(ws, rs, s'') ← run s' cs';
      Ok (w ++ ws, r ++ rs, s'')
  end.

(** The concrete state [s] stands for the FIFO that accepted [ins] and delivered [outs]. *)
Record fifo (cap : Z) (ins outs : bytes) (s : ByteStream) : Prop := {
  fifo_bytes : ins = outs ++ bts s;
  fifo_capacity : b_size s = cap;
  fifo_bound : zlen (bts s) <= cap;
  fifo_written : write_count s = to_u64 (zlen ins);
  fifo_read : read_count s = to_u64 (zlen outs)
}.

(** The object invariant: the buffer fits the capacity, which is a [size_t]. *)
Definition bs_wf (s : ByteStream) : Prop :=
  0 <= b_size s < 2 ^ 64 /\ zlen (bts s) <= b_size s.

(** * Lemmas *)

Lemma remaining_capacity_eq s : bs_wf s -> remaining_capacity s = b_size s - zlen (bts s).
Proof.
  intros [? ?]. pose proof (zlen_nonneg (bts s)).
  unfold remaining_capacity. apply to_u64_small. lia.
Qed.

Lemma write_loop_eq n data s :
  (n <= length data)%nat ->
  write_loop n data s =
  {| bts := bts s ++ take n data; b_size := b_size s; read_count := read_count s;
     write_count := if (n =? 0)%nat then write_count s else to_u64 (write_count s + Z.of_nat n);
     end_flag := end_flag s; _error := _error s |}.
Proof.
  revert data s; induction n as [|n IH]; intros data s Hn.
  - simpl. rewrite app_nil_r. by destruct s.
  - destruct data as [|c data]; simpl in Hn; [lia|]. simpl write_loop.
    rewrite IH by lia. simpl. rewrite <- app_assoc. simpl. f_equal.
    destruct (n =? 0)%nat eqn:E; [f_equal; lia|]. word_lia.
Qed.

(** [write] accepts as many bytes as fit. *)
Lemma write_eq s data :
  bs_wf s -> 0 <= write_count s < 2 ^ 64 ->
  write s data =
  let n := Z.min (zlen data) (b_size s - zlen (bts s)) in
  (n, {| bts := bts s ++ take (Z.to_nat n) data; b_size := b_size s;
         read_count := read_count s; write_count := to_u64 (write_count s + n);
         end_flag := end_flag s; _error := _error s |}).
Proof.
  intros Hwf Hwc. unfold write. rewrite remaining_capacity_eq by done.
  replace (if b_size s - zlen (bts s) <? zlen data then b_size s - zlen (bts s) else zlen data)
    with (Z.min (zlen data) (b_size s - zlen (bts s))) by (case_if; lia).
  destruct Hwf. pose proof (zlen_nonneg data).
  set (n := Z.min _ _). rewrite write_loop_eq by (unfold n, zlen; lia).
  cbn zeta. do 2 f_equal. destruct (Z.to_nat n =? 0)%nat eqn:E.
  - rewrite to_u64_small; lia.
  - f_equal; lia.
Qed.

Lemma pop_loop_eq n s :
  (n <= length (bts s))%nat ->
  pop_loop n s =
  Ok {| bts := drop n (bts s); b_size := b_size s;
        read_count := if (n =? 0)%nat then read_count s else to_u64 (read_count s + Z.of_nat n);
        write_count := write_count s; end_flag := end_flag s; _error := _error s |}.
Proof.
  revert s; induction n as [|n IH]; intros s Hn.
  - simpl. rewrite drop_0. by destruct s.
  - simpl. unfold pop_front. destruct (bts s) as [|c rest] eqn:E; simpl in Hn; [lia|].
    simpl. rewrite IH by (simpl; lia). simpl. do 2 f_equal.
    destruct (n =? 0)%nat eqn:E'; [f_equal; lia|]. word_lia.
Qed.

Lemma pop_loop_undefined n s :
  (length (bts s) < n)%nat -> pop_loop n s = Undefined.
Proof.
  revert s; induction n as [|n IH]; intros s Hn; [lia|].
  simpl. unfold pop_front. destruct (bts s) as [|c rest] eqn:E; [done|].
  simpl in *. apply IH. simpl. lia.
Qed.

(** What [pop_output] leaves when at least [len] bytes are buffered. *)
Lemma pop_output_eq s len :
  0 <= len <= zlen (bts s) -> 0 <= read_count s < 2 ^ 64 ->
  pop_output s len =
  Ok {| bts := drop (Z.to_nat len) (bts s); b_size := b_size s;
        read_count := to_u64 (read_count s + len); write_count := write_count s;
        end_flag := end_flag s; _error := _error s |}.
Proof.
  intros Hlen Hrc. unfold pop_output, zlen in *. rewrite pop_loop_eq by lia.
  do 2 f_equal. destruct (Z.to_nat len =? 0)%nat eqn:E.
  - rewrite to_u64_small; lia.
  - f_equal; lia.
Qed.

(** [read] delivers the first bytes and removes them; it never has undefined behaviour. *)
Lemma read_eq s len :
  0 <= len -> 0 <= read_count s < 2 ^ 64 ->
  let n := Z.min len (zlen (bts s)) in
  read s len =
  Ok (take (Z.to_nat n) (bts s),
      {| bts := drop (Z.to_nat n) (bts s); b_size := b_size s;
         read_count := to_u64 (read_count s + n); write_count := write_count s;
         end_flag := end_flag s; _error := _error s |}).
Proof.
  intros Hlen Hrc n. unfold read, buffer_size.
  replace (if zlen (bts s) <? len then zlen (bts s) else len) with n by (unfold n; case_if; lia).
  pose proof (zlen_nonneg (bts s)).
  unfold peek_output. case_if; [|unfold n in *; lia].
  simpl. rewrite pop_output_eq by (unfold n; lia). done.
Qed.

Lemma fifo_wf cap ins outs s : 0 <= cap < 2 ^ 64 -> fifo cap ins outs s -> bs_wf s.
Proof. intros ? []. unfold bs_wf. lia. Qed.

Lemma fifo_init cap : 0 <= cap -> fifo cap [] [] (byte_stream cap).
Proof. constructor; simpl; rewrite ?zlen_nil; done. Qed.

(** Buffered bytes can be removed from the front. *)
Lemma fifo_drop cap ins outs s n e er :
  0 <= cap < 2 ^ 64 -> fifo cap ins outs s -> 0 <= n <= zlen (bts s) ->
  fifo cap ins (outs ++ take (Z.to_nat n) (bts s))
    {| bts := drop (Z.to_nat n) (bts s); b_size := b_size s;
       read_count := to_u64 (read_count s + n); write_count := write_count s;
       end_flag := e; _error := er |}.
Proof.
  intros Hcap [Hb Hc Hle Hw Hr] Hn. constructor; simpl; auto.
  - rewrite <- app_assoc, take_drop. done.
  - unfold zlen in *. rewrite length_drop. lia.
  - rewrite Hr, zlen_app. unfold zlen in *. rewrite length_take. word_lia.
Qed.

Lemma step_fifo cap ins outs s c w r s' :
  0 <= cap < 2 ^ 64 -> fifo cap ins outs s ->
  match c with Read len | Pop len => 0 <= len | _ => True end ->
  step s c = Ok (w, r, s') -> fifo cap (ins ++ w) (outs ++ r) s'.
Proof.
  intros Hcap Hf Hlen Hstep. pose proof (fifo_wf _ _ _ _ Hcap Hf) as Hwf.
  assert (0 <= write_count s < 2 ^ 64) by (rewrite (fifo_written _ _ _ _ Hf); auto with sponge).
  assert (0 <= read_count s < 2 ^ 64) by (rewrite (fifo_read _ _ _ _ Hf); auto with sponge).
  pose proof (zlen_nonneg (bts s)). destruct c as [data|len|len| |]; unfold step in Hstep.
  - rewrite write_eq in Hstep by done. cbv beta iota zeta in Hstep. inv_outcome. rewrite app_nil_r.
    destruct Hf as [Hb Hc Hle Hw Hr], Hwf. pose proof (zlen_nonneg data).
    constructor; simpl; auto.
    + by rewrite Hb, <- app_assoc.
    + rewrite zlen_app. unfold zlen in *. rewrite length_take. lia.
    + rewrite Hw, zlen_app. unfold zlen in *. rewrite length_take. word_lia.
  - rewrite read_eq in Hstep by done. simpl in Hstep. inv_outcome.
    rewrite app_nil_r. apply fifo_drop; [done | done | lia].
  - unfold peek_output in Hstep. case_if_in Hstep; [|done]. simpl in Hstep.
    rewrite pop_output_eq in Hstep by lia. simpl in Hstep. inv_outcome.
    rewrite app_nil_r. apply fifo_drop; [done | done | lia].
  - inv_outcome. rewrite !app_nil_r. by destruct Hf; constructor.
  - inv_outcome. rewrite !app_nil_r. by destruct Hf; constructor.
Qed.

Definition call_wf (c : call) : Prop :=
  match c with Read len | Pop len => 0 <= len | _ => True end.

Lemma run_fifo cap cs ins outs s w r s' :
  0 <= cap < 2 ^ 64 -> fifo cap ins outs s -> Forall call_wf cs ->
  run s cs = Ok (w, r, s') -> fifo cap (ins ++ w) (outs ++ r) s'.
Proof.
  intros Hcap. revert ins outs s w r.
  induction cs as [|c cs IH]; intros ins outs s w r Hf Hwf Hrun; simpl in Hrun.
  - inv_outcome. by rewrite !app_nil_r.
  - inversion Hwf; subst.
    apply bind_ok_inv in Hrun as [[[w1 r1] s1] [Hs Hrun]].
    apply bind_ok_inv in Hrun as [[[w2 r2] s2] [Hr Hrun]]. inv_outcome.
    rewrite !app_assoc. eapply IH; [|done|done]. by eapply step_fifo.
Qed.

Definition is_pop (c : call) : bool := match c with Pop _ => true | _ => false end.

Lemma run_total cs s :
  Forall call_wf cs -> Forall (fun c => is_pop c = false) cs -> exists w r s', run s cs = Ok (w, r, s').
Proof.
  revert s. induction cs as [|c cs IH]; intros s Hwf Hp; [by eexists _, _, _|].
  inversion Hwf; inversion Hp; subst. simpl.
  assert (exists w r s1, step s c = Ok (w, r, s1)) as (w & r & s1 & E).
  { destruct c as [data|len|len| |]; simpl in *; try done; try (by eexists _, _, _).
    unfold read. set (n := if buffer_size s <? len then buffer_size s else len).
    assert (0 <= n <= zlen (bts s)) by (unfold n, buffer_size; pose proof (zlen_nonneg (bts s)); case_if; lia).
    unfold peek_output. replace (n <=? zlen (bts s)) with true by lia. cbn [mbind outcome_bind].
    unfold pop_output. rewrite pop_loop_eq by (unfold zlen in *; lia). cbn [mbind outcome_bind]. by eexists _, _, _. }
  rewrite E. cbn [mbind outcome_bind]. destruct (IH s1) as (w' & r' & s' & ->); [done | done|].
  cbn [mbind outcome_bind]. by eexists _, _, _.
Qed.

(** * Properties *)

(** C17: the stream refines a bounded FIFO. A sequence of calls without a raw [pop_output]
    always runs to its end; and in every run, raw pops within the buffer included, the
    bytes delivered so far followed by the bytes still buffered are exactly the bytes
    accepted, in order, the buffer never exceeds the capacity, and the two counters are
    the numbers of bytes accepted and delivered (modulo [2 ^ 64]). *)
Theorem run_refines_fifo cap cs :
  0 <= cap < 2 ^ 64 -> Forall call_wf cs ->
  (Forall (fun c => is_pop c = false) cs -> exists w r s, run (byte_stream cap) cs = Ok (w, r, s)) /\
  (forall w r s, run (byte_stream cap) cs = Ok (w, r, s) -> fifo cap w r s).
Proof.
  intros Hcap Hcs. split; [by apply run_total|]. intros w r s Hrun.
  apply (run_fifo cap cs [] [] (byte_stream cap) w r s Hcap); auto.
  apply fifo_init; lia.
Qed.

Lemma run_refines_fifo_witness :
  exists w r s, run (byte_stream 2) [Write (str "abc"); Read 1; Write (str "d"); Read 5] = Ok (w, r, s)
    /\ fifo 2 w r s.
Proof.
  destruct (run_refines_fifo 2 [Write (str "abc"); Read 1; Write (str "d"); Read 5]) as [Hrun Hfifo];
    [lia | repeat constructor; simpl; lia |].
  destruct Hrun as (w & r & s & Hrun); [repeat constructor|].
  exists w, r, s. split; [exact Hrun | apply Hfifo; exact Hrun].
Defined.

(** [write] accepts exactly the longest prefix of the data that fits, reports its
    length, and leaves the buffer extended by it and everything but the write counter
    unchanged. *)
Lemma write_functional s data :
  bs_wf s -> 0 <= write_count s < 2 ^ 64 ->
  let n := Z.min (zlen data) (b_size s - zlen (bts s)) in
  write s data =
  (n, {| bts := bts s ++ slice data 0 n; b_size := b_size s;
         read_count := read_count s; write_count := to_u64 (write_count s + n);
         end_flag := end_flag s; _error := _error s |}).
Proof. intros. rewrite write_eq by done. by rewrite slice_take. Qed.

(** Removing bytes is undefined behaviour exactly when more bytes are requested
    than are buffered, for [peek_output] and [pop_output] alike, while [read], which
    clamps the request, always returns. *)
Lemma pop_undefined_iff s len :
  0 <= len -> 0 <= read_count s < 2 ^ 64 ->
  (pop_output s len = Undefined <-> buffer_size s < len) /\
  (peek_output s len = Undefined <-> buffer_size s < len) /\
  is_ok (read s len) = true.
Proof.
  intros Hlen Hrc. split; [|split].
  - split; intros H.
    + destruct (Z_lt_le_dec (buffer_size s) len) as [|Hle]; [done|].
      rewrite pop_output_eq in H; [done | unfold buffer_size in *; lia | done].
    + apply pop_loop_undefined. unfold buffer_size, zlen in *. lia.
  - unfold peek_output, buffer_size. case_if; split; intros; try done; lia.
  - by rewrite read_eq.
Qed.

(** Ending the input does not stop later writes: [write] on an ended stream accepts
    and buffers the same bytes as on an open one, so a stream that reached [eof] can
    leave it again. *)
Lemma write_ignores_end_input s data :
  write (end_input s) data = (fst (write s data), end_input (snd (write s data))).
Proof.
  unfold write. cbn [fst snd]. change (remaining_capacity (end_input s)) with (remaining_capacity s).
  f_equal. set (n := Z.to_nat _). generalize n. clear n. intros n.
  revert data s. induction n as [|n IH]; intros [|c data] s; try done.
  simpl. rewrite <- IH. done.
Qed.
