(* ===== verification/StreamReassembler.v ===== *)
(** The stream reassembler: stream_reassembler.hh and stream_reassembler.cc.
    [push_substring] stores an excerpt of a byte stream under its index, writes every
    newly contiguous byte to the output [ByteStream] ([assemble_loop], the first loop)
    and merges overlapping stored excerpts ([merge_loop], the second loop). The
    theorems are relative to the byte stream [S] the excerpts come from: the state
    invariant [r_inv], the contract [push_spec] of one push that clients use, the
    in-order delivery of every run of pushes and reads, and the counting of
    [unassembled_bytes]. *)
From S2P Require Import Prelude StdMap ByteStream.

Record StreamReassembler := {
  _output : ByteStream;
  _capacity : Z;
  read_ptr : Z;
  write_ptr : Z;
  eof_index : Z;
  eof_f : bool;
  stream : list (Z * bytes)
}.

(** The constructor. *)
Definition stream_reassembler (capacity : Z) : StreamReassembler :=
  {| _output := byte_stream capacity; _capacity := capacity; read_ptr := 0; write_ptr := 0;
     eof_index := capacity; eof_f := false; stream := [] |}.

(** [stream_out()] used by a reader: the reassembler with its output stream replaced. *)
Definition set_stream_out (r : StreamReassembler) (out : ByteStream) : StreamReassembler :=
  {| _output := out; _capacity := _capacity r; read_ptr := read_ptr r; write_ptr := write_ptr r;
     eof_index := eof_index r; eof_f := eof_f r; stream := stream r |}.

(** The first loop of [push_substring], over the entries from the current iterator on:
    an entry that extends the assembled prefix is written and erased, one that lies
    within it is skipped, and the first entry beyond it ends the loop. *)
Fixpoint assemble_loop (m : list (Z * bytes)) (out : ByteStream) (wp : Z)
  : outcome (list (Z * bytes) * ByteStream * Z) :=
  match m with
  | [] => Ok ([], out, wp)
  | (k, s) :: m' =>
      if k <=? wp then
        if wp <? to_u64 (k + zlen s) then
          write_data ← substr s (to_u64 (wp - k)) npos;
          assemble_loop m' (snd (ByteStream.write out write_data)) (to_u64 (k + zlen s))
        else
          '(m'', out', wp') ← assemble_loop m' out wp;
          Ok ((k, s) :: m'', out', wp')
      else Ok (m, out, wp)
  end.

(** The second loop of [push_substring] with [old_it] at [old] and [iter] at the head
    of [m]: an entry inside [old] is erased, one that overlaps its end is appended to
    it and erased, and any other becomes the new [old_it]. *)
Fixpoint merge_into (old : Z * bytes) (m : list (Z * bytes)) : outcome (list (Z * bytes)) :=
  match m with
  | [] => Ok [old]
  | (k, s) :: m' =>
      let old_end := to_u64 (old.1 + zlen old.2) in
      if k <? old_end then
        if to_u64 (k + zlen s) <=? old_end then merge_into old m'
        else
          tail ← substr s (to_u64 (old_end - k)) npos;
          merge_into (old.1, old.2 ++ tail) m'
      else
        rest ← merge_into (k, s) m';
        Ok (old :: rest)
  end.

Definition merge_loop (m : list (Z * bytes)) : outcome (list (Z * bytes)) :=
  match m with
  | [] => Ok []
  | old :: m' => merge_into old m'
  end.

(** The clipping of [data] to the window, with the recording of the end of the stream. *)
Definition clip (r : StreamReassembler) (data : bytes) (index : Z) (eof : bool)
  : outcome (bytes * Z * bool) :=
  let window_end := to_u64 (bytes_read (_output r) + _capacity r) in
  if window_end <? to_u64 (index + zlen data) then
    ndata ← substr data 0 (to_u64 (window_end - index));
    Ok (ndata, eof_index r, eof_f r)
  else if eof then Ok (data, to_u64 (index + zlen data), true)
  else Ok (data, eof_index r, eof_f r).

(** Storing the clipped data: a longer excerpt replaces one with the same index. *)
Definition store (m : list (Z * bytes)) (index : Z) (ndata : bytes) : list (Z * bytes) :=
  match map_find index m with
  | Some old => if zlen old <? zlen ndata then map_assign index ndata m else m
  | None => map_insert index ndata m
  end.

Definition push_substring (r : StreamReassembler) (data : bytes) (index : Z) (eof : bool)
  : outcome StreamReassembler :=
  '(ndata, eidx, ef) ← clip r data index eof;
  '(m, out, wp) ← assemble_loop (store (stream r) index ndata) (_output r) (write_ptr r);
  m' ← merge_loop m;
  Ok {| _output := if (wp =? eidx) && ef then end_input out else out;
        _capacity := _capacity r; read_ptr := bytes_read (_output r); write_ptr := wp;
        eof_index := eidx; eof_f := ef; stream := m' |}.

Definition unassembled_bytes (r : StreamReassembler) : Z :=
  fold_left (fun acc e => if write_ptr r <? e.1 then to_u64 (acc + zlen e.2) else acc) (stream r) 0.

Definition empty (r : StreamReassembler) : bool := unassembled_bytes r =? 0.

(** * What the state stands for *)

(** [s] is the excerpt of [S] that starts at index [k]. *)
Definition excerpt (S : bytes) (k : Z) (s : bytes) : Prop :=
  0 <= k /\ k + zlen s <= zlen S /\ s = slice S k (k + zlen s).

(** Index [i] lies in a stored excerpt. *)
Definition stored (m : list (Z * bytes)) (i : Z) : Prop :=
  exists e, e ∈ m /\ e.1 <= i < e.1 + zlen e.2.

(** The bytes the reassembler knows: assembled or stored. *)
Definition covered (m : list (Z * bytes)) (wp i : Z) : Prop := 0 <= i < wp \/ stored m i.

(** An entry is settled when it lies within the assembled prefix or strictly after
    its end. *)
Definition settled (wp : Z) (e : Z * bytes) : Prop := e.1 + zlen e.2 <= wp \/ wp < e.1.

(** Entries in increasing order that do not overlap. *)
Fixpoint separated (m : list (Z * bytes)) : Prop :=
  match m with
  | [] => True
  | e :: m' => Forall (fun e' => e.1 < e'.1 /\ e.1 + zlen e.2 <= e'.1) m' /\ separated m'
  end.

(** The output stream holds the bytes of [S] from the reader's position to [wp]. *)
Record out_inv (S : bytes) (cap : Z) (out : ByteStream) (wp : Z) : Prop := {
  oi_len : zlen S + cap < 2 ^ 64;
  oi_bytes : bts out = slice S (read_count out) wp;
  oi_cap : b_size out = cap;
  oi_written : write_count out = wp;
  oi_read : 0 <= read_count out <= wp;
  oi_window : wp <= read_count out + cap;
  oi_in : wp <= zlen S
}.

(** A stored entry: a piece of [S] inside the window, or an empty string under any index. *)
Definition entry_ok (S : bytes) (limit : Z) (e : Z * bytes) : Prop :=
  0 <= e.1 < 2 ^ 64 /\ (e.2 = [] \/ excerpt S e.1 e.2 /\ e.1 + zlen e.2 <= limit).

(** The object invariant, relative to the stream [S] the excerpts come from. *)
Record r_inv (S : bytes) (r : StreamReassembler) : Prop := {
  ri_out : out_inv S (_capacity r) (_output r) (write_ptr r);
  ri_entries : Forall (entry_ok S (read_count (_output r) + _capacity r)) (stream r);
  ri_settled : Forall (settled (write_ptr r)) (stream r);
  ri_separated : separated (stream r);
  ri_eof : eof_f r = true -> eof_index r = zlen S;
  ri_ended : input_ended (_output r) = true <-> eof_f r = true /\ write_ptr r = zlen S
}.

(** The index where the window ends: the reader's position plus the capacity. *)
Definition window_end (r : StreamReassembler) : Z := read_count (_output r) + _capacity r.

(** The byte at index [i] has been received and kept. *)
Definition known (r : StreamReassembler) (i : Z) : Prop := covered (stream r) (write_ptr r) i.

(** The pushes that the theorems are about: an excerpt of [S] that does not start beyond the
    window, with [eof] only at the end of [S], or an empty string with any index.
    [TCPReceiver::segment_received] pushes nothing else; what happens to an excerpt that
    starts beyond the window is the subject of [beyond_window_corrupts]. *)
Definition push_ok (S : bytes) (r : StreamReassembler) (data : bytes) (index : Z) (eof : bool) : Prop :=
  (excerpt S index data /\ (eof = true -> index + zlen data = zlen S) /\ index <= window_end r) \/
  (data = [] /\ eof = false /\ 0 <= index < 2 ^ 64).

(** The contract of [push_substring]: exactly the new bytes inside the window become
    known, and the end of the stream is learnt when the marked excerpt fits. *)
Record push_spec (S : bytes) (r : StreamReassembler) (data : bytes) (index : Z) (eof : bool)
    (r' : StreamReassembler) : Prop := {
  ps_inv : r_inv S r';
  ps_known : forall i, 0 <= i ->
    known r' i <-> known r i \/ index <= i < Z.min (index + zlen data) (window_end r);
  ps_read : read_count (_output r') = read_count (_output r);
  ps_capacity : _capacity r' = _capacity r;
  ps_error : _error (_output r') = _error (_output r);
  ps_mono : write_ptr r <= write_ptr r';
  ps_eof : eof_f r' = eof_f r || (eof && (index + zlen data <=? window_end r))
}.

(** A reader and the pushes of a sender of [S], interleaved: [rstep S r o r'] is one
    call, which delivers the bytes [o] to the reader. *)
Inductive rstep (S : bytes) : StreamReassembler -> bytes -> StreamReassembler -> Prop :=
| rstep_push r data index eof r' :
    push_ok S r data index eof -> push_substring r data index eof = Ok r' -> rstep S r [] r'
| rstep_read r n o out :
    0 <= n -> ByteStream.read (_output r) n = Ok (o, out) -> rstep S r o (set_stream_out r out).

Inductive rsteps (S : bytes) : StreamReassembler -> bytes -> StreamReassembler -> Prop :=
| rsteps_refl r : rsteps S r [] r
| rsteps_snoc r o r' o' r'' : rsteps S r o r' -> rstep S r' o' r'' -> rsteps S r (o ++ o') r''.

(** Executable form of [stored], and the number of stored indices below [n]. *)
Definition storedb (m : list (Z * bytes)) (i : Z) : bool :=
  existsb (fun e => (e.1 <=? i) && (i <? e.1 + zlen e.2)) m.

(** A reader of the reassembler's stream. *)
Definition read_out (r : StreamReassembler) (len : Z) : outcome (bytes * StreamReassembler) :=
  '(o, out) ← ByteStream.read (_output r) len; Ok (o, set_stream_out r out).

(** A reader with a buffer of [c] bytes and four excerpts of [S], which follow each other
    without a gap; the first to arrive has [len] bytes and starts one byte beyond the window. *)
Definition beyond_window (S : bytes) (c len : Z) : outcome bytes :=
  r ← push_substring (stream_reassembler c) (slice S (c + 1) (c + 1 + len)) (c + 1) false;
  r ← push_substring r (slice S 0 c) 0 false;
  '(o1, r) ← read_out r c;
  r ← push_substring r (slice S c (c + 1)) c false;
  '(o2, r) ← read_out r c;
  r ← push_substring r (slice S (c + 1 + len) (c + 2 + len)) (c + 1 + len) false;
  '(o3, r) ← read_out r c;
  Ok (o1 ++ o2 ++ o3).

(** * Lemmas on entries *)

Section entries.
Implicit Types (S s : bytes) (m : list (Z * bytes)) (e : Z * bytes).

Lemma separated_sorted m : separated m -> map_sorted m.
Proof.
  induction m as [|[k s] m IH]; simpl; [done|].
  intros [Hlt Hsep]. split; [|auto].
  eapply Forall_impl; [exact Hlt|]. simpl; lia.
Qed.

Lemma stored_nil i : ~ stored [] i.
Proof. intros [e [Hin _]]. by apply not_elem_of_nil in Hin. Qed.

Lemma stored_cons e m i : stored (e :: m) i <-> e.1 <= i < e.1 + zlen e.2 \/ stored m i.
Proof.
  unfold stored. setoid_rewrite elem_of_cons. split.
  - intros [e' [[-> | Hin] Hi]]; eauto.
  - intros [Hi | [e' [Hin Hi]]]; eauto.
Qed.

Lemma covered_cons e m wp i :
  covered (e :: m) wp i <-> e.1 <= i < e.1 + zlen e.2 \/ covered m wp i.
Proof. unfold covered. rewrite stored_cons. tauto. Qed.

(** The index where assembly stopped is not known: it is the first missing byte. *)
Lemma settled_not_covered m wp : Forall (settled wp) m -> ~ covered m wp wp.
Proof.
  intros Hs [? | [e [Hin He]]]; [lia|].
  rewrite Forall_forall in Hs. specialize (Hs e Hin). unfold settled in Hs. lia.
Qed.

Lemma settled_mono wp wp' e : wp <= wp' -> e.1 + zlen e.2 <= wp -> settled wp' e.
Proof. unfold settled. lia. Qed.

(** Clipping an excerpt keeps an excerpt. *)
Lemma excerpt_take S k s n :
  excerpt S k s -> 0 <= n <= zlen s -> excerpt S k (slice s 0 n).
Proof.
  intros (Hk & Hle & Hs) Hn. unfold excerpt.
  rewrite zlen_slice by lia. repeat split; [lia | lia |].
  rewrite Hs, slice_slice by lia. f_equal; lia.
Qed.

(** The part of an excerpt from stream index [j] on. *)
Lemma excerpt_from S k s j :
  excerpt S k s -> k <= j <= k + zlen s -> slice s (j - k) (zlen s) = slice S j (k + zlen s).
Proof.
  intros (Hk & Hle & Hs) Hj. rewrite Hs at 1. rewrite slice_slice by lia. f_equal; lia.
Qed.

(** Joining two overlapping excerpts. *)
Lemma excerpt_join S k1 s1 k2 s2 :
  excerpt S k1 s1 -> excerpt S k2 s2 -> k1 <= k2 -> k2 <= k1 + zlen s1 <= k2 + zlen s2 ->
  let s := s1 ++ slice s2 (k1 + zlen s1 - k2) (zlen s2) in
  zlen s = k2 + zlen s2 - k1 /\ excerpt S k1 s.
Proof.
  intros H1 H2 Hk Hov s. pose proof (zlen_nonneg s1). pose proof (zlen_nonneg s2).
  assert (zlen s = k2 + zlen s2 - k1) as Hlen.
  { unfold s. rewrite zlen_app, zlen_slice by lia. lia. }
  split; [done|]. destruct H1 as (? & ? & Hs1), H2 as (? & ? & Hs2).
  repeat split; [lia | lia |]. rewrite Hlen. unfold s.
  rewrite (excerpt_from S k2 s2) by (unfold excerpt; auto; lia).
  rewrite Hs1 at 1. rewrite slice_app by lia. f_equal; lia.
Qed.

(** The end of an entry fits 64 bits. *)
Lemma entry_ok_end S limit e : limit < 2 ^ 64 -> entry_ok S limit e -> 0 <= e.1 /\ e.1 + zlen e.2 < 2 ^ 64.
Proof. intros Hl [? [E | [_ ?]]]; [rewrite E; change (zlen ([] : bytes)) with 0|]; lia. Qed.

(** An entry that holds a byte is an excerpt. *)
Lemma entry_ok_excerpt S limit e :
  entry_ok S limit e -> 0 < zlen e.2 -> excerpt S e.1 e.2 /\ e.1 + zlen e.2 <= limit.
Proof. intros [_ [E | ?]]; [rewrite E; by intros ?%Z.lt_irrefl | done]. Qed.
End entries.

#[export] Hint Resolve separated_sorted : sponge.

(** * The first loop *)

Section assemble.
Context (S : bytes) (cap : Z).

(** Writing the next bytes of [S] accepts those that fit the capacity. *)
Lemma out_inv_write_some out wp e :
  out_inv S cap out wp -> wp <= e -> e <= zlen S ->
  let out' := snd (ByteStream.write out (slice S wp e)) in
  out_inv S cap out' (Z.min e (read_count out + cap)) /\ read_count out' = read_count out /\
  end_flag out' = end_flag out /\ _error out' = _error out.
Proof.
  intros [Hlen Hb Hc Hw Hr Hwin Hin] He HS. cbv zeta.
  pose proof (zlen_slice S (read_count out) wp) as Hz.
  pose proof (zlen_slice S wp e) as Hz'.
  assert (bs_wf out) as Hwf. { unfold bs_wf. rewrite Hb, Hc, Hz; lia. }
  rewrite write_eq by (done || lia). rewrite Hb, Hc, Hz, Hz' by lia.
  set (n := Z.min (e - wp) (cap - (wp - read_count out))).
  replace (Z.min e (read_count out + cap)) with (wp + n) by lia.
  cbn [snd]. split; [|done].
  constructor; simpl; auto; try lia.
  - rewrite <- slice_take, slice_slice by lia. rewrite Z.add_0_r. by rewrite slice_app by lia.
  - rewrite Hw, to_u64_small; lia.
Qed.

(** Inside the window they are accepted in full. *)
Lemma out_inv_write out wp e :
  out_inv S cap out wp -> wp <= e -> e <= read_count out + cap -> e <= zlen S ->
  let out' := snd (ByteStream.write out (slice S wp e)) in
  out_inv S cap out' e /\ read_count out' = read_count out /\
  end_flag out' = end_flag out /\ _error out' = _error out.
Proof.
  intros Ho He Hl HS. pose proof (out_inv_write_some out wp e Ho He HS) as H.
  by rewrite Z.min_l in H by lia.
Qed.

(** The invariant determines the stream, but for its flags. *)
Lemma out_inv_ext out1 out2 wp :
  out_inv S cap out1 wp -> out_inv S cap out2 wp -> read_count out1 = read_count out2 ->
  end_flag out1 = end_flag out2 -> _error out1 = _error out2 -> out1 = out2.
Proof.
  intros [_ B1 C1 W1 _ _ _] [_ B2 C2 W2 _ _ _] Hr He Herr. destruct out1, out2; simpl in *. congruence.
Qed.

(** Reading delivers the next bytes of [S]. *)
Lemma out_inv_read out wp n :
  out_inv S cap out wp -> 0 <= n ->
  let k := Z.min n (buffer_size out) in
  exists out', ByteStream.read out n = Ok (slice S (read_count out) (read_count out + k), out') /\
    out_inv S cap out' wp /\ read_count out' = read_count out + k /\
    end_flag out' = end_flag out /\ _error out' = _error out.
Proof.
  intros [Hlen Hb Hc Hw Hr Hwin Hin] Hn k.
  assert (zlen (bts out) = wp - read_count out) as Hbs by (rewrite Hb, zlen_slice by lia; done).
  unfold buffer_size in k. rewrite read_eq by lia. fold k.
  assert (0 <= k <= zlen (bts out)) by lia. clearbody k. rewrite Hb.
  eexists. split.
  { rewrite <- slice_take, slice_slice by lia. do 3 f_equal; lia. }
  rewrite to_u64_small by lia. split; [|done]. constructor; simpl; auto; try lia.
  rewrite <- slice_drop by lia. rewrite zlen_slice, slice_slice by lia. f_equal; lia.
Qed.

(** Reading as much as the capacity empties the buffer. *)
Lemma out_inv_drain out wp :
  out_inv S cap out wp ->
  exists out', ByteStream.read out cap = Ok (slice S (read_count out) wp, out') /\
    out_inv S cap out' wp /\ read_count out' = wp.
Proof.
  intros Ho. pose proof Ho as [_ Hb _ _ ? ? ?]. destruct (out_inv_read out wp cap Ho) as (out' & E & Ho' & Hr & _); [lia|].
  assert (read_count out + Z.min cap (buffer_size out) = wp) as Hw by (unfold buffer_size; rewrite Hb, zlen_slice; lia).
  exists out'. rewrite E, Hr, Hw. done.
Qed.

(** Whatever is written to an empty output is what the reader gets next. *)
Lemma write_then_read out wp q :
  out_inv S cap out wp -> read_count out = wp -> zlen q <= cap -> wp + zlen q + cap < 2 ^ 64 ->
  exists out', ByteStream.read (ByteStream.write out q).2 cap = Ok (q, out').
Proof.
  intros [_ Hb Hc Hw Hr Hwin Hin] Hrd Hq H64. pose proof (zlen_nonneg q).
  rewrite slice_nil in Hb by lia. assert (bs_wf out) as Hwf by (unfold bs_wf; rewrite Hb, Hc; change (zlen []) with 0; lia).
  rewrite write_eq by (done || lia). rewrite Hb, Hc. change (zlen []) with 0. cbn [snd].
  rewrite Z.min_l by lia. rewrite <- slice_take, slice_full. rewrite read_eq by (simpl; lia). cbn [bts app].
  rewrite Z.min_r by lia. rewrite <- slice_take, slice_full. by eexists.
Qed.

(** Everything known before the loop is known after it, and the rest is settled. *)
Record assembled (m : list (Z * bytes)) (out : ByteStream) (wp : Z)
    (m' : list (Z * bytes)) (out' : ByteStream) (wp' : Z) : Prop := {
  as_out : out_inv S cap out' wp';
  as_read : read_count out' = read_count out;
  as_flags : end_flag out' = end_flag out /\ _error out' = _error out;
  as_mono : wp <= wp';
  as_sub : m' `sublist_of` m;
  as_sorted : map_sorted m';
  as_settled : Forall (settled wp') m';
  as_covered : forall i, 0 <= i -> covered m' wp' i <-> covered m wp i
}.

Lemma map_sorted_above k s m wp :
  map_sorted ((k, s) :: m) -> wp < k -> Forall (settled wp) ((k, s) :: m).
Proof.
  intros [Hlt _] Hk. constructor; [unfold settled; simpl; lia|].
  eapply Forall_impl; [exact Hlt|]. unfold settled; simpl; lia.
Qed.

Lemma assemble_loop_spec m out wp :
  out_inv S cap out wp -> map_sorted m ->
  Forall (entry_ok S (read_count out + cap)) m ->
  exists m' out' wp', assemble_loop m out wp = Ok (m', out', wp') /\
    assembled m out wp m' out' wp'.
Proof.
  revert out wp. induction m as [|[k s] m IH]; intros out wp Hout Hs He.
  { eexists _, _, _. split; [done|]. by constructor. }
  inversion He as [|? ? Hok He']; subst. pose proof (zlen_nonneg s).
  pose proof (oi_len _ _ _ _ Hout). pose proof (oi_read _ _ _ _ Hout).
  pose proof (oi_window _ _ _ _ Hout). pose proof (oi_in _ _ _ _ Hout).
  destruct (entry_ok_end S (read_count out + cap) (k, s) ltac:(lia) Hok) as [Hk0 Hk64]. pose proof (entry_ok_excerpt _ _ _ Hok) as Hbyte. simpl in Hk0, Hk64, Hbyte.
  cbn [assemble_loop]. rewrite to_u64_small by lia.
  destruct (k <=? wp) eqn:Ek; [destruct (wp <? k + zlen s) eqn:Ee|].
  - destruct Hbyte as [Hex Hlim]; [lia|]. pose proof Hex as (_ & HkS & _).
    rewrite to_u64_small by lia. rewrite substr_ok by lia. cbn [mbind outcome_bind].
    replace (Z.min (wp - k + npos) (zlen s)) with (zlen s) by (unfold npos; lia).
    rewrite (excerpt_from S k s wp) by (done || lia).
    destruct (out_inv_write out wp (k + zlen s)) as (Ho & Hr & Hf & Her); [done | lia | lia | lia |].
    destruct (IH _ _ Ho (proj2 Hs)) as (m' & out' & wp' & Hl & Ha); [by rewrite Hr|].
    eexists _, _, _. split; [exact Hl|]. destruct Ha as [? ? [] ? ? ? ? Hcov].
    constructor; auto; try lia; try (split; congruence); [by apply sublist_cons|].
    intros i Hi. rewrite Hcov, covered_cons by done. unfold covered; simpl. intuition lia.
  - destruct (IH _ _ Hout (proj2 Hs) He') as (m' & out' & wp' & Hl & Ha).
    rewrite Hl. cbn [mbind outcome_bind]. eexists _, _, _. split; [done|].
    destruct Ha as [? ? ? ? ? ? ? Hcov]. constructor; auto.
    + by apply sublist_skip.
    + simpl. split; [|done]. eapply Forall_sublist; [done | apply Hs].
    + constructor; [|done]. apply (settled_mono wp); simpl; lia.
    + intros i Hi. rewrite !covered_cons, Hcov by done. done.
  - eexists _, _, _. split; [done|]. constructor; auto; try done; try lia.
    apply map_sorted_above; [done | lia].
Qed.
End assemble.

(** * The second loop *)

Section merge.
Context (S : bytes) (limit wp : Z).

(** What merging yields: separated entries that store the same indices. *)
Record merged (m m' : list (Z * bytes)) : Prop := {
  me_entries : Forall (entry_ok S limit) m';
  me_settled : Forall (settled wp) m';
  me_separated : separated m';
  me_stored : forall i, stored m' i <-> stored m i
}.

Definition good (m : list (Z * bytes)) : Prop :=
  map_sorted m /\ Forall (entry_ok S limit) m /\ Forall (settled wp) m.

Lemma good_cons e m : good (e :: m) -> good m.
Proof. intros (Hs & He & Ht). inversion He; inversion Ht; subst. destruct e. by split; [apply Hs|]. Qed.

(** Dropping an entry that lies inside the one before it. *)
Lemma good_drop k s k' s' m : good ((k, s) :: (k', s') :: m) -> good ((k, s) :: m).
Proof.
  intros (Hs & He & Ht). destruct Hs as [Hlt [_ Hs]].
  inversion He as [|? ? ? He']; inversion Ht as [|? ? ? Ht']; subst.
  inversion He'; inversion Ht'; inversion Hlt; subst.
  split; [by split|]. split; by constructor.
Qed.

(** Replacing two overlapping entries by their union. *)
Lemma good_join k s k' s' m :
  good ((k, s) :: (k', s') :: m) -> k' < k + zlen s -> k + zlen s <= k' + zlen s' ->
  let t := s ++ slice s' (k + zlen s - k') (zlen s') in
  zlen t = k' + zlen s' - k /\ good ((k, t) :: m).
Proof.
  intros Hg Hov Hend t. pose proof (good_drop _ _ _ _ _ Hg) as (Hs & He & Ht).
  destruct Hg as (Hs0 & He0 & Ht0).
  inversion He0 as [|? ? Hok He0']; inversion Ht0 as [|? ? Hset Ht0']; subst.
  inversion He0' as [|? ? Hok' _]; inversion Ht0' as [|? ? Hset' _]; subst.
  assert (k < k') as Hk by (destruct Hs0 as [Hlt _]; inversion Hlt; subst; simpl in *; lia).
  pose proof (proj1 Hok) as Hk0. apply entry_ok_excerpt in Hok as [Hex Hl]; [|simpl; lia].
  apply entry_ok_excerpt in Hok' as [Hex' Hl']; [|simpl; lia]. simpl in *.
  destruct (excerpt_join S k s k' s') as [Hlen Ht']; [done | done | lia | lia |].
  fold t in Hlen, Ht'. split; [done|]. inversion He; inversion Ht; subst.
  unfold settled in Hset, Hset'; simpl in *.
  split; [done|]. split; constructor; auto.
  - split; [done|]. right. simpl. split; [done | lia].
  - unfold settled; simpl. lia.
Qed.

Lemma merge_into_spec m : forall k s,
  limit < 2 ^ 64 -> good ((k, s) :: m) ->
  exists m', merge_into (k, s) m = Ok m' /\ merged ((k, s) :: m) m' /\
    Forall (fun e => k <= e.1) m'.
Proof.
  induction m as [|[k' s'] m IH]; intros k s Hlim Hg.
  { eexists. split; [done|]. split; [|by repeat constructor].
    destruct Hg as (? & ? & ?). by constructor. }
  pose proof (good_drop _ _ _ _ _ Hg) as Hg1. pose proof (good_cons _ _ Hg) as Hg2.
  pose proof Hg as (Hs & He & Ht). destruct Hs as [Hlt [Hlt' Hs]].
  inversion He as [|? ? Hok He']; subst. inversion He' as [|? ? Hok' _]; subst.
  apply entry_ok_end in Hok, Hok'; try done. simpl in *.
  pose proof (zlen_nonneg s). pose proof (zlen_nonneg s').
  assert (k < k') by (inversion Hlt; subst; simpl in *; lia).
  rewrite !to_u64_small by lia.
  destruct (k' <? k + zlen s) eqn:E1; [destruct (k' + zlen s' <=? k + zlen s) eqn:E2|].
  - destruct (IH k s Hlim Hg1) as (m' & -> & [? ? ? Hst] & ?).
    eexists. split; [done|]. split; [|done]. constructor; auto.
    intros i. rewrite Hst, !stored_cons. simpl. intuition lia.
  - rewrite to_u64_small by lia. rewrite substr_ok by lia. cbn [mbind outcome_bind].
    replace (Z.min _ _) with (zlen s') by (unfold npos; lia).
    destruct (good_join k s k' s' m Hg) as [Hlen Hg']; [lia | lia |].
    destruct (IH _ _ Hlim Hg') as (m' & -> & [? ? ? Hst] & ?).
    eexists. split; [done|]. split; [|done]. constructor; auto.
    intros i. rewrite Hst, !stored_cons. simpl. rewrite Hlen. intuition lia.
  - destruct (IH k' s' Hlim Hg2) as (m' & -> & [? ? ? Hst] & Hge).
    eexists. split; [done|]. destruct Hg1 as (_ & He1 & Ht1).
    inversion He1; inversion Ht1; subst. split.
    + constructor; try (constructor; done).
      * simpl. split; [|done]. eapply Forall_impl; [exact Hge|]. simpl; lia.
      * intros i. by rewrite stored_cons, Hst, <- stored_cons.
    + constructor; [simpl; lia|]. eapply Forall_impl; [exact Hge|]. simpl; lia.
Qed.

Lemma merge_loop_spec m :
  limit < 2 ^ 64 -> good m -> exists m', merge_loop m = Ok m' /\ merged m m'.
Proof.
  intros Hlim Hg. destruct m as [|[k s] m].
  - eexists. split; [done|]. by constructor.
  - destruct (merge_into_spec m k s Hlim Hg) as (m' & ? & ? & _). eauto.
Qed.
End merge.

(** * One push *)

Section push.
Context (S : bytes).
Implicit Types r : StreamReassembler.

Lemma store_spec limit m index ndata :
  map_sorted m -> Forall (entry_ok S limit) m -> entry_ok S limit (index, ndata) ->
  map_sorted (store m index ndata) /\
  Forall (entry_ok S limit) (store m index ndata) /\
  (forall i, stored (store m index ndata) i <-> stored m i \/ index <= i < index + zlen ndata).
Proof.
  intros Hs He Hn. unfold store. destruct (map_find index m) as [old|] eqn:Ef; [case_if|].
  - split; [auto with sponge|]. split; [auto with sponge|]. intros i. unfold stored.
    setoid_rewrite (elem_of_map_assign _ _ _ _ _ Hs Ef). split.
    + intros [e [[-> | [Hin Hne]] Hi]]; simpl in *; [by right | left; eauto].
    + intros [[[k s] [Hin Hi]] | Hi]; [|by exists (index, ndata); auto].
      destruct (decide (k = index)) as [-> | Hne]; [|exists (k, s); auto].
      rewrite (map_find_elem _ _ _ Hs Hin) in Ef. simplify_eq.
      exists (index, ndata). simpl in *. split; [by left | lia].
  - split; [done|]. split; [done|]. intros i. split; [by left|]. intros [? | Hi]; [done|].
    exists (index, old). split; [by apply map_find_Some | simpl; lia].
  - split; [auto with sponge|]. split; [auto with sponge|]. intros i. unfold stored.
    setoid_rewrite (elem_of_map_insert _ _ _ _ Ef). split.
    + intros [e [[-> | Hin] Hi]]; [by right | left; eauto].
    + intros [[e [Hin Hi]] | Hi]; [eauto | by exists (index, ndata); auto].
Qed.

(** Clipping keeps what lies in the window and learns the end when everything does. *)
Lemma clip_spec r data index eof :
  r_inv S r -> push_ok S r data index eof ->
  let n := Z.min (zlen data) (window_end r - index) in
  exists eidx, clip r data index eof
  = Ok (slice data 0 n, eidx, eof_f r || (eof && (index + zlen data <=? window_end r)))
  /\ (eof_f r || (eof && (index + zlen data <=? window_end r)) = true -> eidx = zlen S).
Proof.
  intros Hi Hp n. pose proof (zlen_nonneg data).
  destruct (ri_out _ _ Hi) as [? _ _ _ ? ? ?]. pose proof (ri_eof _ _ Hi) as Hre.
  destruct Hp as [((Hk & Hle & _) & Heof & Hwin) | (-> & -> & Hk)].
  2: { exists (eof_index r). unfold clip. rewrite orb_false_r. split; [|done].
       assert (forall m, slice ([] : bytes) 0 m = []) as Hnil by (intros m; unfold slice; by rewrite drop_nil, take_nil).
       rewrite Hnil. case_if; [|done]. rewrite substr_ok by (rewrite ?zlen_nil; lia). by rewrite Hnil. }
  unfold clip, bytes_read. fold (window_end r). unfold window_end in *.
  rewrite !to_u64_small by lia. case_if.
  - rewrite substr_ok by lia. cbn [mbind outcome_bind].
    replace (index + zlen data <=? _) with false by lia.
    rewrite andb_false_r, orb_false_r. exists (eof_index r). split; [|done].
    do 4 f_equal. unfold n. lia.
  - replace (index + zlen data <=? _) with true by lia. rewrite andb_true_r.
    replace n with (zlen data) by lia. rewrite slice_full.
    destruct eof; rewrite ?orb_true_r, ?orb_false_r; eexists; by split; auto.
Qed.

Lemma zlen_clip (data : bytes) n : n <= zlen data -> zlen (slice data 0 n) = Z.max 0 n.
Proof. intros Hn. destruct (decide (0 <= n)); [rewrite zlen_slice; lia | rewrite slice_nil, zlen_nil; lia]. Qed.

(** What is stored of a push. *)
Lemma clip_entry r data index eof :
  r_inv S r -> push_ok S r data index eof ->
  entry_ok S (window_end r) (index, slice data 0 (Z.min (zlen data) (window_end r - index))).
Proof.
  intros Hi Hp. pose proof (zlen_nonneg data). destruct (ri_out _ _ Hi) as [? _ _ _ ? ? ?].
  destruct Hp as [(Hex & _ & Hwin) | (-> & _ & Hk)]; simpl.
  - unfold window_end in *. pose proof Hex as (? & ? & _). split; simpl; [lia|]. right.
    split; [apply excerpt_take; [done | lia]|]. rewrite zlen_slice; lia.
  - split; [done|]. left. simpl. unfold slice. by rewrite drop_nil, take_nil.
Qed.

Lemma out_inv_end_input cap out wp : out_inv S cap out wp -> out_inv S cap (end_input out) wp.
Proof. by intros []; constructor. Qed.

(** Ending the output exactly when the end is known and reached. *)
Lemma finish_spec cap out wp eidx ef :
  out_inv S cap out wp ->
  (ef = true -> eidx = zlen S) ->
  (input_ended out = true -> ef = true /\ wp = zlen S) ->
  let out' := if (wp =? eidx) && ef then end_input out else out in
  out_inv S cap out' wp /\ read_count out' = read_count out /\ _error out' = _error out /\
  (input_ended out' = true <-> ef = true /\ wp = zlen S).
Proof.
  intros Ho Heidx Hend out'. unfold out'. destruct ((wp =? eidx) && ef) eqn:E.
  - apply andb_true_iff in E as [E ->]. split; [by apply out_inv_end_input|].
    rewrite <- Heidx by done. repeat split; lia.
  - split; [done|]. split; [done|]. split; [done|]. split; [done|].
    intros [-> ->]. rewrite Heidx in E by done. lia.
Qed.

Lemma push_substring_spec r data index eof :
  r_inv S r -> push_ok S r data index eof ->
  exists r', push_substring r data index eof = Ok r' /\ push_spec S r data index eof r'.
Proof.
  intros Hi Hp. pose proof (zlen_nonneg data). destruct (clip_spec r data index eof Hi Hp) as (eidx & Hc & Heidx).
  set (n := Z.min (zlen data) (window_end r - index)) in *.
  set (ef := eof_f r || _) in *.
  pose proof (ri_out _ _ Hi) as Ho.
  destruct (store_spec (window_end r) (stream r) index (slice data 0 n)) as (Hs & He & Hst).
  { apply separated_sorted, ri_separated with S, Hi. }
  { apply (ri_entries _ _ Hi). }
  { by apply (clip_entry r data index eof). }
  assert (zlen (slice data 0 n) = Z.max 0 n) as Hn by (apply zlen_clip; lia). rewrite Hn in Hst.
  destruct (assemble_loop_spec S (_capacity r) _ _ _ Ho Hs He)
    as (m & out & wp & Ha & [Hout Hrd [Hfl Her] Hmono Hsub Hsm Hset Hcov]).
  destruct (merge_loop_spec S (window_end r) wp m) as (m' & Hm & [Hme Hms Hsep Hmst]).
  { unfold window_end. destruct Ho. lia. }
  { split; [done|]. split; [by eapply Forall_sublist | done]. }
  destruct (finish_spec _ out wp eidx ef Hout Heidx) as (Hfo & Hfr & Hfe & Hfi).
  { intros E. pose proof (oi_in _ _ _ _ Hout). unfold input_ended in E. rewrite Hfl in E.
    apply (ri_ended _ _ Hi) in E as [E ?]. unfold ef. rewrite E. simpl. lia. }
  unfold push_substring. rewrite Hc. cbn [mbind outcome_bind].
  rewrite Ha. cbn [mbind outcome_bind]. rewrite Hm. cbn [mbind outcome_bind].
  eexists. split; [reflexivity|]. constructor; simpl; try congruence; try done.
  - constructor; simpl; auto. by rewrite Hfr, Hrd.
  - intros i H0. transitivity (covered m wp i).
    { unfold known, covered; simpl. by rewrite Hmst. }
    rewrite Hcov by done. unfold known, covered. rewrite Hst.
    assert (index <= i < index + Z.max 0 n <-> index <= i < Z.min (index + zlen data) (window_end r))
      as -> by lia. tauto.
Qed.

Lemma read_spec r n :
  r_inv S r -> 0 <= n ->
  let k := Z.min n (buffer_size (_output r)) in
  exists out, ByteStream.read (_output r) n
    = Ok (slice S (bytes_read (_output r)) (bytes_read (_output r) + k), out) /\
    r_inv S (set_stream_out r out) /\ read_count out = bytes_read (_output r) + k /\
    input_ended out = input_ended (_output r).
Proof.
  intros Hi Hn k. destruct (out_inv_read S _ _ _ n (ri_out _ _ Hi) Hn) as (out & E & Ho & Hr & He & _).
  exists out. split; [exact E|]. split; [|done]. destruct Hi as [? Hent ? ? ? Hend].
  constructor; simpl; auto; [|unfold input_ended in *; by rewrite He].
  eapply Forall_impl; [exact Hent|]. pose proof (zlen_nonneg (bts (_output r))). unfold buffer_size in *.
  intros [k' s'] [? [? | []]]; split; auto. right. simpl in *. split; [done | lia].
Qed.

Lemma r_inv_init cap : 0 <= cap -> zlen S + cap < 2 ^ 64 -> r_inv S (stream_reassembler cap).
Proof.
  intros. pose proof (zlen_nonneg S). constructor; simpl; try done.
  by constructor; simpl; try lia.
Qed.

(** The write pointer is the first index that is not known. *)
Lemma first_missing r i :
  r_inv S r -> 0 <= i -> (forall j, 0 <= j <= i -> known r j) <-> i < write_ptr r.
Proof.
  intros Hi H0. split.
  - intros Hall. destruct (Z_lt_le_dec i (write_ptr r)); [done|].
    destruct (settled_not_covered (stream r) (write_ptr r)); [apply Hi|].
    apply Hall. destruct (ri_out _ _ Hi). lia.
  - intros Hlt j Hj. left. lia.
Qed.
End push.

(** * Runs *)

Section runs.
Context (S : bytes).

Lemma rstep_inv r o r' :
  r_inv S r -> rstep S r o r' ->
  r_inv S r' /\ _capacity r' = _capacity r /\
  o = slice S (bytes_read (_output r)) (bytes_read (_output r')) /\
  bytes_read (_output r) <= bytes_read (_output r').
Proof.
  intros Hi Hstep. destruct Hstep as [r data index eof r' Hp Hpush | r n o out Hn Hread].
  - destruct (push_substring_spec S r data index eof Hi Hp) as (r1 & E & [? _ Hr Hc _ _ _]).
    rewrite E in Hpush. inv_outcome. unfold bytes_read. rewrite Hr, slice_nil by lia. auto with lia.
  - destruct (read_spec S r n Hi Hn) as (out' & E & ? & Hr & _).
    rewrite E in Hread. inv_outcome. unfold bytes_read in *. simpl. rewrite Hr.
    pose proof (zlen_nonneg (bts (_output r))). unfold buffer_size. auto with lia.
Qed.

Lemma rsteps_inv r o r' :
  rsteps S r o r' -> r_inv S r ->
  r_inv S r' /\ _capacity r' = _capacity r /\
  o = slice S (bytes_read (_output r)) (bytes_read (_output r')) /\
  bytes_read (_output r) <= bytes_read (_output r').
Proof.
  induction 1 as [r | r o r' o' r'' Hs IH Hstep]; intros Hi.
  - rewrite slice_nil by lia. auto with lia.
  - destruct (IH Hi) as (Hi' & Hc & Ho & Hle).
    destruct (rstep_inv r' o' r'' Hi' Hstep) as (Hi'' & Hc' & Ho' & Hle').
    split; [done|]. split; [congruence|]. split; [|lia]. rewrite Ho, Ho'.
    apply slice_app; [|done|done]. destruct (ri_out _ _ Hi). unfold bytes_read. lia.
Qed.

(** What has been delivered and what is buffered, together. *)
Lemma delivered_prefix cap o r :
  0 <= cap -> zlen S + cap < 2 ^ 64 -> rsteps S (stream_reassembler cap) o r ->
  r_inv S r /\ o ++ bts (_output r) = slice S 0 (bytes_written (_output r)).
Proof.
  intros Hc Hlen Hr. destruct (rsteps_inv _ _ _ Hr) as (Hi & _ & Ho & Hle); [by apply r_inv_init|].
  split; [done|]. destruct (ri_out _ _ Hi) as [_ Hb _ Hw ? _ _].
  rewrite Ho, Hb. unfold bytes_written, bytes_read in *. rewrite Hw. simpl. apply slice_app; lia.
Qed.
End runs.

(** * Counting *)

Section counting.
Implicit Types m : list (Z * bytes).

Lemma storedb_spec m i : storedb m i = true <-> stored m i.
Proof.
  unfold storedb, stored. rewrite existsb_exists. split.
  - intros [e [Hin He]]. exists e. rewrite list_elem_of_In. split; [done | lia].
  - intros [e [Hin He]]. exists e. rewrite <- list_elem_of_In. split; [done | lia].
Qed.

Lemma storedb_cons e m i :
  storedb (e :: m) i = ((e.1 <=? i) && (i <? e.1 + zlen e.2)) || storedb m i.
Proof. done. Qed.

Lemma filter_orb_disjoint {A} (f g : A -> bool) (l : list A) :
  (forall x, f x = true -> g x = false) ->
  zlen (List.filter (fun x => f x || g x) l) = zlen (List.filter f l) + zlen (List.filter g l).
Proof.
  intros Hd. induction l as [|x l IH]; simpl; [done|].
  specialize (Hd x). destruct (f x), (g x); simpl; rewrite ?zlen_cons; lia || (by discriminate Hd).
Qed.

Lemma filter_all {A} (f : A -> bool) (l : list A) :
  (forall x, x ∈ l -> f x = true) -> List.filter f l = l.
Proof.
  induction l as [|x l IH]; simpl; intros H; [done|].
  rewrite H by left. f_equal. apply IH. intros; apply H; by right.
Qed.

Lemma filter_none {A} (f : A -> bool) (l : list A) :
  (forall x, x ∈ l -> f x = false) -> List.filter f l = [].
Proof.
  induction l as [|x l IH]; simpl; intros H; [done|].
  rewrite H by left. apply IH. intros; apply H; by right.
Qed.

Lemma count_interval k len n :
  0 <= k -> 0 <= len -> len = 0 \/ k + len <= n ->
  zlen (List.filter (fun i => (k <=? i) && (i <? k + len)) (seqZ 0 n)) = len.
Proof.
  intros ? ? [-> | ?]; [rewrite filter_none; [done | intros; lia]|]. replace n with (k + (len + (n - k - len))) by lia.
  rewrite seqZ_app, seqZ_app by lia. rewrite !List.filter_app, !zlen_app.
  rewrite (filter_none _ (seqZ 0 k)), (filter_all _ (seqZ (0 + k) len)), filter_none.
  - rewrite !zlen_nil. unfold zlen. rewrite length_seqZ. lia.
  - intros x Hx. apply elem_of_seqZ in Hx. lia.
  - intros x Hx. apply elem_of_seqZ in Hx. lia.
  - intros x Hx. apply elem_of_seqZ in Hx. lia.
Qed.

Definition total (m : list (Z * bytes)) : Z := foldr (fun e acc => zlen e.2 + acc) 0 m.

(** The lengths of separated entries add up to the number of indices they store. *)
Lemma total_count m n :
  separated m -> Forall (fun e => 0 <= e.1 /\ (e.2 = [] \/ e.1 + zlen e.2 <= n)) m ->
  total m = zlen (List.filter (storedb m) (seqZ 0 n)).
Proof.
  induction m as [|e m IH]; intros Hsep Hb; simpl.
  { by rewrite filter_none. }
  destruct Hsep as [Hlt Hsep]. inversion Hb as [|? ? Hbe Hbm]; subst.
  pose proof (zlen_nonneg e.2). rewrite IH by done.
  rewrite (filter_orb_disjoint (fun i => (e.1 <=? i) && (i <? e.1 + zlen e.2)) (storedb m)).
  - destruct Hbe as [? Hbe]. rewrite count_interval; [done | done | done |]. destruct Hbe as [E | ?]; [left; by rewrite E | by right].
  - intros i Hi. destruct (storedb m i) eqn:E; [|done]. apply storedb_spec in E as [e' [Hin He']].
    rewrite Forall_forall in Hlt. specialize (Hlt e' Hin). lia.
Qed.

Lemma separated_filter f m : separated m -> separated (List.filter f m).
Proof.
  induction m as [|e m IH]; simpl; [done|]. intros [Hlt Hs]. case_if; [|auto].
  simpl. split; [|auto]. apply Forall_forall. intros e' Hin. rewrite Forall_forall in Hlt.
  apply list_elem_of_In, filter_In in Hin as [Hin _]. apply Hlt, list_elem_of_In, Hin.
Qed.

Lemma unassembled_fold wp m acc :
  0 <= acc -> acc + total (List.filter (fun e => wp <? e.1) m) < 2 ^ 64 ->
  fold_left (fun acc e => if wp <? e.1 then to_u64 (acc + zlen e.2) else acc) m acc
  = acc + total (List.filter (fun e => wp <? e.1) m).
Proof.
  revert acc. induction m as [|e m IH]; intros acc H0 Hlt; simpl in *; [lia|].
  pose proof (zlen_nonneg e.2). destruct (wp <? e.1); [|auto].
  simpl in *. assert (0 <= total (List.filter (fun e => wp <? e.1) m)) as Ht.
  { clear. induction (List.filter _ m) as [|e' l IH]; simpl; [done|].
    pose proof (zlen_nonneg e'.2). lia. }
  rewrite to_u64_small by lia. rewrite IH by lia. lia.
Qed.

(** Among settled entries, the ones after the write pointer store the indices after it. *)
Lemma stored_after wp m i :
  Forall (settled wp) m ->
  storedb (List.filter (fun e => wp <? e.1) m) i = storedb m i && (wp <=? i).
Proof.
  intros Hs. induction m as [|e m IH]; [done|]. inversion Hs as [|? ? He Hs']; subst.
  unfold settled in He. cbn [List.filter]. rewrite (storedb_cons e m).
  destruct (wp <? e.1) eqn:E; rewrite ?storedb_cons, IH by done;
    destruct (storedb m i), (wp <=? i) eqn:E2, (e.1 <=? i) eqn:E3, (i <? e.1 + zlen e.2) eqn:E4;
    simpl; lia.
Qed.

Lemma unassembled_bytes_eq S r :
  r_inv S r ->
  unassembled_bytes r
  = zlen (List.filter (fun i => storedb (stream r) i && (write_ptr r <=? i)) (seqZ 0 (zlen S))).
Proof.
  intros [Ho He Hset Hsep _ _]. unfold unassembled_bytes.
  set (m := List.filter (fun e => write_ptr r <? e.1) (stream r)).
  assert (total m = zlen (List.filter (storedb m) (seqZ 0 (zlen S)))) as Ht.
  { apply total_count; [by apply separated_filter|]. apply Forall_forall. intros e Hin.
    apply list_elem_of_In, filter_In in Hin as [Hin _]. rewrite Forall_forall in He.
    apply list_elem_of_In in Hin. destruct (He _ Hin) as [? [? | [(? & ? & _) _]]]; auto with lia. }
  assert (total m <= zlen S) as Hle.
  { rewrite Ht. unfold zlen at 1. pose proof (List.filter_length_le (storedb m) (seqZ 0 (zlen S))) as Hf.
    rewrite length_seqZ in Hf. unfold zlen in *. lia. }
  destruct Ho. pose proof (zlen_nonneg S).
  rewrite unassembled_fold; fold m; [|lia|lia]. rewrite Ht, Z.add_0_l. f_equal.
  apply List.filter_ext. intros i. by apply stored_after.
Qed.
End counting.

(** * Pushes that are stored as they are *)

(** A push that ends inside the window, or starts beyond it: nothing is cut off. *)
Lemma push_kept r data index m out wp :
  let limit := bytes_read (_output r) + _capacity r in
  0 <= index -> index + zlen data < 2 ^ 64 -> 0 <= limit < 2 ^ 64 ->
  index + zlen data <= limit \/ limit < index -> eof_f r = false ->
  assemble_loop (store (stream r) index data) (_output r) (write_ptr r) = Ok (m, out, wp) -> merge_loop m = Ok m ->
  push_substring r data index false
  = Ok {| _output := out; _capacity := _capacity r; read_ptr := bytes_read (_output r); write_ptr := wp;
          eof_index := eof_index r; eof_f := false; stream := m |}.
Proof.
  intros limit H0 H64 Hl Hcase He Ha Hm. pose proof (zlen_nonneg data). unfold push_substring, clip. fold limit.
  assert ((if to_u64 limit <? to_u64 (index + zlen data)
    then ndata ← substr data 0 (to_u64 (to_u64 limit - index)); Ok (ndata, eof_index r, eof_f r)
    else Ok (data, eof_index r, eof_f r)) = Ok (data, eof_index r, eof_f r)) as ->.
  { rewrite !(to_u64_small limit), to_u64_small by lia. case_if; [|done]. rewrite substr_ok by lia. cbn [mbind outcome_bind].
    replace (Z.min _ _) with (zlen data) by word_lia. by rewrite slice_full. }
  cbn [mbind outcome_bind]. rewrite Ha. cbn [mbind outcome_bind]. rewrite Hm. cbn [mbind outcome_bind].
  by rewrite He, andb_false_r.
Qed.

(** The entry at the write pointer is written. *)
Lemma assemble_next S out wp e m :
  0 <= wp < e -> e <= zlen S -> e < 2 ^ 64 ->
  assemble_loop ((wp, slice S wp e) :: m) out wp = assemble_loop m (ByteStream.write out (slice S wp e)).2 e.
Proof.
  intros Hwp He H64. cbn [assemble_loop]. assert (zlen (slice S wp e) = e - wp) as Hz by (rewrite zlen_slice; lia).
  rewrite Hz, Z.leb_refl. replace (wp + (e - wp)) with e by lia. rewrite (to_u64_small e) by lia.
  replace (wp <? e) with true by lia. rewrite Z.sub_diag. change (to_u64 0) with 0. rewrite substr_ok by lia.
  cbn [mbind outcome_bind]. rewrite Hz. replace (Z.min _ _) with (e - wp) by (unfold npos; lia).
  rewrite <- Hz, slice_full. done.
Qed.

(** The loop ends at an entry beyond the write pointer. *)
Lemma assemble_stop k s m out wp : wp < k -> assemble_loop ((k, s) :: m) out wp = Ok ((k, s) :: m, out, wp).
Proof. intros Hk. cbn [assemble_loop]. by replace (k <=? wp) with false by lia. Qed.

Lemma store_front m k s : Forall (fun e => k < e.1) m -> store m k s = (k, s) :: m.
Proof.
  intros Hm. unfold store. destruct (map_find k m) as [old|] eqn:E.
  - apply map_find_Some in E. rewrite Forall_forall in Hm. specialize (Hm _ E). simpl in Hm. lia.
  - destruct m as [|[k' s'] m]; [done|]. apply Forall_inv in Hm. simpl in *. by replace (k <? k') with true by lia.
Qed.

(** * Entries that are never erased *)

Lemma unassembled_below r : Forall (fun e => e.1 <= write_ptr r) (stream r) -> unassembled_bytes r = 0.
Proof.
  unfold unassembled_bytes. induction 1 as [|e m He _ IH]; simpl; [done|]. case_if; [lia | done].
Qed.

Section stale.
Context (S : bytes).
Implicit Types m : list (Z * bytes).

(** One entry for each of the first [k] bytes of [S]. *)
Definition stale (k : Z) : list (Z * bytes) := map (fun j => (j, slice S j (j + 1))) (seqZ 0 k).

Lemma stale_succ k : 0 <= k -> stale (k + 1) = stale k ++ [(k, slice S k (k + 1))].
Proof.
  intros Hk. unfold stale. rewrite (seqZ_app 0 k 1) by lia. rewrite map_app. done.
Qed.

Lemma stale_Forall (P : Z * bytes -> Prop) k :
  (forall j, 0 <= j < k -> P (j, slice S j (j + 1))) -> Forall P (stale k).
Proof.
  intros HP. unfold stale. apply Forall_map, Forall_forall. intros j Hj%elem_of_seqZ. apply HP. lia.
Qed.

Lemma assemble_skip m rest out wp :
  wp < 2 ^ 64 -> Forall (fun e => 0 <= e.1 /\ e.1 + zlen e.2 <= wp) m ->
  assemble_loop (m ++ rest) out wp
  = ('(m', out', wp') ← assemble_loop rest out wp; Ok (m ++ m', out', wp')).
Proof.
  intros Hwp. induction m as [|[k s] m IH]; intros Hm; simpl.
  { by destruct (assemble_loop rest out wp) as [[[? ?] ?]| |]. }
  inversion Hm; subst; simpl in *. pose proof (zlen_nonneg s).
  rewrite to_u64_small by lia. replace (k <=? wp) with true by lia.
  replace (wp <? k + zlen s) with false by lia. rewrite IH by done.
  by destruct (assemble_loop rest out wp) as [[[? ?] ?]| |].
Qed.

Lemma merge_separated m :
  separated m -> Forall (fun e => 0 <= e.1 /\ e.1 + zlen e.2 < 2 ^ 64) m -> merge_loop m = Ok m.
Proof.
  destruct m as [|old m]; [done|]. simpl. revert old. induction m as [|[k s] m IH]; intros old Hs He; simpl; [done|].
  inversion He as [|? ? Ho He']; subst. destruct Hs as [Hlt Hs]. inversion Hlt; subst. simpl in *.
  pose proof (zlen_nonneg old.2). rewrite to_u64_small by lia. case_if; [lia|]. by rewrite IH.
Qed.

Lemma stale_separated n : Z.of_nat n <= zlen S -> separated (stale (Z.of_nat n)).
Proof.
  induction n as [|n IH]; intros Hn; [done|]. rewrite Nat2Z.inj_succ, <- Z.add_1_r, stale_succ by lia.
  assert (Forall (fun e => e.1 + zlen e.2 <= Z.of_nat n /\ e.1 < Z.of_nat n) (stale (Z.of_nat n))) as Hlt.
  { apply stale_Forall. intros j Hj. simpl. rewrite zlen_slice; lia. }
  specialize (IH ltac:(lia)). revert Hlt IH. generalize (stale (Z.of_nat n)) as m.
  induction m as [|e m IHm]; simpl; intros Hlt Hsep; [by split|].
  destruct Hsep as [H1 H2]. inversion Hlt; subst. split; [apply Forall_app; split; [done | constructor; [simpl; lia | done]] | by apply IHm].
Qed.

Lemma store_stale k : 0 <= k -> store (stale k) k (slice S k (k + 1)) = stale (k + 1).
Proof.
  intros Hk. assert (Forall (fun e => e.1 < k) (stale k)) as Hlt by (apply stale_Forall; simpl; lia).
  rewrite stale_succ by done. unfold store. destruct (map_find k (stale k)) as [v|] eqn:E.
  - apply map_find_Some in E. rewrite Forall_forall in Hlt. specialize (Hlt _ E). simpl in Hlt. lia.
  - by apply map_insert_max.
Qed.

(** A push whose new entry is stored last and lies within the window. *)
Lemma push_stale r k m out wp :
  0 <= k < zlen S -> zlen S + 1 < 2 ^ 64 -> stream r = stale k -> read_count (_output r) = k -> _capacity r = 1 ->
  assemble_loop (stale (k + 1)) (_output r) (write_ptr r) = Ok (m, out, wp) -> merge_loop m = Ok m ->
  (eof_f r = false) ->
  push_substring r (slice S k (k + 1)) k false
  = Ok {| _output := out; _capacity := 1; read_ptr := k; write_ptr := wp; eof_index := eof_index r;
          eof_f := false; stream := m |}.
Proof.
  intros Hk HS Hst Hrd Hcap Ha Hm He. rewrite <- store_stale, <- Hst in Ha by lia.
  rewrite (push_kept r _ k m out wp); unfold bytes_read; rewrite ?Hrd, ?Hcap, ?zlen_slice by lia; done || lia.
Qed.

(** Two pushes of the byte at [k] and a read: the second one leaves an entry behind. *)
Lemma stale_round k o r :
  0 <= k < zlen S -> zlen S + 1 < 2 ^ 64 ->
  rsteps S (stream_reassembler 1) o r -> stream r = stale k -> write_ptr r = k ->
  read_count (_output r) = k -> _capacity r = 1 -> eof_f r = false ->
  exists o' r', rsteps S (stream_reassembler 1) o' r' /\ stream r' = stale (k + 1) /\ write_ptr r' = k + 1 /\
    read_count (_output r') = k + 1 /\ _capacity r' = 1 /\ eof_f r' = false.
Proof.
  intros Hk HS Hr Hst Hwp Hrd Hcap He.
  assert (zlen (slice S k (k + 1)) = 1) as Hz by (rewrite zlen_slice; lia).
  assert (forall j, 0 <= j <= zlen S -> merge_loop (stale j) = Ok (stale j)) as Hmerge.
  { intros j Hj. apply merge_separated.
    - rewrite <- (Z2Nat.id j) by lia. apply stale_separated. lia.
    - apply stale_Forall. intros i Hi. simpl. rewrite zlen_slice; lia. }
  assert (forall j wp, 0 <= j <= wp -> wp <= zlen S -> Forall (fun e => 0 <= e.1 /\ e.1 + zlen e.2 <= wp) (stale j)) as Hall.
  { intros j wp Hj Hwp'. apply stale_Forall. intros i Hi. simpl. rewrite zlen_slice; lia. }
  assert (forall r', _capacity r' = 1 -> read_count (_output r') = k -> push_ok S r' (slice S k (k + 1)) k false) as Hok.
  { intros r' Hc' Hr'. left. unfold excerpt, window_end. rewrite Hz, Hc', Hr'. auto with lia. }
  destruct (rsteps_inv S _ _ _ Hr (r_inv_init S 1 ltac:(lia) ltac:(lia))) as (Hi & _).
  assert (exists r1, push_substring r (slice S k (k + 1)) k false = Ok r1 /\ stream r1 = stale k /\
    write_ptr r1 = k + 1 /\ _capacity r1 = 1 /\ eof_f r1 = false) as (r1 & E1 & Hst1 & Hwp1 & Hcap1 & He1).
  { eexists. split; [apply push_stale; try done; [|apply (Hmerge k); lia] | done].
    rewrite stale_succ, Hwp, assemble_skip by (lia || apply Hall; lia). cbn [assemble_loop].
    rewrite Hz, to_u64_small, Z.leb_refl by lia. replace (k <? k + 1) with true by lia.
    rewrite Z.sub_diag, substr_ok by (change (to_u64 0) with 0; lia). cbn [mbind outcome_bind]. by rewrite app_nil_r. }
  destruct (push_substring_spec S r _ _ _ Hi (Hok r Hcap Hrd)) as (r1' & E1' & [Hi1 _ Hrd1 _ _ _ _]).
  rewrite E1 in E1'. apply Ok_inj in E1'. subst r1'. rewrite Hrd in Hrd1.
  assert (push_substring r1 (slice S k (k + 1)) k false
    = Ok {| _output := _output r1; _capacity := 1; read_ptr := k; write_ptr := k + 1;
            eof_index := eof_index r1; eof_f := false; stream := stale (k + 1) |}) as E2.
  { apply push_stale; try done; [|apply Hmerge; lia].
    rewrite <- (app_nil_r (stale (k + 1))) at 1. rewrite Hwp1, assemble_skip by (lia || apply Hall; lia).
    simpl. by rewrite app_nil_r. }
  set (r2 := {| _output := _output r1 |}) in E2.
  destruct (push_substring_spec S r1 _ _ _ Hi1 (Hok r1 Hcap1 Hrd1)) as (r2' & E2' & [Hi2 _ _ _ _ _ _]).
  rewrite E2 in E2'. apply Ok_inj in E2'. subst r2'.
  destruct (read_spec S r2 1 Hi2 ltac:(lia)) as (out & E3 & Hi3 & Hrd3 & _).
  assert (zlen (bts (_output r2)) = 1) as Hbuf.
  { rewrite (oi_bytes _ _ _ _ (ri_out _ _ Hi2)). simpl. rewrite Hrd1, Hz. done. }
  unfold buffer_size, bytes_read in Hrd3. rewrite Hbuf in Hrd3. simpl in Hrd3.
  eexists _, (set_stream_out r2 out). split; [|simpl; rewrite Hrd3, Hrd1; done].
  eapply rsteps_snoc; [eapply rsteps_snoc; [eapply rsteps_snoc; [exact Hr|]|]|].
  - by eapply rstep_push; [apply Hok|].
  - by eapply rstep_push; [apply Hok|].
  - eapply (rstep_read _ _ 1); [lia | exact E3].
Qed.

Lemma stale_run n :
  zlen S + 1 < 2 ^ 64 -> Z.of_nat n <= zlen S ->
  exists o r, rsteps S (stream_reassembler 1) o r /\ stream r = stale (Z.of_nat n) /\ write_ptr r = Z.of_nat n /\
    read_count (_output r) = Z.of_nat n /\ _capacity r = 1 /\ eof_f r = false.
Proof.
  intros HS. induction n as [|n IH]; intros Hn.
  { eexists _, _. split; [constructor|]. done. }
  destruct IH as (o & r & Hr & ? & ? & ? & ? & ?); [lia|].
  rewrite Nat2Z.inj_succ, <- Z.add_1_r. eapply stale_round; try done; lia.
Qed.

Lemma stale_bytes n : Z.of_nat n <= zlen S -> zlen (concat (map snd (stale (Z.of_nat n)))) = Z.of_nat n.
Proof.
  induction n as [|n IH]; intros Hn; [done|]. rewrite Nat2Z.inj_succ, <- Z.add_1_r, stale_succ by lia.
  rewrite map_app, concat_app, zlen_app, IH by lia. simpl. rewrite app_nil_r, zlen_slice; lia.
Qed.
End stale.

(** * Properties *)

(** C6: in-order delivery. Whatever excerpts of a byte stream [S] are pushed, in any order,
    with repetitions and overlaps, as long as none starts beyond the window ([push_ok];
    empty strings may have any index), and whatever reads are interleaved with them,
    the bytes delivered to the reader followed by the bytes buffered in the output are a
    prefix of [S]: the one whose length is [bytes_written]. *)
Theorem reassembler_in_order S cap o r :
  0 <= cap -> zlen S + cap < 2 ^ 64 -> rsteps S (stream_reassembler cap) o r ->
  o ++ bts (_output r) = slice S 0 (bytes_written (_output r)) /\
  zlen (bts (_output r)) <= cap.
Proof.
  intros Hc Hlen Hr. destruct (delivered_prefix S cap o r Hc Hlen Hr) as [Hi Ho].
  split; [done|]. destruct (rsteps_inv S _ _ _ Hr (r_inv_init S cap Hc Hlen)) as (_ & Hcap & _).
  destruct (ri_out _ _ Hi) as [_ Hb _ _ ? ? ?]. rewrite Hb, zlen_slice by lia.
  simpl in Hcap. lia.
Qed.

Lemma reassembler_in_order_witness :
  exists r, rsteps (str "abcd") (stream_reassembler 8) [] r /\
    bts (_output r) = str "abcd" /\ bts (_output r) = slice (str "abcd") 0 (bytes_written (_output r)).
Proof.
  eassert (rsteps (str "abcd") (stream_reassembler 8) [] _) as Hr.
  { eapply (rsteps_snoc _ _ [] _ []); [eapply (rsteps_snoc _ _ [] _ []); [constructor|]|].
    - eapply (rstep_push _ _ (str "cd") 2 true); [left; by_compute | vm_compute; reflexivity].
    - eapply (rstep_push _ _ (str "abc") 0 false); [left; by_compute | vm_compute; reflexivity]. }
  eexists. split; [exact Hr|]. split; [reflexivity|].
  apply (reassembler_in_order (str "abcd") 8 [] _ ltac:(lia) ltac:(vm_compute; reflexivity) Hr).
Defined.

(** C7: one push is total and exact. In every state reached by such pushes and reads,
    pushing an excerpt that does not start beyond the window (or an empty string) returns
    normally; exactly its bytes inside the window become known in addition; and the
    assembled length is the first index that is not known, so no assembled byte is withheld.
    *)
Theorem push_exact S cap o r data index eof :
  0 <= cap -> zlen S + cap < 2 ^ 64 -> rsteps S (stream_reassembler cap) o r ->
  push_ok S r data index eof ->
  exists r', push_substring r data index eof = Ok r' /\
    (forall i, 0 <= i -> known r' i <->
       known r i \/ index <= i < Z.min (index + zlen data) (bytes_read (_output r) + _capacity r)) /\
    (forall i, 0 <= i -> (forall j, 0 <= j <= i -> known r' j) <-> i < bytes_written (_output r')).
Proof.
  intros Hc Hlen Hr Hp. destruct (delivered_prefix S cap o r Hc Hlen Hr) as [Hi _].
  destruct (push_substring_spec S r data index eof Hi Hp) as (r' & E & [Hi' Hk _ _ _ _ _]).
  exists r'. split; [done|]. split; [done|]. intros i H0.
  rewrite (first_missing S r' i Hi' H0). unfold bytes_written.
  by rewrite (oi_written _ _ _ _ (ri_out _ _ Hi')).
Qed.

Lemma push_exact_witness :
  exists r', push_substring (stream_reassembler 3) (str "bcd") 1 true = Ok r' /\
    (forall i, 0 <= i -> known r' i <-> known (stream_reassembler 3) i \/ 1 <= i < Z.min (1 + 3) (0 + 3)).
Proof.
  destruct (push_exact (str "abcd") 3 [] (stream_reassembler 3) (str "bcd") 1 true)
    as (r' & E & Hk & _); [lia | vm_compute; reflexivity | constructor | left; by_compute |].
  exists r'. split; [exact E | exact Hk].
Defined.

(** C19: the end of the stream. In every state reached by reads and pushes of excerpts that do
    not start beyond the window, the output has ended exactly
    when the excerpt that carries the end of [S] has been accepted in full and all of
    [S] has been written; then the reader has received, or will read from the buffer,
    exactly [S]. *)
Theorem reassembler_ended S cap o r :
  0 <= cap -> zlen S + cap < 2 ^ 64 -> rsteps S (stream_reassembler cap) o r ->
  (input_ended (_output r) = true <-> eof_f r = true /\ forall i, 0 <= i < zlen S -> known r i) /\
  (input_ended (_output r) = true -> o ++ bts (_output r) = S).
Proof.
  intros Hc Hlen Hr. destruct (delivered_prefix S cap o r Hc Hlen Hr) as [Hi Ho].
  pose proof (ri_ended _ _ Hi) as Hend. destruct (ri_out _ _ Hi) as [_ _ _ Hw Hrd _ Hin].
  pose proof (zlen_nonneg S) as H0.
  split; [rewrite Hend; split; intros [He Hwp]; (split; [done|])|].
  - intros i Hr'. left. lia.
  - destruct (decide (zlen S = 0)) as [Hz|Hz]; [lia|].
    enough (zlen S - 1 < write_ptr r) by lia.
    apply (first_missing S r); [done | lia |]. intros j Hj. apply Hwp. lia.
  - intros [_ Hwp]%Hend. rewrite Ho. unfold bytes_written. rewrite Hw, Hwp. apply slice_full.
Qed.

Lemma reassembler_ended_witness :
  exists r, rsteps (str "ab") (stream_reassembler 8) [] r /\ input_ended (_output r) = true /\
    bts (_output r) = str "ab".
Proof.
  eassert (rsteps (str "ab") (stream_reassembler 8) [] _) as Hr.
  { eapply (rsteps_snoc _ _ [] _ []); [constructor|].
    eapply (rstep_push _ _ (str "ab") 0 true); [left; by_compute | vm_compute; reflexivity]. }
  eexists. split; [exact Hr|]. split; [reflexivity|].
  apply (reassembler_ended (str "ab") 8 [] _ ltac:(lia) ltac:(vm_compute; reflexivity) Hr).
  reflexivity.
Defined.

(** [unassembled_bytes] counts every stored index at or after the assembled end once,
    however often and in however many overlapping excerpts it was pushed, and the 64-bit
    sum does not overflow. *)
Lemma unassembled_bytes_counts_once S cap o r :
  0 <= cap -> zlen S + cap < 2 ^ 64 -> rsteps S (stream_reassembler cap) o r ->
  unassembled_bytes r
  = zlen (List.filter (fun i => storedb (stream r) i && (bytes_written (_output r) <=? i)) (seqZ 0 (zlen S))).
Proof.
  intros Hc Hlen Hr. destruct (delivered_prefix S cap o r Hc Hlen Hr) as [Hi _].
  rewrite (unassembled_bytes_eq S r Hi). unfold bytes_written.
  by rewrite (oi_written _ _ _ _ (ri_out _ _ Hi)).
Qed.

Lemma unassembled_bytes_counts_once_witness :
  exists r, rsteps (str "abcd") (stream_reassembler 8) [] r /\
    unassembled_bytes r = 3 /\
    unassembled_bytes r
    = zlen (List.filter (fun i => storedb (stream r) i && (bytes_written (_output r) <=? i)) (seqZ 0 4)).
Proof.
  eassert (rsteps (str "abcd") (stream_reassembler 8) [] _) as Hr.
  { eapply (rsteps_snoc _ _ [] _ []); [eapply (rsteps_snoc _ _ [] _ []); [constructor|]|].
    - eapply (rstep_push _ _ (str "cd") 2 true); [left; by_compute | vm_compute; reflexivity].
    - eapply (rstep_push _ _ (str "bc") 1 false); [left; by_compute | vm_compute; reflexivity]. }
  eexists. split; [exact Hr|]. split; [reflexivity|].
  apply (unassembled_bytes_counts_once (str "abcd") 8 [] _ ltac:(lia) ltac:(vm_compute; reflexivity) Hr).
Defined.

(** C36: the capacity does not bound what is stored. An excerpt that arrives again after it
    was assembled is stored and never erased: with a capacity of one byte, a peer that
    sends every byte twice to a reader that keeps up makes the reassembler hold a copy of
    the whole stream, although [unassembled_bytes] is zero. *)
Theorem stale_entries_unbounded S :
  zlen S + 1 < 2 ^ 64 ->
  exists o r, rsteps S (stream_reassembler 1) o r /\
    zlen (concat (map snd (stream r))) = zlen S /\ unassembled_bytes r = 0.
Proof.
  intros HS. destruct (stale_run S (Z.to_nat (zlen S)) HS) as (o & r & Hr & Hst & Hwp & _);
    [pose proof (zlen_nonneg S); lia|].
  exists o, r. split; [done|]. pose proof (zlen_nonneg S). split.
  - rewrite Hst, stale_bytes; lia.
  - apply unassembled_below. rewrite Hst, Hwp. apply stale_Forall. simpl. lia.
Qed.

Lemma stale_entries_unbounded_witness :
  exists o r, rsteps (str "abc") (stream_reassembler 1) o r /\
    zlen (concat (map snd (stream r))) = zlen (str "abc") /\ unassembled_bytes r = 0.
Proof. apply (stale_entries_unbounded (str "abc")). by_compute. Defined.

(** C37: an excerpt that starts beyond the window is not discarded: the length that it is to
    be cut to wraps around, all of it is stored, and when its turn comes the write pointer
    advances over bytes that the output has no room for. For every stream [S], every
    capacity [c] and every length [len] with [c <= len <= 2 c - 2]: if the [len] bytes at
    index [c + 1] arrive first and the excerpts before and after them arrive in order and
    inside the window, the reader gets the first [2 c] bytes of [S] and then the byte at
    index [c + 1 + len], which is not the next one. *)
Theorem beyond_window_corrupts S c len :
  2 <= c -> c <= len <= 2 * c - 2 -> c + 2 + len <= zlen S -> zlen S + c < 2 ^ 64 ->
  beyond_window S c len = Ok (slice S 0 (2 * c) ++ slice S (c + 1 + len) (c + 2 + len)) /\ 2 * c < c + 1 + len.
Proof.
  intros Hc Hlen HS H64. split; [|lia]. unfold beyond_window, read_out.
  set (d := slice S (c + 1) (c + 1 + len)). set (q := slice S (c + 1 + len) (c + 2 + len)).
  set (e := slice S c (c + 1)).
  assert (zlen d = len /\ zlen q = 1 /\ zlen e = 1 /\ zlen (slice S 0 c) = c) as (Hd & Hq & He & Ha)
    by (unfold d, q, e; rewrite !zlen_slice by lia; lia).
  assert (out_inv S c (byte_stream c) 0) as Ho0 by (by constructor; simpl; try lia).
  rewrite (push_kept (stream_reassembler c) d (c + 1) [(c + 1, d)] (byte_stream c) 0);
    [cbn [mbind outcome_bind] | simpl; lia.. | done | by rewrite store_front, assemble_stop by (simpl; lia || done) | done].
  destruct (out_inv_write S c (byte_stream c) 0 c Ho0) as (Ho1 & Hr1 & _); simpl; try lia.
  set (out1 := (ByteStream.write _ (slice S 0 c)).2) in *.
  rewrite (push_kept _ (slice S 0 c) 0 [(c + 1, d)] out1 c);
    [cbn [mbind outcome_bind] | simpl; lia.. | done | | done].
  2: { cbn [stream _output write_ptr]. rewrite store_front by (repeat constructor; simpl; lia).
       by rewrite assemble_next, assemble_stop by lia. }
  destruct (out_inv_drain S c out1 c Ho1) as (out2 & E2 & Ho2 & Hr2).
  cbn [_output]. rewrite E2, Hr1. cbn [mbind outcome_bind].
  destruct (out_inv_write S c out2 c (c + 1) Ho2) as (Ho3 & Hr3 & _); try lia. fold e in Ho3, Hr3.
  destruct (out_inv_write_some S c _ (c + 1) (c + 1 + len) Ho3) as (Ho4 & Hr4 & _); try lia. fold d in Ho4, Hr4.
  set (out4 := (ByteStream.write _ d).2) in *. rewrite Hr3, Hr2, Z.min_r in Ho4 by lia.
  rewrite (push_kept _ e c [] out4 (c + 1 + len));
    [cbn [mbind outcome_bind] | unfold bytes_read; simpl; rewrite ?Hr2, ?He; lia.. | done | | done].
  2: { cbn [set_stream_out stream _output write_ptr]. rewrite store_front by (repeat constructor; simpl; lia).
       unfold e, d. by rewrite !assemble_next by lia. }
  destruct (out_inv_drain S c out4 _ Ho4) as (out5 & E5 & Ho5 & Hr5).
  cbn [_output]. rewrite E5, Hr4, Hr3, Hr2. cbn [mbind outcome_bind].
  rewrite (push_kept _ q (c + 1 + len) [] (ByteStream.write out5 q).2 (c + 2 + len));
    [cbn [mbind outcome_bind] | unfold bytes_read; simpl; rewrite ?Hr5, ?Hq; lia.. | done | | done].
  2: { cbn [set_stream_out stream _output write_ptr]. rewrite store_front by constructor.
       unfold q. by rewrite assemble_next by lia. }
  destruct (write_then_read S c out5 _ q Ho5 Hr5) as (out6 & E6); [lia | lia |].
  cbn [_output]. rewrite E6. cbn [mbind outcome_bind].
  rewrite app_assoc, slice_app by (simpl; lia). by replace (c + c) with (2 * c) by lia.
Qed.

Lemma beyond_window_corrupts_witness :
  beyond_window (str "abcdexyzwuvQRS") 4 6 = Ok (str "abcdexyz" ++ str "Q").
Proof. apply (beyond_window_corrupts (str "abcdexyzwuvQRS") 4 6); by_compute. Defined.
