(* ===== verification/Buffer.v ===== *)
(** Reference-counted strings and lists of them: util/buffer.hh and util/buffer.cc.
    A [Buffer] is a shared, immutable string with a starting offset; sharing is not
    visible because nothing writes to the string, so [_storage] is the pointed-to value.
    [BufferList] and [BufferViewList] are the discontiguous strings built from them.
    The theorems say that every operation acts on the byte string a value denotes
    ([str_of], [concatenate], [views_concat]) and when it throws. *)
From S2P Require Import Prelude.

Record Buffer := { _storage : option bytes; _starting_offset : Z }.

(** [Buffer()] and [Buffer(std::string &&)]. *)
Definition buffer_default : Buffer := {| _storage := None; _starting_offset := 0 |}.
Definition buffer_of (s : bytes) : Buffer := {| _storage := Some s; _starting_offset := 0 |}.

(** [Buffer::str]. *)
Definition str_of (b : Buffer) : bytes :=
  match _storage b with
  | None => []
  | Some s => slice s (_starting_offset b) (zlen s)
  end.

(** [Buffer::at]: [std::string_view::at] throws beyond the end. *)
Definition at_ (b : Buffer) (n : Z) : outcome Z :=
  match str_of b !! Z.to_nat n with
  | Some c => Ok (byte.unsigned c)
  | None => Throw out_of_range
  end.

Definition buf_size (b : Buffer) : Z := zlen (str_of b).
Definition copy (b : Buffer) : bytes := str_of b.

(** [Buffer::remove_prefix]: the storage is released when the offset reaches its end. *)
Definition remove_prefix (b : Buffer) (n : Z) : outcome Buffer :=
  if zlen (str_of b) <? n then Throw out_of_range
  else
    let off := to_u64 (_starting_offset b + n) in
    match _storage b with
    | Some s =>
        if off =? zlen s then Ok {| _storage := None; _starting_offset := off |}
        else Ok {| _storage := Some s; _starting_offset := off |}
    | None => Ok {| _storage := None; _starting_offset := off |}
    end.

(** [BufferList]. *)
Record BufferList := { _buffers : list Buffer }.

Definition buffer_list_default : BufferList := {| _buffers := [] |}.
Definition buffer_list_of_buffer (b : Buffer) : BufferList := {| _buffers := [b] |}.

(** The loop of [BufferList::append], one [push_back] per buffer of [other]. *)
Definition append (l other : BufferList) : BufferList :=
  {| _buffers := fold_left (fun acc b => acc ++ [b]) (_buffers other) (_buffers l) |}.

(** [BufferList(std::string &&)]. *)
Definition buffer_list_of (s : bytes) : BufferList :=
  append buffer_list_default (buffer_list_of_buffer (buffer_of s)).

(** [BufferList::operator Buffer]. *)
Definition to_buffer (l : BufferList) : outcome Buffer :=
  match _buffers l with
  | [] => Ok buffer_default
  | [b] => Ok b
  | _ => Throw (runtime_error (str "BufferList: please use concatenate() to combine a multi-Buffer BufferList into one Buffer"))
  end.

Definition concatenate (l : BufferList) : bytes :=
  fold_left (fun acc b => acc ++ str_of b) (_buffers l) [].

Definition list_size (l : BufferList) : Z :=
  fold_left (fun acc b => to_u64 (acc + buf_size b)) (_buffers l) 0.

(** The loop of [BufferList::remove_prefix]: every iteration removes the front buffer or
    ends the loop. *)
Fixpoint list_remove_loop (bs : list Buffer) (n : Z) : outcome (list Buffer) :=
  if n <=? 0 then Ok bs
  else
    match bs with
    | [] => Throw out_of_range
    | b :: bs' =>
        if n <? zlen (str_of b) then b' ← remove_prefix b n; Ok (b' :: bs')
        else list_remove_loop bs' (n - zlen (str_of b))
    end.

Definition list_remove_prefix (l : BufferList) (n : Z) : outcome BufferList :=
  bs ← list_remove_loop (_buffers l) n;
  Ok {| _buffers := bs |}.

(** [BufferViewList]: a list of [std::string_view]s, each the bytes it shows. *)
Record BufferViewList := { _views : list bytes }.

Definition view_list_of (s : bytes) : BufferViewList := {| _views := [s] |}.

Definition view_list_of_buffers (l : BufferList) : BufferViewList :=
  {| _views := fold_left (fun acc b => acc ++ [str_of b]) (_buffers l) [] |}.

(** The loop of [BufferViewList::remove_prefix], with [std::string_view::remove_prefix]. *)
Fixpoint view_remove_loop (vs : list bytes) (n : Z) : outcome (list bytes) :=
  if n <=? 0 then Ok vs
  else
    match vs with
    | [] => Throw out_of_range
    | v :: vs' =>
        if n <? zlen v then Ok (slice v n (zlen v) :: vs')
        else view_remove_loop vs' (n - zlen v)
    end.

Definition view_remove_prefix (l : BufferViewList) (n : Z) : outcome BufferViewList :=
  vs ← view_remove_loop (_views l) n;
  Ok {| _views := vs |}.

Definition view_size (l : BufferViewList) : Z :=
  fold_left (fun acc v => to_u64 (acc + zlen v)) (_views l) 0.

(** [BufferViewList::as_iovecs]: the base and length of every view, in order. *)
Definition as_iovecs (l : BufferViewList) : list (bytes * Z) :=
  fold_left (fun acc v => acc ++ [(v, zlen v)]) (_views l) [].

(** The byte string a view list shows. *)
Definition views_concat (l : BufferViewList) : bytes := concat (_views l).

(** The type invariant: the offset points into the storage, and sizes fit [size_t]. *)
Definition buf_wf (b : Buffer) : Prop :=
  0 <= _starting_offset b < 2 ^ 64 /\
  match _storage b with
  | Some s => _starting_offset b <= zlen s < 2 ^ 64
  | None => True
  end.

(** * Lemmas *)

Lemma buffer_of_wf s : zlen s < 2 ^ 64 -> buf_wf (buffer_of s).
Proof. pose proof (zlen_nonneg s). unfold buf_wf; simpl. lia. Qed.

Lemma buffer_default_wf : buf_wf buffer_default.
Proof. unfold buf_wf; simpl; lia. Qed.

Lemma str_of_buffer_of s : str_of (buffer_of s) = s.
Proof. unfold str_of; simpl. apply slice_full. Qed.

#[export] Hint Resolve buffer_of_wf buffer_default_wf : sponge.
#[export] Hint Rewrite str_of_buffer_of : zlen.

Lemma remove_prefix_ok b n :
  buf_wf b -> 0 <= n <= buf_size b ->
  exists b', remove_prefix b n = Ok b' /\ str_of b' = drop (Z.to_nat n) (str_of b) /\
    (_starting_offset b + n < 2 ^ 64 -> buf_wf b').
Proof.
  unfold buf_wf, buf_size, remove_prefix, str_of. destruct b as [[s|] off]; simpl; intros Hwf Hn.
  - assert (zlen (slice s off (zlen s)) = zlen s - off) as Hz by (apply zlen_slice; lia).
    rewrite Hz in *. replace (zlen s - off <? n) with false by lia.
    rewrite to_u64_small by lia.
    assert (drop (Z.to_nat n) (slice s off (zlen s)) = slice s (off + n) (zlen s)) as ->.
    { rewrite !slice_drop by lia. rewrite drop_drop. f_equal. lia. }
    case_if; eexists; (split; [done|]); simpl; (split; [|lia]); [|done].
    rewrite slice_nil; [done | lia].
  - assert (n = 0) as -> by (unfold zlen in Hn; simpl in Hn; lia).
    eexists. split; [done|]. simpl. split; [done|]. rewrite to_u64_small; lia.
Qed.

Lemma remove_prefix_throws b n : buf_size b < n -> remove_prefix b n = Throw out_of_range.
Proof. unfold buf_size, remove_prefix. intros. case_if; [done | lia]. Qed.

Lemma at_ok b n c : str_of b !! Z.to_nat n = Some c -> at_ b n = Ok (byte.unsigned c).
Proof. unfold at_. by intros ->. Qed.

Lemma fold_snoc {A B} (f : A -> B) (l : list A) acc :
  fold_left (fun acc a => acc ++ [f a]) l acc = acc ++ (f <$> l).
Proof.
  revert acc; induction l as [|a l IH]; intros acc; simpl; [by rewrite app_nil_r|].
  rewrite IH, <- app_assoc. done.
Qed.

Lemma append_eq l other : _buffers (append l other) = _buffers l ++ _buffers other.
Proof. unfold append; simpl. rewrite (fold_snoc id). by rewrite list_fmap_id. Qed.

Lemma fold_concat {A} (f : A -> bytes) (l : list A) acc :
  fold_left (fun acc a => acc ++ f a) l acc = acc ++ concat (f <$> l).
Proof.
  revert acc; induction l as [|a l IH]; intros acc; simpl; [by rewrite app_nil_r|].
  rewrite IH, <- app_assoc. done.
Qed.

Lemma concatenate_eq l : concatenate l = concat (str_of <$> _buffers l).
Proof. unfold concatenate. by rewrite fold_concat. Qed.

Lemma concatenate_append l other : concatenate (append l other) = concatenate l ++ concatenate other.
Proof. by rewrite !concatenate_eq, append_eq, fmap_app, concat_app. Qed.

Lemma concatenate_default : concatenate buffer_list_default = [].
Proof. done. Qed.

Lemma concatenate_of_buffer b : concatenate (buffer_list_of_buffer b) = str_of b.
Proof. done. Qed.

Lemma concatenate_of s : concatenate (buffer_list_of s) = s.
Proof.
  unfold buffer_list_of. rewrite concatenate_append, concatenate_of_buffer. apply str_of_buffer_of.
Qed.

Lemma fold_size {A} (f : A -> bytes) (l : list A) acc :
  fold_left (fun acc a => to_u64 (acc + zlen (f a))) l (to_u64 acc)
  = to_u64 (acc + zlen (concat (f <$> l))).
Proof.
  revert acc; induction l as [|a l IH]; intros acc; cbn [fold_left].
  - simpl. rewrite Z.add_0_r. done.
  - rewrite fmap_cons. cbn [concat]. rewrite zlen_app.
    replace (to_u64 (to_u64 acc + zlen (f a))) with (to_u64 (acc + zlen (f a))) by word_lia.
    rewrite IH. f_equal. lia.
Qed.

Lemma drop_app_past {A} (l1 l2 : list A) n :
  zlen l1 <= n -> drop (Z.to_nat n) (l1 ++ l2) = drop (Z.to_nat (n - zlen l1)) l2.
Proof. pose proof (zlen_nonneg l1). unfold zlen in *. intros. rewrite drop_app_ge by lia. f_equal; lia. Qed.

Lemma drop_app_within {A} (l1 l2 : list A) n :
  n <= zlen l1 -> drop (Z.to_nat n) (l1 ++ l2) = drop (Z.to_nat n) l1 ++ l2.
Proof. unfold zlen in *. intros. by rewrite drop_app_le by lia. Qed.

(** Both [remove_prefix] loops: the string shown loses its first [n] bytes, and the loop
    throws when there are fewer. *)
Lemma list_remove_loop_spec bs n :
  Forall buf_wf bs -> 0 <= n ->
  if n <=? zlen (concat (str_of <$> bs))
  then exists bs', list_remove_loop bs n = Ok bs' /\
         concat (str_of <$> bs') = drop (Z.to_nat n) (concat (str_of <$> bs))
  else list_remove_loop bs n = Throw out_of_range.
Proof.
  revert n. induction bs as [|b bs IH]; intros n Hwf Hn.
  { change (zlen (concat (str_of <$> []))) with 0. simpl.
    destruct (n <=? 0) eqn:E; [|done]. replace n with 0 by lia. by exists []. }
  inversion Hwf; subst. rewrite fmap_cons. cbn [concat list_remove_loop]. rewrite zlen_app.
  set (t := concat (str_of <$> bs)) in *. pose proof (zlen_nonneg t). pose proof (zlen_nonneg (str_of b)).
  destruct (n <=? 0) eqn:E0.
  { replace n with 0 by lia. case_if; [by eexists | lia]. }
  destruct (n <? zlen (str_of b)) eqn:E1.
  - replace (n <=? _) with true by lia.
    destruct (remove_prefix_ok b n) as (b' & -> & Hs & _); [done | unfold buf_size; lia |].
    eexists. split; [done|]. rewrite fmap_cons. cbn [concat]. rewrite Hs, drop_app_within by lia. done.
  - specialize (IH (n - zlen (str_of b))). case_if.
    + replace (n - zlen (str_of b) <=? zlen t) with true in IH by lia.
      destruct IH as (bs' & -> & Hc); [done | lia |]. eexists. split; [done|].
      by rewrite drop_app_past by lia.
    + replace (n - zlen (str_of b) <=? zlen t) with false in IH by lia. apply IH; [done | lia].
Qed.

Lemma view_remove_loop_spec vs n :
  0 <= n ->
  if n <=? zlen (concat vs)
  then exists vs', view_remove_loop vs n = Ok vs' /\ concat vs' = drop (Z.to_nat n) (concat vs)
  else view_remove_loop vs n = Throw out_of_range.
Proof.
  revert n. induction vs as [|v vs IH]; intros n Hn.
  { change (zlen (concat (@nil bytes))) with 0. simpl.
    destruct (n <=? 0) eqn:E; [|done]. replace n with 0 by lia. by exists []. }
  cbn [concat view_remove_loop]. rewrite zlen_app.
  pose proof (zlen_nonneg (concat vs)). pose proof (zlen_nonneg v).
  destruct (n <=? 0) eqn:E0.
  { replace n with 0 by lia. case_if; [by eexists | lia]. }
  destruct (n <? zlen v) eqn:E1.
  - replace (n <=? _) with true by lia. eexists. split; [done|]. cbn [concat].
    by rewrite slice_drop, drop_app_within by lia.
  - specialize (IH (n - zlen v)). case_if.
    + replace (n - zlen v <=? zlen (concat vs)) with true in IH by lia.
      destruct IH as (vs' & -> & Hc); [lia|]. eexists. split; [done|].
      by rewrite drop_app_past by lia.
    + replace (n - zlen v <=? zlen (concat vs)) with false in IH by lia. apply IH; lia.
Qed.

(** * Properties *)

(** [BufferList::remove_prefix] acts on the concatenated string: it throws exactly
    when [n] exceeds the total size, and otherwise what remains concatenates to the
    string without its first [n] bytes, whatever the boundaries between the buffers. *)
Lemma list_remove_prefix_correct l n :
  Forall buf_wf (_buffers l) -> 0 <= n ->
  if n <=? zlen (concatenate l)
  then exists l', list_remove_prefix l n = Ok l' /\ concatenate l' = drop (Z.to_nat n) (concatenate l)
  else list_remove_prefix l n = Throw out_of_range.
Proof.
  intros Hwf Hn. pose proof (list_remove_loop_spec (_buffers l) n Hwf Hn) as H.
  rewrite concatenate_eq. unfold list_remove_prefix. case_if.
  - destruct H as (bs' & -> & Hc). eexists. split; [done|]. by rewrite concatenate_eq.
  - by rewrite H.
Qed.

Lemma list_remove_prefix_correct_witness :
  exists l', list_remove_prefix (append (buffer_list_of (str "ab")) (buffer_list_of (str "cd"))) 3 = Ok l'
    /\ concatenate l' = str "d".
Proof.
  apply (list_remove_prefix_correct (append (buffer_list_of (str "ab")) (buffer_list_of (str "cd"))) 3);
    [repeat constructor; by_compute | lia].
Defined.

(** [BufferViewList], the form in which buffers are handed to the system: it shows
    the bytes of the buffer list, [size] is their number (modulo [2 ^ 64]), the iovecs
    are its views with their lengths, and [remove_prefix] drops bytes from the front of
    the shown string or throws when there are too few. *)
Lemma view_list_correct l n :
  0 <= n ->
  let v := view_list_of_buffers l in
  views_concat v = concatenate l /\
  view_size v = to_u64 (zlen (concatenate l)) /\
  concat (fst <$> as_iovecs v) = concatenate l /\
  Forall (fun io => io.2 = zlen io.1) (as_iovecs v) /\
  if n <=? zlen (concatenate l)
  then exists v', view_remove_prefix v n = Ok v' /\ views_concat v' = drop (Z.to_nat n) (concatenate l)
  else view_remove_prefix v n = Throw out_of_range.
Proof.
  intros Hn v. assert (_views v = str_of <$> _buffers l) as Hv by (unfold v; simpl; by rewrite fold_snoc).
  rewrite concatenate_eq, <- Hv. clearbody v. unfold views_concat, view_size, as_iovecs.
  pose proof (fold_size id (_views v) 0) as Hsz. rewrite list_fmap_id in Hsz.
  rewrite (fold_snoc (fun v => (v, zlen v))). simpl app.
  rewrite <- list_fmap_compose. unfold compose; simpl. rewrite list_fmap_id.
  split; [done|]. split; [exact Hsz|]. split; [done|]. split; [by apply Forall_fmap, Forall_true|].
  unfold view_remove_prefix. pose proof (view_remove_loop_spec (_views v) n Hn) as H.
  destruct (n <=? zlen (concat (_views v))).
  - destruct H as (vs' & -> & Hc). by eexists.
  - by rewrite H.
Qed.

Lemma view_list_correct_witness :
  view_size (view_list_of_buffers (append (buffer_list_of (str "ab")) (buffer_list_of (str "cd")))) = 4.
Proof.
  apply (view_list_correct (append (buffer_list_of (str "ab")) (buffer_list_of (str "cd"))) 0). lia.
Defined.
