(* ===== verification/Checksum.v ===== *)
(** The Internet checksum: class InternetChecksum of util/util.hh and util/util.cc.
    [add] accumulates bytes into a 32-bit sum, alternating high and low halves of 16-bit
    words; [value] folds the carries and complements. The specification is the ones'
    complement sum: [value] is [0xffff - onesum _sum], where [onesum] is the residue
    modulo [0xffff] with the representative [0xffff] for non-zero multiples. *)
From S2P Require Import Prelude.

Record InternetChecksum := { _sum : Z; _parity : bool }.

(** The constructor. *)
Definition internet_checksum (initial_sum : Z) : InternetChecksum :=
  {| _sum := initial_sum; _parity := false |}.

(** One iteration of the loop of [add]. *)
Definition add_byte (c : InternetChecksum) (b : Init.Byte.byte) : InternetChecksum :=
  let val := to_u16 (byte.unsigned b) in
  let val := if negb (_parity c) then to_u16 (Z.shiftl val 8) else val in
  {| _sum := to_u32 (_sum c + val); _parity := negb (_parity c) |}.

Definition add (c : InternetChecksum) (data : bytes) : InternetChecksum :=
  fold_left add_byte data c.

(** The loop of [value]; [fuel] bounds its iterations. *)
Fixpoint fold_carries (fuel : nat) (ret : Z) : option Z :=
  if 0xffff <? ret then
    match fuel with
    | O => None
    | S fuel' => fold_carries fuel' (to_u32 (Z.shiftr ret 16 + Z.land ret 0xffff))
    end
  else Some ret.

(** Two iterations are enough for every 32-bit sum ([fold_carries_enough]). *)
Definition value (c : InternetChecksum) : Z :=
  match fold_carries 2 (_sum c) with
  | Some ret => to_u16 (Z.lnot ret)
  | None => 0
  end.

(** * Specification *)

(** The sum of the 16-bit big-endian words of [data]; [parity] says that the first byte
    is the low half of its word. *)
Fixpoint word_sum (parity : bool) (data : bytes) : Z :=
  match data with
  | [] => 0
  | b :: data' => (if parity then byte.unsigned b else byte.unsigned b * 256) + word_sum (negb parity) data'
  end.

(** The ones' complement sum of a non-negative number. *)
Definition onesum (n : Z) : Z := if n =? 0 then 0 else 1 + (n - 1) mod 0xffff.

(** * Lemmas *)

Lemma word_sum_nonneg p data : 0 <= word_sum p data.
Proof.
  revert p; induction data as [|b data IH]; intros p; simpl; [lia|].
  specialize (IH (negb p)). pose proof (byte.unsigned_range b). destruct p; lia.
Qed.

Lemma word_sum_bound p data : word_sum p data <= 65280 * zlen data.
Proof.
  revert p; induction data as [|b data IH]; intros p; simpl; [done|].
  specialize (IH (negb p)). rewrite zlen_cons. pose proof (byte.unsigned_range b). destruct p; lia.
Qed.

Lemma word_sum_app p d1 d2 :
  word_sum p (d1 ++ d2) = word_sum p d1 + word_sum (xorb p (Z.odd (zlen d1))) d2.
Proof.
  revert p; induction d1 as [|b d1 IH]; intros p.
  { simpl. rewrite xorb_false_r. done. }
  cbn [app word_sum]. rewrite IH, zlen_cons, Z.odd_add. change (Z.odd 1) with true.
  replace (xorb (negb p) (Z.odd (zlen d1))) with (xorb p (xorb true (Z.odd (zlen d1))))
    by (destruct p, (Z.odd (zlen d1)); done). lia.
Qed.

Lemma add_byte_eq c b :
  add_byte c b =
  {| _sum := to_u32 (_sum c + (if _parity c then byte.unsigned b else byte.unsigned b * 256));
     _parity := negb (_parity c) |}.
Proof.
  unfold add_byte. pose proof (byte.unsigned_range b). f_equal. f_equal. f_equal.
  rewrite (to_u16_small (byte.unsigned b)) by lia.
  destruct (_parity c); simpl; [done|]. rewrite Z.shiftl_mul_pow2 by lia.
  rewrite to_u16_small; lia.
Qed.

Lemma add_eq c data :
  0 <= _sum c < 2 ^ 32 ->
  add c data = {| _sum := to_u32 (_sum c + word_sum (_parity c) data);
                  _parity := xorb (_parity c) (Z.odd (zlen data)) |}.
Proof.
  unfold add. revert c; induction data as [|b data IH]; intros c Hc.
  { simpl. rewrite xorb_false_r, Z.add_0_r, to_u32_small by lia. by destruct c. }
  cbn [fold_left word_sum]. rewrite IH by (rewrite add_byte_eq; simpl; auto with sponge).
  rewrite add_byte_eq, zlen_cons, Z.odd_add. cbn [_sum _parity]. change (Z.odd 1) with true.
  f_equal; [word_lia|]. destruct (_parity c), (Z.odd (zlen data)); done.
Qed.

Lemma add_app c d1 d2 : add (add c d1) d2 = add c (d1 ++ d2).
Proof. unfold add. by rewrite fold_left_app. Qed.

Lemma fold_step ret :
  0 <= ret < 2 ^ 32 ->
  to_u32 (Z.shiftr ret 16 + Z.land ret 0xffff) = ret / 65536 + ret mod 65536.
Proof.
  intros. rewrite Z.shiftr_div_pow2 by lia. change 0xffff with (Z.ones 16).
  rewrite Z.land_ones by lia. change (2 ^ 16) with 65536. apply to_u32_small.
  Z.to_euclidean_division_equations; lia.
Qed.

Lemma onesum_step ret :
  0 <= ret -> 65535 < ret -> onesum (ret / 65536 + ret mod 65536) = onesum ret.
Proof.
  intros. unfold onesum. rewrite !(proj2 (Z.eqb_neq _ _)) by (Z.to_euclidean_division_equations; lia).
  f_equal. pose proof (Z.div_mod ret 65536).
  replace (ret - 1) with (ret / 65536 + ret mod 65536 - 1 + (ret / 65536) * 65535) by lia.
  by rewrite Z_mod_plus_full.
Qed.

Lemma onesum_small ret : 0 <= ret <= 65535 -> onesum ret = ret.
Proof. intros. unfold onesum. case_if; [lia|]. rewrite Z.mod_small; lia. Qed.

(** The loop ends after at most two iterations and computes the ones' complement sum. *)
Lemma fold_carries_enough ret : 0 <= ret < 2 ^ 32 -> fold_carries 2 ret = Some (onesum ret).
Proof.
  intros H. cbn [fold_carries]. case_if; [|by rewrite onesum_small by lia].
  rewrite fold_step by lia. rewrite <- onesum_step by lia.
  assert (0 <= ret / 65536 + ret mod 65536 <= 131070) by (Z.to_euclidean_division_equations; lia).
  set (r := ret / 65536 + ret mod 65536) in *. clearbody r.
  case_if; [|by rewrite onesum_small by lia].
  rewrite fold_step by lia. rewrite <- onesum_step by lia.
  assert (0 <= r / 65536 + r mod 65536 <= 65535) by (Z.to_euclidean_division_equations; lia).
  case_if; [lia|]. by rewrite onesum_small by lia.
Qed.

Lemma onesum_range n : 0 <= n -> 0 <= onesum n <= 65535.
Proof. intros. unfold onesum. case_if; Z.to_euclidean_division_equations; lia. Qed.

Lemma value_eq c : 0 <= _sum c < 2 ^ 32 -> value c = 0xffff - onesum (_sum c).
Proof.
  intros Hc. unfold value. rewrite fold_carries_enough by done.
  pose proof (onesum_range (_sum c)). rewrite <- (Z.add_0_r (Z.lnot _)).
  unfold to_u16. rewrite Z.add_0_r. pose proof (Z.add_lnot_diag (onesum (_sum c))).
  Z.to_euclidean_division_equations; lia.
Qed.

(** A sum completed with the complement of its ones' complement sum is all ones. *)
Lemma onesum_complete n : 0 <= n -> onesum (n + (0xffff - onesum n)) = 0xffff.
Proof.
  intros. pose proof (onesum_range n). unfold onesum at 1. case_if.
  - unfold onesum in *. revert Hif. case_if; Z.to_euclidean_division_equations; lia.
  - unfold onesum in *. revert Hif. case_if; intros; Z.to_euclidean_division_equations; lia.
Qed.

(** The checksum of [data], with the 32-bit accumulator discharged. *)
Lemma checksum_value initial data :
  0 <= initial -> initial + 65280 * zlen data < 2 ^ 32 ->
  value (add (internet_checksum initial) data) = 0xffff - onesum (initial + word_sum false data).
Proof.
  intros Hi Hb. pose proof (word_sum_nonneg false data). pose proof (word_sum_bound false data).
  pose proof (zlen_nonneg data).
  rewrite add_eq by (simpl; lia). rewrite value_eq by (simpl; auto with sponge).
  simpl. by rewrite to_u32_small by lia.
Qed.

Lemma word_sum_pair hi lo post :
  word_sum false (hi :: lo :: post) = byte.unsigned hi * 256 + byte.unsigned lo + word_sum false post.
Proof. simpl. lia. Qed.

Lemma word_sum_even pre post :
  Z.even (zlen pre) = true -> word_sum false (pre ++ post) = word_sum false pre + word_sum false post.
Proof. intros He. rewrite word_sum_app. by rewrite <- Z.negb_even, He. Qed.

(** Writing the checksum into its (zeroed, word-aligned) field makes the total zero. *)
Lemma checksum_completes initial pre post hi lo :
  Z.even (zlen pre) = true -> 0 <= initial ->
  initial + 65280 * (zlen pre + 2 + zlen post) < 2 ^ 32 ->
  byte.unsigned hi * 256 + byte.unsigned lo
  = value (add (internet_checksum initial) (pre ++ byte.of_Z 0 :: byte.of_Z 0 :: post)) ->
  value (add (internet_checksum initial) (pre ++ hi :: lo :: post)) = 0.
Proof.
  intros He Hi Hb Hck.
  rewrite checksum_value in Hck |- * by (done || (rewrite zlen_app, !zlen_cons; lia)).
  rewrite word_sum_even, word_sum_pair in Hck |- * by done.
  change (byte.unsigned (byte.of_Z 0)) with 0 in Hck. rewrite Z.mul_0_l, !Z.add_0_l in Hck.
  pose proof (word_sum_nonneg false pre). pose proof (word_sum_nonneg false post).
  set (n := initial + (word_sum false pre + word_sum false post)) in *.
  replace (initial + (word_sum false pre + _)) with (n + (0xffff - onesum n)) by lia.
  rewrite onesum_complete; lia.
Qed.

(** * Properties *)

(** C18: [value] after [add] is the ones' complement of the ones' complement sum of the
    16-bit big-endian words of the data (an odd last byte padded on the right with
    zero), and splitting the data over several [add] calls makes no difference. The
    bound keeps the 32-bit accumulator from overflowing. *)
Theorem checksum_correct initial d1 d2 :
  0 <= initial -> initial + 65280 * zlen (d1 ++ d2) < 2 ^ 32 ->
  value (add (add (internet_checksum initial) d1) d2)
  = 0xffff - onesum (initial + word_sum false (d1 ++ d2)).
Proof. intros. rewrite add_app. by apply checksum_value. Qed.

Lemma checksum_correct_witness :
  value (add (add (internet_checksum 0) (str "abc")) (str "d")) = 0xffff - onesum (0 + (0x6162 + 0x6364)).
Proof. apply (checksum_correct 0 (str "abc") (str "d")); by_compute. Defined.

(** A message that carries the checksum of itself (computed with the field zero, at
    an even offset) checks to zero, which is the receiver's test. *)
Lemma checksum_verifies initial pre post hi lo :
  Z.even (zlen pre) = true -> 0 <= initial ->
  initial + 65280 * (zlen pre + 2 + zlen post) < 2 ^ 32 ->
  byte.unsigned hi * 256 + byte.unsigned lo
  = value (add (internet_checksum initial) (pre ++ byte.of_Z 0 :: byte.of_Z 0 :: post)) ->
  value (add (internet_checksum initial) (pre ++ hi :: lo :: post)) = 0.
Proof. apply checksum_completes. Qed.

Lemma checksum_verifies_witness :
  value (add (internet_checksum 7) (str "ab" ++ byte.of_Z 0x3b :: byte.of_Z 0x32 :: str "cd")) = 0.
Proof. apply (checksum_verifies 7 (str "ab") (str "cd") (byte.of_Z 0x3b) (byte.of_Z 0x32)); by_compute. Defined.
