(* ===== verification/Parser.v ===== *)
(** Reading and writing integers in network byte order: util/parser.hh and util/parser.cc.
    The template parameter of [_parse_int] and [_unparse_int] is a value of [uint_t]; a
    parser method is a computation of the state monad [parser] over [NetParser] (with
    C++ exceptions as outcomes). The theorems give the round trip, the sticky error
    behaviour and that no call throws. *)
From S2P Require Import Prelude Buffer.

Inductive ParseResult :=
| NoError
| BadChecksum
| PacketTooShort
| WrongIPVersion
| HeaderTooShort
| TruncatedPacket
| Unsupported.

#[global] Instance ParseResult_eq_dec : EqDecision ParseResult.
Proof. solve_decision. Defined.

(** [static_cast<size_t>(r)]. *)
Definition result_index (r : ParseResult) : nat :=
  match r with
  | NoError => 0 | BadChecksum => 1 | PacketTooShort => 2 | WrongIPVersion => 3
  | HeaderTooShort => 4 | TruncatedPacket => 5 | Unsupported => 6
  end.

(** [as_string]: indexing the array of names beyond its end is undefined. *)
Definition _names : list string :=
  ["NoError"; "BadChecksum"; "PacketTooShort"; "WrongIPVersion"; "HeaderTooShort"; "TruncatedPacket"]%string.

Definition as_string (r : ParseResult) : outcome string :=
  match _names !! result_index r with
  | Some name => Ok name
  | None => Undefined
  end.

(** The integer types the templates are used at. *)
Inductive uint_t := uint8_t | uint16_t | uint32_t.

Definition sizeof (T : uint_t) : nat :=
  match T with uint8_t => 1 | uint16_t => 2 | uint32_t => 4 end.

Definition trunc (T : uint_t) : Z -> Z :=
  match T with uint8_t => to_u8 | uint16_t => to_u16 | uint32_t => to_u32 end.

Record NetParser := { _buffer : Buffer; _error : ParseResult }.

(** The constructor. *)
Definition net_parser (b : Buffer) : NetParser := {| _buffer := b; _error := NoError |}.

Definition get_error (p : NetParser) : ParseResult := _error p.
Definition set_error (p : NetParser) (res : ParseResult) : NetParser :=
  {| _buffer := _buffer p; _error := res |}.
Definition error (p : NetParser) : bool := bool_decide (get_error p <> NoError).

Definition _check_size (p : NetParser) (size : Z) : NetParser :=
  if buf_size (_buffer p) <? size then set_error p PacketTooShort else p.

(** A method of the parser: it returns a value and the parser's new state. *)
Definition parser (A : Type) : Type := NetParser -> outcome (A * NetParser).

#[global] Instance parser_ret : MRet parser := fun A a p => Ok (a, p).
#[global] Instance parser_bind : MBind parser := fun A B f c p =>
  match c p with
  | Ok (a, p') => f a p'
  | Throw e => Throw e
  | Undefined => Undefined
  end.

(** The loop of [_parse_int] over the byte positions [idx]. *)
Fixpoint parse_loop (T : uint_t) (b : Buffer) (idx : list nat) (ret : Z) : outcome Z :=
  match idx with
  | [] => Ok ret
  | i :: idx' =>
      let ret := trunc T (Z.shiftl ret 8) in
      c ← at_ b (Z.of_nat i);
      parse_loop T b idx' (trunc T (ret + to_u8 c))
  end.

Definition _parse_int (T : uint_t) : parser Z := fun p =>
  let len := sizeof T in
  let p := _check_size p (Z.of_nat len) in
  if error p then Ok (0, p)
  else
    ret ← parse_loop T (_buffer p) (seq 0 len) 0;
    b ← Buffer.remove_prefix (_buffer p) (Z.of_nat len);
    Ok (ret, {| _buffer := b; _error := _error p |}).

Definition u32 : parser Z := _parse_int uint32_t.
Definition u16 : parser Z := _parse_int uint16_t.
Definition u8 : parser Z := _parse_int uint8_t.

(** [NetParser::remove_prefix]. *)
Definition parser_remove_prefix (n : Z) : parser unit := fun p =>
  let p := _check_size p n in
  if error p then Ok (tt, p)
  else
    b ← Buffer.remove_prefix (_buffer p) n;
    Ok (tt, {| _buffer := b; _error := _error p |}).

(** The byte [_unparse_int] appends at position [i] of [len]. *)
Definition the_byte (len : nat) (val : Z) (i : nat) : Init.Byte.byte :=
  byte.of_Z (Z.land (Z.shiftr val ((Z.of_nat len - Z.of_nat i - 1) * 8)) 0xff).

Definition _unparse_int (T : uint_t) (s : bytes) (val : Z) : bytes :=
  fold_left (fun s i => s ++ [the_byte (sizeof T) val i]) (seq 0 (sizeof T)) s.

Definition unparse_u32 : bytes -> Z -> bytes := _unparse_int uint32_t.
Definition unparse_u16 : bytes -> Z -> bytes := _unparse_int uint16_t.
Definition unparse_u8 : bytes -> Z -> bytes := _unparse_int uint8_t.

(** * Specification: the big-endian bytes of a value *)

Definition be_bytes (T : uint_t) (val : Z) : bytes := the_byte (sizeof T) val <$> seq 0 (sizeof T).

(** The values of type [T]. *)
Definition in_range (T : uint_t) (val : Z) : Prop := 0 <= val < 2 ^ (8 * Z.of_nat (sizeof T)).

(** The parser has no error and the unread bytes are [rest]. *)
Record unread (p : NetParser) (rest : bytes) : Prop := {
  un_error : _error p = NoError;
  un_bytes : str_of (_buffer p) = rest;
  un_wf : buf_wf (_buffer p) /\ _starting_offset (_buffer p) + zlen rest < 2 ^ 64
}.

(** The parser has recorded [PacketTooShort], or has fewer than [k] bytes to read. *)
Definition short (k : Z) (p : NetParser) : Prop :=
  _error p = PacketTooShort \/ exists rest, unread p rest /\ zlen rest < k.

(** * Lemmas *)

(** Evaluate the closed powers of two of the goal. *)
Ltac eval_consts :=
  repeat match goal with
  | |- context [2 ^ ?k] => let v := eval vm_compute in (2 ^ k) in progress change (2 ^ k) with v
  end.

Lemma error_false p : _error p = NoError -> error p = false.
Proof. unfold error, get_error. intros ->. by rewrite bool_decide_eq_false_2 by auto. Qed.

Lemma error_true p : _error p <> NoError -> error p = true.
Proof. unfold error, get_error. intros. by rewrite bool_decide_eq_true_2. Qed.

Lemma unparse_eq T s val : _unparse_int T s val = s ++ be_bytes T val.
Proof. unfold _unparse_int, be_bytes. by rewrite fold_snoc. Qed.

Lemma be_bytes_length T val : zlen (be_bytes T val) = Z.of_nat (sizeof T).
Proof. unfold zlen, be_bytes. by rewrite length_fmap, length_seq. Qed.

#[export] Hint Rewrite unparse_eq be_bytes_length : zlen.

(** The parser is closed under consuming [n] unread bytes. *)
Lemma unread_consume p rest n :
  unread p rest -> 0 <= n <= zlen rest ->
  exists b, Buffer.remove_prefix (_buffer p) n = Ok b /\
    unread {| _buffer := b; _error := _error p |} (drop (Z.to_nat n) rest).
Proof.
  intros [He Hb [Hwf Hoff]] Hn. unfold buf_wf in *.
  destruct (remove_prefix_ok (_buffer p) n) as (b & Hr & Hs & Hw);
    [done | unfold buf_size; rewrite Hb; lia |].
  exists b. split; [done|]. constructor; simpl; [done | by rewrite Hs, Hb |].
  split; [apply Hw; lia|].
  unfold Buffer.remove_prefix in Hr. rewrite Hb in Hr. case_if_in Hr; [lia|].
  assert (_starting_offset b = _starting_offset (_buffer p) + n) as ->.
  { rewrite to_u64_small in Hr by lia. destruct (_storage (_buffer p)); [case_if_in Hr|];
      inv_outcome; done. }
  unfold zlen in *. rewrite length_drop. lia.
Qed.

Lemma byte_land_ff z : byte.unsigned (byte.of_Z (Z.land z 0xff)) = z mod 256.
Proof.
  rewrite byte.unsigned_of_Z. unfold byte.wrap. change 0xff with (Z.ones 8).
  rewrite Z.land_ones by lia. by rewrite Z.mod_mod.
Qed.

(** Reading back the bytes of a value. *)
Lemma parse_loop_be T b val rest :
  in_range T val -> str_of b = be_bytes T val ++ rest ->
  parse_loop T b (seq 0 (sizeof T)) 0 = Ok val.
Proof.
  unfold in_range. intros Hr Hs.
  destruct T; cbn [sizeof seq parse_loop] in *;
    repeat (erewrite at_ok by (rewrite Hs; reflexivity); cbn [mbind outcome_bind parse_loop]);
    f_equal; unfold the_byte; cbn [trunc]; rewrite !byte_land_ff;
    rewrite ?Z.shiftl_mul_pow2, !Z.shiftr_div_pow2 by (cbn [sizeof]; lia);
    eval_consts; cbn in Hr; word_lia.
Qed.

Lemma parse_int_ok T val rest p :
  in_range T val -> unread p (be_bytes T val ++ rest) ->
  exists p', _parse_int T p = Ok (val, p') /\ unread p' rest.
Proof.
  intros Hr Hu. pose proof (un_bytes _ _ Hu) as Hs. pose proof (zlen_nonneg rest).
  destruct (unread_consume p _ (Z.of_nat (sizeof T)) Hu) as (b & Hb & Hu').
  { rewrite zlen_app, be_bytes_length. lia. }
  unfold _parse_int, _check_size, buf_size. rewrite Hs, zlen_app, be_bytes_length.
  replace (_ + _ <? _) with false by lia.
  rewrite error_false by apply Hu. rewrite (parse_loop_be T _ val rest) by done.
  cbn [mbind outcome_bind]. rewrite Hb. cbn [mbind outcome_bind]. eexists. split; [done|].
  rewrite drop_app_length' in Hu'; [done|].
  pose proof (be_bytes_length T val). unfold zlen in *. lia.
Qed.

(** Once the parser has an error, reading returns zero and changes nothing. *)
Lemma parse_int_error T p :
  _error p = PacketTooShort -> _parse_int T p = Ok (0, p).
Proof.
  intros He. unfold _parse_int.
  assert (_check_size p (Z.of_nat (sizeof T)) = p) as ->.
  { unfold _check_size. case_if; [|done]. destruct p; simpl in *; by subst. }
  rewrite error_true; [done | congruence].
Qed.

(** Too few bytes: the value is zero and the error is recorded. *)
Lemma parse_int_short T p rest :
  unread p rest -> zlen rest < Z.of_nat (sizeof T) ->
  _parse_int T p = Ok (0, set_error p PacketTooShort).
Proof.
  intros [He Hs _] Hlt. unfold _parse_int, _check_size, buf_size. rewrite Hs.
  replace (zlen rest <? _) with true by lia. by rewrite error_true.
Qed.

Lemma remove_prefix_unread n p rest :
  unread p rest -> 0 <= n <= zlen rest ->
  exists p', parser_remove_prefix n p = Ok (tt, p') /\ unread p' (drop (Z.to_nat n) rest).
Proof.
  intros Hu Hn. destruct (unread_consume p rest n Hu Hn) as (b & Hb & Hu').
  unfold parser_remove_prefix, _check_size, buf_size. rewrite (un_bytes _ _ Hu).
  replace (zlen rest <? n) with false by lia.
  rewrite error_false by apply Hu. rewrite Hb. cbn [mbind outcome_bind]. eauto.
Qed.

Lemma remove_prefix_short n p rest :
  unread p rest -> zlen rest < n -> parser_remove_prefix n p = Ok (tt, set_error p PacketTooShort).
Proof.
  intros [He Hs _] Hlt. unfold parser_remove_prefix, _check_size, buf_size. rewrite Hs.
  replace (zlen rest <? _) with true by lia. by rewrite error_true.
Qed.

Lemma remove_prefix_error n p :
  _error p = PacketTooShort -> parser_remove_prefix n p = Ok (tt, p).
Proof.
  intros He. unfold parser_remove_prefix.
  assert (_check_size p n = p) as ->.
  { unfold _check_size. case_if; [|done]. destruct p; simpl in *; by subst. }
  rewrite error_true; [done | congruence].
Qed.

(** A fresh parser on a string. *)
Lemma unread_init b :
  buf_wf b -> _starting_offset b + zlen (str_of b) < 2 ^ 64 -> unread (net_parser b) (str_of b).
Proof. intros. by constructor. Qed.

Lemma parse_bind_ok {A B} (c : parser A) (f : A -> parser B) p a p' :
  c p = Ok (a, p') -> (mbind f c : parser B) p = f a p'.
Proof. unfold mbind, parser_bind. by intros ->. Qed.

(** Any [sizeof T] bytes are the big-endian bytes of some value. *)
Lemma be_bytes_surj T bs :
  zlen bs = Z.of_nat (sizeof T) -> exists val, in_range T val /\ bs = be_bytes T val.
Proof.
  intros Hlen. unfold in_range, be_bytes.
  assert (forall b v, byte.unsigned b = v mod 256 -> b = byte.of_Z (Z.land v 0xff)) as Hb.
  { intros b v Hv. apply byte.unsigned_inj. by rewrite byte_land_ff. }
  unfold zlen in Hlen.
  destruct T; cbn [sizeof] in *;
    [destruct bs as [|b []] | destruct bs as [|b [|b0 []]] | destruct bs as [|b [|b0 [|b1 [|b2 []]]]]];
    cbn [length] in Hlen; try lia; pose proof (byte.unsigned_range b).
  - exists (byte.unsigned b). split; [eval_consts; lia|]. cbn [seq fmap list_fmap].
    unfold the_byte. f_equal. apply Hb. rewrite Z.shiftr_div_pow2 by lia. eval_consts. word_lia.
  - pose proof (byte.unsigned_range b0).
    exists (byte.unsigned b * 256 + byte.unsigned b0). split; [eval_consts; lia|]. cbn [seq fmap list_fmap].
    unfold the_byte. repeat f_equal; apply Hb; rewrite Z.shiftr_div_pow2 by lia; eval_consts; word_lia.
  - pose proof (byte.unsigned_range b0). pose proof (byte.unsigned_range b1). pose proof (byte.unsigned_range b2).
    exists (((byte.unsigned b * 256 + byte.unsigned b0) * 256 + byte.unsigned b1) * 256 + byte.unsigned b2).
    split; [eval_consts; lia|]. cbn [seq fmap list_fmap].
    unfold the_byte. repeat f_equal; apply Hb; rewrite Z.shiftr_div_pow2 by lia; eval_consts; word_lia.
Qed.

Lemma parse_int_take T p rest :
  unread p rest -> Z.of_nat (sizeof T) <= zlen rest ->
  exists val p', in_range T val /\ _parse_int T p = Ok (val, p') /\
    unread p' (drop (sizeof T) rest) /\ rest = be_bytes T val ++ drop (sizeof T) rest.
Proof.
  intros Hu Hlen. destruct (be_bytes_surj T (take (sizeof T) rest)) as (val & Hr & Hv).
  { unfold zlen in *. rewrite length_take. lia. }
  pose proof (take_drop (sizeof T) rest) as Ht. rewrite Hv in Ht. rewrite <- Ht in Hu.
  destruct (parse_int_ok T val _ p Hr Hu) as (p' & Hp & Hu'). eauto 10.
Qed.

(** The next integer of a long enough string. *)
Lemma be_split T (rest : bytes) :
  Z.of_nat (sizeof T) <= zlen rest ->
  exists val tail, in_range T val /\ rest = be_bytes T val ++ tail /\
    zlen tail = zlen rest - Z.of_nat (sizeof T).
Proof.
  intros Hlen. destruct (be_bytes_surj T (take (sizeof T) rest)) as (val & Hr & Hv).
  { unfold zlen in *. rewrite length_take. lia. }
  exists val, (drop (sizeof T) rest). split; [done|]. rewrite <- Hv, take_drop. split; [done|].
  unfold zlen in *. rewrite length_drop. lia.
Qed.

(** Reading from a parser that is short of [k] bytes. *)
Lemma parse_int_from_short T k p :
  short k p -> exists val p', _parse_int T p = Ok (val, p') /\ short (k - Z.of_nat (sizeof T)) p'.
Proof.
  intros [He | (rest & Hu & Hk)].
  { rewrite parse_int_error by done. eexists _, _. split; [done | by left]. }
  destruct (Z_lt_le_dec (zlen rest) (Z.of_nat (sizeof T))) as [Hs | Hl].
  - rewrite (parse_int_short T p rest) by done. eexists _, _. split; [done | by left].
  - destruct (parse_int_take T p rest Hu Hl) as (val & p' & _ & Hp & Hu' & _).
    exists val, p'. split; [done|]. right. eexists. split; [done|].
    unfold zlen in *. rewrite length_drop. lia.
Qed.

Lemma short_done k p : short k p -> k <= 0 -> _error p = PacketTooShort.
Proof. intros [? | (rest & _ & Hk)] ?; [done|]. pose proof (zlen_nonneg rest). lia. Qed.

(** * Properties *)

(** The round trip of the integer codecs: after [_unparse_int] has appended a value
    of type [T] to a string, [_parse_int] positioned at the end of the old string reads
    the value back and leaves exactly the bytes that follow. *)
Lemma parse_unparse_roundtrip T val rest b :
  in_range T val -> buf_wf b -> _starting_offset b + zlen (str_of b) < 2 ^ 64 ->
  str_of b = _unparse_int T [] val ++ rest ->
  exists p', _parse_int T (net_parser b) = Ok (val, p') /\
    get_error p' = NoError /\ str_of (_buffer p') = rest.
Proof.
  intros Hr Hwf Hoff Hs. rewrite unparse_eq in Hs. pose proof (unread_init b Hwf Hoff) as Hu.
  rewrite Hs in Hu. destruct (parse_int_ok T val rest _ Hr Hu) as (p' & Hp & [? ? _]). eauto.
Qed.

Lemma parse_unparse_roundtrip_witness :
  exists p', _parse_int uint32_t (net_parser (buffer_of (_unparse_int uint32_t [] 3735928559 ++ str "xy")))
    = Ok (3735928559, p') /\ get_error p' = NoError /\ str_of (_buffer p') = str "xy".
Proof.
  apply (parse_unparse_roundtrip uint32_t 3735928559 (str "xy")
           (buffer_of (_unparse_int uint32_t [] 3735928559 ++ str "xy"))); by_compute.
Defined.

(** Integer parsing is total and its error is sticky: with enough bytes it succeeds
    and consumes exactly [sizeof(T)] of them, with too few it returns 0, consumes
    nothing and records [PacketTooShort], and from then on every read returns 0 and
    changes nothing. It never throws. *)
Lemma parse_int_total T p rest :
  unread p rest ->
  (Z.of_nat (sizeof T) <= zlen rest ->
   exists val p', in_range T val /\ _parse_int T p = Ok (val, p') /\
     unread p' (drop (sizeof T) rest) /\ rest = be_bytes T val ++ drop (sizeof T) rest) /\
  (zlen rest < Z.of_nat (sizeof T) ->
   _parse_int T p = Ok (0, set_error p PacketTooShort) /\
   forall T' n, _parse_int T' (set_error p PacketTooShort) = Ok (0, set_error p PacketTooShort) /\
     parser_remove_prefix n (set_error p PacketTooShort) = Ok (tt, set_error p PacketTooShort)).
Proof.
  intros Hu. split; [by apply parse_int_take|]. intros Hlen.
  split; [by eapply parse_int_short|]. intros T' n. by rewrite parse_int_error, remove_prefix_error.
Qed.

Lemma parse_int_total_witness :
  _parse_int uint16_t (net_parser (buffer_of (str "a")))
  = Ok (0, set_error (net_parser (buffer_of (str "a"))) PacketTooShort).
Proof.
  apply (parse_int_total uint16_t (net_parser (buffer_of (str "a"))) (str "a")); by_compute.
Defined.

(** [as_string] names every result but the last: for [Unsupported], whose index is
    beyond the array of names, the lookup is undefined behaviour. *)
Lemma as_string_undefined_iff r : as_string r = Undefined <-> r = Unsupported.
Proof. destruct r; vm_compute; split; done. Qed.
