(* ===== verification/TCPHeader.v ===== *)
(** The TCP header: tcp_helpers/tcp_header.hh and tcp_helpers/tcp_header.cc.
    [parse] is a computation of the parser monad, [serialize] produces a byte string or
    throws. The theorems give the round trip for every valid header and the behaviour
    of [parse] on every input. *)
From S2P Require Import Prelude WrappingIntegers Buffer Parser.

(** [TCPHeader::LENGTH]. *)
Definition LENGTH : Z := 20.

Record TCPHeader := {
  sport : Z;
  dport : Z;
  seqno : WrappingInt32;
  ackno : WrappingInt32;
  doff : Z;
  urg : bool;
  ack : bool;
  psh : bool;
  rst : bool;
  syn : bool;
  fin : bool;
  win : Z;
  cksum : Z;
  uptr : Z
}.

(** The default member initializers. *)
Definition header_default : TCPHeader :=
  {| sport := 0; dport := 0; seqno := {| raw_value := 0 |}; ackno := {| raw_value := 0 |};
     doff := LENGTH / 4; urg := false; ack := false; psh := false; rst := false; syn := false;
     fin := false; win := 0; cksum := 0; uptr := 0 |}.

(** [static_cast<bool>(fl_b & mask)]. *)
Definition flag (fl_b mask : Z) : bool := negb (Z.land fl_b mask =? 0).

(** The reads of [parse], which assign every field. *)
Definition parse_fields : parser TCPHeader :=
  sport ← u16;
  dport ← u16;
  seqno ← u32;
  ackno ← u32;
  off ← u8;
  fl_b ← u8;
  win ← u16;
  cksum ← u16;
  uptr ← u16;
  mret {| sport := sport; dport := dport; seqno := {| raw_value := seqno |};
          ackno := {| raw_value := ackno |}; doff := to_u8 (Z.shiftr off 4);
          urg := flag fl_b 32; ack := flag fl_b 16; psh := flag fl_b 8; rst := flag fl_b 4;
          syn := flag fl_b 2; fin := flag fl_b 1; win := win; cksum := cksum; uptr := uptr |}.

(** The last statements of [parse]: the parser's error, if there is one. *)
Definition parse_result (h : TCPHeader) : parser (ParseResult * TCPHeader) := fun p =>
  Ok ((if error p then get_error p else NoError, h), p).

Definition parse : parser (ParseResult * TCPHeader) :=
  h ← parse_fields;
  if doff h <? 5 then mret (HeaderTooShort, h)
  else
    _ ← parser_remove_prefix (doff h * 4 - LENGTH);
    parse_result h.

(** The byte of flags written by [serialize]. *)
Definition flags_byte (h : TCPHeader) : Z :=
  Z.lor (Z.lor (Z.lor (Z.lor (Z.lor
    (if urg h then 32 else 0) (if ack h then 16 else 0)) (if psh h then 8 else 0))
    (if rst h then 4 else 0)) (if syn h then 2 else 0)) (if fin h then 1 else 0).

Definition serialize (h : TCPHeader) : outcome bytes :=
  if doff h <? 5 then Throw (runtime_error (str "TCP header too short"))
  else
    let ret := unparse_u16 [] (sport h) in
    let ret := unparse_u16 ret (dport h) in
    let ret := unparse_u32 ret (raw_value (seqno h)) in
    let ret := unparse_u32 ret (raw_value (ackno h)) in
    let ret := unparse_u8 ret (to_u8 (Z.shiftl (doff h) 4)) in
    let ret := unparse_u8 ret (flags_byte h) in
    let ret := unparse_u16 ret (win h) in
    let ret := unparse_u16 ret (cksum h) in
    let ret := unparse_u16 ret (uptr h) in
    Ok (resize ret (4 * doff h)).

(** [TCPHeader::operator==], which leaves out the ports and the checksum. *)
Definition header_eqb (h other : TCPHeader) : bool :=
  wi_eqb (seqno h) (seqno other) && wi_eqb (ackno h) (ackno other) && (doff h =? doff other) &&
  Bool.eqb (urg h) (urg other) && Bool.eqb (ack h) (ack other) && Bool.eqb (psh h) (psh other) &&
  Bool.eqb (rst h) (rst other) && Bool.eqb (syn h) (syn other) && Bool.eqb (fin h) (fin other) &&
  (win h =? win other) && (uptr h =? uptr other).

(** The data offset sent in a header: the high half of its thirteenth byte. *)
Definition wire_doff (rest : bytes) : Z :=
  match rest !! 12%nat with Some b => Z.shiftr (byte.unsigned b) 4 | None => 0 end.

(** A header that fits its wire format: every field in the range of its type, and the
    data offset between five words and the four bits it is sent in. *)
Record header_wf (h : TCPHeader) : Prop := {
  hw_sport : 0 <= sport h < 2 ^ 16;
  hw_dport : 0 <= dport h < 2 ^ 16;
  hw_seqno : wi_wf (seqno h);
  hw_ackno : wi_wf (ackno h);
  hw_doff : 5 <= doff h < 16;
  hw_win : 0 <= win h < 2 ^ 16;
  hw_cksum : 0 <= cksum h < 2 ^ 16;
  hw_uptr : 0 <= uptr h < 2 ^ 16
}.

(** The nine integers a header is sent as, their bytes, and the header read from them. *)
Record raw_fields := {
  f_sport : Z; f_dport : Z; f_seqno : Z; f_ackno : Z; f_off : Z; f_flags : Z;
  f_win : Z; f_cksum : Z; f_uptr : Z
}.

Definition raw_wire (f : raw_fields) : bytes :=
  be_bytes uint16_t (f_sport f) ++ be_bytes uint16_t (f_dport f) ++
  be_bytes uint32_t (f_seqno f) ++ be_bytes uint32_t (f_ackno f) ++
  be_bytes uint8_t (f_off f) ++ be_bytes uint8_t (f_flags f) ++
  be_bytes uint16_t (f_win f) ++ be_bytes uint16_t (f_cksum f) ++ be_bytes uint16_t (f_uptr f).

Definition raw_header (f : raw_fields) : TCPHeader :=
  {| sport := f_sport f; dport := f_dport f; seqno := {| raw_value := f_seqno f |};
     ackno := {| raw_value := f_ackno f |}; doff := to_u8 (Z.shiftr (f_off f) 4);
     urg := flag (f_flags f) 32; ack := flag (f_flags f) 16; psh := flag (f_flags f) 8;
     rst := flag (f_flags f) 4; syn := flag (f_flags f) 2; fin := flag (f_flags f) 1;
     win := f_win f; cksum := f_cksum f; uptr := f_uptr f |}.

Definition raw_ok (f : raw_fields) : Prop :=
  in_range uint16_t (f_sport f) /\ in_range uint16_t (f_dport f) /\
  in_range uint32_t (f_seqno f) /\ in_range uint32_t (f_ackno f) /\
  in_range uint8_t (f_off f) /\ in_range uint8_t (f_flags f) /\
  in_range uint16_t (f_win f) /\ in_range uint16_t (f_cksum f) /\ in_range uint16_t (f_uptr f).

(** The integers [serialize] writes. *)
Definition raw_of (h : TCPHeader) : raw_fields :=
  {| f_sport := sport h; f_dport := dport h; f_seqno := raw_value (seqno h);
     f_ackno := raw_value (ackno h); f_off := to_u8 (Z.shiftl (doff h) 4);
     f_flags := flags_byte h; f_win := win h; f_cksum := cksum h; f_uptr := uptr h |}.

(** * Lemmas *)

Lemma raw_wire_length f : zlen (raw_wire f) = 20.
Proof. unfold raw_wire. rewrite !zlen_app, !be_bytes_length. done. Qed.

Lemma serialize_eq h :
  5 <= doff h ->
  serialize h = Ok (raw_wire (raw_of h) ++ replicate (Z.to_nat (4 * doff h) - 20) (byte.of_Z 0)).
Proof.
  intros Hd. unfold serialize. case_if; [lia|].
  unfold unparse_u8, unparse_u16, unparse_u32. rewrite !unparse_eq, app_nil_l, <- !app_assoc.
  match goal with |- Ok (resize ?r _) = _ => change r with (raw_wire (raw_of h)) end.
  pose proof (raw_wire_length (raw_of h)).
  destruct (resize_pad (raw_wire (raw_of h)) (4 * doff h)) as [-> _]; [lia|].
  assert (length (raw_wire (raw_of h)) = 20%nat) as Hl by (unfold zlen in *; lia).
  rewrite Hl. reflexivity.
Qed.

Lemma serialize_length h s : serialize h = Ok s -> zlen s = 4 * doff h.
Proof.
  intros Hs. destruct (Z_lt_le_dec (doff h) 5).
  { unfold serialize in Hs. case_if_in Hs; [done | lia]. }
  rewrite serialize_eq in Hs by lia. inv_outcome. rewrite zlen_app, raw_wire_length.
  unfold zlen. rewrite length_replicate. lia.
Qed.

Lemma flags_byte_range h : 0 <= flags_byte h < 2 ^ 8.
Proof.
  unfold flags_byte. destruct (urg h), (ack h), (psh h), (rst h), (syn h), (fin h); vm_compute; split; done.
Qed.

Lemma flags_roundtrip h :
  flag (flags_byte h) 32 = urg h /\ flag (flags_byte h) 16 = ack h /\ flag (flags_byte h) 8 = psh h /\
  flag (flags_byte h) 4 = rst h /\ flag (flags_byte h) 2 = syn h /\ flag (flags_byte h) 1 = fin h.
Proof.
  unfold flags_byte, flag.
  destruct (urg h), (ack h), (psh h), (rst h), (syn h), (fin h); repeat split; reflexivity.
Qed.

(** One step of a chain of reads. *)
Ltac read_int :=
  match goal with
  | Hu : unread ?p (be_bytes ?T ?v ++ ?rest) |- context [mbind _ _ ?p] =>
      let p' := fresh "p" in let Hp := fresh "Hp" in let Hu' := fresh "Hu" in
      destruct (parse_int_ok T v rest p) as (p' & Hp & Hu'); [|exact Hu|];
      [|erewrite parse_bind_ok by exact Hp; clear Hu Hp]
  end.

Lemma parse_fields_raw f p rest :
  raw_ok f -> unread p (raw_wire f ++ rest) ->
  exists p', parse_fields p = Ok (raw_header f, p') /\ unread p' rest.
Proof.
  intros (? & ? & ? & ? & ? & ? & ? & ? & ?) Hu. unfold raw_wire in Hu. rewrite <- !app_assoc in Hu.
  unfold parse_fields, u8, u16, u32. do 9 (read_int; [done|]). eauto.
Qed.

Lemma raw_header_of h : header_wf h -> raw_ok (raw_of h) /\ raw_header (raw_of h) = h.
Proof.
  intros [? ? Hsq Hak Hd ? ? ?]. unfold wi_wf in *. pose proof (flags_byte_range h) as Hf.
  pose proof (to_u8_range (Z.shiftl (doff h) 4)).
  split; [unfold raw_ok, in_range; cbn [raw_of f_sport f_dport f_seqno f_ackno f_off f_flags f_win f_cksum f_uptr];
          cbn [sizeof]; eval_consts; lia|].
  unfold raw_header, raw_of; cbn [f_sport f_dport f_seqno f_ackno f_off f_flags f_win f_cksum f_uptr].
  destruct (flags_roundtrip h) as (-> & -> & -> & -> & -> & ->).
  replace (to_u8 (Z.shiftr (to_u8 (Z.shiftl (doff h) 4)) 4)) with (doff h); [by destruct h as [? ? [] []]|].
  rewrite Z.shiftl_mul_pow2, Z.shiftr_div_pow2 by lia. change (2 ^ 4) with 16.
  rewrite (to_u8_small (_ * _)), Z.div_mul, to_u8_small; lia.
Qed.

(** The header, followed by its options, is read back and skipped. *)
Lemma parse_ok f p rest :
  raw_ok f -> unread p (raw_wire f ++ rest) ->
  let d := doff (raw_header f) in
  exists p',
    if d <? 5 then parse p = Ok ((HeaderTooShort, raw_header f), p') /\ unread p' rest
    else if zlen rest <? d * 4 - 20
    then parse p = Ok ((PacketTooShort, raw_header f), p') /\ _error p' = PacketTooShort
    else parse p = Ok ((NoError, raw_header f), p') /\ unread p' (drop (Z.to_nat (d * 4 - 20)) rest).
Proof.
  intros Hok Hu d. destruct (parse_fields_raw f p rest Hok Hu) as (p1 & Hp & Hu1).
  unfold parse. erewrite parse_bind_ok by exact Hp. fold d. destruct (d <? 5) eqn:Ed; [eauto|].
  unfold LENGTH. destruct (zlen rest <? d * 4 - 20) eqn:El.
  - erewrite parse_bind_ok by (eapply remove_prefix_short; [exact Hu1 | lia]).
    unfold parse_result. rewrite error_true by done. eauto.
  - destruct (remove_prefix_unread (d * 4 - 20) p1 rest Hu1) as (p2 & Hp2 & Hu2); [lia|].
    erewrite parse_bind_ok by exact Hp2. unfold parse_result. rewrite error_false by apply Hu2. eauto.
Qed.

Lemma parse_serialized h s p rest :
  header_wf h -> serialize h = Ok s -> unread p (s ++ rest) ->
  exists p', parse p = Ok ((NoError, h), p') /\ unread p' rest.
Proof.
  intros Hwf Hs Hu. pose proof (hw_doff _ Hwf). destruct (raw_header_of h Hwf) as [Hok Hh].
  rewrite serialize_eq in Hs by lia. inv_outcome. rewrite <- app_assoc in Hu.
  destruct (parse_ok _ _ _ Hok Hu) as (p' & Hp). rewrite Hh in Hp.
  replace (doff h <? 5) with false in Hp by lia. rewrite zlen_app in Hp.
  set (pad := replicate _ _) in *. pose proof (zlen_nonneg rest).
  assert (zlen pad = doff h * 4 - 20) as Hpad by (unfold pad, zlen; rewrite length_replicate; lia).
  replace (zlen pad + zlen rest <? doff h * 4 - 20) with false in Hp by lia.
  rewrite drop_app_length' in Hp by (unfold zlen in Hpad; lia). eauto.
Qed.

(** Twenty bytes are the bytes of nine integers. *)
Lemma raw_split (rest : bytes) :
  20 <= zlen rest -> exists f tail, raw_ok f /\ rest = raw_wire f ++ tail.
Proof.
  intros Hlen.
  destruct (be_split uint16_t rest) as (sp & r1 & ? & -> & ?); [cbn; lia|].
  destruct (be_split uint16_t r1) as (dp & r2 & ? & -> & ?); [cbn in *; lia|].
  destruct (be_split uint32_t r2) as (sq & r3 & ? & -> & ?); [cbn in *; lia|].
  destruct (be_split uint32_t r3) as (ak & r4 & ? & -> & ?); [cbn in *; lia|].
  destruct (be_split uint8_t r4) as (off & r5 & ? & -> & ?); [cbn in *; lia|].
  destruct (be_split uint8_t r5) as (fl & r6 & ? & -> & ?); [cbn in *; lia|].
  destruct (be_split uint16_t r6) as (wi & r7 & ? & -> & ?); [cbn in *; lia|].
  destruct (be_split uint16_t r7) as (ck & r8 & ? & -> & ?); [cbn in *; lia|].
  destruct (be_split uint16_t r8) as (up & r9 & ? & -> & ?); [cbn in *; lia|].
  exists {| f_sport := sp; f_dport := dp; f_seqno := sq; f_ackno := ak; f_off := off; f_flags := fl;
            f_win := wi; f_cksum := ck; f_uptr := up |}, r9.
  split; [repeat (split; [assumption|]); assumption|].
  unfold raw_wire. by rewrite <- !app_assoc.
Qed.

(** Fewer than twenty bytes: whatever is returned, the parser records the error. *)
Lemma parse_short p : short 20 p -> exists res h p', parse p = Ok ((res, h), p') /\ _error p' = PacketTooShort.
Proof.
  intros H0. assert (exists h p1, parse_fields p = Ok (h, p1) /\ _error p1 = PacketTooShort) as (h & p1 & Hp & He).
  { unfold parse_fields, u8, u16, u32.
    do 9 match goal with
    | H : short ?k ?q |- context [mbind _ (_parse_int ?T) ?q] =>
        let v := fresh "v" in let q' := fresh "p" in let Hp := fresh "Hp" in let Hs := fresh "Hs" in
        destruct (parse_int_from_short T k q H) as (v & q' & Hp & Hs);
        erewrite parse_bind_ok by exact Hp; clear Hp H
    end.
    eexists _, _. split; [done|]. eapply short_done; [eassumption | cbn; lia]. }
  unfold parse. erewrite parse_bind_ok by exact Hp. destruct (doff h <? 5); [by eexists _, _, _|].
  erewrite parse_bind_ok by (by apply remove_prefix_error). unfold parse_result.
  rewrite error_true by congruence. eauto.
Qed.

Lemma doff_range f : raw_ok f -> 0 <= doff (raw_header f) < 16.
Proof.
  intros (_ & _ & _ & _ & [H0 H1] & _). cbn in H1. cbn [raw_header doff].
  rewrite Z.shiftr_div_pow2 by lia. change (2 ^ 4) with 16. word_lia.
Qed.

Lemma wire_doff_raw f tail : raw_ok f -> wire_doff (raw_wire f ++ tail) = doff (raw_header f).
Proof.
  intros (_ & _ & _ & _ & [H0 H1] & _). cbn in H1. unfold wire_doff. cbn [raw_header doff].
  change ((raw_wire f ++ tail) !! 12%nat) with (Some (the_byte 1 (f_off f) 0)). cbv beta iota.
  unfold the_byte. rewrite byte_land_ff. rewrite !Z.shiftr_div_pow2 by lia. eval_consts. word_lia.
Qed.

(** * Properties *)

(** The header round trip: every header that fits the wire format serializes to
    [4 * doff] bytes, and parsing these bytes, whatever follows them, returns [NoError]
    and the same header (ports, checksum and flags included), and leaves exactly what
    follows. *)
Lemma header_roundtrip h :
  header_wf h ->
  exists s, serialize h = Ok s /\ zlen s = 4 * doff h /\
  forall b rest, buf_wf b -> _starting_offset b + zlen (str_of b) < 2 ^ 64 -> str_of b = s ++ rest ->
  exists p', parse (net_parser b) = Ok ((NoError, h), p') /\ str_of (_buffer p') = rest.
Proof.
  intros Hwf. pose proof (hw_doff _ Hwf).
  destruct (serialize h) as [s | |] eqn:E; [|rewrite serialize_eq in E by lia; done..].
  exists s. split; [done|]. split; [by apply serialize_length|]. intros b rest Hb Hoff Hs.
  pose proof (unread_init b Hb Hoff) as Hu. rewrite Hs in Hu.
  destruct (parse_serialized h s _ rest Hwf E Hu) as (p' & Hp & Hu').
  exists p'. split; [done | apply Hu'].
Qed.

Lemma header_roundtrip_witness :
  exists s, serialize header_default = Ok s /\ zlen s = 20.
Proof.
  destruct (header_roundtrip header_default ltac:(split; by_compute)) as (s & Hs & Hl & _).
  exists s. split; [exact Hs | exact Hl].
Defined.
