(* ===== verification/HeaderText.v ===== *)
(** The texts of a header: [TCPHeader::to_string] and [TCPHeader::summary] of
    tcp_helpers/tcp_header.cc, and the insertion of a [WrappingInt32] in a stream of
    wrapping_integers.hh. *)
From S2P Require Import Prelude Text WrappingIntegers TCPHeader.

(** * Definitions *)

Definition newline : Init.Byte.byte := byte.of_Z 10.
Definition space : Init.Byte.byte := byte.of_Z 32.

(** [operator<<(std::ostream &, WrappingInt32)], in the base the stream is set to. *)
Definition show_wi (base : Z) (a : WrappingInt32) : bytes := show_base base (raw_value a).

(** [TCPHeader::to_string]: the stream is set to hexadecimal and [boolalpha]. *)
Definition header_to_string (h : TCPHeader) : bytes :=
  str "TCP source port: " ++ show_base 16 (sport h) ++ newline ::
  str "TCP dest port: " ++ show_base 16 (dport h) ++ newline ::
  str "TCP seqno: " ++ show_wi 16 (seqno h) ++ newline ::
  str "TCP ackno: " ++ show_wi 16 (ackno h) ++ newline ::
  str "TCP doff: " ++ show_base 16 (doff h) ++ newline ::
  str "Flags: urg: " ++ show_bool (urg h) ++ str " ack: " ++ show_bool (ack h) ++
  str " psh: " ++ show_bool (psh h) ++ str " rst: " ++ show_bool (rst h) ++
  str " syn: " ++ show_bool (syn h) ++ str " fin: " ++ show_bool (fin h) ++ newline ::
  str "TCP winsize: " ++ show_base 16 (win h) ++ newline ::
  str "TCP cksum: " ++ show_base 16 (cksum h) ++ newline ::
  str "TCP uptr: " ++ show_base 16 (uptr h) ++ [newline].

(** [TCPHeader::summary], in decimal. *)
Definition header_summary (h : TCPHeader) : bytes :=
  str "Header(flags=" ++ (if syn h then str "S" else []) ++ (if ack h then str "A" else []) ++
  (if rst h then str "R" else []) ++ (if fin h then str "F" else []) ++
  str ",seqno=" ++ show_wi 10 (seqno h) ++ str ",ack=" ++ show_wi 10 (ackno h) ++
  str ",win=" ++ show_base 10 (win h) ++ str ")".

(** The fields of a header are in the ranges of their types. *)
Record header_typed (h : TCPHeader) : Prop := {
  ht_sport : 0 <= sport h < 2 ^ 16;
  ht_dport : 0 <= dport h < 2 ^ 16;
  ht_seqno : wi_wf (seqno h);
  ht_ackno : wi_wf (ackno h);
  ht_doff : 0 <= doff h < 2 ^ 8;
  ht_win : 0 <= win h < 2 ^ 16;
  ht_cksum : 0 <= cksum h < 2 ^ 16;
  ht_uptr : 0 <= uptr h < 2 ^ 16
}.

(** * Lemmas *)

(** A number of the text between a label and a character that is not a digit. *)
Lemma number_field_inj base (label : bytes) n n' c rest rest' :
  2 <= base <= 16 -> 0 <= n -> 0 <= n' -> is_digit base c = false ->
  label ++ show_base base n ++ c :: rest = label ++ show_base base n' ++ c :: rest' -> n = n' /\ rest = rest'.
Proof.
  intros Hb Hn Hn' Hc E. apply app_inv_head in E.
  apply (field_inj (is_digit base)) in E as [E1 E2];
    [|apply show_base_spec; done | apply show_base_spec; done | done | done].
  apply show_base_inj in E1; [|done..]. by injection E2.
Qed.

(** A truth value of the text between a label and a separator. *)
Lemma bool_field_inj (label rest rest' : bytes) b b' :
  label ++ show_bool b ++ rest = label ++ show_bool b' ++ rest' -> b = b' /\ rest = rest'.
Proof. intros E. apply app_inv_head in E. destruct b, b'; simpl in E; try discriminate; by injection E. Qed.

Lemma cons_tail {A} (x y : A) l l' : x :: l = y :: l' -> l = l'.
Proof. by injection 1. Qed.

Lemma wi_inj a b : raw_value a = raw_value b -> a = b.
Proof. destruct a, b. simpl. by intros ->. Qed.

(** The part of a header the summary shows. *)
Definition summarized (h : TCPHeader) := (syn h, ack h, rst h, fin h, seqno h, ackno h, win h).

(** The letters of the flags and the rest of the summary can be told apart. *)
Lemma flag_letters_inj (s a r f s' a' r' f' : bool) (rest rest' : bytes) :
  (if s then str "S" else []) ++ (if a then str "A" else []) ++ (if r then str "R" else []) ++
    (if f then str "F" else []) ++ str ",seqno=" ++ rest =
  (if s' then str "S" else []) ++ (if a' then str "A" else []) ++ (if r' then str "R" else []) ++
    (if f' then str "F" else []) ++ str ",seqno=" ++ rest' ->
  (s, a, r, f) = (s', a', r', f') /\ rest = rest'.
Proof. destruct s, a, r, f, s', a', r', f'; intros E; simpl in E; try discriminate E; by injection E. Qed.

Definition demo_header : TCPHeader :=
  {| sport := 80; dport := 43981; seqno := {| raw_value := 4294967295 |}; ackno := {| raw_value := 17 |};
     doff := 5; urg := false; ack := true; psh := false; rst := false; syn := true; fin := false;
     win := 64000; cksum := 7; uptr := 0 |}.

(** The text of a concrete header. *)
Lemma demo_header_summary : header_summary demo_header = str "Header(flags=SA,seqno=4294967295,ack=17,win=64000)".
Proof. vm_compute. reflexivity. Qed.

Lemma demo_header_typed : header_typed demo_header.
Proof. constructor; by_compute. Qed.

(** * Properties *)

(** [TCPHeader::to_string] loses nothing: two headers with the same text are the same in
    every one of their fourteen fields, also those [operator==] leaves out (the ports and
    the checksum). *)
Lemma header_text_injective h h' :
  header_typed h -> header_typed h' -> header_to_string h = header_to_string h' -> h = h'.
Proof.
  destruct h, h'. intros [] [] E. unfold header_to_string, show_wi, wi_wf in *.
  cbn - [show_base show_bool str app raw_value Z.pow] in *.
  do 2 (apply number_field_inj in E as [-> E]; [|lia..|done]).
  do 2 (apply number_field_inj in E as [->%wi_inj E]; [|lia..|done]).
  apply number_field_inj in E as [-> E]; [|lia..|done].
  do 6 (apply bool_field_inj in E as [-> E]). apply cons_tail in E.
  do 3 (apply number_field_inj in E as [-> E]; [|lia..|done]). done.
Qed.

Lemma header_text_injective_witness :
  header_to_string demo_header = header_to_string demo_header /\ demo_header = demo_header.
Proof.
  split; [reflexivity|].
  apply (header_text_injective demo_header demo_header demo_header_typed demo_header_typed). reflexivity.
Defined.

(** [TCPHeader::summary] determines the flags S, A, R and F, both sequence numbers and the
    window: two headers with the same summary agree on them. *)
Lemma header_summary_determines h h' :
  header_typed h -> header_typed h' -> header_summary h = header_summary h' -> summarized h = summarized h'.
Proof.
  intros [] [] E. unfold header_summary, show_wi, wi_wf in *. apply app_inv_head in E.
  apply flag_letters_inj in E as [Hflags E].
  change (str ",ack=" ++ ?x) with (byte.of_Z 44 :: str "ack=" ++ x) in E.
  apply (number_field_inj 10 []) in E as [Hs E]; [|lia..|done].
  change (str ",win=" ++ ?x) with (byte.of_Z 44 :: str "win=" ++ x) in E.
  apply number_field_inj in E as [Ha E]; [|lia..|done].
  change (str ")") with (byte.of_Z 41 :: []) in E.
  apply number_field_inj in E as [Hw _]; [|lia..|done].
  unfold summarized. injection Hflags as -> -> -> ->. apply wi_inj in Hs as ->, Ha as ->. by rewrite Hw.
Qed.
