(* ===== verification/TCPSegment.v ===== *)
(** The TCP segment: tcp_helpers/tcp_segment.hh and tcp_helpers/tcp_segment.cc.
    [parse] checks the Internet checksum of the whole buffer and then reads header and
    payload; [serialize] fills the checksum in. The theorems give the wire round trip,
    checksum included, and classify the result of [parse] on every buffer. *)
From S2P Require Import Prelude WrappingIntegers Buffer Checksum Parser TCPHeader.

Record TCPSegment := { _header : TCPHeader; _payload : Buffer }.

(** [TCPSegment()]. *)
Definition segment_default : TCPSegment :=
  {| _header := header_default; _payload := buffer_default |}.

Definition header (s : TCPSegment) : TCPHeader := _header s.
Definition payload (s : TCPSegment) : Buffer := _payload s.

(** [parse]: a bad checksum leaves the segment as it was. *)
Definition segment_parse (seg : TCPSegment) (buffer : Buffer) (datagram_layer_checksum : Z)
  : outcome (ParseResult * TCPSegment) :=
  let check := add (internet_checksum datagram_layer_checksum) (str_of buffer) in
  if negb (value check =? 0) then Ok (BadChecksum, seg)
  else
    '(_, h, p) ← TCPHeader.parse (net_parser buffer);
    Ok (get_error p, {| _header := h; _payload := _buffer p |}).

Definition length_in_sequence_space (s : TCPSegment) : Z :=
  to_u64 (zlen (str_of (payload s)) + (if syn (header s) then 1 else 0) + (if fin (header s) then 1 else 0)).

(** A segment that takes no sequence number: no SYN, no FIN and no payload. *)
Record bare (s : TCPSegment) : Prop := {
  br_syn : syn (header s) = false;
  br_fin : fin (header s) = false;
  br_data : str_of (payload s) = []
}.

(** [header_out.cksum = ...]. *)
Definition with_cksum (h : TCPHeader) (ck : Z) : TCPHeader :=
  {| sport := sport h; dport := dport h; seqno := seqno h; ackno := ackno h; doff := doff h;
     urg := urg h; ack := ack h; psh := psh h; rst := rst h; syn := syn h; fin := fin h;
     win := win h; cksum := ck; uptr := uptr h |}.

Definition segment_serialize (s : TCPSegment) (datagram_layer_checksum : Z) : outcome BufferList :=
  let header_out := with_cksum (_header s) 0 in
  h0 ← TCPHeader.serialize header_out;
  let check := add (add (internet_checksum datagram_layer_checksum) h0) (str_of (_payload s)) in
  let header_out := with_cksum header_out (value check) in
  h1 ← TCPHeader.serialize header_out;
  Ok (append (append buffer_list_default (buffer_list_of h1)) (buffer_list_of_buffer (_payload s))).

(** * Lemmas *)

Lemma length_in_sequence_space_eq s :
  zlen (str_of (payload s)) + 2 < 2 ^ 64 ->
  length_in_sequence_space s
  = zlen (str_of (payload s)) + (if syn (header s) then 1 else 0) + (if fin (header s) then 1 else 0).
Proof.
  intros. unfold length_in_sequence_space. pose proof (zlen_nonneg (str_of (payload s))).
  rewrite to_u64_small; [done|]. destruct (syn (header s)), (fin (header s)); lia.
Qed.

Lemma with_cksum_wf h ck : header_wf h -> 0 <= ck < 2 ^ 16 -> header_wf (with_cksum h ck).
Proof. intros [] ?. by constructor. Qed.

(** The sixteen bytes before the checksum field, and the rest of the header. *)
Definition wire_before (h : TCPHeader) : bytes :=
  be_bytes uint16_t (sport h) ++ be_bytes uint16_t (dport h) ++
  be_bytes uint32_t (raw_value (seqno h)) ++ be_bytes uint32_t (raw_value (ackno h)) ++
  be_bytes uint8_t (to_u8 (Z.shiftl (doff h) 4)) ++ be_bytes uint8_t (flags_byte h) ++
  be_bytes uint16_t (win h).

Definition wire_after (h : TCPHeader) : bytes :=
  be_bytes uint16_t (uptr h) ++ replicate (Z.to_nat (4 * doff h) - 20) (byte.of_Z 0).

Lemma serialize_with_cksum h ck :
  5 <= doff h ->
  TCPHeader.serialize (with_cksum h ck) = Ok (wire_before h ++ be_bytes uint16_t ck ++ wire_after h).
Proof.
  intros Hd. rewrite serialize_eq by done. unfold raw_wire, wire_before, wire_after.
  rewrite <- !app_assoc. done.
Qed.

Lemma be_bytes_u16 ck :
  be_bytes uint16_t ck = [the_byte 2 ck 0; the_byte 2 ck 1].
Proof. done. Qed.

Lemma be_bytes_u16_value ck :
  0 <= ck < 2 ^ 16 -> byte.unsigned (the_byte 2 ck 0) * 256 + byte.unsigned (the_byte 2 ck 1) = ck.
Proof.
  intros. unfold the_byte. rewrite !byte_land_ff, !Z.shiftr_div_pow2 by lia. eval_consts. word_lia.
Qed.

Lemma wire_before_length h : zlen (wire_before h) = 16.
Proof. unfold wire_before. rewrite !zlen_app, !be_bytes_length. done. Qed.

Lemma wire_after_length h : 5 <= doff h -> zlen (wire_after h) = 4 * doff h - 18.
Proof.
  intros. unfold wire_after. rewrite zlen_app, be_bytes_length. unfold zlen.
  rewrite length_replicate. cbn [sizeof]. lia.
Qed.

Lemma value_range c : 0 <= _sum c < 2 ^ 32 -> 0 <= value c < 2 ^ 16.
Proof. intros. rewrite value_eq by done. pose proof (onesum_range (_sum c)). lia. Qed.

(** What [segment_serialize] emits: the header with the checksum, then the payload. *)
Lemma segment_serialize_eq seg ck0 :
  5 <= doff (_header seg) -> 0 <= ck0 < 2 ^ 32 ->
  let h := _header seg in
  exists ck l, segment_serialize seg ck0 = Ok l /\ 0 <= ck < 2 ^ 16 /\
    ck = value (add (internet_checksum ck0)
                  (wire_before h ++ byte.of_Z 0 :: byte.of_Z 0 :: wire_after h ++ str_of (_payload seg))) /\
    concatenate l = wire_before h ++ be_bytes uint16_t ck ++ wire_after h ++ str_of (_payload seg) /\
    TCPHeader.serialize (with_cksum h ck) = Ok (wire_before h ++ be_bytes uint16_t ck ++ wire_after h).
Proof.
  intros Hd Hck h. unfold segment_serialize. fold h.
  rewrite serialize_with_cksum by done. cbn [mbind outcome_bind]. rewrite add_app.
  set (c := add _ _).
  assert (0 <= value c < 2 ^ 16) as Hv.
  { apply value_range. unfold c. rewrite add_eq by (simpl; lia). simpl. auto with sponge. }
  change (with_cksum (with_cksum h 0) (value c)) with (with_cksum h (value c)).
  rewrite serialize_with_cksum by done. cbn [mbind outcome_bind].
  eexists (value c), _. split; [done|]. split; [done|]. split.
  { unfold c. by rewrite be_bytes_u16, <- !app_assoc. }
  split; [|by apply serialize_with_cksum].
  rewrite !concatenate_append, concatenate_default, concatenate_of, concatenate_of_buffer.
  by rewrite app_nil_l, <- !app_assoc.
Qed.

(** The bytes of a segment in a valid buffer. *)
Definition buffer_ok (b : Buffer) : Prop :=
  buf_wf b /\ _starting_offset b + zlen (str_of b) < 2 ^ 64.

(** A buffer with the bytes of a serialized segment is accepted and read back. *)
Lemma parse_serialized_segment seg seg0 ck0 b :
  header_wf (_header seg) -> 0 <= ck0 ->
  ck0 + 65280 * (4 * doff (_header seg) + zlen (str_of (_payload seg))) < 2 ^ 32 ->
  exists l, segment_serialize seg ck0 = Ok l /\
  (buffer_ok b -> str_of b = concatenate l ->
   exists ck seg', segment_parse seg0 b ck0 = Ok (NoError, seg') /\
     _header seg' = with_cksum (_header seg) ck /\
     str_of (_payload seg') = str_of (_payload seg)).
Proof.
  intros Hwf Hck Hbound. pose proof (hw_doff _ Hwf) as Hd. set (h := _header seg) in *.
  pose proof (zlen_nonneg (str_of (_payload seg))).
  destruct (segment_serialize_eq seg ck0) as (ck & l & Hs & Hr & Hv & Hc & Hh); [fold h; lia | lia |].
  fold h in Hv, Hc, Hh. exists l. split; [done|]. intros [Hb Hoff] Hsb.
  assert (str_of b = (wire_before h ++ be_bytes uint16_t ck ++ wire_after h) ++ str_of (_payload seg)) as Hsb'.
  { rewrite Hsb, Hc, <- !app_assoc. done. }
  pose proof (unread_init b Hb Hoff) as Hu. rewrite Hsb' in Hu.
  destruct (parse_serialized (with_cksum h ck) _ _ _ (with_cksum_wf h ck Hwf Hr) Hh Hu) as (p' & Hp & Hu').
  exists ck. unfold segment_parse. rewrite Hsb, Hc, be_bytes_u16. cbn [app].
  rewrite checksum_completes.
  - simpl. rewrite Hp. cbn [mbind outcome_bind]. eexists. split.
    + unfold get_error. rewrite (un_error _ _ Hu'). done.
    + simpl. split; [done | apply Hu'].
  - by rewrite wire_before_length.
  - done.
  - rewrite wire_before_length, zlen_app, wire_after_length by lia. lia.
  - rewrite be_bytes_u16_value by done. done.
Qed.

(** * Properties *)

(** C16: the wire round trip. Serializing a segment whose header fits the wire format
    yields bytes that [parse], given the same pseudo-header checksum, accepts: it returns
    [NoError], the same header with the computed checksum in place, and the same payload.
    The bound keeps the 32-bit checksum accumulator from overflowing. *)
Theorem segment_roundtrip seg seg0 ck0 b :
  header_wf (_header seg) -> 0 <= ck0 ->
  ck0 + 65280 * (4 * doff (_header seg) + zlen (str_of (_payload seg))) < 2 ^ 32 ->
  exists l, segment_serialize seg ck0 = Ok l /\
  (buffer_ok b -> str_of b = concatenate l ->
   exists ck seg', segment_parse seg0 b ck0 = Ok (NoError, seg') /\
     _header seg' = with_cksum (_header seg) ck /\
     str_of (_payload seg') = str_of (_payload seg)).
Proof. apply parse_serialized_segment. Qed.

Lemma segment_roundtrip_witness :
  exists l, segment_serialize {| _header := header_default; _payload := buffer_of (str "hello") |} 99 = Ok l.
Proof.
  destruct (segment_roundtrip {| _header := header_default; _payload := buffer_of (str "hello") |}
              segment_default 99 buffer_default ltac:(split; by_compute) ltac:(lia) ltac:(by_compute)) as (l & Hl & _).
  exists l. exact Hl.
Defined.

(** C20: [parse] on every buffer: a wrong checksum gives [BadChecksum] and leaves the segment
    unchanged; fewer bytes than the header or than its data offset claims give
    [PacketTooShort]; otherwise the result is [NoError] and the payload is what follows the
    header. The [HeaderTooShort] verdict of the header parser is dropped: a data offset
    below five is accepted with [NoError], its payload starting after twenty bytes. *)
Theorem segment_parse_classified seg b ck0 :
  buffer_ok b ->
  let n := zlen (str_of b) in
  let d := wire_doff (str_of b) in
  exists res seg', segment_parse seg b ck0 = Ok (res, seg') /\
  if negb (value (add (internet_checksum ck0) (str_of b)) =? 0) then res = BadChecksum /\ seg' = seg
  else if n <? 20 then res = PacketTooShort
  else if d <? 5 then res = NoError /\ str_of (_payload seg') = drop 20 (str_of b)
  else if n <? 4 * d then res = PacketTooShort
  else res = NoError /\ str_of (_payload seg') = drop (Z.to_nat (4 * d)) (str_of b).
Proof.
  intros [Hb Hoff] n d. unfold segment_parse. destruct (negb _); [eauto|].
  pose proof (unread_init b Hb Hoff) as Hu. destruct (n <? 20) eqn:En.
  { destruct (parse_short (net_parser b)) as (res & h & p' & Hp & He).
    { right. eexists. split; [exact Hu | fold n; lia]. }
    rewrite Hp. cbn [mbind outcome_bind]. eauto. }
  destruct (raw_split (str_of b)) as (f & tail & Hok & Hraw); [fold n; lia|].
  rewrite Hraw in Hu. destruct (parse_ok f _ tail Hok Hu) as (p' & Hp).
  assert (d = doff (raw_header f)) as Hd by (unfold d; rewrite Hraw; by apply wire_doff_raw).
  pose proof (raw_wire_length f) as Hlen. rewrite <- Hd in Hp.
  assert (n = 20 + zlen tail) as Hn by (unfold n; rewrite Hraw, zlen_app; lia).
  destruct (d <? 5) eqn:Ed.
  { destruct Hp as [Hp Hu']. rewrite Hp. cbn [mbind outcome_bind]. eexists _, _. split; [done|].
    split; [apply Hu'|]. simpl. rewrite (un_bytes _ _ Hu'), Hraw.
    rewrite drop_app_length'; [done | unfold zlen in Hlen; lia]. }
  replace (n <? 4 * d) with (zlen tail <? d * 4 - 20) by lia.
  destruct (zlen tail <? d * 4 - 20) eqn:El; destruct Hp as [Hp Hu']; rewrite Hp;
    cbn [mbind outcome_bind]; eexists _, _; (split; [done|]); [done|].
  split; [apply Hu'|]. simpl. rewrite (un_bytes _ _ Hu'), Hraw.
  rewrite drop_app_ge by (unfold zlen in Hlen; lia). f_equal. unfold zlen in Hlen. lia.
Qed.

Lemma segment_parse_classified_witness :
  exists res seg', segment_parse segment_default (buffer_of (replicate 20 (byte.of_Z 0))) 0xffff = Ok (res, seg')
    /\ res = NoError /\ str_of (_payload seg') = [].
Proof.
  apply (segment_parse_classified segment_default (buffer_of (replicate 20 (byte.of_Z 0))) 0xffff).
  split; by_compute.
Defined.
