(* ===== verification/TCPReceiver.v ===== *)
(** The TCP receiver: tcp_receiver.hh and tcp_receiver.cc.
    [segment_received] is the whole handler with its early returns. The theorems are
    relative to a peer that sends the byte stream [S] with initial sequence number
    [isn]: [segment_of] describes the segments of such a peer (SYN, data, FIN, in any
    division, order and multiplicity), [rcv_inv] is the receiver's invariant, and [tstep]
    is the transition system of segment arrivals and application reads. The proofs use
    only the contract [push_spec] of the reassembler. *)
From S2P Require Import Prelude StdMap WrappingIntegers ByteStream StreamReassembler Buffer Parser TCPHeader TCPSegment.

Record TCPReceiver := {
  _reassembler : StreamReassembler;
  _syn : bool;
  _capacity : Z;
  _isn : Z;
  _begin : Z;
  _checkp : Z;
  ack : option WrappingInt32
}.

(** The constructor. *)
Definition tcp_receiver (capacity : Z) : TCPReceiver :=
  {| _reassembler := stream_reassembler capacity; _syn := false; _capacity := capacity;
     _isn := 0; _begin := 0; _checkp := 0; ack := None |}.

Definition stream_out (t : TCPReceiver) : ByteStream := _output (_reassembler t).

(** [stream_out()] used by a reader: the receiver with its output stream replaced. *)
Definition receiver_set_out (t : TCPReceiver) (out : ByteStream) : TCPReceiver :=
  {| _reassembler := set_stream_out (_reassembler t) out; _syn := _syn t; _capacity := _capacity t;
     _isn := _isn t; _begin := _begin t; _checkp := _checkp t; ack := ack t |}.

(** [ackno()], [window_size()] and [unassembled_bytes()]. *)
Definition receiver_ackno (t : TCPReceiver) : option WrappingInt32 := ack t.
Definition window_size (t : TCPReceiver) : Z := remaining_capacity (stream_out t).
Definition receiver_unassembled_bytes (t : TCPReceiver) : Z := unassembled_bytes (_reassembler t).

(** The handling of SYN and of the first sequence number, before the first check of [_syn]. *)
Definition note_seqno (t : TCPReceiver) (h : TCPHeader) : TCPReceiver :=
  if syn h then
    {| _reassembler := _reassembler t; _syn := true; _capacity := _capacity t;
       _isn := raw_value (seqno h); _begin := raw_value (seqno h); _checkp := _checkp t; ack := ack t |}
  else
    {| _reassembler := _reassembler t; _syn := _syn t; _capacity := _capacity t;
       _isn := _isn t; _begin := to_u32 (raw_value (seqno h) - 1); _checkp := _checkp t; ack := ack t |}.

(** The end of the handler: the new checkpoint and acknowledgment number, and the reset
    once the stream has ended. *)
Definition update_ack (t : TCPReceiver) (r : StreamReassembler) : TCPReceiver :=
  let checkp := bytes_written (_output r) in
  if input_ended (_output r) then
    {| _reassembler := r; _syn := false; _capacity := _capacity t; _isn := _isn t; _begin := 0;
       _checkp := 0; ack := Some (wrap (to_u64 (checkp + 2)) {| raw_value := _isn t |}) |}
  else
    {| _reassembler := r; _syn := _syn t; _capacity := _capacity t; _isn := _isn t; _begin := _begin t;
       _checkp := checkp; ack := Some (wrap (to_u64 (checkp + 1)) {| raw_value := _isn t |}) |}.

Definition segment_received (t : TCPReceiver) (seg : TCPSegment) : outcome TCPReceiver :=
  let h := header seg in
  if syn h && _syn t then Ok t
  else
    let t := note_seqno t h in
    if negb (_syn t) then Ok t
    else
      let len := to_u64 (length_in_sequence_space seg - Z.b2z (syn h) - Z.b2z (fin h)) in
      let index := unwrap {| raw_value := _begin t |} {| raw_value := _isn t |} (_checkp t) in
      if (to_u64 (index + len) <? _checkp t) || (to_u64 (_checkp t + window_size t) <=? index) then Ok t
      else
        r ← push_substring (_reassembler t) (copy (payload seg)) index (fin h);
        Ok (update_ack t r).

(** * The peer, the invariant and the transition system *)

(** The index in [S] of the first payload byte of [seg] is [i], for a peer that sends [S]
    from initial sequence number [isn]: the SYN has number [isn], byte [i] of the stream
    has number [isn + 1 + i], and the FIN follows the last byte. *)
Record segment_of (S : bytes) (isn : WrappingInt32) (seg : TCPSegment) (i : Z) : Prop := {
  so_payload : excerpt S i (str_of (payload seg));
  so_syn : syn (header seg) = true -> i = 0 /\ seqno (header seg) = isn;
  so_data : syn (header seg) = false -> seqno (header seg) = wrap (i + 1) isn;
  so_fin : fin (header seg) = true -> i + zlen (str_of (payload seg)) = zlen S
}.

Definition ended (t : TCPReceiver) : bool := input_ended (stream_out t).

(** A SYN has been accepted. *)
Definition synced (t : TCPReceiver) : bool := _syn t || ended t.

(** The number of sequence numbers received in order: SYN, bytes and FIN. *)
Definition received (t : TCPReceiver) : Z :=
  bytes_written (stream_out t) + 1 + (if ended t then 1 else 0).

(** The stream is shorter than half of the 64-bit sequence space. *)
Definition rcv_len_ok (S : bytes) : Prop := zlen S <= 2 ^ 63.

Record rcv_inv (S : bytes) (isn : WrappingInt32) (t : TCPReceiver) : Prop := {
  rv_reasm : r_inv S (_reassembler t);
  rv_cap : StreamReassembler._capacity (_reassembler t) = _capacity t;
  rv_pos : 0 < _capacity t;
  rv_len : rcv_len_ok S;
  rv_isn_wf : wi_wf isn;
  rv_checkp : _checkp t = if ended t then 0 else bytes_written (stream_out t);
  rv_isn : _syn t = true -> _isn t = raw_value isn;
  rv_ack : ack t = if synced t then Some (wrap (received t) isn) else None;
  rv_listen : synced t = false -> bytes_written (stream_out t) = 0
}.

(** The sequence number of [seg] is unambiguous: its index is less than [2 ^ 31] away from
    the checkpoint the receiver unwraps it with. Before a SYN and after the end of the stream
    the receiver handles only a SYN, whose index is 0. *)
Definition near (t : TCPReceiver) (i : Z) : Prop := _syn t = true -> Z.abs (i - _checkp t) < 2 ^ 31.

(** What may arrive: a segment of the stream whose sequence number is unambiguous, or a
    segment without SYN, FIN and payload, with any sequence number at all. *)
Definition from_peer (S : bytes) (isn : WrappingInt32) (t : TCPReceiver) (seg : TCPSegment) (i : Z) : Prop :=
  (segment_of S isn seg i /\ near t i) \/ bare seg.

(** What one segment does, as seen by the application and the peer. *)
Record rcv_spec (S : bytes) (isn : WrappingInt32) (t : TCPReceiver) (seg : TCPSegment) (i : Z)
    (t' : TCPReceiver) : Prop := {
  rs_inv : rcv_inv S isn t';
  rs_read : bytes_read (stream_out t') = bytes_read (stream_out t);
  rs_capacity : _capacity t' = _capacity t;
  rs_synced : synced t' = (synced t || syn (header seg));
  rs_upper : forall j, 0 <= j -> known (_reassembler t') j ->
    known (_reassembler t) j \/ i <= j < i + zlen (str_of (payload seg));
  rs_eof : eof_f (_reassembler t') = true -> eof_f (_reassembler t) = true \/ fin (header seg) = true;
  rs_mono : bytes_written (stream_out t) <= bytes_written (stream_out t') /\
    (ended t = true -> ended t' = true);
  rs_fin : synced t || syn (header seg) = true -> syn (header seg) && _syn t = false ->
    fin (header seg) = true -> i < window_end (_reassembler t) ->
    i + zlen (str_of (payload seg)) <= window_end (_reassembler t) -> eof_f (_reassembler t') = true;
  rs_known : synced t || syn (header seg) = true -> syn (header seg) && _syn t = false ->
    forall j, 0 <= j -> known (_reassembler t') j <->
      known (_reassembler t) j \/
      i <= j < Z.min (i + zlen (str_of (payload seg))) (window_end (_reassembler t))
}.

(** Segments of the peer arriving and the application reading; [o] is what it reads. *)
Inductive tstep (S : bytes) (isn : WrappingInt32) : TCPReceiver -> bytes -> TCPReceiver -> Prop :=
| tstep_segment t seg i t' :
    from_peer S isn t seg i -> segment_received t seg = Ok t' -> tstep S isn t [] t'
| tstep_read t n o out :
    0 <= n -> ByteStream.read (stream_out t) n = Ok (o, out) -> tstep S isn t o (receiver_set_out t out).

Inductive tsteps (S : bytes) (isn : WrappingInt32) : TCPReceiver -> bytes -> TCPReceiver -> Prop :=
| tsteps_refl t : tsteps S isn t [] t
| tsteps_snoc t o t' o' t'' : tsteps S isn t o t' -> tstep S isn t' o' t'' -> tsteps S isn t (o ++ o') t''.

(** * Lemmas *)

Section receiver.
Context (S : bytes) (isn : WrappingInt32).
Implicit Types t : TCPReceiver.

(** The right edge of the window, as the handler computes it. *)
Lemma window_size_eq t :
  rcv_inv S isn t -> window_size t = _capacity t - buffer_size (stream_out t) /\
  bytes_written (stream_out t) + window_size t = window_end (_reassembler t).
Proof.
  intros Hi. pose proof (rv_cap _ _ _ Hi) as Hc. pose proof (rv_pos _ _ _ Hi).
  destruct (ri_out _ _ (rv_reasm _ _ _ Hi)) as [Hlen Hb Hcap Hw Hr Hwin Hin].
  pose proof (zlen_nonneg S). unfold window_size, stream_out, buffer_size, bytes_written, window_end in *.
  assert (zlen (bts (_output (_reassembler t))) = write_ptr (_reassembler t) - read_count (_output (_reassembler t)))
    as Hz by (rewrite Hb, zlen_slice; lia).
  rewrite remaining_capacity_eq by (unfold bs_wf; rewrite Hcap, Hz; lia). rewrite Hcap, Hz, Hw. lia.
Qed.

Lemma rcv_inv_init cap :
  0 < cap -> zlen S + cap < 2 ^ 64 -> zlen S <= 2 ^ 63 -> wi_wf isn -> rcv_inv S isn (tcp_receiver cap).
Proof. intros. constructor; simpl; try done. apply r_inv_init; lia. Qed.

(** What the handler notes of a segment: its index in the stream. *)
Lemma note_seqno_index t seg i :
  rcv_inv S isn t -> segment_of S isn seg i -> near t i ->
  (syn (header seg) && _syn t = false) ->
  let t1 := note_seqno t (header seg) in
  _syn t1 = (syn (header seg) || _syn t) /\
  (_syn t1 = true -> _isn t1 = raw_value isn /\
   unwrap {| raw_value := _begin t1 |} {| raw_value := _isn t1 |} (_checkp t1) = i) /\
  _reassembler t1 = _reassembler t /\ _checkp t1 = _checkp t /\ _capacity t1 = _capacity t /\ ack t1 = ack t.
Proof.
  intros Hi [Hp Hs Hd _] Hn Hdup t1. unfold t1, note_seqno.
  pose proof (rv_isn_wf _ _ _ Hi) as Hwf. pose proof (rv_len _ _ _ Hi) as Hlen. unfold rcv_len_ok in Hlen.
  assert (0 <= _checkp t <= 2 ^ 64 - 2 ^ 31) as Hck.
  { rewrite (rv_checkp _ _ _ Hi). destruct (ri_out _ _ (rv_reasm _ _ _ Hi)) as [_ _ _ Hw ? _ ?].
    unfold bytes_written, stream_out. rewrite Hw. case_if; lia. }
  destruct Hp as (Hi0 & _ & _). unfold near in Hn.
  assert (forall raw, raw = raw_value (wrap i isn) -> Z.abs (i - _checkp t) < 2 ^ 31 ->
    unwrap {| raw_value := raw |} {| raw_value := raw_value isn |} (_checkp t) = i) as Hun.
  { intros raw -> Hd0. replace {| raw_value := raw_value (wrap i isn) |} with (wrap i isn) by (by apply wi_ext).
    replace {| raw_value := raw_value isn |} with isn by (by apply wi_ext). by apply unwrap_wrap. }
  destruct (syn (header seg)) eqn:Esyn; simpl.
  - destruct (Hs eq_refl) as [-> Hsq]. rewrite Hsq. repeat split; auto.
    apply Hun; [rewrite wrap_raw; unfold wi_wf in Hwf; rewrite Z.mod_small; lia|].
    simpl in Hdup. rewrite (rv_checkp _ _ _ Hi). destruct (ended t) eqn:He; [lia|].
    rewrite (rv_listen _ _ _ Hi) by (unfold synced; by rewrite Hdup, He). lia.
  - repeat split; auto; [by apply Hi|]. rewrite (rv_isn _ _ _ Hi) by done.
    apply Hun; [|by apply Hn]. rewrite (Hd eq_refl), !wrap_raw. word_lia.
Qed.

Lemma payload_length seg i :
  rcv_len_ok S -> segment_of S isn seg i ->
  to_u64 (length_in_sequence_space seg - Z.b2z (syn (header seg)) - Z.b2z (fin (header seg)))
  = zlen (str_of (payload seg)).
Proof.
  unfold rcv_len_ok. intros Hlen [(? & ? & _) _ _ _].
  pose proof (zlen_nonneg (str_of (payload seg))).
  rewrite length_in_sequence_space_eq by lia.
  destruct (syn (header seg)), (fin (header seg)); simpl; rewrite to_u64_small; lia.
Qed.

(** After the end of the stream everything is known. *)
Lemma ended_known t j :
  rcv_inv S isn t -> ended t = true -> 0 <= j -> known (_reassembler t) j <-> j < zlen S.
Proof.
  intros Hi He Hj. pose proof (rv_reasm _ _ _ Hi) as Hr.
  apply (ri_ended _ _ Hr) in He as [_ Hw]. split.
  - intros [? | (e & Hin & Hb)]; [lia|]. pose proof (ri_entries _ _ Hr) as Hent.
    rewrite Forall_forall in Hent. destruct (entry_ok_excerpt _ _ _ (Hent _ Hin)) as [(? & ? & _) _]; lia.
  - intros. left. lia.
Qed.

(** A receiver that differs only in [_begin], or in a SYN already accepted. *)
Lemma rcv_spec_unchanged t seg i t1 :
  rcv_inv S isn t ->
  _reassembler t1 = _reassembler t -> _checkp t1 = _checkp t -> _capacity t1 = _capacity t ->
  ack t1 = ack t -> (_syn t1 = true -> _isn t1 = raw_value isn) ->
  synced t1 = synced t -> (synced t = false -> syn (header seg) = false) ->
  (synced t = true -> syn (header seg) && _syn t = false ->
   forall j, i <= j < Z.min (i + zlen (str_of (payload seg))) (window_end (_reassembler t)) ->
     known (_reassembler t) j) ->
  (synced t = true -> syn (header seg) && _syn t = false -> fin (header seg) = true ->
   i < window_end (_reassembler t) -> eof_f (_reassembler t) = true) ->
  rcv_spec S isn t seg i t1.
Proof.
  intros Hi Er Ec Ecap Ea Eisn Esync Hlisten Hold Hfin.
  assert (stream_out t1 = stream_out t) as Eo by (unfold stream_out; by rewrite Er).
  constructor.
  - destruct Hi. constructor; unfold ended, received in *; rewrite ?Er, ?Ec, ?Ecap, ?Ea, ?Eo, ?Esync; auto.
    unfold ended in *. by rewrite Eo.
  - by rewrite Eo.
  - done.
  - rewrite Esync. destruct (synced t); [done|]. by rewrite Hlisten.
  - intros j _. rewrite Er. by left.
  - rewrite Er. by left.
  - unfold ended. by rewrite Eo.
  - intros Hs Hdup Hf Hlt _. rewrite Er. destruct (synced t) eqn:Es; [by apply Hfin|].
    rewrite Hlisten in Hs by done. done.
  - intros Hs Hdup j Hj. rewrite Er. destruct (synced t) eqn:Es; [|rewrite Hlisten in Hs by done; done].
    split; [by left|]. intros [? | ?]; [done|]. by apply Hold.
Qed.

(** The receiver after a push that the reassembler performed. *)
Lemma rcv_spec_pushed t seg i t1 r :
  rcv_inv S isn t ->
  _reassembler t1 = _reassembler t -> _capacity t1 = _capacity t ->
  _syn t1 = true -> _isn t1 = raw_value isn -> (synced t || syn (header seg) = true) ->
  push_spec S (_reassembler t) (str_of (payload seg)) i (fin (header seg)) r ->
  rcv_spec S isn t seg i (update_ack t1 r).
Proof.
  intros Hi Er Ecap Esyn Eisn Hsync [Hr Hk Hrd Hc _ Hmono Heof].
  pose proof (ri_out _ _ Hr) as [? _ _ Hw ? _ ?]. pose proof (rv_len _ _ _ Hi) as Hlen. unfold rcv_len_ok in Hlen.
  assert (forall n, 0 <= n <= 2 -> wrap (to_u64 (bytes_written (_output r) + n)) {| raw_value := _isn t1 |}
            = wrap (bytes_written (_output r) + n) isn) as Hwrap.
  { intros n Hn. rewrite Eisn. unfold bytes_written. rewrite Hw, to_u64_small by lia.
    replace {| raw_value := raw_value isn |} with isn by (by apply wi_ext). done. }
  assert (stream_out (update_ack t1 r) = _output r) as Eo by (unfold update_ack; case_if; done).
  assert (_reassembler (update_ack t1 r) = r) as Er' by (unfold update_ack; case_if; done).
  assert (synced (update_ack t1 r) = true) as Es.
  { unfold synced, ended. rewrite Eo. unfold update_ack. case_if; simpl; rewrite ?Hif, ?Esyn; done. }
  constructor.
  - destruct Hi as [_ ? ? ? ? _ _ _ _]. constructor; rewrite ?Er'; auto; try congruence.
    + unfold update_ack. case_if; simpl; congruence.
    + unfold update_ack. case_if; simpl; by rewrite Ecap.
    + unfold ended. rewrite Eo. unfold update_ack. case_if; done.
    + unfold update_ack. case_if; simpl; done.
    + rewrite Es. unfold received, ended. rewrite Eo. unfold update_ack.
      case_if; simpl; rewrite Hwrap by lia; do 2 f_equal; lia.
  - rewrite Eo. unfold bytes_read. done.
  - unfold update_ack. case_if; simpl; done.
  - by rewrite Es, Hsync.
  - intros j Hj. rewrite Er'. rewrite Hk by done. intros [? | ?]; [by left | right; lia].
  - rewrite Er', Heof. intros [? | [? _]%andb_true_iff]%orb_true_iff; auto.
  - unfold ended. rewrite Eo. unfold stream_out, bytes_written.
    pose proof (rv_reasm _ _ _ Hi) as Hr0. pose proof (oi_written _ _ _ _ (ri_out _ _ Hr0)) as ->.
    rewrite Hw. split; [done|]. intros [He Hz]%(ri_ended _ _ Hr0). apply (ri_ended _ _ Hr).
    rewrite Heof, He. split; [done | lia].
  - intros _ _ Hf _ Hle. rewrite Er', Heof, Hf. apply orb_true_iff. right. simpl. lia.
  - intros _ _ j Hj. rewrite Er'. by apply Hk.
Qed.

(** The numbers of the handler, as integers that do not wrap. *)
Lemma rcv_bounds t :
  rcv_inv S isn t ->
  bytes_written (stream_out t) = write_ptr (_reassembler t) /\
  0 <= bytes_written (stream_out t) <= zlen S /\ 0 <= window_size t /\
  bytes_written (stream_out t) + window_size t = window_end (_reassembler t) /\
  _capacity t <= window_end (_reassembler t) < 2 ^ 64 /\
  bytes_written (stream_out t) <= window_end (_reassembler t) /\
  0 <= _checkp t <= bytes_written (stream_out t).
Proof.
  intros Hi. destruct (window_size_eq t Hi) as [_ Hw]. pose proof (rv_pos _ _ _ Hi).
  pose proof (rv_len _ _ _ Hi) as HS. unfold rcv_len_ok in HS. pose proof (rv_cap _ _ _ Hi).
  pose proof (ri_out _ _ (rv_reasm _ _ _ Hi)) as [? _ _ Hwp ? ? ?].
  assert (bytes_written (stream_out t) = write_ptr (_reassembler t)) as Hb by done.
  assert (0 <= window_size t) by (unfold window_size, remaining_capacity; apply to_u64_range).
  pose proof (rv_checkp _ _ _ Hi) as Hck. unfold window_end in *. rewrite Hck, Hb.
  split; [done|]. split; [lia|]. split; [done|]. split; [lia|]. split; [lia|]. split; [lia|]. case_if; lia.
Qed.

(** A segment that the handler rejects for its position brings nothing new. *)
Lemma rcv_spec_rejected t seg i t1 :
  rcv_inv S isn t -> segment_of S isn seg i ->
  _reassembler t1 = _reassembler t -> _checkp t1 = _checkp t -> _capacity t1 = _capacity t -> ack t1 = ack t ->
  _syn t1 = true -> _isn t1 = raw_value isn -> synced t || syn (header seg) = true ->
  i + zlen (str_of (payload seg)) < _checkp t \/ _checkp t + window_size t <= i ->
  rcv_spec S isn t seg i t1.
Proof.
  intros Hi Hseg Er Ec Ecap Ea Es1 Eisn Hsync Hg. destruct (rcv_bounds t Hi) as (Hwp & ? & ? & ? & ? & ? & ?).
  pose proof (so_payload _ _ _ _ Hseg) as (Hi0 & HiS & _). pose proof (zlen_nonneg (str_of (payload seg))).
  pose proof (rv_pos _ _ _ Hi). pose proof (rv_checkp _ _ _ Hi) as Hck.
  assert (synced t = true) as Hst.
  { destruct (synced t) eqn:Hst; [done|]. pose proof (rv_listen _ _ _ Hi Hst).
    destruct (so_syn _ _ _ _ Hseg) as [-> _]; [done | lia]. }
  apply rcv_spec_unchanged; auto; [rewrite Hst; unfold synced; by rewrite Es1 | congruence | |].
  - intros _ _ j Hj. destruct (ended t) eqn:He; [apply (ended_known t j Hi He); lia | left; lia].
  - intros _ _ Hf Hlt. pose proof (so_fin _ _ _ _ Hseg Hf).
    destruct (ended t) eqn:He; [by apply (ri_ended _ _ (rv_reasm _ _ _ Hi)) in He as [? _] | lia].
Qed.

(** The index of a segment without payload does not matter. *)
Lemma bare_received_spec t seg i :
  rcv_inv S isn t -> bare seg ->
  exists t', segment_received t seg = Ok t' /\ rcv_spec S isn t seg i t'.
Proof.
  intros Hi [Hsyn Hfin Hdata]. unfold segment_received. rewrite Hsyn. cbn [andb]. unfold note_seqno. rewrite Hsyn. cbn [_syn].
  set (t1 := {| _reassembler := _reassembler t |}).
  assert (rcv_spec S isn t seg i t1) as Hsame.
  { apply rcv_spec_unchanged; auto; [by apply Hi | | by rewrite Hfin]. rewrite Hdata. change (zlen []) with 0. intros; lia. }
  destruct (_syn t) eqn:Es; cbn [negb]; [|by exists t1]. case_if; [by exists t1|].
  destruct (rcv_bounds t Hi) as (_ & ? & _ & _ & _ & _ & ?). pose proof (rv_len _ _ _ Hi) as HS. unfold rcv_len_ok in HS.
  set (idx := unwrap _ _ _). assert (0 <= idx < 2 ^ 64) as Hidx by (apply unwrap_range; simpl; lia).
  change (_reassembler t1) with (_reassembler t). unfold copy. rewrite Hdata, Hfin.
  destruct (push_substring_spec S (_reassembler t) [] idx false (rv_reasm _ _ _ Hi)) as (r & -> & [? Hk ? ? ? ? ?]); [by right|].
  cbn [mbind outcome_bind]. eexists. split; [done|].
  apply rcv_spec_pushed; auto; [by apply Hi | unfold synced; by rewrite Es|]. rewrite Hdata, Hfin. constructor; auto.
  intros j Hj. rewrite (Hk j Hj). change (zlen []) with 0. intuition lia.
Qed.

Lemma segment_received_spec t seg i :
  rcv_inv S isn t -> from_peer S isn t seg i ->
  exists t', segment_received t seg = Ok t' /\ rcv_spec S isn t seg i t'.
Proof.
  intros Hi [[Hseg Hn] | Hbare]; [|by apply bare_received_spec]. unfold segment_received.
  destruct (syn (header seg) && _syn t) eqn:Edup.
  { exists t. split; [done|]. apply andb_true_iff in Edup as [E1 E2].
    apply rcv_spec_unchanged; auto; [by apply Hi | | | ].
    - unfold synced. by rewrite E2.
    - intros _. by rewrite E1, E2.
    - intros _. by rewrite E1, E2. }
  destruct (note_seqno_index t seg i Hi Hseg Hn Edup) as (Esyn & Hidx & Er & Ec & Ecap & Ea).
  set (t1 := note_seqno t (header seg)) in *. clearbody t1.
  assert (stream_out t1 = stream_out t) as Eo by (unfold stream_out; by rewrite Er).
  pose proof (so_payload _ _ _ _ Hseg) as (Hi0 & HiS & _). pose proof (zlen_nonneg (str_of (payload seg))).
  destruct (_syn t1) eqn:Es1; simpl.
  2: { exists t1. split; [done|]. symmetry in Esyn. apply orb_false_iff in Esyn as [E1 E2].
       apply rcv_spec_unchanged; auto; [congruence | by unfold synced, ended; rewrite Eo, Es1, E2 | |];
         unfold synced; rewrite E2; [|intros He _ _ _; by apply (ri_ended _ _ (rv_reasm _ _ _ Hi)) in He as [? _]].
       intros He _ j Hj. apply (ended_known t j Hi He); lia. }
  destruct (Hidx eq_refl) as [Eisn ->]. rewrite (payload_length seg i) by (done || apply Hi).
  assert (window_size t1 = window_size t) as -> by (unfold window_size; by rewrite Eo). rewrite Ec.
  destruct (rcv_bounds t Hi) as (Hwp & ? & ? & ? & ? & ? & ?). pose proof (rv_len _ _ _ Hi) as HS.
  unfold rcv_len_ok in HS. rewrite !to_u64_small by lia.
  assert (synced t || syn (header seg) = true) as Hsync
    by (unfold synced; destruct (syn (header seg)), (_syn t); done || by rewrite ?orb_true_r).
  destruct ((i + zlen (str_of (payload seg)) <? _checkp t) || (_checkp t + window_size t <=? i)) eqn:Eg.
  - exists t1. split; [done|]. apply rcv_spec_rejected; auto. lia.
  - destruct (push_substring_spec S (_reassembler t) (str_of (payload seg)) i (fin (header seg)) (rv_reasm _ _ _ Hi))
      as (r & Hp & Hspec); [left; split; [apply Hseg|]; split; [apply Hseg | lia]|].
    rewrite Er. unfold copy. rewrite Hp. cbn [mbind outcome_bind]. eexists. split; [done|].
    by apply (rcv_spec_pushed t seg i t1 r).
Qed.

(** Before a SYN the reassembler is not touched. *)
Lemma dropped_keeps t seg t' :
  synced t || syn (header seg) = false -> segment_received t seg = Ok t' -> _reassembler t' = _reassembler t.
Proof.
  unfold synced. intros [[Hs _]%orb_false_iff Hy]%orb_false_iff. unfold segment_received, note_seqno. rewrite Hy. simpl.
  rewrite Hs. simpl. intros E%Ok_inj. by rewrite <- E.
Qed.

(** Only a SYN makes a receiver whose stream has ended listen again. *)
Lemma reopened t seg t' :
  segment_received t seg = Ok t' -> ended t' = true -> _syn t' = true ->
  ended t = true /\ (_syn t = true \/ syn (header seg) = true).
Proof.
  unfold segment_received. intros E He Hsy.
  assert (_syn (note_seqno t (header seg)) = true -> _syn t = true \/ syn (header seg) = true) as Hnote
    by (unfold note_seqno; destruct (syn (header seg)); auto).
  assert (ended (note_seqno t (header seg)) = ended t) as Hen by (unfold note_seqno; by destruct (syn (header seg))).
  case_if_in E; [inv_outcome; auto|]. set (t1 := note_seqno t (header seg)) in *.
  destruct (_syn t1) eqn:Es; cbn [negb] in E; [|inv_outcome; congruence].
  case_if_in E; [inv_outcome; rewrite <- Hen; auto|]. apply bind_ok_inv in E as (r & _ & E). inv_outcome.
  unfold update_ack, ended, stream_out in *. destruct (input_ended (_output r)) eqn:Ei; simpl in *; [done | congruence].
Qed.

Lemma receiver_read_spec t n o out :
  rcv_inv S isn t -> 0 <= n -> ByteStream.read (stream_out t) n = Ok (o, out) ->
  rcv_inv S isn (receiver_set_out t out) /\
  o = slice S (bytes_read (stream_out t)) (bytes_read out) /\ bytes_read (stream_out t) <= bytes_read out /\
  bytes_written out = bytes_written (stream_out t) /\ input_ended out = input_ended (stream_out t).
Proof.
  intros Hi Hn Hread. destruct (read_spec S (_reassembler t) n (rv_reasm _ _ _ Hi) Hn)
    as (out' & E & Hr & Hcount & Hend).
  unfold stream_out in Hread. rewrite E in Hread. inv_outcome.
  pose proof (zlen_nonneg (bts (_output (_reassembler t)))) as Hnn.
  pose proof (oi_written _ _ _ _ (ri_out _ _ Hr)) as Hw'. simpl in Hw'.
  pose proof (oi_written _ _ _ _ (ri_out _ _ (rv_reasm _ _ _ Hi))) as Hw.
  assert (bytes_written out = bytes_written (stream_out t)) as Ew
    by (unfold bytes_written, stream_out; congruence).
  assert (ended (receiver_set_out t out) = ended t) as Ee by done.
  split; [|unfold bytes_read, stream_out in *; rewrite Hcount; unfold buffer_size; auto 6 with lia].
  assert (synced (receiver_set_out t out) = synced t) as Es by (unfold synced; by rewrite Ee).
  destruct Hi. unfold received in *.
  constructor; auto; rewrite ?Es; unfold received; rewrite ?Ee;
    change (stream_out (receiver_set_out t out)) with out; rewrite ?Ew; auto.
Qed.

Lemma tstep_inv t o t' :
  rcv_inv S isn t -> tstep S isn t o t' ->
  rcv_inv S isn t' /\ _capacity t' = _capacity t /\
  o = slice S (bytes_read (stream_out t)) (bytes_read (stream_out t')) /\
  bytes_read (stream_out t) <= bytes_read (stream_out t').
Proof.
  intros Hi Hstep. destruct Hstep as [t seg i t' Hseg E | t n o out Hn E].
  - destruct (segment_received_spec t seg i Hi Hseg) as (t1 & E1 & [Hinv Hrd Hcap _ _ _ _ _ _]).
    rewrite E in E1. inv_outcome. rewrite Hrd, slice_nil by lia. auto with lia.
  - destruct (receiver_read_spec t n o out Hi Hn E) as (? & ? & ? & _). auto.
Qed.

Lemma tsteps_inv t o t' :
  tsteps S isn t o t' -> rcv_inv S isn t ->
  rcv_inv S isn t' /\ _capacity t' = _capacity t /\
  o = slice S (bytes_read (stream_out t)) (bytes_read (stream_out t')) /\
  bytes_read (stream_out t) <= bytes_read (stream_out t').
Proof.
  induction 1 as [t | t o t' o' t'' _ IH Hstep]; intros Hi.
  - rewrite slice_nil by lia. auto with lia.
  - destruct (IH Hi) as (Hi' & Hc & Ho & Hle).
    destruct (tstep_inv t' o' t'' Hi' Hstep) as (Hi'' & Hc' & Ho' & Hle').
    split; [done|]. split; [congruence|]. split; [|lia]. rewrite Ho, Ho'.
    apply slice_app; [|done|done]. destruct (ri_out _ _ (rv_reasm _ _ _ Hi)). unfold bytes_read, stream_out. lia.
Qed.

Lemma receiver_delivered t :
  rcv_inv S isn t ->
  slice S 0 (bytes_read (stream_out t)) ++ bts (stream_out t) = slice S 0 (bytes_written (stream_out t)).
Proof.
  intros Hi. destruct (ri_out _ _ (rv_reasm _ _ _ Hi)) as [_ Hb _ Hw ? _ _].
  unfold stream_out, bytes_written, bytes_read. rewrite Hb, Hw. apply slice_app; lia.
Qed.
End receiver.

(** The parameters of a connection: a positive capacity, a stream whose indices and window
    edges fit 64 bits, and a 32-bit initial sequence number. *)
Definition connection_ok (S : bytes) (isn : WrappingInt32) (cap : Z) : Prop :=
  0 < cap < 2 ^ 63 /\ zlen S <= 2 ^ 63 /\ wi_wf isn.

Lemma reachable_inv S isn cap o t :
  connection_ok S isn cap -> tsteps S isn (tcp_receiver cap) o t ->
  rcv_inv S isn t /\ _capacity t = cap /\ o = slice S 0 (bytes_read (stream_out t)).
Proof.
  intros (? & ? & ?) Hs. destruct (tsteps_inv S isn _ _ _ Hs) as (? & ? & ? & _);
    [apply rcv_inv_init; lia || done | auto].
Qed.

(** The segments of a peer that sends "abcd" from sequence number [2 ^ 32 - 2]. *)
Definition peer_segment (s f : bool) (n : Z) (data : string) : TCPSegment :=
  {| _header := {| sport := 0; dport := 0; seqno := {| raw_value := n |}; ackno := {| raw_value := 0 |};
       doff := 5; urg := false; TCPHeader.ack := false; psh := false; rst := false; syn := s; fin := f;
       win := 0; cksum := 0; uptr := 0 |};
     _payload := buffer_of (str data) |}.

(** A run of three segments out of order and a read, which ends the stream. *)
Lemma peer_run :
  exists t, tsteps (str "abcd") {| raw_value := 2 ^ 32 - 2 |} (tcp_receiver 8) (str "ab") t /\
    bts (stream_out t) = str "cd" /\ ended t = true /\ receiver_ackno t = Some {| raw_value := 4 |} /\
    ByteStream.error (stream_out t) = false.
Proof.
  eexists. split.
  { eapply (tsteps_snoc _ _ _ [] _ (str "ab")); [eapply (tsteps_snoc _ _ _ [] _ []);
      [eapply (tsteps_snoc _ _ _ [] _ []); [eapply (tsteps_snoc _ _ _ [] _ []); [constructor|]|]|]|].
    - eapply (tstep_segment _ _ _ (peer_segment true false (2 ^ 32 - 2) "") 0); [left|]; by_compute.
    - eapply (tstep_segment _ _ _ (peer_segment false true 1 "cd") 2); [left|]; by_compute.
    - eapply (tstep_segment _ _ _ (peer_segment false false (2 ^ 32 - 1) "abc") 0); [left|]; by_compute.
    - eapply (tstep_read _ _ _ 2); by_compute. }
  by_compute.
Qed.

(** * Properties *)

(** C5: in-order delivery to the application. A peer sends the stream [S] in segments of
    any division, order and multiplicity, each less than [2 ^ 31] away from the receiver's
    checkpoint when it arrives ([near]), and segments without SYN, FIN and payload with any
    sequence numbers, and the application reads between arrivals:
    what it has read, followed by what is buffered for it, is always the prefix of [S] of
    [bytes_written] bytes, never more than the capacity is buffered, and once the output
    is marked as ended it is all of [S]. *)
Theorem receiver_in_order S isn cap o t :
  connection_ok S isn cap -> tsteps S isn (tcp_receiver cap) o t ->
  o ++ bts (stream_out t) = slice S 0 (bytes_written (stream_out t)) /\
  zlen (bts (stream_out t)) <= cap /\
  (ended t = true -> o ++ bts (stream_out t) = S).
Proof.
  intros Hok Hs. destruct (reachable_inv S isn cap o t Hok Hs) as (Hi & Hcap & ->).
  rewrite (receiver_delivered S isn t Hi). split; [done|].
  pose proof (rv_reasm _ _ _ Hi) as Hr. destruct (ri_out _ _ Hr) as [_ Hb _ Hw ? ? ?]. split.
  - unfold stream_out. rewrite Hb, zlen_slice by lia. rewrite <- Hcap, <- (rv_cap _ _ _ Hi). lia.
  - intros He. apply (ri_ended _ _ Hr) in He as [_ He].
    unfold bytes_written, stream_out. rewrite Hw, He. apply slice_full.
Qed.

Lemma receiver_in_order_witness :
  exists t, tsteps (str "abcd") {| raw_value := 2 ^ 32 - 2 |} (tcp_receiver 8) (str "ab") t /\
    str "ab" ++ bts (stream_out t) = slice (str "abcd") 0 (bytes_written (stream_out t)).
Proof.
  destruct peer_run as (t & Hs & _). exists t. split; [exact Hs|].
  apply (receiver_in_order (str "abcd") {| raw_value := 2 ^ 32 - 2 |} 8 (str "ab") t); [by_compute | exact Hs].
Defined.

(** C9: the feedback to the peer. In every state reached with segments as in C5 [ackno()] is
    empty until a SYN has been accepted, and then is the sequence number of the first byte
    of the stream that has not been received (of what follows the FIN once the stream has
    ended); [window_size()] is the capacity less the bytes that wait for the application,
    and from the first missing byte it reaches to the end of the reassembler's window. *)
Theorem receiver_feedback S isn cap o t :
  connection_ok S isn cap -> tsteps S isn (tcp_receiver cap) o t ->
  let n := bytes_written (stream_out t) in
  receiver_ackno t = (if synced t then Some (wrap (n + 1 + (if ended t then 1 else 0)) isn) else None) /\
  (forall i, 0 <= i -> (forall j, 0 <= j <= i -> known (_reassembler t) j) <-> i < n) /\
  window_size t = cap - zlen (bts (stream_out t)) /\ n + window_size t = zlen o + cap.
Proof.
  intros Hok Hs n. destruct (reachable_inv S isn cap o t Hok Hs) as (Hi & Hcap & ->).
  pose proof (rv_reasm _ _ _ Hi) as Hr. destruct (ri_out _ _ Hr) as [_ Hb _ Hw ? ? ?].
  destruct (window_size_eq S isn t Hi) as [Hw1 Hw2].
  split; [apply (rv_ack _ _ _ Hi)|]. split.
  - intros i H0. rewrite (first_missing S _ i Hr H0). unfold n, bytes_written, stream_out. by rewrite Hw.
  - rewrite Hw1, Hcap. split; [done|]. unfold n. rewrite <- Hcap, <- Hw1, Hw2. unfold window_end, bytes_read, stream_out.
    rewrite zlen_slice, (rv_cap _ _ _ Hi) by lia. lia.
Qed.

Lemma receiver_feedback_witness :
  exists t, receiver_ackno t = Some {| raw_value := 4 |} /\ ended t = true /\
    bytes_written (stream_out t) + window_size t = 2 + 8.
Proof.
  destruct peer_run as (t & Hs & _ & He & Ha & _). exists t. split; [exact Ha|]. split; [exact He|].
  apply (receiver_feedback (str "abcd") {| raw_value := 2 ^ 32 - 2 |} 8 (str "ab") t); [by_compute | exact Hs].
Defined.

(** C8: what one segment does. From every reachable state a segment of the peer whose index
    is less than [2 ^ 31] away from the checkpoint, or any segment without SYN, FIN and
    payload, is handled without an exception or undefined behaviour, and a SYN is accepted
    if none was. A segment that comes before any SYN, or that repeats the SYN of an open
    connection, is dropped with its payload and the bytes the receiver holds stay the
    same; after every other segment, even where the handler returns early, they are exactly
    those it held and those of the payload below the end of the window. A repeated SYN
    changes nothing at all. *)
Theorem segment_received_exact S isn cap o t seg i :
  connection_ok S isn cap -> tsteps S isn (tcp_receiver cap) o t -> from_peer S isn t seg i ->
  let dropped := negb (synced t || syn (header seg)) || (syn (header seg) && _syn t) in
  exists t', segment_received t seg = Ok t' /\ synced t' = (synced t || syn (header seg)) /\
    bytes_read (stream_out t') = bytes_read (stream_out t) /\
    (syn (header seg) && _syn t = true -> t' = t) /\
    (forall j, 0 <= j -> known (_reassembler t') j <-> known (_reassembler t) j \/
        (dropped = false /\ i <= j < Z.min (i + zlen (str_of (payload seg))) (zlen o + cap))).
Proof.
  intros Hok Hs Hseg dropped. destruct (reachable_inv S isn cap o t Hok Hs) as (Hi & Hcap & ->).
  destruct (segment_received_spec S isn t seg i Hi Hseg) as (t' & E & [_ Hrd _ Hsy _ _ _ _ Hk]).
  exists t'. split; [done|]. split; [done|]. split; [done|].
  assert (syn (header seg) && _syn t = true -> t' = t) as Hdup
    by (intros Hd; unfold segment_received in E; rewrite Hd in E; by inv_outcome).
  split; [done|]. intros j Hj. unfold dropped. destruct (synced t || syn (header seg)) eqn:Esync; simpl.
  - destruct (syn (header seg) && _syn t) eqn:Ed; [rewrite Hdup by done; intuition done|].
    rewrite (Hk eq_refl eq_refl j Hj). destruct (ri_out _ _ (rv_reasm _ _ _ Hi)). unfold bytes_read, stream_out, window_end.
    rewrite zlen_slice, (rv_cap _ _ _ Hi), Hcap by lia. rewrite Z.sub_0_r. tauto.
  - assert (_reassembler t' = _reassembler t) as ->; [|intuition done].
    by eapply dropped_keeps.
Qed.

Lemma segment_received_exact_witness :
  exists t', segment_received (tcp_receiver 3) (peer_segment true false 7 "abcd") = Ok t' /\
    synced t' = true /\ (forall j, 0 <= j -> known (_reassembler t') j <-> j < 0 \/ 0 <= j < 3).
Proof.
  destruct (segment_received_exact (str "abcd") {| raw_value := 7 |} 3 [] (tcp_receiver 3)
    (peer_segment true false 7 "abcd") 0) as (t' & E & Hs & _ & _ & Hk);
    [by_compute | constructor | left; by_compute |].
  exists t'. split; [exact E|]. split; [exact Hs|]. intros j Hj.
  rewrite (Hk j Hj). unfold known, covered. simpl. split.
  - intros [[? | (e & He & _)] | [_ ?]]; [lia | by apply elem_of_nil in He | vm_compute (Z.min _ _) in *; lia].
  - intros [? | ?]; [left; left; lia | right; split; [reflexivity | vm_compute (Z.min _ _); lia]].
Defined.
