(* ===== verification/TCPSender.v ===== *)
(** The TCP sender: tcp_sender.hh, tcp_sender.cc and the constants of
    tcp_helpers/tcp_config.hh.
    [fill_loop] is the [while] loop of [fill_window]: [None] when its fuel runs out, which is
    one iteration more than the window has free sequence numbers ([fill_loop_spec] shows that
    the loop returns before, [fill_loop_fuel] that more fuel changes nothing);
    [ack_received] and [tick] are the whole handlers.
    The theorems are relative to an application that writes the byte stream [S]: [seg_at]
    describes the segment of that stream at an absolute sequence number, [snd_inv] is the
    sender's invariant, and [sstep] is the transition system of the application's calls,
    the acknowledgments (any number and window at all), the clock and the queue. *)
From S2P Require Import Prelude StdMap WrappingIntegers ByteStream StreamReassembler Buffer TCPHeader TCPSegment.

(** The constants of [TCPConfig]. *)
Definition DEFAULT_CAPACITY : Z := 64000.
Definition MAX_PAYLOAD_SIZE : Z := 1452.
Definition TIMEOUT_DFLT : Z := 1000.
Definition MAX_RETX_ATTEMPTS : Z := 8.

(** [TCPConfig] with its default member initializers. *)
Record TCPConfig := {
  rt_timeout : Z;
  recv_capacity : Z;
  send_capacity : Z;
  fixed_isn : option WrappingInt32
}.
Definition tcp_config : TCPConfig :=
  {| rt_timeout := TIMEOUT_DFLT; recv_capacity := DEFAULT_CAPACITY; send_capacity := DEFAULT_CAPACITY;
     fixed_isn := None |}.

Record TCPSender := {
  _isn : WrappingInt32;
  ack_s : Z;
  _segments_out : list TCPSegment;
  _segments_noack : list (Z * TCPSegment);
  _initial_retransmission_timeout : Z;
  _rto_base : Z;
  _stream : ByteStream;
  _next_seqno : Z;
  _window : Z;
  window_zero : bool;
  fin_send : bool;
  start : bool;
  retransnum : Z;
  RTO : Z
}.

(** The constructor; [random] is what [random_device()()] returns. *)
Definition tcp_sender (capacity retx_timeout : Z) (fixed : option WrappingInt32) (random : Z) : TCPSender :=
  {| _isn := match fixed with Some i => i | None => {| raw_value := random |} end;
     ack_s := 0; _segments_out := []; _segments_noack := [];
     _initial_retransmission_timeout := retx_timeout; _rto_base := retx_timeout;
     _stream := byte_stream capacity; _next_seqno := 0; _window := 1; window_zero := false;
     fin_send := false; start := false; retransnum := 0; RTO := retx_timeout |}.

Definition stream_in (s : TCPSender) : ByteStream := _stream s.

(** [stream_in()] used by a writer: the sender with its stream replaced. *)
Definition sender_set_in (s : TCPSender) (b : ByteStream) : TCPSender :=
  {| _isn := _isn s; ack_s := ack_s s; _segments_out := _segments_out s;
     _segments_noack := _segments_noack s;
     _initial_retransmission_timeout := _initial_retransmission_timeout s; _rto_base := _rto_base s;
     _stream := b; _next_seqno := _next_seqno s; _window := _window s; window_zero := window_zero s;
     fin_send := fin_send s; start := start s; retransnum := retransnum s; RTO := RTO s |}.

(** [segments_out()] used by the owner of the queue: [front] and [pop]. *)
Definition sender_set_out (s : TCPSender) (q : list TCPSegment) : TCPSender :=
  {| _isn := _isn s; ack_s := ack_s s; _segments_out := q; _segments_noack := _segments_noack s;
     _initial_retransmission_timeout := _initial_retransmission_timeout s; _rto_base := _rto_base s;
     _stream := _stream s; _next_seqno := _next_seqno s; _window := _window s;
     window_zero := window_zero s; fin_send := fin_send s; start := start s;
     retransnum := retransnum s; RTO := RTO s |}.

(** The accessors. *)
Definition bytes_in_flight (s : TCPSender) : Z := to_u64 (_next_seqno s - ack_s s).
Definition consecutive_retransmissions (s : TCPSender) : Z := retransnum s.
Definition next_seqno_absolute (s : TCPSender) : Z := _next_seqno s.
Definition next_seqno (s : TCPSender) : WrappingInt32 := wrap (_next_seqno s) (_isn s).

(** A [TCPSegment()] with the fields that the sender assigns. *)
Definition sender_segment (sy fi : bool) (n : WrappingInt32) (data : Buffer) : TCPSegment :=
  {| _header := {| sport := sport header_default; dport := dport header_default; seqno := n;
       ackno := ackno header_default; doff := doff header_default; urg := urg header_default;
       ack := ack header_default; psh := psh header_default; rst := rst header_default; syn := sy; fin := fi;
       win := win header_default; cksum := cksum header_default; uptr := uptr header_default |};
     _payload := data |}.

(** The tail of an iteration: the segment is queued and kept until it is acknowledged. *)
Definition send_segment (s : TCPSender) (seg : TCPSegment) : TCPSender :=
  let next := to_u64 (_next_seqno s + length_in_sequence_space seg) in
  {| _isn := _isn s; ack_s := ack_s s; _segments_out := _segments_out s ++ [seg];
     _segments_noack := map_insert next seg (_segments_noack s);
     _initial_retransmission_timeout := _initial_retransmission_timeout s; _rto_base := _rto_base s;
     _stream := _stream s; _next_seqno := next; _window := _window s;
     window_zero := window_zero s; fin_send := fin_send s || fin (header seg); start := true;
     retransnum := retransnum s; RTO := RTO s |}.

(** [uint64_t end = ack_s + _window]. *)
Definition window_right (s : TCPSender) : Z := to_u64 (ack_s s + _window s).

(** One iteration: the segment it builds and the state after its [read]. *)
Definition build_segment (s : TCPSender) (end_ : Z) : outcome (TCPSegment * TCPSender) :=
  let sy := _next_seqno s =? 0 in
  let n := wrap (_next_seqno s) (_isn s) in
  let w_size := to_u64 (end_ - _next_seqno s) in
  let data_size := if MAX_PAYLOAD_SIZE <=? w_size then MAX_PAYLOAD_SIZE else w_size in
  '(data, b) ← ByteStream.read (stream_in s) data_size;
  let seg := sender_segment sy false n (buffer_of data) in
  let fi := negb (fin_send s) && eof b
            && (to_u64 (_next_seqno s + length_in_sequence_space seg) <? end_) in
  Ok (sender_segment sy fi n (buffer_of data), sender_set_in s b).

(** [while (_next_seqno < end)]: what the loop ends with, or [None] if it does not end
    within [fuel] evaluations of its condition. *)
Fixpoint fill_loop (fuel : nat) (s : TCPSender) (end_ : Z) : option (outcome TCPSender) :=
  match fuel with
  | O => None
  | S fuel' =>
      if _next_seqno s <? end_ then
        match build_segment s end_ with
        | Ok (seg, s) =>
            if 0 <? length_in_sequence_space seg then fill_loop fuel' (send_segment s seg) end_
            else Some (Ok s)
        | Throw e => Some (Throw e)
        | Undefined => Some Undefined
        end
      else Some (Ok s)
  end.

(** A loop that does not end gives no result; [fill_loop_terminates] shows that it ends. *)
Definition fill_window (s : TCPSender) : outcome TCPSender :=
  if fin_send s then Ok s
  else
    let end_ := window_right s in
    match fill_loop (S (Z.to_nat (end_ - _next_seqno s))) s end_ with
    | Some c => c
    | None => Undefined
    end.

(** The body of [if (new_ack > ack_s)]: the timer is reset, and the loop over
    [_segments_noack] erases the entries with [first <= ack_s]. *)
Definition advance_ack (s : TCPSender) (new_ack : Z) : TCPSender :=
  {| _isn := _isn s; ack_s := new_ack; _segments_out := _segments_out s;
     _segments_noack := List.filter (fun e => negb (e.1 <=? new_ack)) (_segments_noack s);
     _initial_retransmission_timeout := _initial_retransmission_timeout s; _rto_base := _rto_base s;
     _stream := _stream s; _next_seqno := _next_seqno s; _window := _window s;
     window_zero := window_zero s; fin_send := fin_send s; start := start s;
     retransnum := 0; RTO := _initial_retransmission_timeout s |}.

(** The end of the handler: the window, and [start]. *)
Definition update_window (s : TCPSender) (window_size : Z) : TCPSender :=
  {| _isn := _isn s; ack_s := ack_s s; _segments_out := _segments_out s;
     _segments_noack := _segments_noack s;
     _initial_retransmission_timeout := _initial_retransmission_timeout s; _rto_base := _rto_base s;
     _stream := _stream s; _next_seqno := _next_seqno s;
     _window := if negb (window_size =? 0) then window_size else 1;
     window_zero := if negb (window_size =? 0) then window_zero s else true;
     fin_send := fin_send s; start := if ack_s s =? _next_seqno s then false else start s;
     retransnum := retransnum s; RTO := RTO s |}.

Definition ack_received (s : TCPSender) (ackno : WrappingInt32) (window_size : Z) : TCPSender :=
  let new_ack := unwrap ackno (_isn s) (_next_seqno s) in
  if _next_seqno s <? new_ack then s
  else
    let s := if ack_s s <? new_ack then advance_ack s new_ack else s in
    update_window s window_size.

(** [RTO -= ms_since_last_tick]. *)
Definition count_down (s : TCPSender) (ms : Z) : TCPSender :=
  {| _isn := _isn s; ack_s := ack_s s; _segments_out := _segments_out s;
     _segments_noack := _segments_noack s;
     _initial_retransmission_timeout := _initial_retransmission_timeout s; _rto_base := _rto_base s;
     _stream := _stream s; _next_seqno := _next_seqno s; _window := _window s;
     window_zero := window_zero s; fin_send := fin_send s; start := start s;
     retransnum := retransnum s; RTO := to_u32 (RTO s - ms) |}.

(** The timer has expired: back off and retransmit the first entry of [_segments_noack]. *)
Definition expire (s : TCPSender) : TCPSender :=
  let base := if retransnum s =? 0 then to_u32 (_initial_retransmission_timeout s * 2)
              else to_u32 (_rto_base s * 2) in
  {| _isn := _isn s; ack_s := ack_s s;
     _segments_out := match _segments_noack s with
                      | (_, seg) :: _ => _segments_out s ++ [seg]
                      | [] => _segments_out s
                      end;
     _segments_noack := _segments_noack s;
     _initial_retransmission_timeout := _initial_retransmission_timeout s; _rto_base := base;
     _stream := _stream s; _next_seqno := _next_seqno s; _window := _window s;
     window_zero := window_zero s; fin_send := fin_send s;
     start := match _segments_noack s with _ :: _ => true | [] => start s end;
     retransnum := to_u32 (retransnum s + 1);
     RTO := if window_zero s then _initial_retransmission_timeout s else base |}.

Definition tick (s : TCPSender) (ms_since_last_tick : Z) : TCPSender :=
  if negb (start s) then s
  else if RTO s <=? ms_since_last_tick then expire s
  else count_down s ms_since_last_tick.

Definition send_empty_segment (s : TCPSender) : TCPSender :=
  let seg := sender_segment false false (wrap (_next_seqno s) (_isn s)) buffer_default in
  sender_set_out s (_segments_out s ++ [seg]).

(** * The application, the invariant and the transition system *)

(** The index in [S] of the payload of a segment at absolute sequence number [b]: number
    0 is the SYN's, byte [i] has number [i + 1]. *)
Definition index_at (b : Z) : Z := Z.max 0 (b - 1).

Definition seg_data (seg : TCPSegment) : bytes := str_of (payload seg).
Definition seg_len (seg : TCPSegment) : Z :=
  zlen (seg_data seg) + (if syn (header seg) then 1 else 0) + (if fin (header seg) then 1 else 0).

(** [seg] carries the part of the stream [S] that starts at absolute sequence number [b]. *)
Record seg_at (S : bytes) (isn : WrappingInt32) (seg : TCPSegment) (b : Z) : Prop := {
  sa_pos : 0 <= b;
  sa_seqno : seqno (header seg) = wrap b isn;
  sa_syn : syn (header seg) = (b =? 0);
  sa_data : excerpt S (index_at b) (seg_data seg);
  sa_fin : fin (header seg) = true -> index_at b + zlen (seg_data seg) = zlen S;
  sa_max : zlen (seg_data seg) <= MAX_PAYLOAD_SIZE
}.

(** What the sender puts into its queue while [next] is its next sequence number: a part of
    the stream, or an empty segment, which [send_empty_segment] makes at any time, also
    before the SYN and after the FIN. *)
Definition queued (S : bytes) (isn : WrappingInt32) (next : Z) (seg : TCPSegment) : Prop :=
  (exists b, seg_at S isn seg b /\ b + seg_len seg <= next) \/
  (bare seg /\ exists b, 0 <= b <= next /\ seqno (header seg) = wrap b isn).

(** The entries of [_segments_noack]: consecutive segments from [b] to [e], each under the
    number that follows it. *)
Fixpoint chain (S : bytes) (isn : WrappingInt32) (b : Z) (m : list (Z * TCPSegment)) (e : Z) : Prop :=
  match m with
  | [] => b = e
  | (k, seg) :: m' => seg_at S isn seg b /\ k = b + seg_len seg /\ b < k /\ chain S isn k m' e
  end.

(** The payloads of its segments, in order. *)
Definition chain_data (m : list (Z * TCPSegment)) : bytes := concat (map (fun e => seg_data e.2) m).

Record snd_inv (S : bytes) (isn : WrappingInt32) (s : TCPSender) : Prop := {
  si_isn : _isn s = isn;
  si_isn_wf : wi_wf isn;
  si_len : zlen S <= 2 ^ 63;
  si_stream : out_inv S (b_size (_stream s)) (_stream s) (bytes_written (_stream s));
  si_ended : input_ended (_stream s) = true -> bytes_written (_stream s) = zlen S;
  si_fin : fin_send s = true -> eof (_stream s) = true /\ _next_seqno s <> 0;
  si_next : _next_seqno s = if _next_seqno s =? 0 then 0
            else 1 + bytes_read (_stream s) + (if fin_send s then 1 else 0);
  si_closed : _next_seqno s = 0 -> bytes_read (_stream s) = 0;
  si_ack : 0 <= ack_s s <= _next_seqno s;
  si_window : 1 <= _window s < 2 ^ 16;
  si_noack : exists b, 0 <= b <= ack_s s /\ chain S isn b (_segments_noack s) (_next_seqno s);
  si_unacked : Forall (fun e => ack_s s < e.1) (_segments_noack s);
  si_start : start s = negb (ack_s s =? _next_seqno s);
  si_out : Forall (queued S isn (_next_seqno s)) (_segments_out s);
  si_init : 0 <= _initial_retransmission_timeout s < 2 ^ 16;
  si_retrans : 0 <= retransnum s < 2 ^ 32;
  si_base : 0 < retransnum s ->
    _rto_base s = to_u32 (_initial_retransmission_timeout s * 2 ^ retransnum s);
  si_rto : 0 <= RTO s < 2 ^ 32;
  si_timer : start s = false -> retransnum s = 0 /\ RTO s = _initial_retransmission_timeout s
}.

(** The application writes [S] piece by piece and ends it after its last byte; the clock
    ticks; the owner asks for empty segments and takes segments off the queue. [o] is the
    segment taken. *)
Inductive local_step (S : bytes) : TCPSender -> list TCPSegment -> TCPSender -> Prop :=
| local_write s data :
    excerpt S (bytes_written (stream_in s)) data -> input_ended (stream_in s) = false ->
    local_step S s [] (sender_set_in s (ByteStream.write (stream_in s) data).2)
| local_end s :
    bytes_written (stream_in s) = zlen S -> local_step S s [] (sender_set_in s (end_input (stream_in s)))
| local_fill s s' : fill_window s = Ok s' -> local_step S s [] s'
| local_tick s ms : 0 <= ms < 2 ^ 64 -> local_step S s [] (tick s ms)
| local_empty s : local_step S s [] (send_empty_segment s)
| local_pop s seg q : _segments_out s = seg :: q -> local_step S s [seg] (sender_set_out s q).

(** Anything at all may arrive as an acknowledgment. *)
Inductive sstep (S : bytes) : TCPSender -> list TCPSegment -> TCPSender -> Prop :=
| sstep_local s o s' : local_step S s o s' -> sstep S s o s'
| sstep_ack s ackno w : wi_wf ackno -> 0 <= w < 2 ^ 16 -> sstep S s [] (ack_received s ackno w).

Inductive ssteps (S : bytes) : TCPSender -> list TCPSegment -> TCPSender -> Prop :=
| ssteps_refl s : ssteps S s [] s
| ssteps_snoc s o s' o' s'' : ssteps S s o s' -> sstep S s' o' s'' -> ssteps S s (o ++ o') s''.

(** * Lemmas *)

Lemma seg_len_nonneg seg : 0 <= seg_len seg.
Proof. unfold seg_len. pose proof (zlen_nonneg (seg_data seg)). repeat case_if; lia. Qed.

Lemma sa_len S isn seg b : seg_at S isn seg b -> seg_len seg <= MAX_PAYLOAD_SIZE + 2.
Proof. intros Hseg. pose proof (sa_max _ _ _ _ Hseg). unfold seg_len. repeat case_if; lia. Qed.

Lemma seg_len_eq seg : zlen (seg_data seg) <= MAX_PAYLOAD_SIZE -> length_in_sequence_space seg = seg_len seg.
Proof. intros H. apply length_in_sequence_space_eq. unfold seg_data, MAX_PAYLOAD_SIZE in H. lia. Qed.

Lemma sender_segment_data sy fi n data : seg_data (sender_segment sy fi n (buffer_of data)) = data.
Proof. apply str_of_buffer_of. Qed.

Section sender.
Context (S : bytes) (isn : WrappingInt32).
Implicit Types s : TCPSender.
Implicit Types m : list (Z * TCPSegment).
Local Abbreviation chain := (chain S isn).
Local Abbreviation seg_at := (seg_at S isn).

(** ** Chains *)

Lemma chain_bound b m e : chain b m e -> b <= e /\ Forall (fun x => b < x.1 <= e) m.
Proof.
  revert b. induction m as [|[k seg] m IH]; simpl; intros b Hc; [split; [lia | constructor]|].
  destruct Hc as (_ & -> & Hlt & Hc). apply IH in Hc as [Hle Hall]. split; [lia|].
  constructor; [simpl; lia|]. eapply Forall_impl; [exact Hall|]. simpl. intros; lia.
Qed.

Lemma chain_app b m1 k m2 e : chain b m1 k -> chain k m2 e -> chain b (m1 ++ m2) e.
Proof.
  revert b. induction m1 as [|[k' seg] m1 IH]; simpl; intros b H1 H2; [by subst|].
  destruct H1 as (? & ? & ? & ?). auto.
Qed.

Lemma chain_one b seg : seg_at seg b -> 0 < seg_len seg -> chain b [(b + seg_len seg, seg)] (b + seg_len seg).
Proof. intros. simpl. auto with lia. Qed.

Lemma filter_all_gt m a : Forall (fun x => a < x.1) m -> List.filter (fun e => negb (e.1 <=? a)) m = m.
Proof.
  induction 1 as [|x m Hx _ IH]; simpl; [done|]. rewrite IH. by replace (x.1 <=? a) with false by lia.
Qed.

(** Erasing the acknowledged entries leaves a chain. *)
Lemma chain_filter b m e a :
  chain b m e -> b <= a -> a <= e ->
  let m' := List.filter (fun x => negb (x.1 <=? a)) m in
  (exists b', b <= b' <= a /\ chain b' m' e) /\ Forall (fun x => a < x.1) m'.
Proof.
  revert b. induction m as [|[k seg] m IH]; intros b Hc Hb He; cbn zeta.
  { simpl in *. subst. split; [exists e; split; [lia | done] | constructor]. }
  destruct (k <=? a) eqn:Ek.
  - destruct Hc as (_ & ? & ? & Hc). simpl. rewrite Ek. simpl.
    destruct (IH k Hc) as [(b' & ? & ?) ?]; [lia | done|].
    split; [exists b'; split; [lia | done] | done].
  - assert (Forall (fun x => a < x.1) ((k, seg) :: m)) as Hall.
    { destruct Hc as (_ & ? & ? & Hc). apply chain_bound in Hc as [_ Hm].
      constructor; [simpl; lia|]. eapply Forall_impl; [exact Hm|]. simpl. intros; lia. }
    rewrite filter_all_gt by done. split; [exists b; split; [lia | done] | done].
Qed.

(** ** The invariant *)

Lemma queued_mono next next' l :
  next <= next' -> Forall (queued S isn next) l -> Forall (queued S isn next') l.
Proof.
  intros Hle Hl. eapply Forall_impl; [exact Hl|].
  intros seg [(b & ? & ?) | (? & b & ? & ?)]; [left | right; split; [done|]]; exists b; auto with lia.
Qed.

Lemma next_bounds s : snd_inv S isn s ->
  0 <= bytes_read (_stream s) <= bytes_written (_stream s) /\ bytes_written (_stream s) <= zlen S /\
  0 <= _next_seqno s <= bytes_read (_stream s) + 2 /\
  window_right s = ack_s s + _window s /\ ack_s s + _window s < 2 ^ 64.
Proof.
  intros Hi. pose proof (si_len _ _ _ Hi). pose proof (si_next _ _ _ Hi) as Hn.
  destruct (si_stream _ _ _ Hi) as [_ _ _ _ Hr _ Hw]. pose proof (si_ack _ _ _ Hi). pose proof (si_window _ _ _ Hi).
  unfold bytes_read, bytes_written in *.
  assert (0 <= _next_seqno s <= read_count (_stream s) + 2)
    by (destruct (_next_seqno s =? 0), (fin_send s); lia).
  unfold window_right. rewrite to_u64_small by lia. auto with lia.
Qed.

(** What an iteration of the loop builds before the FIN has been sent. *)
Record built (s : TCPSender) (end_ : Z) (seg : TCPSegment) (b : ByteStream) : Prop := {
  bu_seg : seg_at seg (_next_seqno s);
  bu_out : out_inv S (b_size (_stream s)) b (bytes_written (_stream s));
  bu_read : read_count b = bytes_read (_stream s) + zlen (seg_data seg);
  bu_flag : end_flag b = end_flag (_stream s) /\ ByteStream._error b = ByteStream._error (_stream s);
  bu_size : zlen (seg_data seg)
    = Z.min (Z.min MAX_PAYLOAD_SIZE (end_ - _next_seqno s)) (buffer_size (_stream s));
  bu_fin : fin (header seg) = eof b && (_next_seqno s + zlen (seg_data seg) + Z.b2z (_next_seqno s =? 0) <? end_);
  bu_data : seg_data seg = slice S (bytes_read (_stream s)) (read_count b)
}.

Lemma eof_spec b wp cap : out_inv S cap b wp -> eof b = true <-> end_flag b = true /\ read_count b = wp.
Proof.
  intros [_ Hb _ _ ? _ ?]. unfold eof, buffer_empty. rewrite andb_true_iff.
  assert (zlen (bts b) = wp - read_count b) as Hz by (rewrite Hb, zlen_slice; lia).
  destruct (bts b) as [|x l]; [rewrite zlen_nil in Hz; intuition lia|].
  rewrite zlen_cons in Hz. pose proof (zlen_nonneg l). intuition lia.
Qed.

(** Once the FIN is sent, all of [S] has been. *)
Lemma fin_all_sent s :
  snd_inv S isn s -> fin_send s = true -> bytes_read (_stream s) = zlen S /\ _next_seqno s = zlen S + 2.
Proof.
  intros Hi Hf. destruct (si_fin _ _ _ Hi Hf) as [He Hn]. pose proof (si_next _ _ _ Hi) as Hx.
  pose proof (si_stream _ _ _ Hi) as Hst. apply (eof_spec _ _ _ Hst) in He as [He Hr].
  rewrite (si_ended _ _ _ Hi He) in Hr. unfold bytes_read in *. rewrite Hf in Hx. case_if_in Hx; lia.
Qed.

Lemma build_segment_spec s :
  snd_inv S isn s -> fin_send s = false -> _next_seqno s < window_right s ->
  exists seg b, build_segment s (window_right s) = Ok (seg, sender_set_in s b) /\
    built s (window_right s) seg b.
Proof.
  intros Hi Hf Hlt. destruct (next_bounds s Hi) as (Hr & Hw & Hn & Hwr & Hov). pose proof (si_len _ _ _ Hi).
  set (end_ := window_right s) in *. unfold build_segment. rewrite to_u64_small by lia.
  replace (if MAX_PAYLOAD_SIZE <=? end_ - _next_seqno s then MAX_PAYLOAD_SIZE else end_ - _next_seqno s)
    with (Z.min MAX_PAYLOAD_SIZE (end_ - _next_seqno s)) by (case_if; lia).
  set (n := Z.min MAX_PAYLOAD_SIZE _). assert (0 <= n <= MAX_PAYLOAD_SIZE) by (unfold n, MAX_PAYLOAD_SIZE; lia).
  destruct (out_inv_read S _ _ _ n (si_stream _ _ _ Hi)) as (b & E & Ho & Hrc & He & Herr); [lia|].
  unfold stream_in. rewrite E. cbn [mbind outcome_bind].
  set (k := Z.min n _) in *. set (data := slice S _ _) in *.
  pose proof (zlen_nonneg (bts (_stream s))). pose proof (oi_read _ _ _ _ Ho).
  unfold bytes_read in *. unfold buffer_size in k.
  assert (zlen data = k) as Hk by (unfold data; rewrite zlen_slice; lia).
  assert (index_at (_next_seqno s) = read_count (_stream s)) as Hidx.
  { unfold index_at. pose proof (si_next _ _ _ Hi) as Hnx. pose proof (si_closed _ _ _ Hi). rewrite Hf in Hnx.
    unfold bytes_read in *. destruct (_next_seqno s =? 0) eqn:E0; lia. }
  assert (zlen data <= MAX_PAYLOAD_SIZE) by lia.
  eexists _, b. split; [done|].
  rewrite seg_len_eq by (rewrite sender_segment_data; lia). unfold seg_len at 1.
  assert (out_inv S (b_size (_stream s)) b (bytes_written (_stream s))) as Hob by done.
  rewrite sender_segment_data, Hf. cbn [negb andb header sender_segment _header syn fin].
  rewrite to_u64_small by (case_if; lia).
  constructor; rewrite ?sender_segment_data; cbn [header sender_segment _header fin]; auto; try lia.
  - constructor; rewrite ?sender_segment_data, ?Hidx; cbn [header sender_segment _header fin syn seqno]; auto; try lia.
    + by rewrite (si_isn _ _ _ Hi).
    + unfold excerpt. rewrite Hk. auto with lia.
    + rewrite andb_true_iff. intros [He' _]. apply (eof_spec b _ _ Hob) in He' as [He' ?].
      rewrite He in He'. pose proof (si_ended _ _ _ Hi He'). lia.
  - unfold bytes_read. lia.
  - f_equal. f_equal. case_if; simpl; lia.
  - rewrite Hrc. done.
Qed.

Lemma seg_len_built s end_ seg b :
  built s end_ seg b -> length_in_sequence_space seg = seg_len seg /\
  seg_len seg = zlen (seg_data seg) + Z.b2z (_next_seqno s =? 0) + Z.b2z (fin (header seg)).
Proof.
  intros [Hs _ _ _ _ _ _]. split; [apply seg_len_eq, Hs|]. unfold seg_len.
  rewrite (sa_syn _ _ _ _ Hs). repeat case_if; simpl; lia.
Qed.

Lemma send_segment_inv s seg b :
  snd_inv S isn s -> fin_send s = false -> built s (window_right s) seg b -> 0 < seg_len seg ->
  let s' := send_segment (sender_set_in s b) seg in
  snd_inv S isn s' /\ _next_seqno s' = _next_seqno s + seg_len seg /\
  _segments_noack s' = _segments_noack s ++ [(_next_seqno s + seg_len seg, seg)].
Proof.
  intros Hi Hf Hb Hpos. destruct (seg_len_built _ _ _ _ Hb) as [Hlen Hsl].
  destruct (next_bounds s Hi) as (Hr & Hw & Hn & Hwr & Hov). pose proof (si_len _ _ _ Hi) as HS.
  pose proof Hb as [Hseg Hout Hrd [Hfl _] Hsz Hfin Hdat]. pose proof (oi_read _ _ _ _ Hout) as Hro.
  pose proof (oi_written _ _ _ _ Hout) as Hwo.
  assert (bytes_written b = bytes_written (_stream s)) as Hwb by (unfold bytes_written in *; congruence).
  assert (to_u64 (_next_seqno s + length_in_sequence_space seg) = _next_seqno s + seg_len seg) as Hnext.
  { rewrite Hlen, to_u64_small; [done|]. unfold bytes_read in *. repeat case_if; lia. }
  destruct (si_noack _ _ _ Hi) as (b0 & Hb0 & Hch). pose proof (chain_bound _ _ _ Hch) as [_ Hall].
  assert (map_insert (_next_seqno s + seg_len seg) seg (_segments_noack s)
    = _segments_noack s ++ [(_next_seqno s + seg_len seg, seg)]) as Hins.
  { apply map_insert_max. eapply Forall_impl; [exact Hall|]. simpl. intros; lia. }
  cbn zeta. split; [|unfold send_segment; simpl; rewrite Hnext; by rewrite Hins].
  pose proof (si_next _ _ _ Hi) as Hnx. pose proof (si_ack _ _ _ Hi) as Hack. rewrite Hf in Hnx.
  constructor; unfold send_segment, sender_set_in in *; cbn -[map_insert to_u64 slice Z.pow index_at] in *;
    rewrite ?Hnext, ?Hins, ?Hf; try apply Hi.
  - rewrite Hwb. by rewrite (oi_cap _ _ _ _ Hout).
  - unfold input_ended. rewrite Hfl, Hwb. apply Hi.
  - simpl. rewrite Hfin, andb_true_iff. intros [? _]. split; [done | lia].
  - pose proof (si_closed _ _ _ Hi). unfold bytes_read in *. rewrite Hrd, Hsl. simpl.
    destruct (_next_seqno s =? 0) eqn:E0, (fin (header seg)); simpl in *; repeat case_if; try lia.
  - lia.
  - lia.
  - exists b0. split; [done|]. eapply chain_app; [exact Hch|]. by apply chain_one.
  - apply Forall_app. split; [apply Hi|]. constructor; [simpl; lia | done].
  - lia.
  - apply Forall_app. split; [apply (queued_mono (_next_seqno s)); [lia | apply Hi]|].
    constructor; [|done]. left. exists (_next_seqno s). auto with lia.
  - done.
Qed.

(** What [fill_window] does: it appends to the queue, and to the segments it keeps, a chain
    that continues at the next sequence number and carries the bytes it reads. *)
Record fill_spec (s s' : TCPSender) (m : list (Z * TCPSegment)) : Prop := {
  fs_from : snd_inv S isn s;
  fs_inv : snd_inv S isn s';
  fs_out : _segments_out s' = _segments_out s ++ map snd m;
  fs_noack : _segments_noack s' = _segments_noack s ++ m;
  fs_chain : chain (_next_seqno s) m (_next_seqno s');
  fs_data : chain_data m = slice S (bytes_read (_stream s)) (bytes_read (_stream s'));
  fs_read : bytes_read (_stream s) <= bytes_read (_stream s');
  fs_ack : ack_s s' = ack_s s;
  fs_window : _window s' = _window s;
  fs_zero : window_zero s' = window_zero s;
  fs_stream : bytes_written (_stream s') = bytes_written (_stream s) /\
    input_ended (_stream s') = input_ended (_stream s);
  fs_timer : retransnum s' = retransnum s /\ RTO s' = RTO s;
  fs_fin : fin_send s = true -> fin_send s' = true
}.

Lemma fill_spec_refl s : snd_inv S isn s -> fill_spec s s [].
Proof.
  intros Hi. constructor; rewrite ?app_nil_r; try done; rewrite slice_nil by lia; done.
Qed.

Lemma fill_spec_trans s1 s2 s3 m1 m2 : fill_spec s1 s2 m1 -> fill_spec s2 s3 m2 -> fill_spec s1 s3 (m1 ++ m2).
Proof.
  intros [I0 I1 O1 N1 C1 D1 R1 ? ? ? [] [] ?] [_ I2 O2 N2 C2 D2 R2 ? ? ? [] [] ?].
  constructor; auto; try congruence; try lia; try (split; congruence).
  - by rewrite O2, O1, map_app, app_assoc.
  - by rewrite N2, N1, app_assoc.
  - by eapply chain_app.
  - unfold chain_data in *. rewrite map_app, concat_app, D1, D2. apply slice_app; [apply (next_bounds s1 I0) | done | done].
Qed.

Lemma send_segment_fill s seg b :
  snd_inv S isn s -> fin_send s = false -> built s (window_right s) seg b -> 0 < seg_len seg ->
  fill_spec s (send_segment (sender_set_in s b) seg) [(_next_seqno s + seg_len seg, seg)].
Proof.
  intros Hi Hf Hb Hpos. destruct (send_segment_inv s seg b Hi Hf Hb Hpos) as (Hi' & Hn & Hm).
  pose proof Hb as [Hseg Hout Hrd [Hfl _] Hsz Hfin Hdat]. pose proof (oi_written _ _ _ _ Hout) as Hwo.
  pose proof (zlen_nonneg (seg_data seg)).
  constructor; auto; rewrite ?Hn; simpl; try done.
  - apply (chain_one (_next_seqno s) seg); [apply Hb | done].
  - unfold chain_data. simpl. by rewrite app_nil_r.
  - unfold bytes_read in *. lia.
  - congruence.
Qed.

(** After the FIN the loop stops at once. *)
Lemma read_empty_stream b n wp cap :
  out_inv S cap b wp -> eof b = true -> 0 <= n -> ByteStream.read b n = Ok ([], b).
Proof.
  intros Ho He Hn. apply (eof_spec b wp cap Ho) in He as [_ Hr].
  destruct Ho as [? Hb _ _ ? ? ?]. rewrite slice_nil in Hb by lia.
  rewrite read_eq by lia. rewrite Hb. change (zlen []) with 0.
  rewrite Z.min_r by lia. rewrite Z.add_0_r, to_u64_small by lia. simpl. rewrite <- Hb. by destruct b.
Qed.

Lemma fill_loop_fin n s :
  snd_inv S isn s -> fin_send s = true -> fill_loop (Datatypes.S n) s (window_right s) = Some (Ok s).
Proof.
  intros Hi Hf. cbn [fill_loop]. case_if; [|done].
  destruct (si_fin _ _ _ Hi Hf) as [He Hn0]. unfold build_segment, stream_in.
  erewrite read_empty_stream; [|apply Hi | done | case_if; unfold MAX_PAYLOAD_SIZE; try lia; apply to_u64_range].
  rewrite Hf. replace (_next_seqno s =? 0) with false by lia. simpl. by destruct s.
Qed.

Lemma built_empty s end_ seg b :
  snd_inv S isn s -> built s end_ seg b -> seg_len seg = 0 ->
  b = _stream s /\ _next_seqno s <> 0 /\ fin (header seg) = false /\ seg_data seg = [].
Proof.
  intros Hi Hb Hz. destruct (seg_len_built _ _ _ _ Hb) as [_ Hsl].
  destruct Hb as [_ Hout Hrd [Hfl Herr] _ _ _]. pose proof (zlen_nonneg (seg_data seg)).
  destruct (_next_seqno s =? 0) eqn:E0, (fin (header seg)); simpl in Hsl; try lia.
  split; [|split; [lia|]; split; [done | apply zlen_zero; lia]].
  eapply out_inv_ext; [exact Hout | apply Hi | unfold bytes_read in *; lia | done | done].
Qed.

(** [fill_window] stops only when the FIN is out, the window is full or, after the SYN,
    the stream has nothing to send for now. *)
Definition filled (s : TCPSender) : Prop :=
  fin_send s = true \/ window_right s <= _next_seqno s \/
  (_next_seqno s <> 0 /\ buffer_empty (_stream s) = true /\ input_ended (_stream s) = false).

Lemma buffer_empty_spec b : buffer_empty b = true <-> buffer_size b = 0.
Proof.
  unfold buffer_empty, buffer_size. destruct (bts b) as [|x l]; [done|].
  rewrite zlen_cons. pose proof (zlen_nonneg l). split; [done | lia].
Qed.

Lemma built_empty_filled s seg b :
  snd_inv S isn s -> _next_seqno s < window_right s -> built s (window_right s) seg b -> seg_len seg = 0 -> filled s.
Proof.
  intros Hi Hlt Hb Hz. destruct (built_empty _ _ _ _ Hi Hb Hz) as (-> & Hn0 & Hf & Hd).
  destruct Hb as [_ _ _ _ Hsz Hfin _]. rewrite Hd, zlen_nil in *. rewrite Hf in Hfin.
  right; right. split; [done|].
  assert (buffer_empty (_stream s) = true) as He.
  { apply buffer_empty_spec. pose proof (zlen_nonneg (bts (_stream s))).
    unfold buffer_size, MAX_PAYLOAD_SIZE in *. lia. }
  split; [done|]. unfold eof in Hfin. rewrite He in Hfin.
  replace (_next_seqno s =? 0) with false in Hfin by lia. simpl in Hfin.
  unfold input_ended. destruct (end_flag (_stream s)); [simpl in Hfin; lia | done].
Qed.

(** A segment ends inside the window, or one past its right edge if it has the SYN. *)
Lemma built_fits s seg b :
  snd_inv S isn s -> built s (window_right s) seg b ->
  seg_len seg = 0 \/ _next_seqno s + seg_len seg <= window_right s + (if _next_seqno s =? 0 then 1 else 0).
Proof.
  intros Hi Hb. destruct (seg_len_built _ _ _ _ Hb) as [_ Hsl].
  destruct Hb as [_ _ _ _ Hsz Hfin _]. symmetry in Hfin.
  destruct (fin (header seg)) eqn:Ef; [apply andb_true_iff in Hfin as [_ Hfin]|];
    destruct (_next_seqno s =? 0); simpl in *; lia.
Qed.

Lemma fill_loop_spec n s :
  snd_inv S isn s -> window_right s - _next_seqno s < Z.of_nat n -> n <> O ->
  exists s' m, fill_loop n s (window_right s) = Some (Ok s') /\ fill_spec s s' m /\ filled s' /\
    _next_seqno s' <= Z.max (_next_seqno s) (window_right s + (if _next_seqno s =? 0 then 1 else 0)).
Proof.
  revert s. induction n as [|n IH]; intros s Hi Hn Hpos; [done|]. destruct (fin_send s) eqn:Hf.
  { exists s, []. rewrite fill_loop_fin by done. split; [done|]. split; [by apply fill_spec_refl|].
    split; [by left | lia]. }
  cbn [fill_loop]. case_if.
  2: { exists s, []. split; [done|]. split; [by apply fill_spec_refl|]. split; [right; left; lia | lia]. }
  destruct (build_segment_spec s Hi Hf) as (seg & b & E & Hb); [lia|].
  rewrite E. destruct (seg_len_built _ _ _ _ Hb) as [-> Hsl].
  pose proof (seg_len_nonneg seg). case_if.
  - destruct (send_segment_inv s seg b Hi Hf Hb) as (Hi' & Hnx & _); [lia|].
    assert (window_right (send_segment (sender_set_in s b) seg) = window_right s) as Ew by done.
    destruct (IH _ Hi') as (s' & m & E' & Hs & Hfull & Hle); [rewrite Ew, Hnx; lia | lia |].
    rewrite Ew in E'. exists s', ([(_next_seqno s + seg_len seg, seg)] ++ m). split; [done|].
    split; [eapply fill_spec_trans; [apply send_segment_fill; lia || done | done]|].
    split; [done|]. rewrite Ew, Hnx in Hle. pose proof (built_fits s seg b Hi Hb).
    destruct (next_bounds s Hi) as (_ & _ & ? & _). repeat case_if; repeat case_if_in Hle; lia.
  - assert (seg_len seg = 0) as Hz by lia. destruct (built_empty _ _ _ _ Hi Hb Hz) as (-> & _).
    replace (sender_set_in s (_stream s)) with s by (by destruct s).
    exists s, []. split; [done|]. split; [by apply fill_spec_refl|]. split; [|lia].
    eapply built_empty_filled; try done. lia.
Qed.

Lemma fill_window_spec s :
  snd_inv S isn s ->
  exists s' m, fill_window s = Ok s' /\ fill_spec s s' m /\ filled s' /\
    _next_seqno s' <= Z.max (_next_seqno s) (window_right s + (if _next_seqno s =? 0 then 1 else 0)).
Proof.
  intros Hi. unfold fill_window. destruct (fin_send s) eqn:Hf.
  - exists s, []. split; [done|]. split; [by apply fill_spec_refl|]. split; [by left | lia].
  - destruct (fill_loop_spec (Datatypes.S (Z.to_nat (window_right s - _next_seqno s))) s Hi) as (s' & m & -> & H); [lia | done |].
    by exists s', m.
Qed.

(** More fuel than the loop needs changes nothing. *)
Lemma fill_loop_fuel n1 n2 s end_ c : fill_loop n1 s end_ = Some c -> (n1 <= n2)%nat -> fill_loop n2 s end_ = Some c.
Proof.
  revert n2 s. induction n1 as [|n1 IH]; intros n2 s E Hle; [done|]. destruct n2 as [|n2]; [lia|].
  cbn [fill_loop] in *. case_if; [|done]. destruct (build_segment s end_) as [[seg s1]| |]; [|done..].
  case_if; [|done]. apply IH; [done | lia].
Qed.

(** ** Acknowledgments *)

Lemma advance_ack_inv s new w :
  snd_inv S isn s -> 0 <= w < 2 ^ 16 -> ack_s s < new -> new <= _next_seqno s ->
  snd_inv S isn (update_window (advance_ack s new) w).
Proof.
  intros Hi Hw Hlt Hle. pose proof (si_ack _ _ _ Hi). pose proof (si_init _ _ _ Hi).
  destruct (si_noack _ _ _ Hi) as (b & Hb & Hch).
  destruct (chain_filter b _ _ new Hch) as [(b' & Hb' & Hch') Hall]; [lia | lia |].
  constructor; cbn [update_window advance_ack _isn ack_s _segments_out _segments_noack
    _initial_retransmission_timeout _rto_base _stream _next_seqno _window window_zero fin_send start retransnum RTO];
    try apply Hi; try done; try lia.
  - case_if; lia.
  - exists b'. split; [lia | done].
  - rewrite (si_start _ _ _ Hi). case_if; lia.
Qed.

Lemma update_window_inv s w : snd_inv S isn s -> 0 <= w < 2 ^ 16 -> snd_inv S isn (update_window s w).
Proof.
  intros Hi Hw. pose proof (si_start _ _ _ Hi) as Hst.
  constructor; cbn [update_window _isn ack_s _segments_out _segments_noack
    _initial_retransmission_timeout _rto_base _stream _next_seqno _window window_zero fin_send start retransnum RTO];
    try apply Hi; try done; try lia.
  - case_if; lia.
  - rewrite Hst. case_if; lia.
  - intros Hs. apply (si_timer _ _ _ Hi). destruct (ack_s s =? _next_seqno s); simpl in *; congruence.
Qed.

Lemma ack_received_inv s ackno w :
  snd_inv S isn s -> 0 <= w < 2 ^ 16 -> snd_inv S isn (ack_received s ackno w).
Proof.
  intros Hi Hw. unfold ack_received. case_if; [done|]. case_if.
  - apply advance_ack_inv; lia || done.
  - by apply update_window_inv.
Qed.

(** ** The clock *)

(** While something is unacknowledged, the first kept segment is the one that the
    acknowledgment number falls into. *)
Lemma oldest_unacked s :
  snd_inv S isn s -> start s = true ->
  exists b k seg m, _segments_noack s = (k, seg) :: m /\ seg_at seg b /\ k = b + seg_len seg /\
    b <= ack_s s < k /\ k <= _next_seqno s.
Proof.
  intros Hi Hs. rewrite (si_start _ _ _ Hi) in Hs. destruct (si_noack _ _ _ Hi) as (b & Hb & Hch).
  pose proof (si_ack _ _ _ Hi). pose proof (si_unacked _ _ _ Hi) as Hun. pose proof (chain_bound _ _ _ Hch) as [_ Hall].
  destruct (_segments_noack s) as [|[k seg] m]; [simpl in Hch; lia|].
  destruct Hch as (? & ? & ? & _). inversion Hun; inversion Hall; subst. simpl in *.
  exists b, (b + seg_len seg), seg, m. auto with lia.
Qed.

(** Doubling the base once more. *)
Lemma backoff_base init base n :
  0 <= n < 2 ^ 32 -> (0 < n -> base = to_u32 (init * 2 ^ n)) ->
  (if n =? 0 then to_u32 (init * 2) else to_u32 (base * 2)) = to_u32 (init * 2 ^ (n + 1)).
Proof.
  intros Hn Hbase. rewrite Z.pow_add_r by lia. change (2 ^ 1) with 2. case_if.
  - replace n with 0 by lia. done.
  - rewrite Hbase by lia. unfold to_u32. rewrite Z.mul_mod_idemp_l by lia. f_equal. lia.
Qed.

(** The timer runs exactly while something is outstanding. *)
Lemma in_flight s :
  snd_inv S isn s ->
  bytes_in_flight s = _next_seqno s - ack_s s /\
  (start s = false <-> bytes_in_flight s = 0) /\ (start s = false <-> _segments_noack s = []).
Proof.
  intros Hi. destruct (next_bounds s Hi) as (? & ? & ? & _). pose proof (si_len _ _ _ Hi).
  pose proof (si_ack _ _ _ Hi). pose proof (si_start _ _ _ Hi) as Hst.
  assert (bytes_in_flight s = _next_seqno s - ack_s s) as Hfl
    by (unfold bytes_in_flight; rewrite to_u64_small; lia).
  split; [done|]. rewrite Hfl, Hst. split; [lia|]. split; intros Hz.
  - destruct (si_noack _ _ _ Hi) as (b & _ & Hch). pose proof (si_unacked _ _ _ Hi) as Hun.
    destruct (chain_bound _ _ _ Hch) as [_ Hall]. destruct (_segments_noack s) as [|e m]; [done|].
    inversion Hun; inversion Hall; subst. lia.
  - destruct (si_noack _ _ _ Hi) as (b & ? & Hch). rewrite Hz in Hch. simpl in Hch. lia.
Qed.

Lemma expire_inv s : snd_inv S isn s -> start s = true -> snd_inv S isn (expire s).
Proof.
  intros Hi Hs. destruct (oldest_unacked s Hi Hs) as (b & k & seg & m & Em & Hseg & -> & Hb & Hk).
  pose proof (si_init _ _ _ Hi). pose proof (si_retrans _ _ _ Hi). pose proof (si_base _ _ _ Hi) as Hbase.
  constructor; cbn [expire _isn ack_s _segments_out _segments_noack _initial_retransmission_timeout
    _rto_base _stream _next_seqno _window window_zero fin_send start retransnum RTO]; rewrite ?Em;
    try apply Hi; try done.
  - rewrite <- Em. apply Hi.
  - rewrite <- Em. apply Hi.
  - rewrite <- Hs. apply Hi.
  - apply Forall_app. split; [apply Hi|]. constructor; [|done]. left. exists b. auto.
  - apply to_u32_range.
  - intros Hpos. rewrite backoff_base by done.
    destruct (decide (retransnum s + 1 = 2 ^ 32)) as [E|]; [by rewrite E in Hpos|]. by rewrite (to_u32_small (_ + 1)) by lia.
  - case_if; [lia|]. case_if; apply to_u32_range.
Qed.

Lemma tick_inv s ms : snd_inv S isn s -> 0 <= ms -> snd_inv S isn (tick s ms).
Proof.
  intros Hi Hms. unfold tick. destruct (start s) eqn:Hs; [|done]. cbn [negb].
  case_if; [by apply expire_inv|]. pose proof (si_rto _ _ _ Hi).
  constructor; cbn [count_down _isn ack_s _segments_out _segments_noack _initial_retransmission_timeout
    _rto_base _stream _next_seqno _window window_zero fin_send start retransnum RTO]; try apply Hi.
  - apply to_u32_range.
  - congruence.
Qed.

(** ** The queue and the application *)

Lemma set_out_inv s q :
  snd_inv S isn s ->
  Forall (queued S isn (_next_seqno s)) q ->
  snd_inv S isn (sender_set_out s q).
Proof. intros Hi Hq. constructor; try apply Hi. exact Hq. Qed.

(** An empty segment carries the next sequence number. *)
Lemma empty_queued s :
  snd_inv S isn s ->
  queued S isn (_next_seqno s) (sender_segment false false (wrap (_next_seqno s) (_isn s)) buffer_default).
Proof.
  intros Hi. right. split; [done|]. exists (_next_seqno s). rewrite (si_isn _ _ _ Hi). pose proof (si_ack _ _ _ Hi).
  split; [lia | done].
Qed.

Lemma set_in_inv s b wp :
  snd_inv S isn s -> out_inv S (b_size (_stream s)) b wp -> bytes_written b = wp ->
  (input_ended b = true -> wp = zlen S) -> (fin_send s = true -> eof b = true) ->
  read_count b = read_count (_stream s) -> snd_inv S isn (sender_set_in s b).
Proof.
  intros Hi Ho Hw He Hf Hr.
  constructor; cbn [sender_set_in _isn ack_s _segments_out _segments_noack _initial_retransmission_timeout
    _rto_base _stream _next_seqno _window window_zero fin_send start retransnum RTO]; try apply Hi; unfold bytes_read; rewrite ?Hr, ?Hw; auto; try apply Hi.
  - by rewrite (oi_cap _ _ _ _ Ho).
  - intros H. split; [by apply Hf | by apply (si_fin _ _ _ Hi)].
Qed.

Lemma sstep_inv s o s' :
  snd_inv S isn s -> sstep S s o s' ->
  snd_inv S isn s' /\ _next_seqno s <= _next_seqno s' /\
  Forall (queued S isn (_next_seqno s)) o.
Proof.
  intros Hi Hstep. pose proof (si_stream _ _ _ Hi) as Ho.
  destruct Hstep as [s0 o0 s0' [s data Hex Hend | s Hall | s s' E | s ms Hms | s | s seg q Eq] | s ackno w Hwf Hw].
  - destruct Hex as (H0 & HS & Hd). unfold stream_in in *.
    set (e := bytes_written (_stream s) + zlen data) in *. rewrite Hd.
    destruct (out_inv_write_some S _ _ _ e Ho) as (Ho' & Hr & He & _); [pose proof (zlen_nonneg data); lia | lia|].
    split; [|split; [done | constructor]]. eapply set_in_inv; [done | done | apply Ho' | | | done].
    + unfold input_ended in *. congruence.
    + intros Hf. destruct (si_fin _ _ _ Hi Hf) as [Heof _]. unfold eof in Heof. unfold input_ended in Hend.
      by rewrite Hend in Heof.
  - split; [|split; [done | constructor]]. unfold stream_in in *.
    eapply (set_in_inv s _ (bytes_written (_stream s))); try done; [by apply out_inv_end_input|].
    intros Hf. destruct (si_fin _ _ _ Hi Hf) as [Heof _]. unfold eof in *. by apply andb_true_iff in Heof as [_ ?].
  - destruct (fill_window_spec s Hi) as (s1 & m & E1 & Hs & _). rewrite E in E1. inv_outcome.
    split; [apply Hs|]. split; [apply (chain_bound _ _ _ (fs_chain _ _ _ Hs)) | constructor].
  - split; [apply tick_inv; lia || done|]. split; [|constructor]. unfold tick. repeat case_if; done.
  - split; [|split; [done | constructor]]. apply set_out_inv; [done|]. apply Forall_app. split; [apply Hi|].
    constructor; [by apply empty_queued | done].
  - pose proof (si_out _ _ _ Hi) as Hout. rewrite Eq in Hout. inversion Hout; subst.
    split; [by apply set_out_inv|]. split; [done|]. by constructor.
  - split; [by apply ack_received_inv|]. split; [|constructor].
    unfold ack_received. repeat case_if; done.
Qed.

Lemma ssteps_inv s o s' :
  ssteps S s o s' -> snd_inv S isn s ->
  snd_inv S isn s' /\
  Forall (queued S isn (_next_seqno s')) o.
Proof.
  induction 1 as [s | s o s' o' s'' _ IH Hstep]; intros Hi; [split; [done | constructor]|].
  destruct (IH Hi) as [Hi' Ho]. destruct (sstep_inv s' o' s'' Hi' Hstep) as (Hi'' & Hle & Ho').
  split; [done|]. apply Forall_app. by split; (eapply queued_mono; [exact Hle|]).
Qed.

(** Progress is never taken back. *)
Lemma sstep_mono s o s' :
  snd_inv S isn s -> sstep S s o s' ->
  ack_s s <= ack_s s' /\ _next_seqno s <= _next_seqno s' /\
  (fin_send s = true -> fin_send s' = true /\ _next_seqno s' = _next_seqno s).
Proof.
  intros Hi Hstep. destruct (sstep_inv s o s' Hi Hstep) as (_ & Hle & _).
  destruct Hstep as [s0 o0 s0' [s data Hex Hend | s Hall | s s' E | s ms Hms | s | s seg q Eq] | s ackno w Hwf Hw];
    try (split; [done | split; [done | intros Hf'; done]]).
  - destruct (fill_window_spec s Hi) as (s1 & m & E1 & Hs & _). rewrite E in E1. inv_outcome.
    split; [rewrite (fs_ack _ _ _ Hs); lia|]. split; [done|]. intros Hf. unfold fill_window in E.
    rewrite Hf in E. by inv_outcome.
  - unfold tick. repeat case_if; simpl; split; auto with lia.
  - unfold ack_received. repeat case_if; simpl; split; auto with lia.
Qed.

Lemma snd_inv_init cap rto random :
  wi_wf isn -> zlen S <= 2 ^ 63 -> 0 <= cap < 2 ^ 63 -> 0 <= rto < 2 ^ 16 ->
  snd_inv S isn (tcp_sender cap rto (Some isn) random).
Proof.
  intros Hwf HS Hc Hr. pose proof (zlen_nonneg S).
  constructor; simpl; try done; try lia.
  - constructor; simpl; try done; lia.
  - exists 0. split; [lia | done].
Qed.
End sender.

(** The parameters of a sender: 64-bit indices suffice for the stream and the windows. *)
Definition sender_ok (S : bytes) (isn : WrappingInt32) (cap rto : Z) : Prop :=
  wi_wf isn /\ zlen S <= 2 ^ 63 /\ 0 <= cap < 2 ^ 63 /\ 0 <= rto < 2 ^ 16.

Lemma sender_reachable S isn cap rto random o s :
  sender_ok S isn cap rto -> ssteps S (tcp_sender cap rto (Some isn) random) o s ->
  snd_inv S isn s /\ Forall (queued S isn (_next_seqno s)) o.
Proof. intros (? & ? & ? & ?) Hs. eapply ssteps_inv; [exact Hs|]. by apply snd_inv_init. Qed.

(** What no operation changes: the configured timeout, and a window once seen as zero. *)
Definition keeps (s s' : TCPSender) : Prop :=
  _initial_retransmission_timeout s' = _initial_retransmission_timeout s /\
  (window_zero s = true -> window_zero s' = true).

(** A preorder that contains the [read] and the tail of an iteration contains [fill_window]. *)
Lemma fill_window_preorder (R : TCPSender -> TCPSender -> Prop) :
  (forall s, R s s) -> (forall s1 s2 s3, R s1 s2 -> R s2 s3 -> R s1 s3) ->
  (forall s len d b, ByteStream.read (stream_in s) len = Ok (d, b) -> R s (sender_set_in s b)) ->
  (forall s sy fi k data, R s (send_segment s (sender_segment sy fi (wrap k (_isn s)) (buffer_of data)))) ->
  forall s s', fill_window s = Ok s' -> R s s'.
Proof.
  intros Hrefl Htrans Hread Hsend s s'. unfold fill_window. case_if; [intros E; by inv_outcome|].
  generalize (Datatypes.S (Z.to_nat (window_right s - _next_seqno s))) as n. generalize (window_right s) as end_. clear Hif.
  intros end_ n. revert s. induction n as [|n IH]; intros s E; [done|]. cbn [fill_loop] in E.
  case_if_in E; [|by inv_outcome]. destruct (build_segment s end_) as [[seg s1]| |] eqn:Eb; [|done..].
  unfold build_segment in Eb. apply bind_ok_inv in Eb as ([d b] & Er & Eb). inv_outcome. apply Hread in Er.
  case_if_in E; [|by inv_outcome]. eapply Htrans; [exact Er|]. eapply Htrans; [|exact (IH _ E)].
  apply (Hsend (sender_set_in s b)).
Qed.

Lemma sstep_keeps S s o s' : sstep S s o s' -> keeps s s'.
Proof.
  destruct 1 as [s0 o0 s0' [| | s s' E | s ms | |] | s ackno w]; try done.
  - revert E. apply (fill_window_preorder keeps); try done. intros ? ? ? [E1 ?] [E2 ?]. split; [congruence | auto].
  - unfold tick. repeat case_if; done.
  - unfold ack_received. repeat case_if; split; simpl; repeat case_if; done.
Qed.

Lemma ssteps_keeps S s o s' : ssteps S s o s' -> keeps s s'.
Proof.
  induction 1 as [|s o s' o' s'' _ [I1 Z1] Hstep]; [done|].
  destruct (sstep_keeps S s' o' s'' Hstep) as [I2 Z2]. split; [congruence | auto].
Qed.

(** A run used by the witnesses: "ab" is written and its first window is sent. *)
Definition sender_demo : TCPSender := tcp_sender 8 1000 (Some {| raw_value := 2 ^ 32 - 1 |}) 0.
Definition sender_demo_written : TCPSender :=
  sender_set_in sender_demo (ByteStream.write (stream_in sender_demo) (str "ab")).2.

Lemma sender_demo_run :
  exists s, ssteps (str "ab") sender_demo [] s /\ fill_window sender_demo_written = Ok s /\
    _next_seqno s = 2 /\ start s = true.
Proof.
  eexists. split; [|split; [vm_compute; reflexivity | by_compute]].
  eapply (ssteps_snoc _ _ [] sender_demo_written []); [eapply (ssteps_snoc _ _ [] sender_demo []); [constructor|]|].
  - apply sstep_local, (local_write (str "ab") sender_demo (str "ab")); by_compute.
  - apply sstep_local, local_fill. vm_compute. reflexivity.
Qed.

(** * Properties *)

(** C10: what [fill_window] sends. From every reachable state it returns (without an
    exception or undefined behaviour) after queueing segments that continue the sequence
    numbers without a gap or an overlap, carry exactly the bytes it took from the stream,
    hold at most [MAX_PAYLOAD_SIZE] bytes each, and are all kept for retransmission; it
    stops only when the FIN is sent, the window is full, or there is nothing to send; and
    it passes the right edge of the window by at most one, and only with the SYN. *)
Theorem fill_window_exact S isn cap rto random o s :
  sender_ok S isn cap rto -> ssteps S (tcp_sender cap rto (Some isn) random) o s ->
  exists s' m, fill_window s = Ok s' /\
    _segments_out s' = _segments_out s ++ map snd m /\ _segments_noack s' = _segments_noack s ++ m /\
    chain S isn (_next_seqno s) m (_next_seqno s') /\
    chain_data m = slice S (bytes_read (stream_in s)) (bytes_read (stream_in s')) /\
    filled s' /\
    _next_seqno s' <= Z.max (_next_seqno s) (window_right s + (if _next_seqno s =? 0 then 1 else 0)).
Proof.
  intros Hok Hs. destruct (sender_reachable S isn cap rto random o s Hok Hs) as [Hi _].
  destruct (fill_window_spec S isn s Hi) as (s' & m & E & [] & Hf & Hle). exists s', m. auto 10.
Qed.

Lemma fill_window_exact_witness :
  exists s', fill_window sender_demo_written = Ok s' /\ filled s' /\ _next_seqno s' <= 2.
Proof.
  destruct (fill_window_exact (str "ab") {| raw_value := 2 ^ 32 - 1 |} 8 1000 0 [] sender_demo_written)
    as (s' & m & E & _ & _ & _ & _ & Hf & Hle); [by_compute | |].
  - eapply (ssteps_snoc _ _ [] sender_demo []); [constructor|].
    apply sstep_local, (local_write (str "ab") sender_demo (str "ab")); by_compute.
  - exists s'. split; [exact E|]. split; [exact Hf | exact Hle].
Defined.

(** C21: the loop of [fill_window] terminates. From every reachable state in which the FIN has
    not been sent it ends, without an exception or undefined behaviour, before its condition
    has been evaluated more than once per free sequence number of the window and once more;
    allowing more evaluations gives the same result, which is that of [fill_window]. *)
Theorem fill_loop_terminates S isn cap rto random o s :
  sender_ok S isn cap rto -> ssteps S (tcp_sender cap rto (Some isn) random) o s -> fin_send s = false ->
  exists s', forall n, Z.max 0 (window_right s - _next_seqno s) < Z.of_nat n ->
    fill_loop n s (window_right s) = Some (Ok s') /\ fill_window s = Ok s'.
Proof.
  intros Hok Hs Hf. destruct (sender_reachable S isn cap rto random o s Hok Hs) as [Hi _].
  set (k := Datatypes.S (Z.to_nat (window_right s - _next_seqno s))).
  destruct (fill_loop_spec S isn k s Hi) as (s' & m & E & _); [lia | done |].
  exists s'. intros n Hn. split; [by apply (fill_loop_fuel k); [|lia]|].
  unfold fill_window. rewrite Hf. fold k. by rewrite E.
Qed.

Lemma fill_loop_terminates_witness :
  exists s', fill_loop 2 sender_demo_written (window_right sender_demo_written) = Some (Ok s') /\ _next_seqno s' = 2.
Proof.
  destruct (fill_loop_terminates (str "ab") {| raw_value := 2 ^ 32 - 1 |} 8 1000 0 [] sender_demo_written)
    as (s' & Hn); [by_compute | | reflexivity |].
  - eapply (ssteps_snoc _ _ [] sender_demo []); [constructor|].
    apply sstep_local, (local_write (str "ab") sender_demo (str "ab")); by_compute.
  - exists s'. destruct (Hn 2%nat) as [E _]; [by_compute|]. split; [exact E|].
    vm_compute in E. injection E as <-. reflexivity.
Defined.

(** C12: acknowledgments. From every reachable state an acknowledgment beyond what was sent
    changes nothing; any other one raises the acknowledged number to the larger of the
    two, keeps exactly the segments that are not acknowledged in full, sets the window
    (a zero window counts as one), resets the timer and the count of retransmissions when
    it acknowledges something new, and stops the timer exactly when all is acknowledged. *)
Theorem ack_received_exact S isn cap rto random o s ackno w :
  sender_ok S isn cap rto -> ssteps S (tcp_sender cap rto (Some isn) random) o s ->
  wi_wf ackno -> 0 <= w < 2 ^ 16 ->
  let a := unwrap ackno isn (_next_seqno s) in
  let s' := ack_received s ackno w in
  wrap a isn = ackno /\
  (_next_seqno s < a -> s' = s) /\
  (a <= _next_seqno s ->
    ack_s s' = Z.max (ack_s s) a /\ bytes_in_flight s' = _next_seqno s - Z.max (ack_s s) a /\
    (forall e, e ∈ _segments_noack s' <-> e ∈ _segments_noack s /\ ack_s s' < e.1) /\
    _window s' = Z.max 1 w /\ (start s' = false <-> bytes_in_flight s' = 0) /\
    (start s' = false <-> _segments_noack s' = []) /\
    (ack_s s < a -> RTO s' = rto /\ consecutive_retransmissions s' = 0)).
Proof.
  intros Hok Hs Hwf Hw a s'. destruct (sender_reachable S isn cap rto random o s Hok Hs) as [Hi _].
  destruct (next_bounds S isn s Hi) as (? & ? & ? & _). pose proof (si_len _ _ _ Hi).
  pose proof (si_ack _ _ _ Hi). pose proof (si_isn _ _ _ Hi) as Eisn.
  split; [apply unwrap_in_class; [done | lia]|].
  pose proof (ack_received_inv S isn s ackno w Hi Hw) as Hi'. fold s' in Hi'.
  destruct (in_flight S isn s' Hi') as (Hfl & Hstart & Hempty).
  assert (s' = if _next_seqno s <? a then s
               else update_window (if ack_s s <? a then advance_ack s a else s) w) as E
    by (unfold s', ack_received, a; by rewrite Eisn).
  split; [intros; rewrite E; case_if; [done | lia]|]. intros Ha.
  assert (ack_s s' = Z.max (ack_s s) a /\ _next_seqno s' = _next_seqno s) as [Hack Hnx].
  { rewrite E. case_if; [lia|]. case_if; simpl; lia. }
  split; [done|]. split; [rewrite Hfl; lia|]. split; [|split].
  - intros e. rewrite Hack, E. case_if; [lia|]. pose proof (si_unacked _ _ _ Hi) as Hun. rewrite Forall_forall in Hun.
    case_if; simpl; [|split; [intros He; split; [done | specialize (Hun _ He); simpl in Hun; lia] | by intros []]].
    rewrite !list_elem_of_In, filter_In. rewrite Z.max_r by lia. intuition lia.
  - rewrite E. case_if; [lia|]. simpl. case_if; simpl; lia.
  - split; [done|]. split; [done|]. intros Hlt. rewrite E. case_if; [lia|]. case_if; [|lia]. simpl.
    split; [|done]. apply (ssteps_keeps _ _ _ _ Hs).
Qed.

Lemma ack_received_exact_witness :
  exists s, fill_window sender_demo_written = Ok s /\ start s = true /\
    start (ack_received s {| raw_value := 1 |} 5) = false /\
    bytes_in_flight (ack_received s {| raw_value := 1 |} 5) = 0.
Proof.
  destruct sender_demo_run as (s & Hs & E & Hn & Hst). exists s. split; [exact E|]. split; [exact Hst|].
  destruct (ack_received_exact (str "ab") {| raw_value := 2 ^ 32 - 1 |} 8 1000 0 [] s {| raw_value := 1 |} 5)
    as (_ & _ & Ha); [by_compute | exact Hs | by_compute | lia |].
  rewrite Hn in Ha. destruct Ha as (_ & Hfl & _ & _ & Hstart & _); [by_compute|].
  assert (ack_s s <= 2 /\ Z.max (ack_s s) 2 = 2) as [_ Hm].
  { apply Ok_inj in E || idtac. vm_compute in E. inversion E; subst. by_compute. }
  assert (bytes_in_flight (ack_received s {| raw_value := 1 |} 5) = 0) as Hz.
  { rewrite Hfl. change (unwrap _ _ 2) with 2. rewrite Hm. reflexivity. }
  split; [apply Hstart; exact Hz | exact Hz].
Defined.



(** C11: every segment that leaves the queue, first transmission or not, is the part of the
    application's stream at its sequence number and lies within what was sent, or is an
    empty segment ([send_empty_segment] may be called at any time, also before the SYN and
    after the FIN), without SYN and FIN, that carries a sequence number of the connection up
    to the next one; the state keeps, without gaps, exactly the segments from the
    acknowledged number on. *)
Theorem sender_segments_correct S isn cap rto random o s :
  sender_ok S isn cap rto -> ssteps S (tcp_sender cap rto (Some isn) random) o s ->
  Forall (fun seg => (exists b, seg_at S isn seg b /\ b + seg_len seg <= _next_seqno s) \/
    (bare seg /\ exists b, 0 <= b <= _next_seqno s /\ seqno (header seg) = wrap b isn)) (o ++ _segments_out s) /\
  (exists b, 0 <= b <= ack_s s /\ chain S isn b (_segments_noack s) (_next_seqno s)) /\
  Forall (fun e => ack_s s < e.1) (_segments_noack s) /\
  (_next_seqno s = 0 \/ _next_seqno s = 1 + bytes_read (stream_in s) + (if fin_send s then 1 else 0)) /\
  (fin_send s = true -> bytes_read (stream_in s) = zlen S).
Proof.
  intros Hok Hs. destruct (sender_reachable S isn cap rto random o s Hok Hs) as [Hi Ho].
  split; [apply Forall_app; split; [done | apply Hi]|]. split; [apply Hi|]. split; [apply Hi|]. split.
  - pose proof (si_next _ _ _ Hi) as Hn. case_if_in Hn; [left; lia | by right].
  - intros Hf. by apply (fin_all_sent S isn s Hi).
Qed.

Lemma sender_segments_correct_witness :
  exists s, ssteps (str "ab") sender_demo [] s /\ _next_seqno s = 2 /\
    Forall (fun e => ack_s s < e.1) (_segments_noack s).
Proof.
  destruct sender_demo_run as (s & Hs & _ & Hn & _). exists s. split; [exact Hs|]. split; [exact Hn|].
  apply (sender_segments_correct (str "ab") {| raw_value := 2 ^ 32 - 1 |} 8 1000 0 [] s); [by_compute | exact Hs].
Defined.

(** C38: one advertised zero window turns the exponential back-off off for good:
    [window_zero] is never reset, so after any later run, whatever windows have been
    advertised since, every expiry of the timer sets it to the initial timeout again. *)
Theorem zero_window_disables_backoff S s ackno o s' ms :
  unwrap ackno (_isn s) (_next_seqno s) <= _next_seqno s ->
  ssteps S (ack_received s ackno 0) o s' -> start s' = true -> RTO s' <= ms ->
  RTO (tick s' ms) = _initial_retransmission_timeout s.
Proof.
  intros Ha Hs Hst Hle. destruct (ssteps_keeps _ _ _ _ Hs) as [Hi Hz].
  assert (window_zero s' = true) as Hz'.
  { apply Hz. unfold ack_received. case_if; [lia|]. done. }
  assert (_initial_retransmission_timeout s' = _initial_retransmission_timeout s) as Hi'.
  { rewrite Hi. unfold ack_received. repeat case_if; done. }
  unfold tick. rewrite Hst. cbn [negb]. case_if; [|lia]. unfold expire. simpl. by rewrite Hz'.
Qed.

Lemma zero_window_disables_backoff_witness :
  exists s, fill_window sender_demo_written = Ok s /\
    let s' := tick (ack_received (ack_received s {| raw_value := 0 |} 0) {| raw_value := 0 |} 500) 1000 in
    consecutive_retransmissions s' = 1 /\ _window s' = 500 /\ RTO (tick s' 1000) = 1000.
Proof.
  destruct sender_demo_run as (s & _ & E & _). exists s. split; [exact E|].
  vm_compute in E. inversion E; subst s. split; [reflexivity|]. split; [reflexivity|].
  match goal with |- context [ack_received ?s _ 0] =>
    apply (zero_window_disables_backoff (str "ab") s {| raw_value := 0 |} []) end;
    [by_compute | | reflexivity | by_compute].
  match goal with |- ssteps _ ?x _ (tick ?y _) =>
    apply (ssteps_snoc _ x [] y []); [apply (ssteps_snoc _ x [] x []); [constructor|]|] end.
  - apply (sstep_ack _ _ {| raw_value := 0 |} 500); by_compute.
  - apply sstep_local, local_tick. lia.
Defined.

(** The SYN is not counted when the payload of its segment is chosen. If the application
    has written before the first [fill_window], the first segment takes two sequence
    numbers although the window is one: more than the peer has allowed is in flight. *)
Lemma syn_overruns_window :
  exists s, fill_window sender_demo_written = Ok s /\ _window sender_demo_written = 1 /\
    bytes_in_flight s = 2 /\
    map (fun seg => (syn (header seg), seg_data seg)) (_segments_out s) = [(true, str "a")].
Proof. eexists. split; [vm_compute; reflexivity|]. by_compute. Qed.
