(* ===== verification/TCPState.v ===== *)
(** The summaries of the state of a connection: tcp_helpers/tcp_state.hh and
    tcp_helpers/tcp_state.cc. The overloaded [state_summary] is a type class with an
    instance for the receiver and one for the sender. The theorems relate the strings to
    what has happened on the connection (for every reachable state), and show that the
    sender's phases only move forward. *)
From S2P Require Import Prelude StdMap WrappingIntegers ByteStream StreamReassembler Buffer TCPHeader TCPSegment TCPReceiver TCPSender.

Module TCPReceiverStateSummary.
Definition ERROR : string := "error (connection was reset)".
Definition LISTEN : string := "waiting for SYN: ackno is empty".
Definition SYN_RECV : string := "SYN received (ackno exists), and input to stream hasn't ended".
Definition FIN_RECV : string := "input to stream has ended".
End TCPReceiverStateSummary.

Module TCPSenderStateSummary.
Definition ERROR : string := "error (connection was reset)".
Definition CLOSED : string := "waiting for stream to begin (no SYN sent)".
Definition SYN_SENT : string := "stream started but nothing acknowledged".
Definition SYN_ACKED : string := "stream ongoing".
Definition FIN_SENT : string := "stream finished (FIN sent) but not fully acknowledged".
Definition FIN_ACKED : string := "stream finished and fully acknowledged".
End TCPSenderStateSummary.

Class StateSummary (A : Type) := state_summary : A -> string.

Definition receiver_summary (receiver : TCPReceiver) : string :=
  if ByteStream.error (stream_out receiver) then TCPReceiverStateSummary.ERROR
  else match receiver_ackno receiver with
       | None => TCPReceiverStateSummary.LISTEN
       | Some _ =>
           if input_ended (stream_out receiver) then TCPReceiverStateSummary.FIN_RECV
           else TCPReceiverStateSummary.SYN_RECV
       end.
#[global] Instance summary_of_receiver : StateSummary TCPReceiver := receiver_summary.

Definition sender_summary (sender : TCPSender) : string :=
  if ByteStream.error (stream_in sender) then TCPSenderStateSummary.ERROR
  else if next_seqno_absolute sender =? 0 then TCPSenderStateSummary.CLOSED
  else if next_seqno_absolute sender =? bytes_in_flight sender then TCPSenderStateSummary.SYN_SENT
  else if negb (eof (stream_in sender)) then TCPSenderStateSummary.SYN_ACKED
  else if next_seqno_absolute sender <? to_u64 (bytes_written (stream_in sender) + 2) then
    TCPSenderStateSummary.SYN_ACKED
  else if negb (bytes_in_flight sender =? 0) then TCPSenderStateSummary.FIN_SENT
  else TCPSenderStateSummary.FIN_ACKED.
#[global] Instance summary_of_sender : StateSummary TCPSender := sender_summary.

(** * The phases of a sender *)

Inductive phase := Closed | SynSent | SynAcked | FinSent | FinAcked.

(** What the phases mean: what has been sent, and what has been acknowledged. *)
Definition sender_phase (s : TCPSender) : phase :=
  if _next_seqno s =? 0 then Closed
  else if ack_s s =? 0 then SynSent
  else if negb (fin_send s) then SynAcked
  else if ack_s s <? _next_seqno s then FinSent
  else FinAcked.

Definition phase_name (p : phase) : string :=
  match p with
  | Closed => TCPSenderStateSummary.CLOSED
  | SynSent => TCPSenderStateSummary.SYN_SENT
  | SynAcked => TCPSenderStateSummary.SYN_ACKED
  | FinSent => TCPSenderStateSummary.FIN_SENT
  | FinAcked => TCPSenderStateSummary.FIN_ACKED
  end.

Definition phase_rank (p : phase) : Z :=
  match p with Closed => 0 | SynSent => 1 | SynAcked => 2 | FinSent => 3 | FinAcked => 4 end.

(** * Lemmas *)

(** The test of the code for "FIN sent": the stream is at its end and the next sequence
    number counts SYN, bytes and FIN. *)
Lemma fin_sent_test S isn s :
  snd_inv S isn s -> _next_seqno s <> 0 ->
  eof (stream_in s) && negb (next_seqno_absolute s <? to_u64 (bytes_written (stream_in s) + 2)) = fin_send s.
Proof.
  intros Hi Hn. destruct (next_bounds S isn s Hi) as (? & ? & _). pose proof (si_len _ _ _ Hi).
  pose proof (si_next _ _ _ Hi) as Hx. replace (_next_seqno s =? 0) with false in Hx by lia. cbn iota in Hx.
  unfold stream_in, next_seqno_absolute. rewrite to_u64_small by lia.
  destruct (fin_send s) eqn:Hf.
  - destruct (si_fin _ _ _ Hi Hf) as [He _]. rewrite He. simpl.
    apply (eof_spec S _ _ _ (si_stream _ _ _ Hi)) in He as [_ He]. unfold bytes_read in *. lia.
  - apply andb_false_iff. right. lia.
Qed.

Lemma sender_summary_phase S isn s :
  snd_inv S isn s -> ByteStream.error (stream_in s) = false -> sender_summary s = phase_name (sender_phase s).
Proof.
  intros Hi He. unfold sender_summary, sender_phase. rewrite He. unfold next_seqno_absolute.
  destruct (_next_seqno s =? 0) eqn:E0; [done|].
  destruct (in_flight S isn s Hi) as (Hfl & _). pose proof (si_ack _ _ _ Hi).
  pose proof (fin_sent_test S isn s Hi ltac:(lia)) as Hf. unfold next_seqno_absolute in Hf. rewrite Hfl.
  replace (_next_seqno s =? _next_seqno s - ack_s s) with (ack_s s =? 0) by lia. case_if; [done|].
  destruct (eof (stream_in s)); cbn [negb andb] in *; [|by rewrite <- Hf].
  destruct (_next_seqno s <? to_u64 (bytes_written (stream_in s) + 2)); simpl in Hf; rewrite <- Hf; [done|].
  cbn [negb]. replace (negb (_next_seqno s - ack_s s =? 0)) with (ack_s s <? _next_seqno s) by lia.
  by case_if.
Qed.

Lemma phase_forward S isn s o s' :
  snd_inv S isn s -> sstep S s o s' -> phase_rank (sender_phase s) <= phase_rank (sender_phase s').
Proof.
  intros Hi Hstep. destruct (sstep_mono S isn s o s' Hi Hstep) as (Ha & Hn & Hf).
  destruct (sstep_inv S isn s o s' Hi Hstep) as (Hi' & _ & _).
  pose proof (si_ack _ _ _ Hi). pose proof (si_ack _ _ _ Hi'). unfold sender_phase.
  destruct (fin_send s) eqn:Ef; [destruct (Hf eq_refl) as [-> ->]|]; simpl;
    repeat case_if; simpl; lia.
Qed.

(** * Properties *)

(** The receiver's summary. In every reachable state without an error it says "waiting
    for SYN" until a SYN is accepted, "input has ended" once the whole stream [S] has been
    assembled and its end is known, and "SYN received" in between. *)
Lemma receiver_summary_correct S isn cap o t :
  connection_ok S isn cap -> tsteps S isn (tcp_receiver cap) o t -> ByteStream.error (stream_out t) = false ->
  state_summary t =
  if negb (synced t) then TCPReceiverStateSummary.LISTEN
  else if eof_f (_reassembler t) && (bytes_written (stream_out t) =? zlen S) then TCPReceiverStateSummary.FIN_RECV
  else TCPReceiverStateSummary.SYN_RECV.
Proof.
  intros Hok Hs He. destruct (reachable_inv S isn cap o t Hok Hs) as (Hi & _ & _).
  unfold state_summary, summary_of_receiver, receiver_summary, receiver_ackno.
  rewrite He, (rv_ack _ _ _ Hi). destruct (synced t) eqn:Es; simpl; [|done].
  pose proof (rv_reasm _ _ _ Hi) as Hr. pose proof (ri_ended _ _ Hr) as Hend.
  pose proof (oi_written _ _ _ _ (ri_out _ _ Hr)) as Hw. unfold bytes_written, stream_out in *. rewrite Hw.
  destruct (input_ended (_output (_reassembler t))), (eof_f (_reassembler t)); simpl;
    repeat case_if; try done; intuition (congruence || lia).
Qed.

Lemma receiver_summary_correct_witness :
  exists t, state_summary t = TCPReceiverStateSummary.FIN_RECV /\
    state_summary t =
    if negb (synced t) then TCPReceiverStateSummary.LISTEN
    else if eof_f (_reassembler t) && (bytes_written (stream_out t) =? 4) then TCPReceiverStateSummary.FIN_RECV
    else TCPReceiverStateSummary.SYN_RECV.
Proof.
  destruct peer_run as (t & Hs & _ & He & Ha & Herr). exists t. split.
  - unfold state_summary, summary_of_receiver, receiver_summary, ended in *. by rewrite Herr, Ha, He.
  - apply (receiver_summary_correct (str "abcd") {| raw_value := 2 ^ 32 - 2 |} 8 (str "ab") t);
      [by_compute | exact Hs | exact Herr].
Defined.

(** The sender's summary. In every reachable state without an error the string names
    the phase of the connection as the history defines it: nothing sent, nothing
    acknowledged, FIN not sent, FIN sent and not acknowledged, all acknowledged. *)
Lemma sender_summary_correct S isn cap rto random o s :
  sender_ok S isn cap rto -> ssteps S (tcp_sender cap rto (Some isn) random) o s ->
  ByteStream.error (stream_in s) = false -> state_summary s = phase_name (sender_phase s).
Proof.
  intros Hok Hs He. destruct (sender_reachable S isn cap rto random o s Hok Hs) as [Hi _].
  by apply (sender_summary_phase S isn).
Qed.

Lemma sender_summary_correct_witness :
  exists s, fill_window sender_demo_written = Ok s /\ state_summary s = TCPSenderStateSummary.SYN_SENT.
Proof.
  destruct sender_demo_run as (s & Hs & E & _). exists s. split; [exact E|].
  rewrite (sender_summary_correct (str "ab") {| raw_value := 2 ^ 32 - 1 |} 8 1000 0 [] s);
    [|by_compute | exact Hs |]; vm_compute in E; inversion E; reflexivity.
Defined.

(** The sender's phases only move forward: no call of the application, acknowledgment,
    tick or transmission takes the connection back to an earlier phase. *)
Lemma sender_phase_forward S isn cap rto random o1 s1 o2 s2 :
  sender_ok S isn cap rto -> ssteps S (tcp_sender cap rto (Some isn) random) o1 s1 -> ssteps S s1 o2 s2 ->
  phase_rank (sender_phase s1) <= phase_rank (sender_phase s2).
Proof.
  intros Hok H1 H2. destruct (sender_reachable S isn cap rto random o1 s1 Hok H1) as [Hi _]. clear H1.
  induction H2 as [|s o s' o' s'' Hs IH Hstep]; [done|].
  destruct (ssteps_inv S isn s o s' Hs Hi) as [Hi' _].
  pose proof (phase_forward S isn s' o' s'' Hi' Hstep). specialize (IH Hi). lia.
Qed.

Lemma sender_phase_forward_witness :
  exists s, ssteps (str "ab") sender_demo [] s /\ sender_phase s = SynSent /\
    phase_rank (sender_phase sender_demo) <= phase_rank (sender_phase s).
Proof.
  destruct sender_demo_run as (s & Hs & E & _). exists s. split; [exact Hs|]. split.
  - vm_compute in E. inversion E. reflexivity.
  - apply (sender_phase_forward (str "ab") {| raw_value := 2 ^ 32 - 1 |} 8 1000 0 [] sender_demo [] s);
      [by_compute | constructor | exact Hs].
Defined.
