(* ===== verification/EndToEnd.v ===== *)
(** A sender and a receiver joined by a network that loses, duplicates, delays and reorders
    segments and acknowledgments. [wire] holds every segment that ever left the sender's
    queue, empty segments included, and [adverts] every pair of [ackno()] and window that the
    receiver advertised, with a note (which is not transmitted) of how much the receiver
    had in order at that moment. The network may hand over any of them, any number of times
    and in any order, as long as the sender is less than [2 ^ 31] sequence numbers past the
    beginning of the segment, or past what the receiver had when it advertised; a segment
    without SYN, FIN and payload may arrive at any time. For streams shorter than that
    every segment may arrive at any time; longer streams, in which the 32-bit sequence
    numbers wrap around many times, need this bound on the lifetime of a segment.
    The theorems: the receiving application gets a prefix of what the sending application
    wrote; nothing is acknowledged that has not been received in order, so a fully
    acknowledged stream has arrived completely. Liveness.v continues with progress. *)
From S2P Require Import Prelude StdMap WrappingIntegers ByteStream StreamReassembler Buffer TCPHeader TCPSegment TCPReceiver TCPSender TCPState.

(** What the receiver advertises; [adv_in_order] only serves to say how old it is. *)
Record advert := {
  adv_ackno : WrappingInt32;
  adv_window : Z;
  adv_in_order : Z
}.

Record net := {
  snd_end : TCPSender;
  rcv_end : TCPReceiver;
  wire : list TCPSegment;
  adverts : list advert;
  delivered : bytes
}.

Definition net_init (scap rcap rto : Z) (isn : WrappingInt32) : net :=
  {| snd_end := tcp_sender scap rto (Some isn) 0; rcv_end := tcp_receiver rcap;
     wire := []; adverts := []; delivered := [] |}.

(** The window as the 16-bit field of a header carries it. *)
Definition advertised_window (t : TCPReceiver) : Z := Z.min (window_size t) (2 ^ 16 - 1).

(** How many sequence numbers the receiver has received in order, 0 before the SYN. *)
Definition in_order (t : TCPReceiver) : Z := if synced t then received t else 0.

(** The advertisement of a receiver whose [ackno()] is [a]. *)
Definition advertise (t : TCPReceiver) (a : WrappingInt32) : advert :=
  {| adv_ackno := a; adv_window := advertised_window t; adv_in_order := in_order t |}.

(** The lifetime of segments: a segment is dropped by the network before the sender is
    [2 ^ 31] sequence numbers past its beginning, an acknowledgment before it is as far past
    what the receiver had in order when it was advertised. Empty segments never expire. *)
Definition fresh (S : bytes) (s : TCPSender) (seg : TCPSegment) : Prop :=
  (exists b, seg_at S (_isn s) seg b /\ b + seg_len seg <= _next_seqno s < b + 2 ^ 31) \/ bare seg.

Definition fresh_ack (s : TCPSender) (e : advert) : Prop := _next_seqno s < adv_in_order e + 2 ^ 31.

Inductive net_step (S : bytes) : net -> net -> Prop :=
| net_local n o s' :
    local_step S (snd_end n) o s' ->
    net_step S n {| snd_end := s'; rcv_end := rcv_end n; wire := wire n ++ o; adverts := adverts n;
                    delivered := delivered n |}
| net_ack n e :
    e ∈ adverts n -> fresh_ack (snd_end n) e ->
    net_step S n {| snd_end := ack_received (snd_end n) (adv_ackno e) (adv_window e); rcv_end := rcv_end n; wire := wire n;
                    adverts := adverts n; delivered := delivered n |}
| net_segment n seg t' :
    seg ∈ wire n -> fresh S (snd_end n) seg -> segment_received (rcv_end n) seg = Ok t' ->
    net_step S n {| snd_end := snd_end n; rcv_end := t'; wire := wire n; adverts := adverts n;
                    delivered := delivered n |}
| net_read n len o out :
    0 <= len -> ByteStream.read (stream_out (rcv_end n)) len = Ok (o, out) ->
    net_step S n {| snd_end := snd_end n; rcv_end := receiver_set_out (rcv_end n) out; wire := wire n;
                    adverts := adverts n; delivered := delivered n ++ o |}
| net_advertise n a :
    receiver_ackno (rcv_end n) = Some a ->
    net_step S n {| snd_end := snd_end n; rcv_end := rcv_end n; wire := wire n;
                    adverts := adverts n ++ [advertise (rcv_end n) a];
                    delivered := delivered n |}.

Inductive net_steps (S : bytes) : net -> net -> Prop :=
| net_steps_refl n : net_steps S n n
| net_steps_snoc n n' n'' : net_steps S n n' -> net_step S n' n'' -> net_steps S n n''.

Definition net_ok (S : bytes) (isn : WrappingInt32) (scap rcap rto : Z) : Prop :=
  wi_wf isn /\ zlen S <= 2 ^ 63 /\ 0 <= scap < 2 ^ 63 /\ 0 < rcap < 2 ^ 63 /\ 0 <= rto < 2 ^ 16.

(** An advertisement as the receiver makes it: it acknowledges what was in order then. *)
Record advert_ok (isn : WrappingInt32) (t : TCPReceiver) (e : advert) : Prop := {
  ao_window : 0 <= adv_window e < 2 ^ 16;
  ao_ackno : adv_ackno e = wrap (adv_in_order e) isn;
  ao_in_order : 0 < adv_in_order e <= in_order t
}.

(** The receiver is not ahead of the sender. *)
Record behind (s : TCPSender) (t : TCPReceiver) : Prop := {
  bh_known : forall j, 0 <= j -> known (_reassembler t) j -> j + 1 < _next_seqno s;
  bh_fin : eof_f (_reassembler t) = true -> fin_send s = true;
  bh_syn : synced t = true -> 0 < _next_seqno s
}.

Record net_inv (S : bytes) (isn : WrappingInt32) (n : net) : Prop := {
  ni_flight : _next_seqno (snd_end n) <= ack_s (snd_end n) + 2 ^ 16;
  ni_snd : snd_inv S isn (snd_end n);
  ni_rcv : rcv_inv S isn (rcv_end n);
  ni_wire : Forall (queued S isn (_next_seqno (snd_end n))) (wire n);
  ni_behind : behind (snd_end n) (rcv_end n);
  ni_reopened : ended (rcv_end n) = true -> _syn (rcv_end n) = true -> zlen S + 2 < 2 ^ 31;
  ni_adverts : Forall (advert_ok isn (rcv_end n)) (adverts n);
  ni_acked : ack_s (snd_end n) <= in_order (rcv_end n);
  ni_delivered : delivered n = slice S 0 (bytes_read (stream_out (rcv_end n)))
}.

(** * Schedules *)

(** The steps as events, so that a schedule can be run: positions select the segment or
    the advertisement that the network hands over. *)
Inductive event :=
| EWrite (len : Z) | EEnd | EFill | ETick (ms : Z) | EPop
| EAck (i : nat) | ESegment (i : nat) | ERead (len : Z) | EAdvertise.

Definition at_sender (n : net) (o : list TCPSegment) (s : TCPSender) : net :=
  {| snd_end := s; rcv_end := rcv_end n; wire := wire n ++ o; adverts := adverts n; delivered := delivered n |}.

Definition net_event (S : bytes) (n : net) (e : event) : option net :=
  let s := snd_end n in
  let t := rcv_end n in
  let w := bytes_written (stream_in s) in
  match e with
  | EWrite len =>
      if (0 <=? w) && (0 <=? len) && (w + len <=? zlen S) && negb (input_ended (stream_in s)) then
        Some (at_sender n [] (sender_set_in s (ByteStream.write (stream_in s) (slice S w (w + len))).2))
      else None
  | EEnd => if w =? zlen S then Some (at_sender n [] (sender_set_in s (end_input (stream_in s)))) else None
  | EFill => match fill_window s with Ok s' => Some (at_sender n [] s') | _ => None end
  | ETick ms => if (0 <=? ms) && (ms <? 2 ^ 64) then Some (at_sender n [] (tick s ms)) else None
  | EPop => match _segments_out s with
            | seg :: q => Some (at_sender n [seg] (sender_set_out s q))
            | [] => None
            end
  | EAck i => match adverts n !! i with
              | Some e =>
                  Some {| snd_end := ack_received s (adv_ackno e) (adv_window e); rcv_end := t; wire := wire n;
                          adverts := adverts n; delivered := delivered n |}
              | None => None
              end
  | ESegment i => match wire n !! i with
                  | Some seg =>
                      match segment_received t seg with
                      | Ok t' => Some {| snd_end := s; rcv_end := t'; wire := wire n;
                                         adverts := adverts n; delivered := delivered n |}
                      | _ => None
                      end
                  | None => None
                  end
  | ERead len => if 0 <=? len then
                   match ByteStream.read (stream_out t) len with
                   | Ok (o, out) => Some {| snd_end := s; rcv_end := receiver_set_out t out; wire := wire n;
                                            adverts := adverts n; delivered := delivered n ++ o |}
                   | _ => None
                   end
                 else None
  | EAdvertise => match receiver_ackno t with
                  | Some a => Some {| snd_end := s; rcv_end := t; wire := wire n;
                                      adverts := adverts n ++ [advertise t a];
                                      delivered := delivered n |}
                  | None => None
                  end
  end.

Fixpoint net_run (S : bytes) (n : net) (es : list event) : option net :=
  match es with
  | [] => Some n
  | e :: es' => match net_event S n e with Some n' => net_run S n' es' | None => None end
  end.

(** * Lemmas *)

Section net.
Context (S : bytes) (isn : WrappingInt32).
Implicit Types n : net.

(** The sender's segments are those the receiver's theorems are about. *)
Lemma seg_at_segment_of seg b : wi_wf isn -> seg_at S isn seg b -> segment_of S isn seg (index_at b).
Proof.
  intros Hwf [Hb Hs Hsy Hd Hf _]. unfold index_at in *. constructor; auto.
  - rewrite Hsy. intros Hz. assert (b = 0) as -> by lia. split; [done|].
    rewrite Hs. apply wi_ext. rewrite wrap_raw. unfold wi_wf in Hwf. rewrite Z.mod_small; lia.
  - rewrite Hsy. intros Hz. rewrite Hs. f_equal. lia.
Qed.

(** The receiver holds at most what was sent. *)
Lemma received_le s t :
  snd_inv S isn s -> rcv_inv S isn t -> behind s t -> 0 <= in_order t <= _next_seqno s.
Proof.
  intros Hs Ht [Hk Hf Hy]. unfold in_order. pose proof (si_ack _ _ _ Hs).
  pose proof (rv_reasm _ _ _ Ht) as Hr. destruct (ri_out _ _ Hr) as [_ _ _ Hw ? _ ?].
  case_if; [|lia]. unfold received, bytes_written, stream_out. rewrite Hw.
  specialize (Hy eq_refl). destruct (ended t) eqn:He.
  - apply (ri_ended _ _ Hr) in He as [He Hz]. pose proof (Hf He) as Hfin.
    destruct (fin_all_sent S isn s Hs Hfin). lia.
  - destruct (decide (write_ptr (_reassembler t) = 0)); [lia|].
    assert (write_ptr (_reassembler t) - 1 + 1 < _next_seqno s) by (apply Hk; [lia | left; lia]). lia.
Qed.

Lemma in_order_pos t : rcv_inv S isn t -> synced t = true -> in_order t = received t /\ 0 < received t.
Proof.
  intros Ht Hs. unfold in_order. rewrite Hs. split; [done|].
  destruct (ri_out _ _ (rv_reasm _ _ _ Ht)) as [_ _ _ Hw ? _ ?].
  unfold received, bytes_written, stream_out. rewrite Hw. case_if; lia.
Qed.

(** The sequence number of a fresh segment is unambiguous to the receiver. *)
Lemma net_near n b :
  net_inv S isn n -> 0 <= b <= _next_seqno (snd_end n) -> _next_seqno (snd_end n) < b + 2 ^ 31 ->
  near (rcv_end n) (index_at b).
Proof.
  intros Hn Hb Hf Hsy. pose proof (ni_rcv _ _ _ Hn) as Ht. pose proof (ni_flight _ _ _ Hn). pose proof (ni_acked _ _ _ Hn) as Ha.
  pose proof (ni_snd _ _ _ Hn) as Hs. destruct (next_bounds S isn _ Hs) as (? & ? & ? & _).
  pose proof (received_le _ _ Hs Ht (ni_behind _ _ _ Hn)) as Hle. rewrite (rv_checkp _ _ _ Ht).
  assert (synced (rcv_end n) = true) as Hsync by (unfold synced; by rewrite Hsy).
  unfold in_order, received in *. rewrite Hsync in *. unfold index_at.
  destruct (ended (rcv_end n)) eqn:He; [pose proof (ni_reopened _ _ _ Hn He Hsy)|]; lia.
Qed.

Lemma behind_mono s s' t :
  behind s t -> _next_seqno s <= _next_seqno s' -> (fin_send s = true -> fin_send s' = true) -> behind s' t.
Proof.
  intros [Hk Hf Hy] Hn Hfin. constructor; auto.
  - intros j Hj H. specialize (Hk j Hj H). lia.
  - intros H. specialize (Hy H). lia.
Qed.

Lemma local_keeps_ack s o s' : snd_inv S isn s -> local_step S s o s' -> ack_s s' = ack_s s.
Proof.
  intros Hi Hstep. destruct Hstep as [| | s s' E | s ms | |]; try done.
  - destruct (fill_window_spec S isn s Hi) as (s1 & m & E1 & Hs & _). rewrite E in E1. inv_outcome. apply Hs.
  - unfold tick. repeat case_if; done.
Qed.

(** No step of the sender alone puts more than a window, and the SYN, in flight. *)
Lemma local_flight s o s' :
  snd_inv S isn s -> local_step S s o s' -> _next_seqno s <= ack_s s + 2 ^ 16 -> _next_seqno s' <= ack_s s' + 2 ^ 16.
Proof.
  intros Hi Hstep Hle. rewrite (local_keeps_ack s o s' Hi Hstep). destruct Hstep as [| | s s' E | s ms | |]; try done.
  - destruct (fill_window_spec S isn s Hi) as (s1 & m & E1 & _ & _ & Hmax). rewrite E in E1. inv_outcome.
    destruct (next_bounds S isn s Hi) as (_ & _ & _ & Hr & _). pose proof (si_window _ _ _ Hi). case_if_in Hmax; lia.
  - unfold tick. repeat case_if; done.
Qed.

(** The receiver does not lose what it has in order. *)
Lemma in_order_mono t seg i t' : rcv_spec S isn t seg i t' -> in_order t <= in_order t'.
Proof.
  intros [Hi' _ _ Hsync _ _ [Hw He] _ _]. unfold in_order. rewrite Hsync. destruct (synced t) eqn:Es; simpl.
  - unfold received. destruct (ended t); [rewrite He by done; lia|]. case_if; lia.
  - destruct (syn (header seg)) eqn:Ey; [|lia]. destruct (in_order_pos t' Hi') as [_ ?]; [by rewrite Hsync | lia].
Qed.

(** An acknowledgment number of the receiver, as the sender unwraps it. *)
Lemma ack_of_advert s t k :
  snd_inv S isn s -> rcv_inv S isn t -> behind s t -> 0 <= k <= in_order t -> _next_seqno s < k + 2 ^ 31 ->
  unwrap (wrap k isn) (_isn s) (_next_seqno s) = k.
Proof.
  intros Hs Ht Hb Hk Hf. pose proof (received_le s t Hs Ht Hb) as Hle.
  destruct (next_bounds S isn s Hs) as (? & ? & ? & _). rewrite (si_isn _ _ _ Hs).
  pose proof (si_len _ _ _ Hs). apply unwrap_wrap; lia.
Qed.

Lemma ack_received_ack s a k w :
  unwrap a (_isn s) (_next_seqno s) = k -> k <= _next_seqno s -> ack_s (ack_received s a w) = Z.max (ack_s s) k.
Proof. intros E Hk. unfold ack_received. rewrite E. case_if; [lia|]. case_if; simpl; lia. Qed.

(** A sent segment at the receiver. *)
Lemma arrival n seg b :
  net_inv S isn n -> seg_at S isn seg b -> b + seg_len seg <= _next_seqno (snd_end n) < b + 2 ^ 31 ->
  exists t', segment_received (rcv_end n) seg = Ok t' /\ rcv_spec S isn (rcv_end n) seg (index_at b) t' /\
    behind (snd_end n) t'.
Proof.
  intros Hn Hseg [Hb Hfresh]. pose proof (ni_snd _ _ _ Hn) as Hs. pose proof (ni_rcv _ _ _ Hn) as Ht.
  pose proof (seg_len_nonneg seg). pose proof (sa_pos _ _ _ _ Hseg).
  pose proof (sa_data _ _ _ _ Hseg) as (Hi0 & HiS & _). pose proof (zlen_nonneg (seg_data seg)).
  destruct (segment_received_spec S isn (rcv_end n) seg (index_at b)) as (t' & E & Hspec);
    [done | left; split; [by apply seg_at_segment_of; [apply Hs|] | apply net_near; lia || done] |].
  exists t'. split; [done|]. split; [done|].
  pose proof (sa_syn _ _ _ _ Hseg) as Hsy. unfold seg_len in *. fold (seg_data seg) in *.
  destruct Hspec as [Hi' _ _ Hsync Hup Heof Hmono _ _]. pose proof (ni_behind _ _ _ Hn) as [Hk Hf Hy].
  fold (seg_data seg) in *. unfold index_at in *. constructor.
  - intros j Hj Hkn. apply Hup in Hkn as [Hkn | Hr]; [by apply Hk | | done].
    rewrite Hsy in Hb. repeat case_if_in Hb; lia.
  - intros [He | He]%Heof; [by apply Hf|]. pose proof (sa_fin _ _ _ _ Hseg He) as HS.
    unfold index_at in HS. rewrite Hsy, He in Hb. pose proof (si_next _ _ _ Hs) as Hx.
    destruct (next_bounds S isn _ Hs) as (? & ? & _). destruct (fin_send (snd_end n)); [done|].
    case_if_in Hb; case_if_in Hx; lia.
  - rewrite Hsync. intros [Hz | Hz]%orb_true_iff; [by apply Hy|]. rewrite Hz in Hb.
    repeat case_if_in Hb; lia.
Qed.

(** An empty segment at the receiver. *)
Lemma bare_arrival n seg :
  net_inv S isn n -> bare seg ->
  exists t', segment_received (rcv_end n) seg = Ok t' /\ rcv_spec S isn (rcv_end n) seg 0 t' /\ behind (snd_end n) t'.
Proof.
  intros Hn Hbare. destruct (bare_received_spec S isn (rcv_end n) seg 0 (ni_rcv _ _ _ Hn) Hbare) as (t' & E & Hspec).
  exists t'. split; [done|]. split; [done|]. destruct Hbare as [Hy Hf Hd].
  destruct Hspec as [_ _ _ Hsync Hup Heof _ _ _]. pose proof (ni_behind _ _ _ Hn) as [Bk Bf By].
  rewrite Hd in Hup. change (zlen []) with 0 in Hup. rewrite Hy, orb_false_r in Hsync. constructor.
  - intros j Hj [Hkn | ?]%Hup; [by apply Bk | lia | done].
  - intros [?%Bf | ?]%Heof; congruence.
  - by rewrite Hsync.
Qed.

(** Whatever the network hands over. *)
Lemma delivery n seg :
  net_inv S isn n -> fresh S (snd_end n) seg ->
  exists i t', segment_received (rcv_end n) seg = Ok t' /\ rcv_spec S isn (rcv_end n) seg i t' /\
    behind (snd_end n) t' /\ (syn (header seg) = true -> _next_seqno (snd_end n) < 2 ^ 31).
Proof.
  intros Hn [(b & Hseg & Hb) | Hbare].
  - rewrite (si_isn _ _ _ (ni_snd _ _ _ Hn)) in Hseg. destruct (arrival n seg b Hn Hseg Hb) as (t' & E & Hspec & Hbeh).
    exists (index_at b), t'. split; [done|]. split; [done|]. split; [done|]. rewrite (sa_syn _ _ _ _ Hseg). lia.
  - destruct (bare_arrival n seg Hn Hbare) as (t' & E & Hspec & Hbeh). exists 0, t'. rewrite (br_syn _ Hbare). done.
Qed.

Lemma net_init_inv scap rcap rto : net_ok S isn scap rcap rto -> net_inv S isn (net_init scap rcap rto isn).
Proof.
  intros (Hwf & HS & ? & ? & ?). constructor; simpl; try done.
  - apply snd_inv_init; lia || done.
  - apply rcv_inv_init; lia || done.
  - constructor; simpl; try done. intros j Hj [? | (e & He & _)]; [simpl in *; lia|]. simpl in He. by apply elem_of_nil in He.
Qed.

Lemma net_step_inv n n' : net_inv S isn n -> net_step S n n' -> net_inv S isn n'.
Proof.
  intros Hn Hstep. pose proof Hn as [Hfl Hs Ht Hw Hb Hre Had Hack Hdel].
  destruct Hstep as [n o s' Hl | n e Hin Hf | n seg t' Hin Hfr E | n len o out Hlen E | n a Ha]; simpl in *.
  - pose proof (sstep_local S _ _ _ Hl) as Hl'. destruct (sstep_inv S isn _ _ _ Hs Hl') as (Hs' & Hle & Ho).
    destruct (sstep_mono S isn _ _ _ Hs Hl') as (_ & _ & Hf).
    constructor; simpl; auto; [exact (local_flight _ _ _ Hs Hl Hfl) | |by eapply behind_mono; [done | done | apply Hf]|].
    + apply Forall_app. by split; (eapply queued_mono; [exact Hle|]).
    + by rewrite (local_keeps_ack _ _ _ Hs Hl).
  - rewrite Forall_forall in Had. destruct (Had _ Hin) as [Hw' Ek Hk]. unfold fresh_ack in Hf. rewrite Ek.
    set (k := adv_in_order e) in *. set (w := adv_window e) in *.
    assert (unwrap (wrap k isn) (_isn (snd_end n)) (_next_seqno (snd_end n)) = k) as Eu
      by (apply (ack_of_advert _ (rcv_end n)); lia || done).
    assert (k <= _next_seqno (snd_end n)) by (pose proof (received_le _ _ Hs Ht Hb); lia).
    assert (_next_seqno (ack_received (snd_end n) (wrap k isn) w) = _next_seqno (snd_end n) /\
      fin_send (ack_received (snd_end n) (wrap k isn) w) = fin_send (snd_end n)) as [Hnx Hfs]
      by (unfold ack_received; repeat case_if; done).
    assert (ack_s (ack_received (snd_end n) (wrap k isn) w) = Z.max (ack_s (snd_end n)) k) as Hav by by apply ack_received_ack.
    constructor; simpl; auto.
    + lia.
    + by apply ack_received_inv.
    + by rewrite Hnx.
    + eapply behind_mono; [done | lia | congruence].
    + by apply Forall_forall.
    + lia.
  - destruct (delivery n seg Hn Hfr) as (i & t1 & E1 & Hspec & Hb' & Hsyn).
    rewrite E in E1. inv_outcome. pose proof (in_order_mono _ _ _ _ Hspec) as Hle. destruct Hspec as [Hi' Hrd _ _ _ _ _ _ _].
    constructor; simpl; auto; [| | lia | by rewrite Hrd].
    + intros He Hsy. destruct (reopened _ _ _ E He Hsy) as [He0 [Hsy0 | Hsy0]]; [by apply Hre|].
      apply (ri_ended _ _ (rv_reasm _ _ _ Ht)) in He0 as [Heof _]. pose proof (bh_fin _ _ Hb Heof) as Hfin.
      destruct (fin_all_sent S isn _ Hs Hfin). specialize (Hsyn Hsy0). lia.
    + eapply Forall_impl; [exact Had|]. intros e []. constructor; auto with lia.
  - destruct (receiver_read_spec S isn _ len o out Ht Hlen E) as (Ht' & Ho & Hle & Hwr & Hen).
    assert (in_order (receiver_set_out (rcv_end n) out) = in_order (rcv_end n)) as Hio.
    { unfold in_order, synced, received, ended. simpl.
      change (stream_out (receiver_set_out (rcv_end n) out)) with out. by rewrite Hwr, Hen. }
    constructor; simpl; auto; rewrite ?Hio; auto.
    3: { eapply Forall_impl; [exact Had|]. intros e []. constructor; by rewrite ?Hio. }
    2: { unfold ended. change (stream_out (receiver_set_out (rcv_end n) out)) with out. by rewrite Hen. }
    + destruct Hb as [Hk Hf Hy]. constructor; auto. unfold synced, ended in *. simpl.
      change (stream_out (receiver_set_out (rcv_end n) out)) with out. by rewrite Hen.
    + rewrite Hdel, Ho. apply slice_app; [lia | | done].
      destruct (ri_out _ _ (rv_reasm _ _ _ Ht)). unfold bytes_read, stream_out. lia.
  - pose proof (rv_ack _ _ _ Ht) as Hra. unfold receiver_ackno in Ha. rewrite Ha in Hra.
    case_if_in Hra; [|done]. injection Hra as ->. destruct (in_order_pos _ Ht) as [Hio Hpos]; [done|].
    constructor; simpl; auto. apply Forall_app. split; [done|]. constructor; [|done].
    constructor; simpl; [|by rewrite Hio | lia].
    unfold advertised_window. pose proof (to_u64_range (b_size (stream_out (rcv_end n)) - zlen (bts (stream_out (rcv_end n))))).
    unfold window_size, remaining_capacity. lia.
Qed.

Lemma net_steps_inv n n' : net_steps S n n' -> net_inv S isn n -> net_inv S isn n'.
Proof. induction 1; eauto using net_step_inv. Qed.

(** The oldest outstanding segment is the one the receiver waits for. *)
Lemma oldest_helps n b seg t' :
  net_inv S isn n -> seg_at S isn seg b -> b <= ack_s (snd_end n) < b + seg_len seg ->
  b + seg_len seg <= _next_seqno (snd_end n) -> ack_s (snd_end n) = in_order (rcv_end n) ->
  0 < window_size (rcv_end n) -> syn (header seg) && _syn (rcv_end n) = false ->
  rcv_spec S isn (rcv_end n) seg (index_at b) t' -> ack_s (snd_end n) < in_order t'.
Proof.
  intros Hn Hseg Hb Hk Heq Hwin Hdup [Hi' _ _ Hsync _ _ [Hmono _] Hfin Hkn].
  pose proof (ni_rcv _ _ _ Hn) as Ht. pose proof (ni_snd _ _ _ Hn) as Hs. set (t := rcv_end n) in *.
  pose proof (sa_syn _ _ _ _ Hseg) as Hsy. pose proof (sa_pos _ _ _ _ Hseg).
  destruct (synced t) eqn:Es.
  2: { unfold in_order in Heq. rewrite Es in Heq. rewrite Hsy in Hsync. replace (b =? 0) with true in Hsync by lia.
       destruct (in_order_pos t' Hi' Hsync). lia. }
  destruct (in_order_pos t' Hi' Hsync) as [-> _]. destruct (in_order_pos t Ht Es) as [Hio _].
  simpl in Hkn, Hfin. specialize (Hkn eq_refl Hdup). specialize (Hfin eq_refl Hdup).
  destruct (next_bounds S isn _ Hs) as (? & ? & ? & _). unfold received in *.
  pose proof (rv_reasm _ _ _ Ht) as Hr. pose proof (rv_reasm _ _ _ Hi') as Hr'.
  destruct (ri_out _ _ Hr) as [_ _ _ Hw ? _ ?]. pose proof (ri_out _ _ Hr') as [_ _ _ Hw' ? _ ?].
  destruct (window_size_eq S isn t Ht) as [_ Hwe]. unfold bytes_written, stream_out in *. rewrite Hw, Hw' in *.
  destruct (ended t) eqn:He; [apply (ri_ended _ _ Hr) in He as [_ He]; lia|].
  set (w := write_ptr (_reassembler t)) in *. pose proof (zlen_nonneg (seg_data seg)).
  destruct (decide (w < index_at b + zlen (seg_data seg))) as [Hin | Hout].
  - enough (w < write_ptr (_reassembler t')) by (case_if; lia).
    apply (first_missing S); [done | lia |]. intros j Hj. apply Hkn; [lia|].
    destruct (decide (j < w)); [left; left; lia | right]. unfold seg_data, index_at in *. lia.
  - assert (fin (header seg) = true /\ index_at b + zlen (seg_data seg) = w) as [Hf Hw0].
    { unfold seg_len, index_at in *. rewrite Hsy in Hb. destruct (fin (header seg)); [split; [done|] | exfalso];
        repeat case_if_in Hb; lia. }
    pose proof (sa_fin _ _ _ _ Hseg Hf). unfold seg_data in *.
    assert (ended t' = true) as ->; [|lia]. apply (ri_ended _ _ Hr'). split; [apply Hfin; lia || done | lia].
Qed.
End net.


(** ** Schedules are runs *)

(** The network may do what an event says. *)
Definition allowed (S : bytes) (n : net) (e : event) : Prop :=
  match e with
  | ESegment i => forall seg, wire n !! i = Some seg -> fresh S (snd_end n) seg
  | EAck i => forall e, adverts n !! i = Some e -> fresh_ack (snd_end n) e
  | _ => True
  end.

Lemma net_event_step S n e n' : allowed S n e -> net_event S n e = Some n' -> net_step S n n'.
Proof.
  destruct e as [len | | | ms | | i | i | len |]; simpl; intros Hal E.
  - case_if_in E; [|done]. injection E as <-. apply net_local, local_write; [|lia].
    pose proof (zlen_slice S (bytes_written (stream_in (snd_end n))) (bytes_written (stream_in (snd_end n)) + len)) as Hz.
    unfold excerpt. rewrite Hz by lia. split; [lia|]. split; [lia|]. f_equal. lia.
  - case_if_in E; [|done]. injection E as <-. apply net_local, local_end. lia.
  - destruct (fill_window (snd_end n)) eqn:Ef; try done. injection E as <-. by apply net_local, local_fill.
  - case_if_in E; [|done]. injection E as <-. apply net_local, local_tick. lia.
  - destruct (_segments_out (snd_end n)) eqn:Eq; [done|]. injection E as <-. by apply net_local, local_pop.
  - destruct (adverts n !! i) as [e|] eqn:El; [|done]. injection E as <-.
    apply net_ack; [by eapply list_elem_of_lookup_2 | by eapply Hal].
  - destruct (wire n !! i) as [seg|] eqn:El; [|done].
    destruct (segment_received (rcv_end n) seg) eqn:Es; try done. injection E as <-.
    eapply net_segment; [by eapply list_elem_of_lookup_2 | by apply Hal | done].
  - case_if_in E; [|done]. destruct (ByteStream.read (stream_out (rcv_end n)) len) as [[o out]| |] eqn:Er; try done.
    injection E as <-. eapply (net_read _ _ len); [lia | done].
  - destruct (receiver_ackno (rcv_end n)) as [a|] eqn:Ea; [|done]. injection E as <-. by apply net_advertise.
Qed.

(** A stream that is shorter than the lifetime: everything ever sent may arrive. *)
Lemma short_fresh S isn n :
  zlen S + 2 < 2 ^ 31 -> net_inv S isn n ->
  Forall (fresh S (snd_end n)) (wire n) /\ Forall (fresh_ack (snd_end n)) (adverts n).
Proof.
  intros HS Hn. pose proof (ni_snd _ _ _ Hn) as Hs. destruct (next_bounds S isn _ Hs) as (? & ? & ? & _).
  pose proof (si_isn _ _ _ Hs) as Ei. split.
  - eapply Forall_impl; [apply Hn|]. intros seg [(b & Hseg & Hb) | [Hbare _]]; [left | by right]. exists b. rewrite Ei.
    split; [done|]. pose proof (sa_pos _ _ _ _ Hseg). lia.
  - eapply Forall_impl; [apply Hn|]. intros e [_ _ ?]. unfold fresh_ack. lia.
Qed.

Lemma short_allowed S isn n e : zlen S + 2 < 2 ^ 31 -> net_inv S isn n -> allowed S n e.
Proof.
  intros HS Hn. destruct (short_fresh S isn n HS Hn) as [Hw Ha]. rewrite Forall_forall in Hw. rewrite Forall_forall in Ha.
  destruct e; simpl; try done; intros * Hl%list_elem_of_lookup_2; [by apply Ha | by apply Hw].
Qed.

Lemma net_run_steps S isn n es n' :
  zlen S + 2 < 2 ^ 31 -> net_inv S isn n -> net_run S n es = Some n' -> net_steps S n n'.
Proof.
  intros HS Hn. assert (forall es n1, net_steps S n n1 -> net_inv S isn n1 -> net_run S n1 es = Some n' -> net_steps S n n') as Hrun;
    [|apply Hrun; [constructor | done]]. clear es.
  induction es as [|e es IH]; intros n1 Hs Hn1 E; simpl in E; [by injection E as <-|].
  destruct (net_event S n1 e) as [n2|] eqn:Ee; [|done].
  apply net_event_step in Ee; [|by eapply short_allowed]. eapply IH; [by eapply net_steps_snoc | by eapply net_step_inv | exact E].
Qed.

Lemma net_reachable_inv S isn scap rcap rto n :
  net_ok S isn scap rcap rto -> net_steps S (net_init scap rcap rto isn) n -> net_inv S isn n.
Proof. intros Hok Hs. eapply net_steps_inv; [exact Hs | by apply net_init_inv]. Qed.

(** The receiving side of a reachable state. *)
Lemma net_stream S isn n :
  net_inv S isn n ->
  delivered n ++ bts (stream_out (rcv_end n)) = slice S 0 (bytes_written (stream_out (rcv_end n))).
Proof. intros Hn. rewrite (ni_delivered _ _ _ Hn). apply (receiver_delivered S isn), Hn. Qed.

(** "Fully acknowledged" means that SYN, bytes and FIN are. *)
Lemma fin_acked_all S isn s :
  snd_inv S isn s -> sender_summary s = TCPSenderStateSummary.FIN_ACKED ->
  ack_s s = zlen S + 2 /\ fin_send s = true.
Proof.
  intros Hi Hsum. assert (ByteStream.error (stream_in s) = false) as He.
  { unfold sender_summary in Hsum. by destruct (ByteStream.error (stream_in s)). }
  rewrite (sender_summary_phase S isn) in Hsum by done. unfold sender_phase in Hsum.
  pose proof (si_ack _ _ _ Hi).
  destruct (_next_seqno s =? 0) eqn:E0; [done|]. destruct (ack_s s =? 0); [done|].
  destruct (fin_send s) eqn:Hf; [|done]. simpl in Hsum. case_if_in Hsum; [done|]. split; [|done].
  destruct (fin_all_sent S isn s Hi Hf). lia.
Qed.

(** The connection of the witnesses, and a schedule in which the first segment is lost,
    retransmitted and duplicated, and the stream "abc" arrives and is acknowledged. *)
Definition demo_net : net := net_init 8 8 1000 {| raw_value := 2 ^ 32 - 1 |}.
Definition demo_loss : list event := [EWrite 3; EFill; EPop; ETick 1000; EPop].
Definition demo_schedule : list event :=
  demo_loss ++ [ESegment 1; ESegment 0; EAdvertise; EAck 0; EEnd; EFill; EPop; ESegment 2; ERead 2; EAdvertise; EAck 1].

Lemma demo_ok : net_ok (str "abc") {| raw_value := 2 ^ 32 - 1 |} 8 8 1000.
Proof. by_compute. Qed.

Lemma demo_reaches es n : net_run (str "abc") demo_net es = Some n -> net_steps (str "abc") demo_net n.
Proof. apply (net_run_steps (str "abc") {| raw_value := 2 ^ 32 - 1 |}); [by_compute | apply net_init_inv, demo_ok]. Qed.

(** * Properties *)

(** C1: reliable, in-order delivery end to end. Whatever the network does with the segments
    and the acknowledgments, except to deliver one that the sender is [2 ^ 31] sequence
    numbers past ([fresh], [fresh_ack]), what the receiving application has read, followed by what
    waits for it, is a prefix of the stream that the sending application writes, no longer
    than what the sender has taken from that application. *)
Theorem end_to_end_prefix S isn scap rcap rto n :
  net_ok S isn scap rcap rto -> net_steps S (net_init scap rcap rto isn) n ->
  let m := bytes_written (stream_out (rcv_end n)) in
  delivered n ++ bts (stream_out (rcv_end n)) = slice S 0 m /\
  m <= bytes_read (stream_in (snd_end n)) /\ bytes_read (stream_in (snd_end n)) <= bytes_written (stream_in (snd_end n)).
Proof.
  intros Hok Hs m. pose proof (net_reachable_inv _ _ _ _ _ _ Hok Hs) as Hn.
  split; [by apply (net_stream S isn)|]. pose proof (ni_snd _ _ _ Hn) as Hi.
  destruct (next_bounds S isn _ Hi) as (? & ? & _). split; [|unfold stream_in; lia].
  pose proof (ri_out _ _ (rv_reasm _ _ _ (ni_rcv _ _ _ Hn))) as [_ _ _ Hw ? _ ?].
  unfold m, bytes_written at 1, stream_out, stream_in. rewrite Hw.
  destruct (decide (write_ptr (_reassembler (rcv_end n)) = 0)); [lia|].
  pose proof (bh_known _ _ (ni_behind _ _ _ Hn) (write_ptr (_reassembler (rcv_end n)) - 1)) as Hk.
  assert (write_ptr (_reassembler (rcv_end n)) - 1 + 1 < _next_seqno (snd_end n)) by (apply Hk; [lia | left; lia]).
  pose proof (si_next _ _ _ Hi) as Hx. destruct (fin_send (snd_end n)) eqn:Hf; case_if_in Hx; try lia.
  destruct (fin_all_sent S isn _ Hi Hf). lia.
Qed.

Lemma end_to_end_prefix_witness :
  exists n, net_run (str "abc") demo_net demo_schedule = Some n /\ delivered n = str "ab" /\
    delivered n ++ bts (stream_out (rcv_end n)) = slice (str "abc") 0 (bytes_written (stream_out (rcv_end n))).
Proof.
  destruct (net_run (str "abc") demo_net demo_schedule) as [n|] eqn:E; [|vm_compute in E; discriminate].
  exists n. split; [reflexivity|]. split.
  - vm_compute in E. injection E as <-. reflexivity.
  - apply (end_to_end_prefix (str "abc") {| raw_value := 2 ^ 32 - 1 |} 8 8 1000 n demo_ok).
    apply (demo_reaches demo_schedule n E).
Defined.

(** C2: nothing is acknowledged before it has been received in order. The network of C1
    delivers any acknowledgment number that the receiver has ever given, unless it has
    expired; still the sender's
    acknowledged number never exceeds what the receiver has assembled, so when the sender's
    summary is "stream finished and fully acknowledged", the receiver's stream has ended
    and is the whole stream [S]. *)
Theorem acknowledged_is_delivered S isn scap rcap rto n :
  net_ok S isn scap rcap rto -> net_steps S (net_init scap rcap rto isn) n ->
  ack_s (snd_end n) <= bytes_written (stream_out (rcv_end n)) + 1 + (if ended (rcv_end n) then 1 else 0) /\
  (sender_summary (snd_end n) = TCPSenderStateSummary.FIN_ACKED ->
    ended (rcv_end n) = true /\ delivered n ++ bts (stream_out (rcv_end n)) = S).
Proof.
  intros Hok Hs. pose proof (net_reachable_inv _ _ _ _ _ _ Hok Hs) as Hn.
  pose proof (ni_snd _ _ _ Hn) as Hi. pose proof (ni_acked _ _ _ Hn) as Hack.
  pose proof (ni_rcv _ _ _ Hn) as Ht. pose proof (rv_reasm _ _ _ Ht) as Hr.
  pose proof (ri_out _ _ Hr) as [_ _ _ Hw ? _ ?].
  assert (ack_s (snd_end n) <= received (rcv_end n)) as Hle.
  { unfold in_order in Hack. case_if_in Hack; [done|]. unfold received, bytes_written, stream_out. rewrite Hw. case_if; lia. }
  split; [exact Hle|]. intros Hsum.
  destruct (fin_acked_all S isn _ Hi Hsum) as [Hall HS]. unfold received in Hle.
  destruct (ended (rcv_end n)) eqn:He; unfold bytes_written, stream_out in Hle; rewrite Hw in Hle; [|lia].
  split; [done|]. rewrite (net_stream S isn n Hn). unfold bytes_written, stream_out. rewrite Hw.
  apply (ri_ended _ _ Hr) in He as [_ ->]. apply slice_full.
Qed.

Lemma acknowledged_is_delivered_witness :
  exists n, net_run (str "abc") demo_net demo_schedule = Some n /\
    sender_summary (snd_end n) = TCPSenderStateSummary.FIN_ACKED /\
    delivered n ++ bts (stream_out (rcv_end n)) = str "abc".
Proof.
  destruct (net_run (str "abc") demo_net demo_schedule) as [n|] eqn:E; [|vm_compute in E; discriminate].
  assert (sender_summary (snd_end n) = TCPSenderStateSummary.FIN_ACKED) as Hsum
    by (vm_compute in E; injection E as <-; reflexivity).
  exists n. split; [reflexivity|]. split; [exact Hsum|].
  apply (acknowledged_is_delivered (str "abc") {| raw_value := 2 ^ 32 - 1 |} 8 8 1000 n demo_ok
    (demo_reaches demo_schedule n E)). exact Hsum.
Defined.
