(* ===== verification/Datagrams.v ===== *)
(** The end-to-end composition on the level of bytes. Segments leave the sender through
    [TCPSegment::serialize] and reach the receiver through [TCPSegment::parse]; between the
    two the network loses, duplicates and reorders datagrams as in EndToEnd.v, and in
    addition delivers damaged ones, of any contents that [parse] does not accept. The two
    systems are related by a simulation in both directions, so that the theorems on
    segments hold for the bytes on the wire.
    This file models no source file: it composes TCPSegment.v with EndToEnd.v. *)
From stdpp Require Import relations.
From S2P Require Import Prelude StdMap WrappingIntegers ByteStream StreamReassembler Buffer Parser TCPHeader TCPSegment TCPReceiver TCPSender TCPState EndToEnd.

(** * The system *)

(** The receiving side parses a datagram and hands the segment on if there was no error;
    [ck] is the checksum of the pseudo-header. *)
Definition datagram_received (ck : Z) (t : TCPReceiver) (d : bytes) : outcome TCPReceiver :=
  '(res, seg) ← segment_parse segment_default (buffer_of d) ck;
  match res with NoError => segment_received t seg | _ => Ok t end.

(** [d] is what the sending side makes of [seg]. *)
Definition encodes (ck : Z) (seg : TCPSegment) (d : bytes) : Prop :=
  exists l, segment_serialize seg ck = Ok l /\ d = concatenate l.

(** The datagram is accepted, as the segment [seg]. *)
Definition decodes (ck : Z) (d : bytes) (seg : TCPSegment) : Prop :=
  segment_parse segment_default (buffer_of d) ck = Ok (NoError, seg).

(** A datagram that is not accepted: its checksum is wrong or it is too short. *)
Definition damaged (ck : Z) (d : bytes) : Prop :=
  exists res seg, segment_parse segment_default (buffer_of d) ck = Ok (res, seg) /\ res <> NoError.

Record dnet := {
  d_snd : TCPSender;
  d_rcv : TCPReceiver;
  d_wire : list bytes;
  d_adverts : list advert;
  d_delivered : bytes
}.

Definition dnet_init (scap rcap rto : Z) (isn : WrappingInt32) : dnet :=
  {| d_snd := tcp_sender scap rto (Some isn) 0; d_rcv := tcp_receiver rcap;
     d_wire := []; d_adverts := []; d_delivered := [] |}.

Inductive dnet_step (S : bytes) (ck : Z) : dnet -> dnet -> Prop :=
| d_local n o ds s' :
    local_step S (d_snd n) o s' -> Forall2 (encodes ck) o ds ->
    dnet_step S ck n {| d_snd := s'; d_rcv := d_rcv n; d_wire := d_wire n ++ ds; d_adverts := d_adverts n;
                        d_delivered := d_delivered n |}
| d_ack n e :
    e ∈ d_adverts n -> fresh_ack (d_snd n) e ->
    dnet_step S ck n {| d_snd := ack_received (d_snd n) (adv_ackno e) (adv_window e); d_rcv := d_rcv n; d_wire := d_wire n;
                        d_adverts := d_adverts n; d_delivered := d_delivered n |}
| d_arrive n d seg t' :
    d ∈ d_wire n -> decodes ck d seg -> fresh S (d_snd n) seg -> datagram_received ck (d_rcv n) d = Ok t' ->
    dnet_step S ck n {| d_snd := d_snd n; d_rcv := t'; d_wire := d_wire n; d_adverts := d_adverts n;
                        d_delivered := d_delivered n |}
| d_damaged n d t' :
    damaged ck d -> datagram_received ck (d_rcv n) d = Ok t' ->
    dnet_step S ck n {| d_snd := d_snd n; d_rcv := t'; d_wire := d_wire n; d_adverts := d_adverts n;
                        d_delivered := d_delivered n |}
| d_read n len o out :
    0 <= len -> ByteStream.read (stream_out (d_rcv n)) len = Ok (o, out) ->
    dnet_step S ck n {| d_snd := d_snd n; d_rcv := receiver_set_out (d_rcv n) out; d_wire := d_wire n;
                        d_adverts := d_adverts n; d_delivered := d_delivered n ++ o |}
| d_advertise n a :
    receiver_ackno (d_rcv n) = Some a ->
    dnet_step S ck n {| d_snd := d_snd n; d_rcv := d_rcv n; d_wire := d_wire n;
                        d_adverts := d_adverts n ++ [advertise (d_rcv n) a];
                        d_delivered := d_delivered n |}.

Definition dnet_steps (S : bytes) (ck : Z) : dnet -> dnet -> Prop := rtc (dnet_step S ck).

(** The two systems in the same state: the wire carries the bytes of the segments. *)
Record carries (ck : Z) (n : net) (d : dnet) : Prop := {
  ca_snd : d_snd d = snd_end n;
  ca_rcv : d_rcv d = rcv_end n;
  ca_wire : Forall2 (encodes ck) (wire n) (d_wire d);
  ca_adverts : d_adverts d = adverts n;
  ca_delivered : d_delivered d = delivered n
}.

(** * The headers that the sender makes *)

Definition well_typed (seg : TCPSegment) : Prop := header_wf (header seg).

Record headers_ok (s : TCPSender) : Prop := {
  ho_out : Forall well_typed (_segments_out s);
  ho_noack : Forall (fun e => well_typed e.2) (_segments_noack s)
}.

Lemma sender_segment_typed sy fi k isn data : well_typed (sender_segment sy fi (wrap k isn) data).
Proof. constructor; solve [apply wrap_wf | by_compute]. Qed.

Lemma fill_window_typed s s' : fill_window s = Ok s' -> headers_ok s -> headers_ok s'.
Proof.
  apply (fill_window_preorder (fun s s' => headers_ok s -> headers_ok s')); auto.
  - intros s1 len d b _ []. by split.
  - intros s1 sy fi k data [Ho Hn]. split; simpl.
    + apply Forall_app. split; [done|]. repeat constructor; apply sender_segment_typed.
    + apply map_insert_Forall; [apply sender_segment_typed | done].
Qed.

(** What leaves the queue is well typed, and so is what stays. *)
Lemma local_typed S s o s' : local_step S s o s' -> headers_ok s -> Forall well_typed o /\ headers_ok s'.
Proof.
  destruct 1 as [s data ? ? | s ? | s s' E | s ms ? | s | s seg q Hq]; intros [Ho Hn]; (split; [try constructor|]);
    try (by split).
  - by apply (fill_window_typed s).
  - unfold tick. repeat case_if; try (by split). split; simpl; [|done]. destruct (_segments_noack s) as [|[k seg] m]; [done|].
    apply Forall_app. split; [done|]. constructor; [by apply Forall_inv in Hn | done].
  - split; simpl; [|done]. apply Forall_app. split; [done|]. repeat constructor; apply sender_segment_typed.
  - rewrite Hq in Ho. by apply Forall_inv in Ho.
  - constructor.
  - rewrite Hq in Ho. split; [by apply Forall_inv_tail in Ho | done].
Qed.

Lemma ack_typed s a w : headers_ok s -> headers_ok (ack_received s a w).
Proof.
  intros [Ho Hn]. unfold ack_received. repeat case_if; split; simpl; try done.
  rewrite List.Forall_forall in Hn |- *. intros e [Hin _]%List.filter_In. by apply Hn.
Qed.

(** * Encoding and decoding *)

(** The same segment for the receiver: only the checksum field and the storage of the
    payload differ. *)
Definition same_segment (seg seg' : TCPSegment) : Prop :=
  (exists c, header seg' = with_cksum (header seg) c) /\ seg_data seg' = seg_data seg.

Lemma same_received t seg seg' : same_segment seg seg' -> segment_received t seg' = segment_received t seg.
Proof.
  intros [[c Hh] Hd]. unfold segment_received, length_in_sequence_space, note_seqno, copy, seg_data in *.
  by rewrite Hh, Hd.
Qed.

Lemma same_fresh S s seg seg' : same_segment seg seg' -> fresh S s seg <-> fresh S s seg'.
Proof.
  intros [[c Hh] Hd]. unfold fresh, seg_len. rewrite Hh, Hd. simpl. unfold seg_data in Hd.
  split; (intros [(b & [] & Hb) | []]; [left; exists b; split; [|done] | right]);
    constructor; unfold seg_data in *; rewrite ?Hh, ?Hd in *; done.
Qed.

(** The pseudo-header sums that leave room in the 32-bit accumulator. *)
Definition pseudo_ok (ck : Z) : Prop := 0 <= ck < 2 ^ 31.

Lemma encodes_total ck seg : well_typed seg -> pseudo_ok ck -> exists d, encodes ck seg d.
Proof.
  intros Hw Hc. destruct (segment_serialize_eq seg ck) as (c & l & E & _); [apply (hw_doff _ Hw) | unfold pseudo_ok in Hc; lia |].
  by exists (concatenate l), l.
Qed.

Lemma encodes_length ck seg d :
  well_typed seg -> pseudo_ok ck -> encodes ck seg d -> zlen d = 4 * doff (header seg) + zlen (seg_data seg).
Proof.
  intros Hw Hc (l & E & ->). pose proof (hw_doff _ Hw).
  destruct (segment_serialize_eq seg ck) as (c & l' & E' & _ & _ & Hcat & _); [fold (header seg); lia | unfold pseudo_ok in Hc; lia |].
  rewrite E in E'. injection E' as <-. rewrite Hcat, !zlen_app, wire_before_length, wire_after_length, be_bytes_length by (fold (header seg); lia).
  fold (header seg). unfold seg_data, payload. cbn [sizeof]. lia.
Qed.

Lemma decodes_encoded ck seg d :
  well_typed seg -> zlen (seg_data seg) <= MAX_PAYLOAD_SIZE -> pseudo_ok ck -> encodes ck seg d ->
  exists seg', decodes ck d seg' /\ same_segment seg seg'.
Proof.
  intros Hw Hlen Hc Hd. pose proof (encodes_length ck seg d Hw Hc Hd) as Hz. destruct Hd as (l & E & ->).
  pose proof (hw_doff _ Hw). unfold MAX_PAYLOAD_SIZE, pseudo_ok in *. pose proof (zlen_nonneg (seg_data seg)).
  destruct (parse_serialized_segment seg segment_default ck (buffer_of (concatenate l))) as (l' & E' & Hp);
    [done | lia | unfold seg_data, payload, header in *; lia |].
  rewrite E in E'. injection E' as <-.
  destruct Hp as (c & seg' & Hpar & Hh & Hpay); [|apply str_of_buffer_of|].
  { split; [apply buffer_of_wf; lia|]. rewrite str_of_buffer_of. simpl. lia. }
  exists seg'. split; [done|]. split; [by exists c | done].
Qed.

(** An accepted datagram is handled as its segment; a damaged one is dropped. *)
Lemma datagram_received_eq ck t d seg : decodes ck d seg -> datagram_received ck t d = segment_received t seg.
Proof. intros E. unfold datagram_received. by rewrite E. Qed.

Lemma damaged_dropped ck t d : damaged ck d -> datagram_received ck t d = Ok t.
Proof. intros (res & seg & E & Hr). unfold datagram_received. rewrite E. by destruct res. Qed.

(** * The simulation *)

Section simulation.
Context (S : bytes) (isn : WrappingInt32) (ck : Z) (ck_ok : pseudo_ok ck).
Implicit Types (n : net) (d : dnet).

(** What the simulation needs of the state on the level of segments. *)
Record typed_net n : Prop := {
  tn_inv : net_inv S isn n;
  tn_snd : headers_ok (snd_end n);
  tn_wire : Forall well_typed (wire n)
}.

Lemma typed_step n n' : net_step S n n' -> typed_net n -> typed_net n'.
Proof.
  intros Hstep [Hi Hs Hw]. pose proof (net_step_inv S isn n n' Hi Hstep) as Hi'.
  destruct Hstep as [n o s' Hl | | | |]; split; simpl; try done; try (by apply ack_typed).
  - by eapply local_typed.
  - apply Forall_app. split; [done | by eapply local_typed].
Qed.

(** A segment on the wire and its datagram. *)
Lemma wire_decodes n g seg : typed_net n -> seg ∈ wire n -> encodes ck seg g ->
  exists seg', decodes ck g seg' /\ same_segment seg seg'.
Proof.
  intros [Hi _ Hw] Hin Hg. rewrite Forall_forall in Hw. pose proof (ni_wire _ _ _ Hi) as Hsent. rewrite Forall_forall in Hsent.
  eapply decodes_encoded; eauto. destruct (Hsent _ Hin) as [(b & Hseg & _) | [Hbare _]]; [apply (sa_max _ _ _ _ Hseg)|].
  unfold seg_data. by rewrite (br_data _ Hbare).
Qed.

(** Every step on bytes is a step on segments, or none if the datagram was damaged. *)
Lemma dnet_simulated n d d' :
  typed_net n -> carries ck n d -> dnet_step S ck d d' -> exists n', rtc (net_step S) n n' /\ carries ck n' d'.
Proof.
  intros Hn [Es Er Hw Ea Ed] Hstep. destruct Hstep as [d o ds s' Hl Ho | d e Hin Hf | d g seg t' Hin Hdec Hf Ht
    | d g t' Hdam Ht | d len o out Hlen Hread | d a Hack].
  - eexists. split; [apply rtc_once, net_local; by rewrite <- Es|]. constructor; simpl; try done. by apply Forall2_app.
  - eexists. split; [apply rtc_once, (net_ack _ n e); [by rewrite <- Ea | by rewrite <- Es]|].
    constructor; simpl; try done. by rewrite Es.
  - apply list_elem_of_lookup_1 in Hin as [i Hi]. destruct (Forall2_lookup_r _ _ _ _ _ Hw Hi) as (sg & Hsg & Henc).
    apply list_elem_of_lookup_2 in Hsg. destruct (wire_decodes n g sg Hn Hsg Henc) as (seg' & Hdec' & Hsame).
    assert (seg' = seg) as -> by (unfold decodes in *; congruence). rewrite (datagram_received_eq _ _ _ _ Hdec) in Ht.
    rewrite (same_received _ _ _ Hsame), Er in Ht. rewrite Es in Hf.
    eexists. split; [apply rtc_once, (net_segment _ n sg t'); [done | by eapply same_fresh | done]|]. by constructor.
  - rewrite damaged_dropped in Ht by done. injection Ht as <-. exists n. split; [constructor | by constructor].
  - eexists. split; [apply rtc_once, (net_read _ n len o out); [done | by rewrite <- Er]|]. constructor; simpl; congruence.
  - eexists. split; [apply rtc_once, (net_advertise _ n a); by rewrite <- Er|]. constructor; simpl; congruence.
Qed.

(** Every step on segments is a step on bytes. *)
Lemma net_simulated n n' d :
  typed_net n -> carries ck n d -> net_step S n n' -> exists d', dnet_step S ck d d' /\ carries ck n' d'.
Proof.
  intros Hn [Es Er Hw Ea Ed] Hstep. destruct Hstep as [n o s' Hl | n e Hin Hf | n seg t' Hin Hf Ht
    | n len o out Hlen Hread | n a Hack].
  - assert (exists ds, Forall2 (encodes ck) o ds) as [ds Hds].
    { destruct (local_typed _ _ _ _ Hl (tn_snd _ Hn)) as [Hty _].
      clear -Hty ck_ok. induction Hty as [|seg o Hseg _ [ds IH]]; [by exists []|].
      destruct (encodes_total ck seg Hseg ck_ok) as [d Hd]. exists (d :: ds). by constructor. }
    eexists. split; [apply (d_local _ _ d o ds s'); [by rewrite Es | done]|]. constructor; simpl; try done. by apply Forall2_app.
  - eexists. split; [apply (d_ack _ _ d e); rewrite ?Ea, ?Es; done|].
    constructor; simpl; try done. by rewrite Es.
  - apply list_elem_of_lookup_1 in Hin as [i Hi]. destruct (Forall2_lookup_l _ _ _ _ _ Hw Hi) as (g & Hg & Henc).
    apply list_elem_of_lookup_2 in Hi, Hg. destruct (wire_decodes n g seg Hn Hi Henc) as (seg' & Hdec & Hsame).
    eexists. split; [apply (d_arrive _ _ d g seg' t'); [done | done | rewrite Es; by apply (same_fresh S (snd_end n) seg seg' Hsame) |]|].
    + by rewrite (datagram_received_eq _ _ _ _ Hdec), (same_received _ _ _ Hsame), Er.
    + by constructor.
  - eexists. split; [apply (d_read _ _ d len o out); [done | by rewrite Er]|]. constructor; simpl; congruence.
  - eexists. split; [apply (d_advertise _ _ d a); by rewrite Er|]. constructor; simpl; congruence.
Qed.
End simulation.

Lemma net_steps_rtc S n1 n2 n3 : net_steps S n1 n2 -> rtc (net_step S) n2 n3 -> net_steps S n1 n3.
Proof. intros H12 H23. revert n1 H12. induction H23 as [|a b c Hab _ IH]; intros n1 H1; [done|]. apply IH. by eapply net_steps_snoc. Qed.

Section reachable.
Context (S : bytes) (isn : WrappingInt32) (scap rcap rto ck : Z).
Context (ok : net_ok S isn scap rcap rto) (ck_ok : pseudo_ok ck).
Let start_net := net_init scap rcap rto isn.
Let start_dnet := dnet_init scap rcap rto isn.

Lemma typed_reachable n : net_steps S start_net n -> typed_net S isn n.
Proof.
  intros Hs. remember start_net as n0. induction Hs as [|n1 n2 n3 _ IH Hstep]; subst.
  - split; [by apply (net_init_inv S isn scap rcap rto) | by split | constructor].
  - eapply typed_step; [done | by apply IH].
Qed.

Lemma carries_init : carries ck start_net start_dnet.
Proof. by constructor. Qed.

Lemma dnet_refines d : dnet_steps S ck start_dnet d -> exists n, net_steps S start_net n /\ carries ck n d.
Proof.
  apply (rtc_ind_r (fun d => exists n, net_steps S start_net n /\ carries ck n d)).
  - exists start_net. split; [constructor | apply carries_init].
  - intros d1 d2 _ Hstep (n & Hn & Hc).
    destruct (dnet_simulated S isn ck ck_ok n d1 d2 (typed_reachable n Hn) Hc Hstep) as (n' & Hn' & Hc').
    exists n'. split; [by eapply net_steps_rtc | done].
Qed.

Lemma net_refines n : net_steps S start_net n -> exists d, dnet_steps S ck start_dnet d /\ carries ck n d.
Proof.
  intros Hs. remember start_net as n0. induction Hs as [|n1 n2 n3 H12 IH Hstep]; subst.
  - exists start_dnet. split; [constructor | apply carries_init].
  - destruct IH as (d & Hd & Hc); [done|].
    destruct (net_simulated S isn ck ck_ok n2 n3 d (typed_reachable n2 H12) Hc Hstep) as (d' & Hd' & Hc').
    exists d'. split; [by eapply rtc_r | done].
Qed.

(** Nothing that the sender put on the wire is rejected. *)
Lemma wire_accepted n d : net_steps S start_net n -> carries ck n d -> Forall (fun g => exists seg, decodes ck g seg) (d_wire d).
Proof.
  intros Hn Hc. apply Forall_forall. intros g [i Hi]%list_elem_of_lookup_1.
  destruct (Forall2_lookup_r _ _ _ _ _ (ca_wire _ _ _ Hc) Hi) as (seg & Hseg & Henc). apply list_elem_of_lookup_2 in Hseg.
  destruct (wire_decodes S isn ck ck_ok n g seg (typed_reachable n Hn) Hseg Henc) as (seg' & Hdec & _). by exists seg'.
Qed.
End reachable.

(** The first datagram of the connection of EndToEnd.v, and the same with one bit flipped. *)
Definition first_datagram : bytes :=
  match fill_window (snd_end demo_net) with
  | Ok s => match _segments_out s with
            | seg :: _ => match segment_serialize seg 99 with Ok l => concatenate l | _ => [] end
            | [] => []
            end
  | _ => []
  end.

Example first_datagram_accepted :
  zlen first_datagram = 20 /\ exists t, datagram_received 99 (rcv_end demo_net) first_datagram = Ok t /\ _syn t = true.
Proof. split; [reflexivity|]. eexists. split; vm_compute; reflexivity. Qed.

Example flipped_bit_damaged : damaged 99 (<[4%nat := byte.of_Z 254]> first_datagram).
Proof. eexists _, _. split; [vm_compute; reflexivity | done]. Qed.

(** * Properties *)

(** C4: the composition on bytes refines the composition on segments, and the other way
    round. In every state that the system of datagrams reaches, with losses, duplicates,
    reordering (within the lifetime of [2 ^ 31] sequence numbers) and damage, sender,
    receiver and delivered bytes are those of a state that the system of segments reaches,
    the datagrams on the wire are the serialized segments and each of them is accepted by
    [parse]; so what the application has read and can read is a prefix of the stream. And
    every state of the system of segments is reached with datagrams. *)
Theorem datagrams_refine_segments S isn scap rcap rto ck :
  net_ok S isn scap rcap rto -> pseudo_ok ck ->
  (forall d, dnet_steps S ck (dnet_init scap rcap rto isn) d ->
    (exists n, net_steps S (net_init scap rcap rto isn) n /\ carries ck n d) /\
    Forall (fun g => exists seg, decodes ck g seg) (d_wire d) /\
    d_delivered d ++ bts (stream_out (d_rcv d)) = slice S 0 (bytes_written (stream_out (d_rcv d)))) /\
  (forall n, net_steps S (net_init scap rcap rto isn) n ->
    exists d, dnet_steps S ck (dnet_init scap rcap rto isn) d /\ carries ck n d).
Proof.
  intros Hok Hck. split; [|by apply net_refines].
  intros d Hd. destruct (dnet_refines S isn scap rcap rto ck Hok Hck d Hd) as (n & Hn & Hc).
  split; [by exists n|]. split; [by apply (wire_accepted S isn scap rcap rto ck Hok Hck n)|].
  destruct Hc as [_ -> _ _ ->]. by apply (net_stream S isn), (net_reachable_inv S isn scap rcap rto).
Qed.

Lemma datagrams_refine_segments_witness :
  exists d, dnet_steps (str "abc") 99 (dnet_init 8 8 1000 {| raw_value := 2 ^ 32 - 1 |}) d /\
    d_delivered d = str "ab" /\ length (d_wire d) = 3%nat /\ Forall (fun g => exists seg, decodes 99 g seg) (d_wire d).
Proof.
  destruct (net_run (str "abc") demo_net demo_schedule) as [n|] eqn:E; [|vm_compute in E; discriminate].
  destruct (datagrams_refine_segments (str "abc") {| raw_value := 2 ^ 32 - 1 |} 8 8 1000 99 demo_ok ltac:(by_compute)) as [Hfwd Hback].
  destruct (Hback n (demo_reaches demo_schedule n E)) as (d & Hd & [_ _ Hw _ Hdel]). exists d. split; [exact Hd|].
  rewrite Hdel, <- (Forall2_length _ _ _ Hw). vm_compute in E. injection E as <-.
  split; [reflexivity|]. split; [reflexivity|]. apply (Hfwd d Hd).
Defined.
