(* ===== verification/Liveness.v ===== *)
(** Progress of the composition of EndToEnd.v. [live_inv] says of every reachable state that
    the first segment has at most one byte and no FIN, and that a receiver which accepted
    a SYN has that byte; so a retransmission makes progress in every state. A [round] is
    the schedule write, read, fill, expire, deliver, acknowledge; a [fair_run] has rounds
    with any steps between them, and enough rounds complete the connection. *)
From S2P Require Import Prelude StdMap WrappingIntegers ByteStream StreamReassembler Buffer TCPHeader TCPSegment TCPReceiver TCPSender TCPState EndToEnd.

(** * The invariant *)

(** The segments that exist: on the wire, in the queue and kept for retransmission. *)
Definition all_segments (n : net) : list TCPSegment :=
  wire n ++ _segments_out (snd_end n) ++ map snd (_segments_noack (snd_end n)).

(** A SYN comes with [d] bytes and without a FIN. *)
Definition syn_with (d : Z) (seg : TCPSegment) : Prop :=
  syn (header seg) = true -> fin (header seg) = false /\ zlen (seg_data seg) = d.

Record live_inv (cap : Z) (n : net) : Prop := {
  li_cap : b_size (stream_in (snd_end n)) = cap;
  li_error : ByteStream.error (stream_in (snd_end n)) = false;
  li_fresh : _next_seqno (snd_end n) = 0 -> _window (snd_end n) = 1;
  li_syn : exists d, 0 <= d <= 1 /\ Forall (syn_with d) (all_segments n) /\
    (synced (rcv_end n) = true -> d <= bytes_written (stream_out (rcv_end n)))
}.

(** * Rounds *)

(** The application offers what is left of the stream, or ends it. *)
Definition app_events (S : bytes) (n : net) : list event :=
  let w := bytes_written (stream_in (snd_end n)) in
  if input_ended (stream_in (snd_end n)) then []
  else if w =? zlen S then [EEnd] else [EWrite (zlen S - w)].

(** The first half of a round: the applications write and read and the sender fills its
    window. *)
Definition open_half (S : bytes) (n : net) : option net :=
  net_run S n (app_events S n ++ [EFill; ERead (buffer_size (stream_out (rcv_end n)))]).

(** The second half, if something is outstanding: the timer expires and the queue is sent,
    the last segment of which (the retransmitted one) arrives, and the receiver's
    acknowledgment arrives. *)
Definition flight_half (S : bytes) (n1 : net) : option net :=
  if negb (start (snd_end n1)) then Some n1 else
  n2 ← net_event S n1 (ETick (RTO (snd_end n1)));
  n3 ← net_run S n2 (replicate (length (_segments_out (snd_end n2))) EPop);
  n4 ← net_event S n3 (ESegment (pred (length (wire n3))));
  n5 ← net_event S n4 EAdvertise;
  net_event S n5 (EAck (length (adverts n4))).

Definition round (S : bytes) (n : net) : option net := n1 ← open_half S n; flight_half S n1.

(** A run with [k] rounds, between which anything may happen: losses, duplicates, delayed
    segments and acknowledgments, reads, writes and expiries. *)
Inductive fair_run (S : bytes) : nat -> net -> net -> Prop :=
| fair_rest n n' : net_steps S n n' -> fair_run S 0 n n'
| fair_round k n a b n' : net_steps S n a -> round S a = Some b -> fair_run S k b n' -> fair_run S (Datatypes.S k) n n'.

(** [k] rounds one after the other. *)
Fixpoint rounds (S : bytes) (k : nat) (n : net) : option net :=
  match k with
  | O => Some n
  | Datatypes.S k => n1 ← round S n; rounds S k n1
  end.

(** * Lemmas *)

(** ** What the operations on a stream keep *)

Lemma pop_loop_static k : forall b b', pop_loop k b = Ok b' -> b_size b' = b_size b /\ ByteStream._error b' = ByteStream._error b.
Proof.
  induction k as [|k IH]; simpl; intros b b' E; [by inv_outcome|].
  apply bind_ok_inv in E as (b1 & E1 & E2). unfold pop_front in E1. destruct (bts b); [done|]. inv_outcome.
  by apply IH in E2.
Qed.

Lemma read_static b len d b' : ByteStream.read b len = Ok (d, b') -> b_size b' = b_size b /\ ByteStream._error b' = ByteStream._error b.
Proof.
  unfold ByteStream.read. intros E. apply bind_ok_inv in E as (str & _ & E). apply bind_ok_inv in E as (b1 & E1 & E).
  inv_outcome. by eapply pop_loop_static.
Qed.

Lemma write_loop_static k : forall data b,
  b_size (write_loop k data b) = b_size b /\ ByteStream._error (write_loop k data b) = ByteStream._error b.
Proof. induction k as [|k IH]; intros [|c data] b; simpl; try done. apply (IH data (push_back b c)). Qed.

Lemma local_static S s o s' :
  local_step S s o s' ->
  b_size (stream_in s') = b_size (stream_in s) /\ ByteStream.error (stream_in s') = ByteStream.error (stream_in s) /\
  _window s' = _window s.
Proof.
  destruct 1 as [s data ? ? | s ? | s s' E | s ms ? | s | s seg q ?]; try done.
  - cbn. destruct (write_loop_static (Z.to_nat (if remaining_capacity (stream_in s) <? zlen data then
      remaining_capacity (stream_in s) else zlen data)) data (stream_in s)). done.
  - revert E. apply (fill_window_preorder (fun s s' => b_size (stream_in s') = b_size (stream_in s) /\
      ByteStream.error (stream_in s') = ByteStream.error (stream_in s) /\ _window s' = _window s)); try done.
    + intros s1 s2 s3 (? & ? & ?) (? & ? & ?). split; [congruence|]. split; congruence.
    + intros s1 len d b []%read_static. done.
  - unfold tick. repeat case_if; done.
Qed.

(** ** SYN segments *)

Section live.
Context (S : bytes) (isn : WrappingInt32) (cap : Z).
Implicit Types (s : TCPSender) (n : net).

(** Before anything is sent there are no segments. *)
Lemma nothing_sent n : net_inv S isn n -> _next_seqno (snd_end n) = 0 -> Forall (fun seg => syn (header seg) = false) (all_segments n).
Proof.
  intros Hn H0. pose proof (ni_snd _ _ _ Hn) as Hs.
  assert (forall seg, queued S isn (_next_seqno (snd_end n)) seg -> syn (header seg) = false) as Hno.
  { intros seg [(b & Hseg & Hb) | [Hbare _]]; [|apply Hbare]. rewrite H0 in Hb. destruct (syn (header seg)) eqn:Es; [|done].
    unfold seg_len in Hb. rewrite Es in Hb. pose proof (sa_pos _ _ _ _ Hseg). pose proof (zlen_nonneg (seg_data seg)).
    case_if_in Hb; lia. }
  unfold all_segments. apply Forall_app. split; [eapply Forall_impl; [apply Hn | done]|]. apply Forall_app.
  split; [eapply Forall_impl; [apply (si_out _ _ _ Hs) | done]|].
  destruct (si_noack _ _ _ Hs) as (b & Hb & Hc). rewrite H0 in Hc. apply chain_bound in Hc as [_ Hall].
  destruct (_segments_noack (snd_end n)) as [|e m]; [constructor|]. apply Forall_inv in Hall. lia.
Qed.

(** Where the segments of the sender come from, once the SYN was sent: none is a new SYN. *)
Lemma local_old_syn s o s' :
  snd_inv S isn s -> _next_seqno s <> 0 -> local_step S s o s' ->
  forall seg, seg ∈ o ++ _segments_out s' ++ map snd (_segments_noack s') -> syn (header seg) = true ->
    seg ∈ _segments_out s ++ map snd (_segments_noack s).
Proof.
  intros Hs H0 Hstep seg. destruct Hstep as [s data ? ? | s ? | s s' E | s ms ? | s | s seg0 q Eq]; try done.
  - destruct (fill_window_spec S isn s Hs) as (s1 & m & E1 & Hf & _). rewrite E in E1. inv_outcome.
    rewrite (fs_out _ _ _ _ _ Hf), (fs_noack _ _ _ _ _ Hf), map_app. simpl. rewrite !elem_of_app.
    assert (seg ∈ map snd m -> syn (header seg) = false) as Hnew.
    { intros Hin. apply list_elem_of_fmap in Hin as (e & -> & He).
      assert (forall b e0, 0 < b -> chain S isn b m e0 -> syn (header e.2) = false) as Hc; [|eapply Hc, (fs_chain _ _ _ _ _ Hf)].
      - clear -He. induction m as [|[k sg] m IH]; [by apply elem_of_nil in He|]. intros b e0 Hb (Hseg & -> & Hlt & Hc).
        apply elem_of_cons in He as [-> | He]; [simpl; rewrite (sa_syn _ _ _ _ Hseg); lia|]. eapply IH; [done | | exact Hc]. lia.
      - pose proof (si_ack _ _ _ Hs). lia. }
    intros Hin Hsy. destruct Hin as [[? | ?%Hnew] | [? | ?%Hnew]]; [by left | congruence | by right | congruence].
  - unfold tick. repeat case_if; try done. unfold expire. cbn [_segments_out _segments_noack]. simpl app.
    destruct (_segments_noack s) as [|[k sg] m]; [done|]. rewrite !elem_of_app. simpl. rewrite !elem_of_cons, elem_of_nil. tauto.
  - cbn [send_empty_segment sender_set_out _segments_out _segments_noack]. simpl app.
    rewrite <- app_assoc. rewrite !elem_of_app. intros [? | [Hin | ?]] Hsy; [by left | | by right].
    apply elem_of_cons in Hin as [-> | []%elem_of_nil]. discriminate Hsy.
  - rewrite Eq. cbn [sender_set_out _segments_out _segments_noack]. simpl. done.
Qed.

(** The first call of [fill_window]: one segment, with the SYN, at most one byte and no
    FIN. *)
Lemma first_fill s s' :
  snd_inv S isn s -> _next_seqno s = 0 -> _window s = 1 -> fill_window s = Ok s' ->
  exists seg k, _segments_out s' = _segments_out s ++ [seg] /\ _segments_noack s' = _segments_noack s ++ [(k, seg)] /\
    fin (header seg) = false /\ zlen (seg_data seg) <= 1.
Proof.
  intros Hs H0 Hw E. pose proof (si_ack _ _ _ Hs). destruct (next_bounds S isn s Hs) as (_ & _ & _ & Hr & _).
  assert (window_right s = 1) as Hr1 by lia.
  assert (fin_send s = false) as Hf by (destruct (fin_send s) eqn:Ef; [by destruct (si_fin _ _ _ Hs Ef)|done]).
  unfold fill_window in E. rewrite Hf, H0, Hr1 in E. change (Z.to_nat (1 - 0)) with 1%nat in E. cbn [fill_loop] in E.
  rewrite H0 in E. change (0 <? 1) with true in E. cbv iota in E.
  destruct (build_segment_spec S isn s Hs Hf) as (seg & b & Eb & Hb); [lia|]. rewrite Hr1 in *. rewrite Eb in E.
  destruct (seg_len_built S isn s 1 seg b Hb) as [El Hl]. rewrite El in E.
  rewrite H0 in Hl. simpl in Hl. pose proof (zlen_nonneg (seg_data seg)).
  assert (0 < seg_len seg) as Hpos by (destruct (fin (header seg)); simpl in Hl; lia).
  replace (0 <? seg_len seg) with true in E by lia.
  assert ((_next_seqno (send_segment (sender_set_in s b) seg) <? 1) = false) as Hstop.
  { cbn [send_segment _next_seqno sender_set_in]. rewrite H0, El, to_u64_small; pose proof (sa_len _ _ _ _ (bu_seg _ _ _ _ _ _ Hb)); unfold MAX_PAYLOAD_SIZE in *; lia. }
  rewrite Hstop in E. inv_outcome.
  rewrite <- Hr1 in Hb. destruct (send_segment_inv S isn s seg b Hs Hf Hb Hpos) as (_ & _ & Hno).
  exists seg, (_next_seqno s + seg_len seg). split; [done|]. split; [exact Hno|].
  rewrite (bu_fin _ _ _ _ _ _ Hb), (bu_size _ _ _ _ _ _ Hb) in *. rewrite H0, Hr1 in *. simpl Z.b2z.
  pose proof (zlen_nonneg (bts (_stream s))). unfold buffer_size in *. split; [|lia].
  replace (0 + Z.min (Z.min MAX_PAYLOAD_SIZE (1 - 0)) (zlen (bts (_stream s))) + 1 <? 1) with false
    by (unfold MAX_PAYLOAD_SIZE; lia). apply andb_false_r.
Qed.

(** A step of the sender keeps the SYNs. *)
Lemma local_syn n o s' :
  net_inv S isn n -> live_inv cap n -> local_step S (snd_end n) o s' ->
  exists d, 0 <= d <= 1 /\ Forall (syn_with d) (all_segments (at_sender n o s')) /\
    (synced (rcv_end n) = true -> d <= bytes_written (stream_out (rcv_end n))).
Proof.
  intros Hn Hl Hstep. pose proof (ni_snd _ _ _ Hn) as Hs. destruct (li_syn _ _ Hl) as (d & Hd & Hall & Hsy).
  unfold all_segments, at_sender in *. cbn [wire snd_end]. rewrite <- app_assoc.
  destruct (decide (_next_seqno (snd_end n) = 0)) as [H0|H0].
  - pose proof (nothing_sent n Hn H0) as Hnone.
    assert (synced (rcv_end n) = false) as Hns
      by (destruct (synced (rcv_end n)) eqn:E; [pose proof (bh_syn _ _ (ni_behind _ _ _ Hn) E); lia | done]).
    assert (forall seg, seg ∈ all_segments n -> forall d', syn_with d' seg) as Hold
      by (intros seg Hin d' Hsyn; rewrite Forall_forall in Hnone; rewrite Hnone in Hsyn by done; done).
    unfold all_segments in Hold. pose proof (li_fresh _ _ Hl) as Hfr.
    destruct Hstep as [s data ? ? | s ? | s s' E | s ms ? | s | s seg0 q Eq]; try (by exists d).
    + destruct (first_fill s s' Hs H0 (Hfr H0) E) as (seg & k & Ho & Hno & Hfin & Hz).
      exists (zlen (seg_data seg)). pose proof (zlen_nonneg (seg_data seg)). split; [lia|]. split; [|by rewrite Hns].
      apply Forall_forall. intros seg' Hin. rewrite Ho, Hno, map_app in Hin. simpl in Hin.
      rewrite !elem_of_app, !elem_of_cons, elem_of_nil in Hin.
      assert (seg' = seg \/ seg' ∈ wire n ++ _segments_out s ++ map snd (_segments_noack s)) as [-> | Hin']
        by (rewrite !elem_of_app; tauto); [done | by apply Hold].
    + exists d. split; [done|]. split; [|done]. unfold tick. pose proof (si_start _ _ _ Hs) as Hst.
      pose proof (si_ack _ _ _ Hs). replace (ack_s s =? _next_seqno s) with true in Hst by lia. rewrite Hst. done.
    + exists d. split; [done|]. split; [|done]. simpl app. cbn [send_empty_segment sender_set_out _segments_out _segments_noack].
      rewrite !Forall_app in Hall |- *. destruct Hall as (? & ? & ?). split; [done|]. split; [|done]. apply Forall_app. split; [done|].
      by constructor.
    + exists d. split; [done|]. split; [|done]. rewrite Eq in Hall. done.
  - exists d. split; [done|]. split; [|done]. apply Forall_app in Hall as [Hw Hrest]. apply Forall_app. split; [done|].
    apply Forall_forall. intros seg Hin Hsyn. rewrite Forall_forall in Hrest. apply Hrest; [|done].
    by eapply local_old_syn.
Qed.

(** A receiver that accepts a SYN keeps its byte: its window is open then. *)
Lemma syn_byte n seg b d t' :
  net_inv S isn n -> seg_at S isn seg b -> rcv_spec S isn (rcv_end n) seg (index_at b) t' -> 0 <= d <= 1 ->
  syn_with d seg -> (synced (rcv_end n) = true -> d <= bytes_written (stream_out (rcv_end n))) ->
  synced t' = true -> d <= bytes_written (stream_out t').
Proof.
  intros Hn Hseg Hspec Hd Hwith Hold Hsync. pose proof (ni_rcv _ _ _ Hn) as Ht. pose proof (rs_mono _ _ _ _ _ _ Hspec) as [Hmono _].
  destruct (synced (rcv_end n)) eqn:Es; [specialize (Hold eq_refl); lia|].
  rewrite (rs_synced _ _ _ _ _ _ Hspec), Es in Hsync. simpl in Hsync. destruct (Hwith Hsync) as [_ Hz].
  pose proof (sa_syn _ _ _ _ Hseg) as Hsyn. assert (b = 0) as -> by lia. unfold index_at in Hspec. simpl in Hspec.
  assert (_syn (rcv_end n) = false) as Hns by (unfold synced in Es; by destruct (_syn (rcv_end n))).
  pose proof (rs_inv _ _ _ _ _ _ Hspec) as Ht'. destruct (rcv_bounds S isn t' Ht') as (Hw' & Hb' & _).
  destruct (decide (d = 0)); [lia|]. rewrite Hw'.
  enough (0 < write_ptr (_reassembler t')) by lia. apply (first_missing S); [apply Ht' | lia |]. intros j Hj.
  apply (rs_known _ _ _ _ _ _ Hspec); [by rewrite Hsync, orb_true_r | by rewrite Hns, andb_false_r | lia|]. right.
  destruct (rcv_bounds S isn _ Ht) as (_ & _ & _ & _ & Hcap & _). pose proof (rv_pos _ _ _ Ht).
  fold (seg_data seg). lia.
Qed.

Lemma live_init rcap rto : live_inv cap (net_init cap rcap rto isn).
Proof. constructor; try done. exists 0. split; [lia|]. split; [constructor | done]. Qed.

Lemma live_step n n' : net_inv S isn n -> live_inv cap n -> net_step S n n' -> live_inv cap n'.
Proof.
  intros Hn Hl Hstep. pose proof Hn as [Hfl Hs Ht Hw Hb Hre Had Hack Hdel].
  destruct Hstep as [n o s' Hloc | n e Hin _ | n seg t' Hin Hfr E | n len o out Hlen E | n a Ha].
  - destruct (local_static S _ _ _ Hloc) as (Hc & He & Hwin). pose proof (sstep_mono S isn _ _ _ Hs (sstep_local S _ _ _ Hloc)) as (_ & Hmono & _).
    constructor; cbn [snd_end rcv_end wire].
    + rewrite Hc. apply Hl.
    + rewrite He. apply Hl.
    + intros H0. rewrite Hwin. apply Hl. pose proof (si_ack _ _ _ Hs). lia.
    + by apply local_syn.
  - rewrite Forall_forall in Had. destruct (Had _ Hin) as [_ _ Hk]. set (a := adv_ackno e). set (w := adv_window e).
    pose proof (received_le S isn _ _ Hs Ht Hb).
    destruct (li_syn _ _ Hl) as (d & Hd & Hall & Hsy).
    assert (stream_in (ack_received (snd_end n) a w) = stream_in (snd_end n) /\
      _next_seqno (ack_received (snd_end n) a w) = _next_seqno (snd_end n)) as [Ein Enx]
      by (unfold ack_received; repeat case_if; done).
    constructor; cbn [snd_end rcv_end wire].
    + rewrite Ein. apply Hl.
    + rewrite Ein. apply Hl.
    + rewrite Enx. lia.
    + exists d. split; [done|]. split; [|done]. unfold all_segments in *. cbn [snd_end wire].
      apply Forall_app in Hall as [? Hall]. apply Forall_app in Hall as [? Hall]. apply Forall_app. split; [done|]. apply Forall_app.
      split; [unfold ack_received; repeat case_if; done|].
      unfold ack_received. case_if; [done|]. case_if; [|done]. cbn [update_window advance_ack _segments_noack].
      apply Forall_forall. intros seg [x [-> Hx]]%list_elem_of_fmap. apply list_elem_of_In, filter_In in Hx as [Hx _].
      rewrite Forall_forall in Hall. apply Hall, list_elem_of_fmap. exists x. split; [done | by apply list_elem_of_In].
  - destruct (li_syn _ _ Hl) as (d & Hd & Hall & Hsy). destruct Hl. constructor; cbn [snd_end rcv_end wire]; try done.
    exists d. split; [done|]. split; [done|]. intros Hsync'. destruct Hfr as [(b & Hseg & Hk) | Hbare].
    + rewrite (si_isn _ _ _ Hs) in Hseg.
      destruct (arrival S isn n seg b Hn Hseg Hk) as (t1 & E1 & Hspec & _). rewrite E in E1. inv_outcome.
      apply (syn_byte n seg b d); try done. rewrite Forall_forall in Hall. apply Hall. unfold all_segments. rewrite elem_of_app. by left.
    + destruct (bare_arrival S isn n seg Hn Hbare) as (t1 & E1 & Hspec & _). rewrite E in E1. inv_outcome.
      rewrite (rs_synced _ _ _ _ _ _ Hspec), (br_syn _ Hbare), orb_false_r in Hsync'.
      specialize (Hsy Hsync'). destruct (rs_mono _ _ _ _ _ _ Hspec). lia.
  - destruct (receiver_read_spec S isn _ len o out Ht Hlen E) as (_ & _ & _ & Hwr & Hen). destruct Hl as [? ? ? (d & Hd & Hall & Hsy)].
    assert (synced (receiver_set_out (rcv_end n) out) = synced (rcv_end n)) as Esy.
    { unfold synced, ended. change (stream_out (receiver_set_out (rcv_end n) out)) with out. by rewrite Hen. }
    constructor; cbn [snd_end rcv_end wire]; rewrite ?Esy; try done. exists d. split; [done|]. split; [done|].
    change (stream_out (receiver_set_out (rcv_end n) out)) with out. by rewrite Hwr.
  - destruct Hl. constructor; done.
Qed.

Lemma live_reachable rcap rto n :
  net_ok S isn cap rcap rto -> net_steps S (net_init cap rcap rto isn) n -> net_inv S isn n /\ live_inv cap n.
Proof.
  intros Hok Hst. remember (net_init cap rcap rto isn) as n0 eqn:E0. induction Hst as [n | n n' n'' _ IH Hstep].
  - subst n. split; [by apply net_init_inv | by apply live_init].
  - destruct (IH E0) as [Hn Hl]. split; [by eapply net_step_inv | by eapply live_step].
Qed.

(** ** Runs *)

Lemma net_steps_one n n' : net_step S n n' -> net_steps S n n'.
Proof. intros H. eapply net_steps_snoc; [constructor | done]. Qed.

Lemma net_steps_trans n1 n2 n3 : net_steps S n1 n2 -> net_steps S n2 n3 -> net_steps S n1 n3.
Proof.
  intros H12 H23. revert H12. induction H23 as [|n n' n'' _ IH Hstep]; intros H12; [done|].
  eapply net_steps_snoc; [by apply IH | exact Hstep].
Qed.

Lemma steps_inv n n' : net_steps S n n' -> net_inv S isn n -> live_inv cap n -> net_inv S isn n' /\ live_inv cap n'.
Proof.
  induction 1 as [|n n' n'' _ IH Hstep]; [done|]. intros Hn Hl. destruct (IH Hn Hl) as [Hn' Hl'].
  split; [by eapply net_step_inv | by eapply live_step].
Qed.

(** The network does nothing in an event. *)
Definition no_arrival (e : event) : Prop := match e with EAck _ | ESegment _ => False | _ => True end.

Lemma event_step n e n' : no_arrival e -> net_event S n e = Some n' -> net_step S n n'.
Proof. intros He. apply net_event_step. by destruct e. Qed.

Lemma run_steps es : forall n n', Forall no_arrival es -> net_run S n es = Some n' -> net_steps S n n'.
Proof.
  induction es as [|e es IH]; simpl; intros n n' Hall E; [injection E as <-; constructor|].
  apply Forall_cons in Hall as [He Hall]. destruct (net_event S n e) as [n1|] eqn:Ee; [|done].
  eapply net_steps_trans; [eapply net_steps_one, event_step; done | by apply IH].
Qed.

Lemma app_no_arrival n : Forall no_arrival (app_events S n).
Proof. unfold app_events. repeat case_if; repeat constructor. Qed.

Lemma pops_no_arrival k : Forall no_arrival (replicate k EPop).
Proof. by apply Forall_replicate. Qed.

Lemma net_run_app n es1 es2 : net_run S n (es1 ++ es2) = (n1 ← net_run S n es1; net_run S n1 es2).
Proof. revert n. induction es1 as [|e es1 IH]; intros n; simpl; [done|]. by destruct (net_event S n e). Qed.

(** The queue is sent. *)
Lemma pop_all q : forall n,
  _segments_out (snd_end n) = q ->
  net_run S n (replicate (length q) EPop) = Some (at_sender n q (sender_set_out (snd_end n) [])).
Proof.
  induction q as [|seg q IH]; intros n Eq.
  - simpl. f_equal. destruct n as [s t w a d]. unfold at_sender. simpl in *. rewrite app_nil_r. f_equal. destruct s. simpl in *. by subst.
  - cbn [length replicate net_run net_event]. rewrite Eq.
    rewrite (IH (at_sender n [seg] (sender_set_out (snd_end n) q)) eq_refl). unfold at_sender. simpl. by rewrite <- app_assoc.
Qed.

(** The application reads all there is: the window is open then. *)
Lemma read_all n :
  net_inv S isn n -> exists n', net_event S n (ERead (buffer_size (stream_out (rcv_end n)))) = Some n' /\
    snd_end n' = snd_end n /\ 0 < window_size (rcv_end n') /\
    bts (stream_out (rcv_end n')) = [] /\ ended (rcv_end n') = ended (rcv_end n) /\
    bytes_written (stream_out (rcv_end n')) = bytes_written (stream_out (rcv_end n)).
Proof.
  intros Hn. pose proof (ni_rcv _ _ _ Hn) as Ht. pose proof (ri_out _ _ (rv_reasm _ _ _ Ht)) as Ho.
  pose proof (zlen_nonneg (bts (stream_out (rcv_end n)))) as Hz.
  destruct (out_inv_read S _ _ _ (buffer_size (stream_out (rcv_end n))) Ho Hz) as (out & Er & Ho' & Hr & He & _).
  rewrite Z.min_id in *. destruct (receiver_read_spec S isn _ _ _ _ Ht Hz Er) as (Ht' & _ & _ & Hwr & Hen).
  assert (bts out = []) as Hb.
  { rewrite (oi_bytes _ _ _ _ Ho'), Hr. apply slice_nil. unfold buffer_size, stream_out.
    rewrite (oi_bytes _ _ _ _ Ho), zlen_slice; destruct Ho; lia. }
  cbn [net_event]. replace (0 <=? buffer_size (stream_out (rcv_end n))) with true by (unfold buffer_size; lia).
  fold (stream_out (rcv_end n)) in Er. rewrite Er. eexists. split; [done|].
  cbn [snd_end rcv_end]. split; [done|]. destruct (window_size_eq S isn _ Ht') as [Hw _].
  change (stream_out (receiver_set_out (rcv_end n) out)) with out in *. unfold ended.
  change (stream_out (receiver_set_out (rcv_end n) out)) with out. split; [|done].
  rewrite Hw. unfold buffer_size. rewrite Hb. change (zlen (@nil Init.Byte.byte)) with 0. pose proof (rv_pos _ _ _ Ht'). simpl in *. lia.
Qed.

(** No step takes an acknowledgment back. *)
Lemma ack_mono n n' : net_inv S isn n -> net_steps S n n' -> ack_s (snd_end n) <= ack_s (snd_end n').
Proof.
  intros Hn. induction 1 as [|n n' n'' Hst IH Hstep]; [lia|]. specialize (IH Hn).
  pose proof (net_steps_inv S isn _ _ Hst Hn) as Hn'. pose proof (ni_snd _ _ _ Hn') as Hs.
  enough (ack_s (snd_end n') <= ack_s (snd_end n'')) by lia. destruct Hstep as [n' o s' Hloc | n' e _ | | |]; simpl; try lia.
  - pose proof (local_keeps_ack S isn _ _ _ Hs Hloc). lia.
  - unfold ack_received. repeat case_if; simpl; lia.
Qed.

(** ** Progress *)

(** The oldest outstanding segment, at the receiver with an open window: what it then
    acknowledges is new to the sender. *)
Lemma retransmission_helps n :
  net_inv S isn n -> live_inv cap n -> start (snd_end n) = true -> 0 < window_size (rcv_end n) ->
  exists k seg m t', _segments_noack (snd_end n) = (k, seg) :: m /\ fresh S (snd_end n) seg /\
    segment_received (rcv_end n) seg = Ok t' /\ ack_s (snd_end n) < in_order t' /\ receiver_ackno t' = Some (wrap (in_order t') isn) /\
    rcv_inv S isn t' /\ behind (snd_end n) t'.
Proof.
  intros Hn Hl Est Hwin. pose proof (ni_snd _ _ _ Hn) as Hs.
  destruct (oldest_unacked S isn _ Hs Est) as (b & k & seg & m & Em & Hseg & -> & Hb & Hk).
  pose proof (ni_flight _ _ _ Hn). pose proof (sa_len _ _ _ _ Hseg) as Hlen.
  assert (b + seg_len seg <= _next_seqno (snd_end n) < b + 2 ^ 31) as Hfr by (unfold MAX_PAYLOAD_SIZE in Hlen; lia).
  destruct (arrival S isn n seg b Hn Hseg Hfr) as (t' & E & Hspec & Hbeh). pose proof (in_order_mono S isn _ _ _ _ Hspec) as Hmono.
  exists (b + seg_len seg), seg, m, t'. split; [done|]. split; [left; exists b; by rewrite (si_isn _ _ _ Hs)|]. split; [done|].
  pose proof (ni_acked _ _ _ Hn) as Hack. pose proof (rs_inv _ _ _ _ _ _ Hspec) as Ht'.
  assert (ack_s (snd_end n) < in_order t') as Hlt.
  { destruct (decide (ack_s (snd_end n) = in_order (rcv_end n))) as [Heq|]; [|lia].
    destruct (syn (header seg) && _syn (rcv_end n)) eqn:Edup; [|by eapply (oldest_helps S isn n b seg t')].
    apply andb_true_iff in Edup as [Hsy Hrs]. destruct (li_syn _ _ Hl) as (d & Hd & Hall & Hold).
    rewrite Forall_forall in Hall. destruct (Hall seg) as [Hfin Hz]; [|done|].
    { unfold all_segments. rewrite Em, !elem_of_app. right. right. left. }
    pose proof (sa_syn _ _ _ _ Hseg) as Hb0. rewrite Hsy in Hb0. assert (b = 0) as -> by lia.
    assert (synced (rcv_end n) = true) as Hsync by (unfold synced; by rewrite Hrs). specialize (Hold Hsync).
    unfold in_order in Heq. rewrite Hsync in Heq. unfold received in Heq. unfold seg_len in Hb. rewrite Hsy, Hfin in Hb.
    case_if_in Heq; lia. }
  split; [done|]. pose proof (si_ack _ _ _ Hs).
  assert (synced t' = true) as Hsy by (unfold in_order in Hlt; destruct (synced t'); [done | lia]).
  destruct (in_order_pos S isn t' Ht' Hsy) as [Hio _]. split; [|done]. unfold receiver_ackno. by rewrite (rv_ack _ _ _ Ht'), Hsy, Hio.
Qed.

(** The segment that an expiry retransmits is the last one of the wire when the queue is
    empty again. *)
Lemma expiry_sends n k seg m :
  net_inv S isn n -> start (snd_end n) = true -> _segments_noack (snd_end n) = (k, seg) :: m ->
  exists n', (n2 ← net_event S n (ETick (RTO (snd_end n)));
      net_run S n2 (replicate (length (_segments_out (snd_end n2))) EPop)) = Some n' /\
    net_steps S n n' /\ wire n' !! pred (length (wire n')) = Some seg /\ rcv_end n' = rcv_end n /\ adverts n' = adverts n /\
    snd_end n' = sender_set_out (expire (snd_end n)) [].
Proof.
  intros Hn Est Em. pose proof (si_rto _ _ _ (ni_snd _ _ _ Hn)). set (s := snd_end n) in *.
  assert (net_event S n (ETick (RTO s)) = Some (at_sender n [] (expire s))) as E2.
  { cbn [net_event]. replace ((0 <=? RTO s) && (RTO s <? 2 ^ 64)) with true by lia. do 2 f_equal. fold s.
    unfold tick. rewrite Est. cbn [negb]. by rewrite Z.leb_refl. }
  rewrite E2. cbn [mbind option_bind]. set (n2 := at_sender n [] (expire s)). pose proof (pop_all _ n2 eq_refl) as E3. rewrite E3.
  eexists. split; [done|]. split; [|split; [|done]].
  - eapply net_steps_trans; [by eapply net_steps_one, event_step, E2 | by eapply run_steps, E3; apply pops_no_arrival].
  - change (wire (at_sender n2 _ _)) with ((wire n ++ []) ++ _segments_out (expire s)). unfold expire. cbn [_segments_out].
    rewrite Em, app_nil_r, app_assoc, length_app, Nat.add_1_r. simpl pred. by rewrite lookup_app_r, Nat.sub_diag by lia.
Qed.

(** The second half of a round, with something in flight and an open window: the
    acknowledged number goes further. *)
Lemma flight_advances n :
  net_inv S isn n -> live_inv cap n -> start (snd_end n) = true -> 0 < window_size (rcv_end n) ->
  exists n', flight_half S n = Some n' /\ net_steps S n n' /\ ack_s (snd_end n) < ack_s (snd_end n').
Proof.
  intros Hn Hl Est Hwin. pose proof (ni_snd _ _ _ Hn) as Hs. pose proof (ni_flight _ _ _ Hn).
  destruct (retransmission_helps n Hn Hl Est Hwin) as (k & seg & m & t' & Em & Hfr & Eseg & Hlt & Hackno & Ht' & Hbeh).
  destruct (expiry_sends n k seg m Hn Est Em) as (n3 & (n2 & E2 & E3)%bind_Some & Hst3 & Hlast & Er3 & Ea3 & Es3).
  unfold flight_half. rewrite Est. cbn [negb]. rewrite E2. cbn [mbind option_bind]. rewrite E3. cbn [mbind option_bind].
  set (n4 := {| snd_end := snd_end n3; rcv_end := t'; wire := wire n3; adverts := adverts n3; delivered := delivered n3 |}).
  assert (net_event S n3 (ESegment (pred (length (wire n3)))) = Some n4) as E4 by (cbn [net_event]; by rewrite Hlast, Er3, Eseg).
  rewrite E4. cbn [mbind option_bind].
  set (n5 := {| snd_end := snd_end n4; rcv_end := t'; wire := wire n4;
    adverts := adverts n4 ++ [advertise t' (wrap (in_order t') isn)]; delivered := delivered n4 |}).
  assert (net_event S n4 EAdvertise = Some n5) as E5 by (cbn [net_event rcv_end n4]; by rewrite Hackno).
  rewrite E5. cbn [mbind option_bind]. pose proof (received_le S isn _ _ Hs Ht' Hbeh) as Hle. pose proof (si_ack _ _ _ Hs).
  assert (adverts n5 !! length (adverts n4) = Some (advertise t' (wrap (in_order t') isn))) as Hadv
    by (cbn [adverts n5]; by rewrite lookup_app_r, Nat.sub_diag by lia).
  assert (fresh_ack (snd_end n5) (advertise t' (wrap (in_order t') isn))) as Hfa.
  { unfold fresh_ack. cbn [snd_end n5 n4 advertise adv_in_order]. rewrite Es3. simpl. lia. }
  eexists. split; [cbn [net_event]; by rewrite Hadv|]. split.
  - eapply net_steps_snoc; [eapply net_steps_snoc; [eapply net_steps_snoc; [exact Hst3|]|]|].
    + eapply net_event_step, E4. intros seg' E. rewrite Hlast in E. injection E as <-. by rewrite Es3.
    + by eapply net_event_step, E5.
    + apply net_ack; [by eapply list_elem_of_lookup_2 | done].
  - cbn [snd_end n5 n4]. rewrite Es3. rewrite (ack_received_ack _ _ (in_order t')); [simpl; lia | | simpl; lia].
    apply (ack_of_advert S isn (snd_end n) t'); done || lia.
Qed.

(** ** Something can be sent *)

(** There is something for [fill_window] to send: the SYN, a byte or the FIN. *)
Definition ready s : Prop :=
  _next_seqno s = 0 \/ buffer_size (stream_in s) <> 0 \/ input_ended (stream_in s) = true.

(** What the application does makes the sender ready. *)
Lemma app_ready n :
  net_inv S isn n -> live_inv cap n -> 0 < cap ->
  exists n', net_run S n (app_events S n) = Some n' /\ ready (snd_end n') /\ ack_s (snd_end n') = ack_s (snd_end n) /\
    _next_seqno (snd_end n') = _next_seqno (snd_end n) /\ fin_send (snd_end n') = fin_send (snd_end n) /\ rcv_end n' = rcv_end n.
Proof.
  intros Hn Hl Hpos. pose proof (ni_snd _ _ _ Hn) as Hs. pose proof (si_stream _ _ _ Hs) as Ho. unfold app_events.
  set (s := snd_end n) in *. destruct (input_ended (stream_in s)) eqn:Hend.
  { exists n. split; [done|]. split; [right; right; done | done]. }
  set (w := bytes_written (stream_in s)). pose proof (oi_in _ _ _ _ Ho) as HwS. pose proof (oi_read _ _ _ _ Ho) as Hr.
  fold (stream_in s) w in HwS, Hr, Ho. destruct (w =? zlen S) eqn:Hw; cbn [net_run net_event]; fold s w; try rewrite Hw.
  - eexists. split; [done|]. split; [right; right; done | done].
  - rewrite Hend. replace ((0 <=? w) && (0 <=? zlen S - w) && (w + (zlen S - w) <=? zlen S) && negb false) with true by lia.
    eexists. split; [done|]. split; [|done]. right. left. cbn [at_sender snd_end]. change (stream_in (sender_set_in s ?b)) with b.
    replace (w + (zlen S - w)) with (zlen S) by lia. pose proof (li_cap _ _ Hl) as Hcap. fold s in Hcap.
    destruct (out_inv_write_some S _ (stream_in s) w (zlen S) Ho) as (Ho' & Hr' & _); [lia | lia |].
    unfold buffer_size. rewrite (oi_bytes _ _ _ _ Ho'), Hr', zlen_slice by lia. lia.
Qed.

(** A ready sender with nothing in flight sends. *)
Lemma ready_sends s :
  snd_inv S isn s -> ready s -> fin_send s = false -> ack_s s = _next_seqno s ->
  exists s', fill_window s = Ok s' /\ ack_s s' = ack_s s /\ start s' = true.
Proof.
  intros Hs Hready Hfin Hack. destruct (fill_window_spec S isn s Hs) as (s' & m & E & Hf & Hfilled & _).
  exists s'. split; [done|]. pose proof (fs_ack _ _ _ _ _ Hf) as Ha. split; [done|].
  pose proof (fs_inv _ _ _ _ _ Hf) as Hs'. rewrite (si_start _ _ _ Hs'), Ha, Hack.
  pose proof (chain_bound S isn _ _ _ (fs_chain _ _ _ _ _ Hf)) as [Hle _].
  destruct (_next_seqno s =? _next_seqno s') eqn:Eq; [exfalso | done].
  assert (_next_seqno s' = _next_seqno s) as Hnx by lia. pose proof (si_ack _ _ _ Hs).
  assert (fin_send s' = false) as Hfin'.
  { destruct (fin_send s') eqn:Ef; [|done]. destruct (fin_all_sent S isn s' Hs' Ef) as [Hrd Hall].
    destruct (next_bounds S isn s Hs) as (? & ? & _). pose proof (si_next _ _ _ Hs) as Hx. rewrite Hfin in Hx. case_if_in Hx; lia. }
  destruct Hfilled as [? | [Hw | (Hne & Hemp & Hopen)]]; [congruence | |].
  - destruct (next_bounds S isn s' Hs') as (_ & _ & _ & Hr & _). pose proof (si_window _ _ _ Hs'). lia.
  - pose proof (si_next _ _ _ Hs) as Hx. pose proof (si_next _ _ _ Hs') as Hx'. rewrite Hfin in Hx. rewrite Hfin' in Hx'.
    assert (bytes_read (_stream s') = bytes_read (_stream s)) as Hrd by (case_if_in Hx; case_if_in Hx'; lia).
    destruct (fs_stream _ _ _ _ _ Hf) as [Hwr Hend]. apply buffer_empty_spec in Hemp.
    destruct Hready as [? | [Hbuf | Hin]]; [lia | | unfold stream_in in Hin; congruence].
    apply Hbuf. unfold buffer_size, stream_in in *. rewrite (oi_bytes _ _ _ _ (si_stream _ _ _ Hs)).
    rewrite (oi_bytes _ _ _ _ (si_stream _ _ _ Hs')) in Hemp. unfold bytes_read in Hrd. by rewrite <- Hrd, <- Hwr.
Qed.

(** The first half of a round opens the window, and puts something in flight if something is
    not acknowledged. *)
Lemma round_opens n :
  net_inv S isn n -> live_inv cap n -> 0 < cap ->
  exists n', open_half S n = Some n' /\ net_steps S n n' /\ 0 < window_size (rcv_end n') /\
    ack_s (snd_end n') = ack_s (snd_end n) /\ (ack_s (snd_end n) < zlen S + 2 -> start (snd_end n') = true).
Proof.
  intros Hn Hl Hpos. destruct (app_ready n Hn Hl Hpos) as (n1 & E1 & Hready & Ha1 & Hx1 & Hf1 & Er1).
  pose proof (run_steps _ _ _ (app_no_arrival n) E1) as Hst1.
  destruct (steps_inv _ _ Hst1 Hn Hl) as [Hn1 Hl1]. pose proof (ni_snd _ _ _ Hn1) as Hs1. pose proof (ni_snd _ _ _ Hn) as Hs.
  destruct (fill_window_spec S isn _ Hs1) as (s' & m & Ef & Hf & _). pose proof (fs_ack _ _ _ _ _ Hf) as Ha2.
  set (n2 := at_sender n1 [] s'). assert (net_event S n1 EFill = Some n2) as E2 by (simpl; by rewrite Ef).
  pose proof (event_step _ EFill _ I E2) as Hst2. pose proof (net_step_inv S isn _ _ Hn1 Hst2) as Hn2.
  destruct (read_all n2 Hn2) as (n3 & E3 & Es3 & Hwin & _). pose proof (event_step _ (ERead _) _ I E3) as Hst3.
  exists n3. split.
  { unfold open_half. rewrite net_run_app, E1. cbn [mbind option_bind]. cbn [net_run]. rewrite E2. rewrite <- Er1.
    change (rcv_end n1) with (rcv_end n2). by rewrite E3. }
  split; [by do 2 (eapply net_steps_snoc; [|done])|]. split; [done|]. rewrite Es3. cbn [snd_end at_sender n2].
  split; [lia|]. intros Hlt. destruct (decide (ack_s (snd_end n1) = _next_seqno (snd_end n1))) as [Heq | Hne].
  - destruct (ready_sends (snd_end n1)) as (s2 & Ef2 & _ & Hst); try done; [|congruence].
    rewrite Hf1. destruct (fin_send (snd_end n)) eqn:Efin; [|done]. destruct (fin_all_sent S isn _ Hs Efin). lia.
  - rewrite (si_start _ _ _ (fs_inv _ _ _ _ _ Hf)).
    pose proof (chain_bound S isn _ _ _ (fs_chain _ _ _ _ _ Hf)) as [Hle _]. pose proof (si_ack _ _ _ Hs1).
    by replace (ack_s s' =? _next_seqno s') with false by lia.
Qed.

(** A round can be run in every state; as long as something is not acknowledged, it takes
    the acknowledged number further. *)
Lemma round_spec n :
  net_inv S isn n -> live_inv cap n -> 0 < cap ->
  exists n', round S n = Some n' /\ net_steps S n n' /\
    (ack_s (snd_end n) < zlen S + 2 -> ack_s (snd_end n) < ack_s (snd_end n')).
Proof.
  intros Hn Hl Hpos. destruct (round_opens n Hn Hl Hpos) as (n1 & E1 & Hst1 & Hwin & Ha & Hstart).
  destruct (steps_inv _ _ Hst1 Hn Hl) as [Hn1 Hl1]. unfold round. rewrite E1. cbn [mbind option_bind].
  destruct (start (snd_end n1)) eqn:Est.
  - destruct (flight_advances n1 Hn1 Hl1 Est Hwin) as (n' & E & Hst & Hadv). exists n'. rewrite <- Ha. split; [done|].
    split; [by eapply net_steps_trans | done].
  - exists n1. unfold flight_half. rewrite Est. split; [done|]. split; [done|]. intros Hlt. specialize (Hstart Hlt). congruence.
Qed.

Lemma rounds_fair k : forall n n', rounds S k n = Some n' -> fair_run S k n n'.
Proof.
  induction k as [|k IH]; simpl; intros n n' E.
  - injection E as <-. apply fair_rest. constructor.
  - apply bind_Some in E as (n1 & E1 & E). eapply fair_round; [constructor | exact E1 | by apply IH].
Qed.

Lemma ack_bound n : net_inv S isn n -> ack_s (snd_end n) <= zlen S + 2.
Proof.
  intros Hn. pose proof (ni_snd _ _ _ Hn) as Hs. pose proof (si_ack _ _ _ Hs).
  destruct (next_bounds S isn _ Hs) as (? & ? & ? & _). lia.
Qed.

(** After as many rounds as there are sequence numbers everything is acknowledged. *)
Lemma fair_acknowledged k n n' :
  fair_run S k n n' -> net_inv S isn n -> live_inv cap n -> 0 < cap ->
  net_inv S isn n' /\ live_inv cap n' /\ Z.min (zlen S + 2) (ack_s (snd_end n) + Z.of_nat k) <= ack_s (snd_end n').
Proof.
  induction 1 as [n n' Hst | k n a b n' Hst E Hrun IH]; intros Hn Hl Hpos.
  - destruct (steps_inv _ _ Hst Hn Hl). split; [done|]. split; [done|]. pose proof (ack_mono _ _ Hn Hst). lia.
  - destruct (steps_inv _ _ Hst Hn Hl) as [Ha Hla]. pose proof (ack_mono _ _ Hn Hst).
    destruct (round_spec a Ha Hla Hpos) as (b' & E' & Hr & Hadv). rewrite E in E'. injection E' as <-.
    destruct (steps_inv _ _ Hr Ha Hla) as [Hb Hlb]. destruct (IH Hb Hlb Hpos) as (Hn' & Hl' & Hle). split; [done|]. split; [done|].
    pose proof (ack_mono _ _ Ha Hr). destruct (decide (ack_s (snd_end a) < zlen S + 2)) as [Hlt|]; [specialize (Hadv Hlt)|]; lia.
Qed.

Lemma reaches_acknowledged k : 0 < cap -> forall n,
  net_inv S isn n -> live_inv cap n -> zlen S + 2 - ack_s (snd_end n) <= Z.of_nat k ->
  exists n', net_steps S n n' /\ ack_s (snd_end n') = zlen S + 2.
Proof.
  intros Hpos. induction k as [|k IH]; intros n Hn Hl Hk; pose proof (ack_bound n Hn) as Hb.
  { exists n. split; [constructor | lia]. }
  destruct (decide (ack_s (snd_end n) = zlen S + 2)) as [|Hne]; [exists n; split; [constructor | done]|].
  destruct (round_spec n Hn Hl Hpos) as (n1 & _ & Hst1 & Hlt). specialize (Hlt ltac:(lia)). destruct (steps_inv _ _ Hst1 Hn Hl) as [Hn1 Hl1].
  destruct (IH n1 Hn1 Hl1) as (n2 & Hst2 & Ha); [lia|]. exists n2. split; [by eapply net_steps_trans | done].
Qed.

(** When everything is acknowledged the receiver has the whole stream. *)
Lemma acknowledged_all n :
  net_inv S isn n -> ack_s (snd_end n) = zlen S + 2 ->
  ended (rcv_end n) = true /\ bytes_written (stream_out (rcv_end n)) = zlen S.
Proof.
  intros Hn Ha. pose proof (ni_acked _ _ _ Hn) as Hack. pose proof (ni_rcv _ _ _ Hn) as Ht.
  destruct (rcv_bounds S isn _ Ht) as (_ & Hb & _). pose proof (zlen_nonneg S). unfold in_order, received in Hack.
  case_if_in Hack; [|lia]. destruct (ended (rcv_end n)); [split; [done | lia] | lia].
Qed.
End live.

(** The sender knows that the connection is complete. *)
Lemma all_acknowledged_summary S isn cap n :
  net_inv S isn n -> live_inv cap n -> ack_s (snd_end n) = zlen S + 2 ->
  sender_summary (snd_end n) = TCPSenderStateSummary.FIN_ACKED.
Proof.
  intros Hn Hl Ha. pose proof (ni_snd _ _ _ Hn) as Hs. rewrite (sender_summary_phase S isn) by (apply Hs || apply Hl).
  pose proof (si_ack _ _ _ Hs). destruct (next_bounds S isn _ Hs) as (? & ? & ? & _). pose proof (zlen_nonneg S).
  pose proof (si_next _ _ _ Hs) as Hx. unfold sender_phase.
  replace (_next_seqno (snd_end n) =? 0) with false in * by lia. replace (ack_s (snd_end n) =? 0) with false by lia.
  destruct (fin_send (snd_end n)); [|lia]. by replace (ack_s (snd_end n) <? _next_seqno (snd_end n)) with false by lia.
Qed.

(** * Properties *)

(** C14: a retransmission makes progress. In every state that sender, receiver and network
    reach (segments and acknowledgments live for [2 ^ 31] sequence numbers) with something
    in flight and an open window at the receiver, the segment that the expiry of the timer
    queues is handled by the receiver, and the acknowledgment it then gives takes the sender
    past what was acknowledged before. *)
Theorem retransmission_progress S isn scap rcap rto n ms w :
  net_ok S isn scap rcap rto -> net_steps S (net_init scap rcap rto isn) n ->
  bytes_in_flight (snd_end n) <> 0 -> RTO (snd_end n) <= ms -> 0 < window_size (rcv_end n) ->
  exists seg t' a, _segments_out (tick (snd_end n) ms) = _segments_out (snd_end n) ++ [seg] /\
    segment_received (rcv_end n) seg = Ok t' /\ receiver_ackno t' = Some a /\
    ack_s (snd_end n) < ack_s (ack_received (tick (snd_end n) ms) a w).
Proof.
  intros Hok Hst Hfl Hrto Hwin. destruct (live_reachable S isn scap rcap rto n Hok Hst) as [Hn Hl].
  pose proof (ni_snd _ _ _ Hn) as Hs. destruct (in_flight S isn _ Hs) as (_ & Hstart & _).
  assert (start (snd_end n) = true) as Est by (destruct (start (snd_end n)); [done | by destruct Hfl; apply Hstart]).
  destruct (retransmission_helps S isn scap n Hn Hl Est Hwin) as (k & seg & m & t' & Em & _ & E & Hlt & Ha & Ht' & Hbeh).
  exists seg, t', (wrap (in_order t') isn). unfold tick. rewrite Est. cbn [negb]. replace (RTO (snd_end n) <=? ms) with true by lia.
  split; [unfold expire; cbn [_segments_out]; by rewrite Em|]. split; [done|]. split; [done|].
  pose proof (received_le S isn _ t' Hs Ht' Hbeh). pose proof (ni_flight _ _ _ Hn). pose proof (si_ack _ _ _ Hs).
  rewrite (ack_received_ack _ _ (in_order t')); [simpl; lia | | simpl; lia].
  apply (ack_of_advert S isn (snd_end n) t'); done || lia.
Qed.

Lemma retransmission_progress_witness :
  exists n seg t' a, net_run (str "abc") demo_net [EWrite 3; EFill; EPop] = Some n /\
    segment_received (rcv_end n) seg = Ok t' /\ receiver_ackno t' = Some a /\
    ack_s (snd_end n) < ack_s (ack_received (tick (snd_end n) 1000) a 8).
Proof.
  destruct (net_run (str "abc") demo_net [EWrite 3; EFill; EPop]) as [n|] eqn:E; [|vm_compute in E; discriminate].
  assert (bytes_in_flight (snd_end n) = 2 /\ RTO (snd_end n) = 1000 /\ window_size (rcv_end n) = 8)
    as (Hfl & Hrto & Hwin) by (vm_compute in E; injection E as <-; by_compute).
  destruct (retransmission_progress (str "abc") {| raw_value := 2 ^ 32 - 1 |} 8 8 1000 n 1000 8 demo_ok
    (demo_reaches _ n E)) as (seg & t' & a & _ & Es & Ha & Hlt); [lia | lia | lia |].
  exists n, seg, t', a. split; [reflexivity|]. split; [exact Es|]. split; [exact Ha | exact Hlt].
Defined.

(** No reachable state is a dead end. Whatever the network has lost, duplicated, delayed
    and reordered and however the timer stands, the run can be continued (the application
    writes and ends its stream, the timer expires, the network delivers what is sent from
    then on) to a state in which the receiving application has read the whole stream, its
    stream has ended, and the sender is in the state "fully acknowledged". *)
Lemma completion_possible S isn scap rcap rto n :
  net_ok S isn scap rcap rto -> 0 < scap -> net_steps S (net_init scap rcap rto isn) n ->
  exists n', net_steps S n n' /\ delivered n' = S /\ ended (rcv_end n') = true /\
    sender_summary (snd_end n') = TCPSenderStateSummary.FIN_ACKED.
Proof.
  intros Hok Hpos Hst. destruct (live_reachable S isn scap rcap rto n Hok Hst) as [Hn Hl].
  destruct (reaches_acknowledged S isn scap (Z.to_nat (zlen S + 2)) Hpos n Hn Hl) as (n1 & Hst1 & Ha).
  { pose proof (si_ack _ _ _ (ni_snd _ _ _ Hn)). lia. }
  destruct (steps_inv S isn scap _ _ Hst1 Hn Hl) as [Hn1 Hl1]. destruct (acknowledged_all S isn n1 Hn1 Ha) as [He Hw].
  destruct (read_all S isn n1 Hn1) as (n2 & E2 & Es2 & _ & Hb & He2 & Hw2).
  pose proof (event_step S _ (ERead _) _ I E2) as Hst2.
  pose proof (net_step_inv S isn _ _ Hn1 Hst2) as Hn2. exists n2.
  split; [eapply net_steps_trans; [exact Hst1 | by apply net_steps_one]|]. split; [|split].
  - pose proof (net_stream S isn n2 Hn2) as Hd. rewrite Hb, app_nil_r, Hw2, Hw in Hd. by rewrite Hd, slice_full.
  - by rewrite He2.
  - rewrite Es2. by apply (all_acknowledged_summary S isn scap).
Qed.

Lemma completion_possible_witness :
  exists n, net_run (str "abc") demo_net demo_loss = Some n /\ exists n', net_steps (str "abc") n n' /\
    delivered n' = str "abc" /\ ended (rcv_end n') = true /\
    sender_summary (snd_end n') = TCPSenderStateSummary.FIN_ACKED.
Proof.
  destruct (net_run (str "abc") demo_net demo_loss) as [n|] eqn:E; [|vm_compute in E; discriminate].
  exists n. split; [reflexivity|].
  apply (completion_possible (str "abc") {| raw_value := 2 ^ 32 - 1 |} 8 8 1000 n demo_ok ltac:(lia) (demo_reaches _ n E)).
Defined.

(** C3: a fair run completes the connection, for a sender whose stream has room for a byte. In
    a run with any steps of the network between its rounds (losses, duplicates, delays of
    less than [2 ^ 31] sequence numbers, expiries), another round can always be
    run; and after as many rounds as the stream has sequence numbers (its bytes, the SYN and
    the FIN) the receiver's stream has ended, what its application has read and can still
    read is the whole stream, and the sender is in the state "fully acknowledged". *)
Theorem fair_completion S isn scap rcap rto k n :
  net_ok S isn scap rcap rto -> 0 < scap -> fair_run S k (net_init scap rcap rto isn) n ->
  is_Some (round S n) /\
  (zlen S + 2 <= Z.of_nat k ->
    delivered n ++ bts (stream_out (rcv_end n)) = S /\ ended (rcv_end n) = true /\
    sender_summary (snd_end n) = TCPSenderStateSummary.FIN_ACKED).
Proof.
  intros Hok Hpos Hrun.
  destruct (fair_acknowledged S isn scap k _ n Hrun (net_init_inv S isn scap rcap rto Hok) (live_init isn scap rcap rto) Hpos) as (Hn & Hl & Ha).
  split; [destruct (round_spec S isn scap n Hn Hl Hpos) as (n' & E & _); by exists n'|]. intros Hk.
  pose proof (ack_bound S isn n Hn). change (ack_s (snd_end (net_init scap rcap rto isn))) with 0 in Ha.
  assert (ack_s (snd_end n) = zlen S + 2) as Hall by lia. destruct (acknowledged_all S isn n Hn Hall) as [He Hw].
  split; [|split; [done | by apply (all_acknowledged_summary S isn scap)]].
  by rewrite (net_stream S isn n Hn), Hw, slice_full.
Qed.

Lemma fair_completion_witness :
  exists n, fair_run (str "abc") 5 demo_net n /\ delivered n ++ bts (stream_out (rcv_end n)) = str "abc" /\
    ended (rcv_end n) = true /\ sender_summary (snd_end n) = TCPSenderStateSummary.FIN_ACKED.
Proof.
  destruct (rounds (str "abc") 5 demo_net) as [n|] eqn:E; [|vm_compute in E; discriminate].
  exists n. pose proof (rounds_fair (str "abc") 5 demo_net n E) as Hrun. split; [exact Hrun|].
  apply (fair_completion (str "abc") {| raw_value := 2 ^ 32 - 1 |} 8 8 1000 5 n demo_ok ltac:(lia) Hrun).
  vm_compute. discriminate.
Defined.
