(* ===== verification/Tests.v ===== *)
(** Unit tests of the repository, run on the model: the harnesses src/tests/byte_stream_test_harness.cc,
    sender_harness.hh, receiver_harness.hh and fsm_stream_reassembler_harness.hh, and the
    test programs that use them. A harness is a type of steps with the function that executes a step; it gives
    nothing when an expectation is violated or the code throws. Tests that draw their
    initial sequence number and timeout at random are functions of them and are run for
    several values. Left out are the tests that draw their data at random in long loops. *)
From S2P Require Import Prelude WrappingIntegers ByteStream StreamReassembler Buffer TCPHeader TCPSegment TCPReceiver TCPSender TCPState.

(** Absolute numbers as [uint32_t]. *)
Definition seqno_at (n : Z) : WrappingInt32 := {| raw_value := to_u32 n |}.

Definition upto (n : Z) : list Z := map Z.of_nat (seq 0 (Z.to_nat n)).

(** An expectation: [None] when it is violated. *)
Definition expect {A} (b : bool) (x : A) : option A := if b then Some x else None.

Definition returned {A} (r : outcome A) : option A := match r with Ok x => Some x | _ => None end.

(** [not optional.has_value() or optional.value() == x]. *)
Definition agrees {A} (eqb : A -> A -> bool) (o : option A) (x : A) : bool :=
  match o with Some y => eqb x y | None => true end.

Definition bytes_eqb (a b : bytes) : bool := bool_decide (a = b).

Section run.
Context {Step State : Type} (execute : Step -> State -> option State).

Fixpoint run_steps (steps : list Step) (s : State) : bool :=
  match steps with
  | [] => true
  | step :: steps' => match execute step s with Some s' => run_steps steps' s' | None => false end
  end.
End run.

(** * The byte stream *)

Module ByteStreamTests.

Inductive Step :=
| EndInput
| Write (data : bytes) (bytes_written : option Z)
| Pop (len : Z)
| InputEnded (b : bool)
| BufferEmpty (b : bool)
| Eof (b : bool)
| BufferSize (n : Z)
| RemainingCapacity (n : Z)
| BytesWritten (n : Z)
| BytesRead (n : Z)
| Peek (output : bytes).

Definition execute (step : Step) (b : ByteStream) : option ByteStream :=
  match step with
  | EndInput => Some (end_input b)
  | Write data n => let '(written, b) := ByteStream.write b data in expect (agrees Z.eqb n written) b
  | Pop len => returned (pop_output b len)
  | InputEnded x => expect (Bool.eqb (input_ended b) x) b
  | BufferEmpty x => expect (Bool.eqb (buffer_empty b) x) b
  | Eof x => expect (Bool.eqb (eof b) x) b
  | BufferSize n => expect (buffer_size b =? n) b
  | RemainingCapacity n => expect (remaining_capacity b =? n) b
  | BytesWritten n => expect (bytes_written b =? n) b
  | BytesRead n => expect (bytes_read b =? n) b
  | Peek output => out ← returned (peek_output b (zlen output)); expect (bytes_eqb out output) b
  end.

Definition run (test : Z * list Step) : bool := run_steps execute test.2 (byte_stream test.1).

(** src/tests/byte_stream_construction.cc. *)
Definition byte_stream_construction : list (Z * list Step) :=
  [(* line 11 *) (15,
     [InputEnded false; BufferEmpty true; Eof false; BytesRead 0; BytesWritten 0; RemainingCapacity 15;
      BufferSize 0]);
   (* line 22 *) (15,
     [EndInput; InputEnded true; BufferEmpty true; Eof true; BytesRead 0; BytesWritten 0; RemainingCapacity 15;
      BufferSize 0])].

Example byte_stream_construction_passes : forallb run byte_stream_construction = true.
Proof. vm_compute. reflexivity. Qed.

(** src/tests/byte_stream_one_write.cc. *)
Definition byte_stream_one_write : list (Z * list Step) :=
  [(* line 11 *) (15,
     [Write (str "cat") None; InputEnded false; BufferEmpty false; Eof false; BytesRead 0; BytesWritten 3;
      RemainingCapacity 12; BufferSize 3; Peek (str "cat"); EndInput; InputEnded true; BufferEmpty false; Eof false;
      BytesRead 0; BytesWritten 3; RemainingCapacity 12; BufferSize 3; Peek (str "cat"); Pop 3; InputEnded true;
      BufferEmpty true; Eof true; BytesRead 3; BytesWritten 3; RemainingCapacity 15; BufferSize 0]);
   (* line 47 *) (15,
     [Write (str "cat") None; InputEnded false; BufferEmpty false; Eof false; BytesRead 0; BytesWritten 3;
      RemainingCapacity 12; BufferSize 3; Peek (str "cat"); Pop 3; InputEnded false; BufferEmpty true; Eof false;
      BytesRead 3; BytesWritten 3; RemainingCapacity 15; BufferSize 0; EndInput; InputEnded true; BufferEmpty true;
      Eof true; BytesRead 3; BytesWritten 3; RemainingCapacity 15; BufferSize 0]);
   (* line 82 *) (15,
     [Write (str "cat") None; InputEnded false; BufferEmpty false; Eof false; BytesRead 0; BytesWritten 3;
      RemainingCapacity 12; BufferSize 3; Peek (str "cat"); Pop 1; InputEnded false; BufferEmpty false; Eof false;
      BytesRead 1; BytesWritten 3; RemainingCapacity 13; BufferSize 2; Peek (str "at"); Pop 2; InputEnded false;
      BufferEmpty true; Eof false; BytesRead 3; BytesWritten 3; RemainingCapacity 15; BufferSize 0; EndInput;
      InputEnded true; BufferEmpty true; Eof true; BytesRead 3; BytesWritten 3; RemainingCapacity 15; BufferSize 0])].

Example byte_stream_one_write_passes : forallb run byte_stream_one_write = true.
Proof. vm_compute. reflexivity. Qed.

(** src/tests/byte_stream_two_writes.cc. *)
Definition byte_stream_two_writes : list (Z * list Step) :=
  [(* line 11 *) (15,
     [Write (str "cat") None; InputEnded false; BufferEmpty false; Eof false; BytesRead 0; BytesWritten 3;
      RemainingCapacity 12; BufferSize 3; Peek (str "cat"); Write (str "tac") None; InputEnded false;
      BufferEmpty false; Eof false; BytesRead 0; BytesWritten 6; RemainingCapacity 9; BufferSize 6;
      Peek (str "cattac"); EndInput; InputEnded true; BufferEmpty false; Eof false; BytesRead 0; BytesWritten 6;
      RemainingCapacity 9; BufferSize 6; Peek (str "cattac"); Pop 2; InputEnded true; BufferEmpty false; Eof false;
      BytesRead 2; BytesWritten 6; RemainingCapacity 11; BufferSize 4; Peek (str "ttac"); Pop 4; InputEnded true;
      BufferEmpty true; Eof true; BytesRead 6; BytesWritten 6; RemainingCapacity 15; BufferSize 0]);
   (* line 69 *) (15,
     [Write (str "cat") None; InputEnded false; BufferEmpty false; Eof false; BytesRead 0; BytesWritten 3;
      RemainingCapacity 12; BufferSize 3; Peek (str "cat"); Pop 2; InputEnded false; BufferEmpty false; Eof false;
      BytesRead 2; BytesWritten 3; RemainingCapacity 14; BufferSize 1; Peek (str "t"); Write (str "tac") None;
      InputEnded false; BufferEmpty false; Eof false; BytesRead 2; BytesWritten 6; RemainingCapacity 11;
      BufferSize 4; Peek (str "ttac"); EndInput; InputEnded true; BufferEmpty false; Eof false; BytesRead 2;
      BytesWritten 6; RemainingCapacity 11; BufferSize 4; Peek (str "ttac"); Pop 4; InputEnded true;
      BufferEmpty true; Eof true; BytesRead 6; BytesWritten 6; RemainingCapacity 15; BufferSize 0])].

Example byte_stream_two_writes_passes : forallb run byte_stream_two_writes = true.
Proof. vm_compute. reflexivity. Qed.

(** src/tests/byte_stream_capacity.cc. Without the test at line 71. *)
Definition byte_stream_capacity : list (Z * list Step) :=
  [(* line 11 *) (2,
     [Write (str "cat") (Some 2); InputEnded false; BufferEmpty false; Eof false; BytesRead 0; BytesWritten 2;
      RemainingCapacity 0; BufferSize 2; Peek (str "ca"); Write (str "t") (Some 0); InputEnded false;
      BufferEmpty false; Eof false; BytesRead 0; BytesWritten 2; RemainingCapacity 0; BufferSize 2; Peek (str "ca")]);
   (* line 37 *) (2,
     [Write (str "cat") (Some 2); Pop 2; Write (str "tac") (Some 2); InputEnded false; BufferEmpty false;
      Eof false; BytesRead 2; BytesWritten 4; RemainingCapacity 0; BufferSize 2; Peek (str "ta")]);
   (* line 54 *) (2,
     [Write (str "cat") (Some 2); Pop 1; Write (str "tac") (Some 1); InputEnded false; BufferEmpty false;
      Eof false; BytesRead 1; BytesWritten 3; RemainingCapacity 0; BufferSize 2; Peek (str "at")])].

Example byte_stream_capacity_passes : forallb run byte_stream_capacity = true.
Proof. vm_compute. reflexivity. Qed.

End ByteStreamTests.

(** * The sender *)

Module SenderTests.

Record ExpectedSegment := {
  e_ack : option bool; e_rst : option bool; e_syn : option bool; e_fin : option bool;
  e_seqno : option WrappingInt32; e_ackno : option WrappingInt32; e_win : option Z;
  e_payload_size : option Z; e_data : option bytes
}.

Definition any_segment : ExpectedSegment :=
  {| e_ack := None; e_rst := None; e_syn := None; e_fin := None; e_seqno := None; e_ackno := None; e_win := None;
     e_payload_size := None; e_data := None |}.

Definition with_syn (b : bool) (e : ExpectedSegment) : ExpectedSegment :=
  {| e_ack := e_ack e; e_rst := e_rst e; e_syn := Some b; e_fin := e_fin e; e_seqno := e_seqno e;
     e_ackno := e_ackno e; e_win := e_win e; e_payload_size := e_payload_size e; e_data := e_data e |}.
Definition with_fin (b : bool) (e : ExpectedSegment) : ExpectedSegment :=
  {| e_ack := e_ack e; e_rst := e_rst e; e_syn := e_syn e; e_fin := Some b; e_seqno := e_seqno e;
     e_ackno := e_ackno e; e_win := e_win e; e_payload_size := e_payload_size e; e_data := e_data e |}.
Definition with_no_flags (e : ExpectedSegment) : ExpectedSegment :=
  {| e_ack := Some false; e_rst := Some false; e_syn := Some false; e_fin := Some false; e_seqno := e_seqno e;
     e_ackno := e_ackno e; e_win := e_win e; e_payload_size := e_payload_size e; e_data := e_data e |}.
Definition with_seqno (n : WrappingInt32) (e : ExpectedSegment) : ExpectedSegment :=
  {| e_ack := e_ack e; e_rst := e_rst e; e_syn := e_syn e; e_fin := e_fin e; e_seqno := Some n;
     e_ackno := e_ackno e; e_win := e_win e; e_payload_size := e_payload_size e; e_data := e_data e |}.
Definition with_payload_size (n : Z) (e : ExpectedSegment) : ExpectedSegment :=
  {| e_ack := e_ack e; e_rst := e_rst e; e_syn := e_syn e; e_fin := e_fin e; e_seqno := e_seqno e;
     e_ackno := e_ackno e; e_win := e_win e; e_payload_size := Some n; e_data := e_data e |}.
Definition with_data (d : bytes) (e : ExpectedSegment) : ExpectedSegment :=
  {| e_ack := e_ack e; e_rst := e_rst e; e_syn := e_syn e; e_fin := e_fin e; e_seqno := e_seqno e;
     e_ackno := e_ackno e; e_win := e_win e; e_payload_size := e_payload_size e; e_data := Some d |}.

(** [ExpectSegment::execute] on the segment. *)
Definition segment_matches (e : ExpectedSegment) (seg : TCPSegment) : bool :=
  let h := header seg in
  agrees Bool.eqb (e_ack e) (TCPHeader.ack h) && agrees Bool.eqb (e_rst e) (rst h) &&
  agrees Bool.eqb (e_syn e) (syn h) && agrees Bool.eqb (e_fin e) (fin h) &&
  agrees wi_eqb (e_seqno e) (seqno h) && agrees wi_eqb (e_ackno e) (ackno h) && agrees Z.eqb (e_win e) (win h) &&
  agrees Z.eqb (e_payload_size e) (buf_size (payload seg)) && (buf_size (payload seg) <=? MAX_PAYLOAD_SIZE) &&
  agrees bytes_eqb (e_data e) (str_of (payload seg)).

Inductive Step :=
| ExpectState (state : string)
| ExpectSeqno (n : WrappingInt32)
| ExpectBytesInFlight (n : Z)
| ExpectNoSegment
| ExpectSegment (changes : list (ExpectedSegment -> ExpectedSegment))
| WriteBytes (data : bytes) (end_input : bool)
| Tick (ms : Z) (max_retx_exceeded : option bool)
| AckReceived (ackno : WrappingInt32) (window : option Z)
| Close.

Definition DEFAULT_TEST_WINDOW : Z := 137.

(** [collect_output]. *)
Definition collect (s : TCPSender) (outbound : list TCPSegment) : TCPSender * list TCPSegment :=
  (sender_set_out s [], outbound ++ _segments_out s).

Definition execute (step : Step) (st : TCPSender * list TCPSegment) : option (TCPSender * list TCPSegment) :=
  let '(s, outbound) := st in
  match step with
  | ExpectState state => expect (bool_decide (sender_summary s = state)) st
  | ExpectSeqno n => expect (wi_eqb (next_seqno s) n) st
  | ExpectBytesInFlight n => expect (bytes_in_flight s =? n) st
  | ExpectNoSegment => match outbound with [] => Some st | _ :: _ => None end
  | ExpectSegment changes =>
      match outbound with
      | seg :: rest => expect (segment_matches (fold_left (fun e f => f e) changes any_segment) seg) (s, rest)
      | [] => None
      end
  | WriteBytes data end_ =>
      let b := (ByteStream.write (stream_in s) data).2 in
      s ← returned (fill_window (sender_set_in s (if end_ : bool then end_input b else b)));
      Some (collect s outbound)
  | Tick ms exceeded =>
      let s := tick s ms in
      expect (agrees Bool.eqb exceeded (MAX_RETX_ATTEMPTS <? consecutive_retransmissions s)) (collect s outbound)
  | AckReceived ackno window =>
      s ← returned (fill_window (ack_received s ackno (default DEFAULT_TEST_WINDOW window)));
      Some (collect s outbound)
  | Close =>
      s ← returned (fill_window (sender_set_in s (end_input (stream_in s))));
      Some (collect s outbound)
  end.

(** [TCPSenderTestHarness]: a timeout and the steps. *)
Definition run (isn : Z) (test : Z * list Step) : bool :=
  match fill_window (tcp_sender DEFAULT_CAPACITY test.1 (Some (seqno_at isn)) 0) with
  | Ok s => run_steps execute test.2 (collect s [])
  | _ => false
  end.

(** Some initial sequence numbers and timeouts. *)
Definition draws : list (Z * Z) := [(0, 30); (2 ^ 32 - 1, 1000); (2 ^ 32 - 5, 10000); (2 ^ 31, 77); (123456789, 4242)].

Definition passes (tests : Z -> Z -> list (Z * list Step)) : bool :=
  forallb (fun d => forallb (run d.1) (tests d.1 d.2)) draws.

(** src/tests/send_connect.cc. *)
Definition send_connect (isn rto : Z) : list (Z * list Step) :=
  [(* line 18 *) (TIMEOUT_DFLT,
     [ExpectState TCPSenderStateSummary.SYN_SENT; ExpectSegment [with_no_flags; with_syn true; with_payload_size 0;
      with_seqno (seqno_at isn)]; ExpectBytesInFlight 1]);
   (* line 29 *) (TIMEOUT_DFLT,
     [ExpectState TCPSenderStateSummary.SYN_SENT; ExpectSegment [with_no_flags; with_syn true; with_payload_size 0;
      with_seqno (seqno_at isn)]; ExpectBytesInFlight 1; AckReceived (seqno_at (isn + 1)) None;
      ExpectState TCPSenderStateSummary.SYN_ACKED; ExpectNoSegment; ExpectBytesInFlight 0]);
   (* line 44 *) (TIMEOUT_DFLT,
     [ExpectState TCPSenderStateSummary.SYN_SENT; ExpectSegment [with_no_flags; with_syn true; with_payload_size 0;
      with_seqno (seqno_at isn)]; ExpectBytesInFlight 1; AckReceived (seqno_at isn) None;
      ExpectState TCPSenderStateSummary.SYN_SENT; ExpectNoSegment; ExpectBytesInFlight 1]);
   (* line 59 *) (TIMEOUT_DFLT,
     [ExpectState TCPSenderStateSummary.SYN_SENT; ExpectSegment [with_no_flags; with_syn true; with_payload_size 0;
      with_seqno (seqno_at isn)]; ExpectBytesInFlight 1; AckReceived (seqno_at (isn + 1)) None;
      ExpectState TCPSenderStateSummary.SYN_ACKED; ExpectNoSegment; ExpectBytesInFlight 0;
      WriteBytes (str "abcdefgh") false; Tick 1 None; ExpectState TCPSenderStateSummary.SYN_ACKED;
      ExpectSegment [with_seqno (seqno_at (isn + 1)); with_data (str "abcdefgh")]; ExpectBytesInFlight 8;
      AckReceived (seqno_at (isn + 9)) None; ExpectState TCPSenderStateSummary.SYN_ACKED; ExpectNoSegment;
      ExpectBytesInFlight 0; ExpectSeqno (seqno_at (isn + 9))])].

Example send_connect_passes : passes send_connect = true.
Proof. vm_compute. reflexivity. Qed.

(** src/tests/send_ack.cc. *)
Definition send_ack (isn rto : Z) : list (Z * list Step) :=
  [(* line 18 *) (TIMEOUT_DFLT,
     [ExpectSegment [with_no_flags; with_syn true; with_payload_size 0; with_seqno (seqno_at isn)]; ExpectNoSegment;
      AckReceived (seqno_at (isn + 1)) None; WriteBytes (str "a") false; ExpectSegment [with_no_flags;
      with_data (str "a")]; ExpectNoSegment; AckReceived (seqno_at (isn + 1)) None; ExpectNoSegment]);
   (* line 34 *) (TIMEOUT_DFLT,
     [ExpectSegment [with_no_flags; with_syn true; with_payload_size 0; with_seqno (seqno_at isn)]; ExpectNoSegment;
      AckReceived (seqno_at (isn + 1)) None; WriteBytes (str "a") false; ExpectSegment [with_no_flags;
      with_data (str "a")]; ExpectNoSegment; AckReceived (seqno_at (isn + 2)) None; ExpectNoSegment;
      WriteBytes (str "b") false; ExpectSegment [with_no_flags; with_data (str "b")]; ExpectNoSegment;
      AckReceived (seqno_at (isn + 1)) None; ExpectNoSegment]);
   (* line 56 *) (TIMEOUT_DFLT,
     [ExpectState TCPSenderStateSummary.SYN_SENT; ExpectSegment [with_no_flags; with_syn true; with_payload_size 0;
      with_seqno (seqno_at isn)]; AckReceived (seqno_at (isn + 2)) (Some 1000); ExpectState TCPSenderStateSummary.SYN_SENT])].

Example send_ack_passes : passes send_ack = true.
Proof. vm_compute. reflexivity. Qed.

(** src/tests/send_close.cc. *)
Definition send_close (isn rto : Z) : list (Z * list Step) :=
  [(* line 19 *) (TIMEOUT_DFLT,
     [ExpectSegment [with_no_flags; with_syn true; with_payload_size 0; with_seqno (seqno_at isn)];
      AckReceived (seqno_at (isn + 1)) None; ExpectState TCPSenderStateSummary.SYN_ACKED; Close;
      ExpectState TCPSenderStateSummary.FIN_SENT; ExpectBytesInFlight 1; ExpectSegment [with_fin true;
      with_seqno (seqno_at (isn + 1))]; ExpectNoSegment]);
   (* line 35 *) (TIMEOUT_DFLT,
     [ExpectSegment [with_no_flags; with_syn true; with_payload_size 0; with_seqno (seqno_at isn)];
      AckReceived (seqno_at (isn + 1)) None; ExpectState TCPSenderStateSummary.SYN_ACKED; Close;
      ExpectState TCPSenderStateSummary.FIN_SENT; ExpectSegment [with_fin true; with_seqno (seqno_at (isn + 1))];
      AckReceived (seqno_at (isn + 2)) None; ExpectState TCPSenderStateSummary.FIN_ACKED; ExpectBytesInFlight 0;
      ExpectNoSegment]);
   (* line 53 *) (TIMEOUT_DFLT,
     [ExpectSegment [with_no_flags; with_syn true; with_payload_size 0; with_seqno (seqno_at isn)];
      AckReceived (seqno_at (isn + 1)) None; ExpectState TCPSenderStateSummary.SYN_ACKED; Close;
      ExpectState TCPSenderStateSummary.FIN_SENT; ExpectSegment [with_fin true; with_seqno (seqno_at (isn + 1))];
      AckReceived (seqno_at (isn + 1)) None; ExpectState TCPSenderStateSummary.FIN_SENT; ExpectBytesInFlight 1;
      ExpectNoSegment]);
   (* line 71 *) (TIMEOUT_DFLT,
     [ExpectSegment [with_no_flags; with_syn true; with_payload_size 0; with_seqno (seqno_at isn)];
      AckReceived (seqno_at (isn + 1)) None; ExpectState TCPSenderStateSummary.SYN_ACKED; Close;
      ExpectState TCPSenderStateSummary.FIN_SENT; ExpectSegment [with_fin true; with_seqno (seqno_at (isn + 1))];
      AckReceived (seqno_at (isn + 1)) None; ExpectState TCPSenderStateSummary.FIN_SENT; ExpectBytesInFlight 1;
      ExpectNoSegment; Tick (TIMEOUT_DFLT - 1) None; ExpectState TCPSenderStateSummary.FIN_SENT;
      ExpectBytesInFlight 1; ExpectNoSegment; Tick 1 None; ExpectState TCPSenderStateSummary.FIN_SENT;
      ExpectBytesInFlight 1; ExpectSegment [with_fin true; with_seqno (seqno_at (isn + 1))]; ExpectNoSegment;
      Tick 1 None; ExpectState TCPSenderStateSummary.FIN_SENT; ExpectBytesInFlight 1; ExpectNoSegment;
      AckReceived (seqno_at (isn + 2)) None; ExpectState TCPSenderStateSummary.FIN_ACKED; ExpectBytesInFlight 0;
      ExpectNoSegment])].

Example send_close_passes : passes send_close = true.
Proof. vm_compute. reflexivity. Qed.

(** src/tests/send_retx.cc. *)
Definition send_retx (isn rto : Z) : list (Z * list Step) :=
  [(* line 18 *) (rto,
     [ExpectSegment [with_no_flags; with_syn true; with_payload_size 0; with_seqno (seqno_at isn)]; ExpectNoSegment;
      ExpectState TCPSenderStateSummary.SYN_SENT; Tick (rto - 1) None; ExpectNoSegment; Tick 1 None;
      ExpectSegment [with_no_flags; with_syn true; with_payload_size 0; with_seqno (seqno_at isn)];
      ExpectState TCPSenderStateSummary.SYN_SENT; ExpectBytesInFlight 1; Tick (2 * rto - 1) None; ExpectNoSegment;
      Tick 1 None; ExpectSegment [with_no_flags; with_syn true; with_payload_size 0; with_seqno (seqno_at isn)];
      ExpectState TCPSenderStateSummary.SYN_SENT; ExpectBytesInFlight 1; AckReceived (seqno_at (isn + 1)) None;
      ExpectState TCPSenderStateSummary.SYN_ACKED; ExpectBytesInFlight 0]);
   (* line 47 *) (rto,
     [ExpectSegment [with_no_flags; with_syn true; with_payload_size 0; with_seqno (seqno_at isn)]; ExpectNoSegment;
      ExpectState TCPSenderStateSummary.SYN_SENT] ++
     flat_map (fun attempt_no => [Tick (Z.shiftl rto attempt_no - 1) (Some false); ExpectNoSegment; Tick 1 (Some false);
          ExpectSegment [with_no_flags; with_syn true; with_payload_size 0; with_seqno (seqno_at isn)];
          ExpectState TCPSenderStateSummary.SYN_SENT; ExpectBytesInFlight 1]) (upto MAX_RETX_ATTEMPTS) ++
     [Tick (Z.shiftl rto MAX_RETX_ATTEMPTS - 1) (Some false); Tick 1 (Some true)]);
   (* line 70 *) (rto,
     [ExpectSegment [with_no_flags; with_syn true; with_payload_size 0; with_seqno (seqno_at isn)]; ExpectNoSegment;
      AckReceived (seqno_at (isn + 1)) None; WriteBytes (str "abcd") false; ExpectSegment [with_payload_size 4];
      ExpectNoSegment; AckReceived (seqno_at (isn + 5)) None; ExpectBytesInFlight 0; WriteBytes (str "efgh") false;
      ExpectSegment [with_payload_size 4]; ExpectNoSegment; Tick rto (Some false);
      ExpectSegment [with_payload_size 4]; ExpectNoSegment; AckReceived (seqno_at (isn + 9)) None; ExpectBytesInFlight 0;
      WriteBytes (str "ijkl") false; ExpectSegment [with_payload_size 4; with_seqno (seqno_at (isn + 9))]] ++
     flat_map (fun attempt_no => [Tick (Z.shiftl rto attempt_no - 1) (Some false); ExpectNoSegment; Tick 1 (Some false);
          ExpectSegment [with_payload_size 4; with_seqno (seqno_at (isn + 9))];
          ExpectState TCPSenderStateSummary.SYN_ACKED; ExpectBytesInFlight 4]) (upto MAX_RETX_ATTEMPTS) ++
     [Tick (Z.shiftl rto MAX_RETX_ATTEMPTS - 1) (Some false); Tick 1 (Some true)])].

Example send_retx_passes : passes send_retx = true.
Proof. vm_compute. reflexivity. Qed.

(** src/tests/send_window.cc. Without the test at line 46. *)
Definition send_window (isn rto : Z) : list (Z * list Step) :=
  [(* line 18 *) (TIMEOUT_DFLT,
     [ExpectSegment [with_no_flags; with_syn true; with_payload_size 0; with_seqno (seqno_at isn)];
      AckReceived (seqno_at (isn + 1)) (Some 4); ExpectNoSegment; WriteBytes (str "abcdefg") false;
      ExpectSegment [with_no_flags; with_data (str "abcd")]; ExpectNoSegment]);
   (* line 32 *) (TIMEOUT_DFLT,
     [ExpectSegment [with_no_flags; with_syn true; with_payload_size 0; with_seqno (seqno_at isn)];
      AckReceived (seqno_at (isn + 1)) (Some 6); ExpectNoSegment; WriteBytes (str "abcdefg") false;
      ExpectSegment [with_no_flags; with_data (str "abcdef")]; ExpectNoSegment]);
   (* line 66 *) (TIMEOUT_DFLT,
     [ExpectSegment [with_no_flags; with_syn true; with_payload_size 0; with_seqno (seqno_at isn)];
      AckReceived (seqno_at (isn + 1)) (Some 4); ExpectNoSegment; WriteBytes (str "0123456789") false;
      ExpectSegment [with_no_flags; with_data (str "0123")]; AckReceived (seqno_at (isn + 5)) (Some 5);
      ExpectSegment [with_no_flags; with_data (str "45678")]; ExpectNoSegment]);
   (* line 82 *) (TIMEOUT_DFLT,
     [ExpectSegment [with_no_flags; with_syn true; with_payload_size 0; with_seqno (seqno_at isn)];
      AckReceived (seqno_at (isn + 1)) (Some 7); ExpectNoSegment; WriteBytes (str "1234567") false; Close;
      ExpectSegment [with_no_flags; with_data (str "1234567")]; ExpectNoSegment;
      AckReceived (seqno_at (isn + 8)) (Some 1); ExpectSegment [with_fin true; with_data (str "")]; ExpectNoSegment]);
   (* line 100 *) (TIMEOUT_DFLT,
     [ExpectSegment [with_no_flags; with_syn true; with_payload_size 0; with_seqno (seqno_at isn)];
      AckReceived (seqno_at (isn + 1)) (Some 7); ExpectNoSegment; WriteBytes (str "1234567") false; Close;
      ExpectSegment [with_no_flags; with_data (str "1234567")]; ExpectNoSegment;
      AckReceived (seqno_at (isn + 1)) (Some 8); ExpectSegment [with_fin true; with_data (str "")]; ExpectNoSegment]);
   (* line 118 *) (TIMEOUT_DFLT,
     [ExpectSegment [with_no_flags; with_syn true; with_payload_size 0; with_seqno (seqno_at isn)];
      AckReceived (seqno_at (isn + 1)) (Some 3); ExpectNoSegment; WriteBytes (str "1234567") false; Close;
      ExpectSegment [with_no_flags; with_data (str "123")]; ExpectNoSegment; AckReceived (seqno_at (isn + 1)) (Some 8);
      ExpectSegment [with_fin true; with_data (str "4567")]; ExpectNoSegment])].

Example send_window_passes : passes send_window = true.
Proof. vm_compute. reflexivity. Qed.

(** src/tests/send_transmit.cc. Without the tests at lines 38 and 68. *)
Definition send_transmit (isn rto : Z) : list (Z * list Step) :=
  [(* line 18 *) (TIMEOUT_DFLT,
     [ExpectSegment [with_no_flags; with_syn true; with_payload_size 0; with_seqno (seqno_at isn)];
      AckReceived (seqno_at (isn + 1)) None; ExpectState TCPSenderStateSummary.SYN_ACKED; WriteBytes (str "ab") false;
      ExpectSegment [with_data (str "ab"); with_seqno (seqno_at (isn + 1))]; WriteBytes (str "cd") false;
      ExpectSegment [with_data (str "cd"); with_seqno (seqno_at (isn + 3))]; WriteBytes (str "abcd") false;
      ExpectSegment [with_data (str "abcd"); with_seqno (seqno_at (isn + 5))]; ExpectSeqno (seqno_at (isn + 9));
      ExpectBytesInFlight 8; ExpectState TCPSenderStateSummary.SYN_ACKED]);
   (* line 100 *) (TIMEOUT_DFLT,
     [ExpectSegment [with_no_flags; with_syn true; with_payload_size 0; with_seqno (seqno_at isn)];
      AckReceived (seqno_at (isn + 1)) (Some 3); ExpectState TCPSenderStateSummary.SYN_ACKED;
      WriteBytes (str "01234567") false; ExpectBytesInFlight 3; ExpectSegment [with_data (str "012")];
      ExpectNoSegment; ExpectSeqno (seqno_at (isn + 1 + 3)); AckReceived (seqno_at (isn + 1 + 3)) (Some 3);
      ExpectBytesInFlight 3; ExpectSegment [with_data (str "345")]; ExpectNoSegment;
      ExpectSeqno (seqno_at (isn + 1 + 6)); AckReceived (seqno_at (isn + 1 + 6)) (Some 3); ExpectBytesInFlight 2;
      ExpectSegment [with_data (str "67")]; ExpectNoSegment; ExpectSeqno (seqno_at (isn + 1 + 8));
      AckReceived (seqno_at (isn + 1 + 8)) (Some 3); ExpectBytesInFlight 0; ExpectNoSegment]);
   (* line 129 *) (TIMEOUT_DFLT,
     [ExpectSegment [with_no_flags; with_syn true; with_payload_size 0; with_seqno (seqno_at isn)];
      AckReceived (seqno_at (isn + 1)) (Some 3); ExpectState TCPSenderStateSummary.SYN_ACKED;
      WriteBytes (str "01") false; ExpectBytesInFlight 2; ExpectSegment [with_data (str "01")]; ExpectNoSegment;
      ExpectSeqno (seqno_at (isn + 1 + 2)); WriteBytes (str "23") false; ExpectBytesInFlight 3;
      ExpectSegment [with_data (str "2")]; ExpectNoSegment; ExpectSeqno (seqno_at (isn + 1 + 3))])].

Example send_transmit_passes : passes send_transmit = true.
Proof. vm_compute. reflexivity. Qed.

(** src/tests/send_extra.cc. Without the tests at lines 152 and 274. *)
Definition send_extra (isn rto : Z) : list (Z * list Step) :=
  [(* line 18 *) (rto,
     [ExpectSegment [with_no_flags; with_syn true; with_payload_size 0; with_seqno (seqno_at isn)];
      AckReceived (seqno_at (isn + 1)) (Some 1000); ExpectState TCPSenderStateSummary.SYN_ACKED;
      WriteBytes (str "abc") false; ExpectSegment [with_payload_size 3; with_data (str "abc");
      with_seqno (seqno_at (isn + 1))]; Tick (rto - 5) None; ExpectNoSegment; WriteBytes (str "def") false;
      ExpectSegment [with_payload_size 3; with_data (str "def")]; Tick 6 None; ExpectSegment [with_payload_size 3;
      with_data (str "abc"); with_seqno (seqno_at (isn + 1))]; ExpectNoSegment]);
   (* line 41 *) (rto,
     [ExpectSegment [with_no_flags; with_syn true; with_payload_size 0; with_seqno (seqno_at isn)];
      AckReceived (seqno_at (isn + 1)) (Some 1000); ExpectState TCPSenderStateSummary.SYN_ACKED;
      WriteBytes (str "abc") false; ExpectSegment [with_payload_size 3; with_data (str "abc");
      with_seqno (seqno_at (isn + 1))]; Tick (rto - 5) None; ExpectNoSegment; WriteBytes (str "def") false;
      ExpectSegment [with_payload_size 3; with_data (str "def")]; Tick 200 None; ExpectSegment [with_payload_size 3;
      with_data (str "abc"); with_seqno (seqno_at (isn + 1))]; ExpectNoSegment]);
   (* line 64 *) (rto,
     [ExpectSegment [with_no_flags; with_syn true; with_payload_size 0; with_seqno (seqno_at isn)];
      AckReceived (seqno_at (isn + 1)) (Some 1000); ExpectState TCPSenderStateSummary.SYN_ACKED;
      WriteBytes (str "abc") false; ExpectSegment [with_payload_size 3; with_data (str "abc");
      with_seqno (seqno_at (isn + 1))]; Tick (rto - 5) None; WriteBytes (str "def") false;
      ExpectSegment [with_payload_size 3; with_data (str "def"); with_seqno (seqno_at (isn + 4))];
      AckReceived (seqno_at (isn + 4)) (Some 1000); Tick (rto - 1) None; ExpectNoSegment; Tick 2 None;
      ExpectSegment [with_payload_size 3; with_data (str "def"); with_seqno (seqno_at (isn + 4))]]);
   (* line 88 *) (rto,
     [ExpectSegment [with_no_flags; with_syn true; with_payload_size 0; with_seqno (seqno_at isn)];
      AckReceived (seqno_at (isn + 1)) (Some 1000); ExpectState TCPSenderStateSummary.SYN_ACKED;
      WriteBytes (str "abc") false; ExpectSegment [with_payload_size 3; with_data (str "abc");
      with_seqno (seqno_at (isn + 1))]; Tick (rto - 5) None; WriteBytes (str "def") false;
      ExpectSegment [with_payload_size 3; with_data (str "def"); with_seqno (seqno_at (isn + 4))];
      AckReceived (seqno_at (isn + 1)) (Some 1000); Tick 6 None; ExpectSegment [with_payload_size 3;
      with_data (str "abc"); with_seqno (seqno_at (isn + 1))]; ExpectNoSegment; Tick (rto * 2 - 5) None; ExpectNoSegment;
      Tick 8 None; ExpectSegment [with_payload_size 3; with_data (str "abc"); with_seqno (seqno_at (isn + 1))];
      ExpectNoSegment]);
   (* line 116 *) (rto,
     [ExpectSegment [with_no_flags; with_syn true; with_payload_size 0; with_seqno (seqno_at isn)];
      AckReceived (seqno_at (isn + 1)) (Some 1000); ExpectState TCPSenderStateSummary.SYN_ACKED;
      WriteBytes (str "abc") false; ExpectSegment [with_payload_size 3; with_data (str "abc");
      with_seqno (seqno_at (isn + 1))]; Tick (rto - 5) None; WriteBytes (str "def") false;
      ExpectSegment [with_payload_size 3; with_data (str "def"); with_seqno (seqno_at (isn + 4))];
      WriteBytes (str "ghi") false; ExpectSegment [with_payload_size 3; with_data (str "ghi");
      with_seqno (seqno_at (isn + 7))]; AckReceived (seqno_at (isn + 1)) (Some 1000); Tick 6 None;
      ExpectSegment [with_payload_size 3; with_data (str "abc"); with_seqno (seqno_at (isn + 1))]; ExpectNoSegment;
      Tick (rto * 2 - 5) None; ExpectNoSegment; Tick 5 None; ExpectSegment [with_payload_size 3;
      with_data (str "abc"); with_seqno (seqno_at (isn + 1))]; ExpectNoSegment; Tick (rto * 4 - 5) None; ExpectNoSegment;
      AckReceived (seqno_at (isn + 4)) (Some 1000); Tick (rto - 1) None; ExpectNoSegment; Tick 2 None;
      ExpectSegment [with_payload_size 3; with_data (str "def"); with_seqno (seqno_at (isn + 4))]; ExpectNoSegment]);
   (* line 182 *) (rto,
     [ExpectSegment [with_no_flags; with_syn true; with_payload_size 0; with_seqno (seqno_at isn)];
      AckReceived (seqno_at (isn + 1)) (Some 1000); ExpectState TCPSenderStateSummary.SYN_ACKED;
      WriteBytes (str "abc") true; ExpectSegment [with_payload_size 3; with_data (str "abc");
      with_seqno (seqno_at (isn + 1)); with_fin true]; Tick (rto - 1) None; ExpectNoSegment; Tick 2 None;
      ExpectSegment [with_payload_size 3; with_data (str "abc"); with_seqno (seqno_at (isn + 1)); with_fin true]]);
   (* line 201 *) (rto,
     [ExpectSegment [with_no_flags; with_syn true; with_payload_size 0; with_seqno (seqno_at isn)];
      AckReceived (seqno_at (isn + 1)) (Some 1000); ExpectState TCPSenderStateSummary.SYN_ACKED;
      WriteBytes (str "abc") false; ExpectSegment [with_payload_size 3; with_data (str "abc");
      with_seqno (seqno_at (isn + 1)); with_no_flags]; Close; ExpectSegment [with_payload_size 0;
      with_seqno (seqno_at (isn + 4)); with_fin true]; Tick (rto - 1) None; ExpectNoSegment;
      AckReceived (seqno_at (isn + 4)) (Some 1000); Tick (rto - 1) None; ExpectNoSegment; Tick 2 None;
      ExpectSegment [with_payload_size 0; with_seqno (seqno_at (isn + 4)); with_fin true]; Tick (2 * rto - 5) None;
      ExpectNoSegment; Tick 10 None; ExpectSegment [with_payload_size 0; with_seqno (seqno_at (isn + 4)); with_fin true]]);
   (* line 229 *) (rto,
     [ExpectSegment [with_no_flags; with_syn true; with_payload_size 0; with_seqno (seqno_at isn)];
      WriteBytes (str "abc") true; AckReceived (seqno_at (isn + 1)) (Some 3);
      ExpectState TCPSenderStateSummary.SYN_ACKED; ExpectSegment [with_payload_size 3; with_data (str "abc");
      with_seqno (seqno_at (isn + 1)); with_no_flags]; AckReceived (seqno_at (isn + 2)) (Some 2); ExpectNoSegment;
      AckReceived (seqno_at (isn + 3)) (Some 1); ExpectNoSegment; AckReceived (seqno_at (isn + 4)) (Some 1);
      ExpectSegment [with_payload_size 0; with_seqno (seqno_at (isn + 4)); with_fin true]]);
   (* line 250 *) (rto,
     [ExpectSegment [with_no_flags; with_syn true; with_payload_size 0; with_seqno (seqno_at isn)];
      WriteBytes (str "abc") false; ExpectNoSegment; AckReceived (seqno_at (isn + 1)) (Some 3);
      ExpectState TCPSenderStateSummary.SYN_ACKED; ExpectSegment [with_payload_size 3; with_data (str "abc");
      with_seqno (seqno_at (isn + 1)); with_no_flags]; Close; ExpectNoSegment; AckReceived (seqno_at (isn + 2)) (Some 2);
      ExpectNoSegment; AckReceived (seqno_at (isn + 3)) (Some 1); ExpectNoSegment; AckReceived (seqno_at (isn + 4)) (Some 1);
      ExpectSegment [with_payload_size 0; with_seqno (seqno_at (isn + 4)); with_fin true]]);
   (* line 301 *) (rto,
     [ExpectSegment [with_no_flags; with_syn true; with_payload_size 0; with_seqno (seqno_at isn)];
      WriteBytes (str "abc") false; ExpectNoSegment; AckReceived (seqno_at (isn + 1)) (Some 0);
      ExpectState TCPSenderStateSummary.SYN_ACKED; ExpectSegment [with_payload_size 1; with_data (str "a");
      with_seqno (seqno_at (isn + 1)); with_no_flags]; Close; ExpectNoSegment] ++
     flat_map (fun i => [Tick (rto - 1) None; ExpectNoSegment; Tick 1 None; ExpectSegment [with_payload_size 1;
          with_data (str "a"); with_seqno (seqno_at (isn + 1)); with_no_flags]]) (upto 5) ++
     [AckReceived (seqno_at (isn + 2)) (Some 0); ExpectSegment [with_payload_size 1; with_data (str "b");
      with_seqno (seqno_at (isn + 2)); with_no_flags]] ++
     flat_map (fun i => [Tick (rto - 1) None; ExpectNoSegment; Tick 1 None; ExpectSegment [with_payload_size 1;
          with_data (str "b"); with_seqno (seqno_at (isn + 2)); with_no_flags]]) (upto 5) ++
     [AckReceived (seqno_at (isn + 3)) (Some 0); ExpectSegment [with_payload_size 1; with_data (str "c");
      with_seqno (seqno_at (isn + 3)); with_no_flags]] ++
     flat_map (fun i => [Tick (rto - 1) None; ExpectNoSegment; Tick 1 None; ExpectSegment [with_payload_size 1;
          with_data (str "c"); with_seqno (seqno_at (isn + 3)); with_no_flags]]) (upto 5) ++
     [AckReceived (seqno_at (isn + 4)) (Some 0); ExpectSegment [with_payload_size 0; with_data (str "");
      with_seqno (seqno_at (isn + 4)); with_fin true]] ++
     flat_map (fun i => [Tick (rto - 1) None; ExpectNoSegment; Tick 1 None; ExpectSegment [with_payload_size 0;
          with_data (str ""); with_seqno (seqno_at (isn + 4)); with_fin true]]) (upto 5));
   (* line 357 *) (rto,
     [ExpectSegment [with_no_flags; with_syn true; with_payload_size 0; with_seqno (seqno_at isn)];
      WriteBytes (str "abc") false; ExpectNoSegment; AckReceived (seqno_at (isn + 1)) (Some 1);
      ExpectState TCPSenderStateSummary.SYN_ACKED; ExpectSegment [with_payload_size 1; with_data (str "a");
      with_seqno (seqno_at (isn + 1)); with_no_flags]; Tick (rto - 1) None; ExpectNoSegment; Tick 1 None;
      ExpectSegment [with_payload_size 1; with_data (str "a"); with_seqno (seqno_at (isn + 1)); with_no_flags]; Close;
      Tick (2 * rto - 1) None; ExpectNoSegment; Tick 1 None; ExpectSegment [with_payload_size 1;
      with_data (str "a"); with_seqno (seqno_at (isn + 1)); with_no_flags]; Tick (4 * rto - 1) None; ExpectNoSegment;
      Tick 1 None; ExpectSegment [with_payload_size 1; with_data (str "a"); with_seqno (seqno_at (isn + 1));
      with_no_flags]; AckReceived (seqno_at (isn + 2)) (Some 3); ExpectSegment [with_payload_size 2;
      with_data (str "bc"); with_seqno (seqno_at (isn + 2)); with_fin true]]);
   (* line 393 *) (rto,
     [ExpectSegment [with_no_flags; with_syn true; with_payload_size 0; with_seqno (seqno_at isn)];
      AckReceived (seqno_at (isn + 1)) (Some 1000); ExpectState TCPSenderStateSummary.SYN_ACKED;
      WriteBytes (str "abcdefg") false; ExpectSegment [with_payload_size 7; with_data (str "abcdefg");
      with_seqno (seqno_at (isn + 1))]; AckReceived (seqno_at (isn + 8)) (Some 1000); ExpectNoSegment;
      AckReceived (seqno_at (isn + 8)) (Some 1000); AckReceived (seqno_at (isn + 8)) (Some 1000);
      AckReceived (seqno_at (isn + 8)) (Some 1000); ExpectNoSegment; AckReceived (seqno_at (isn + 1)) (Some 1000);
      AckReceived (seqno_at (isn + 1)) (Some 1000); AckReceived (seqno_at (isn + 1)) (Some 1000); ExpectNoSegment;
      WriteBytes (str "ijkl") true; ExpectSegment [with_payload_size 4; with_data (str "ijkl");
      with_seqno (seqno_at (isn + 8)); with_fin true]; AckReceived (seqno_at (isn + 1)) (Some 1000);
      AckReceived (seqno_at (isn + 1)) (Some 1000); AckReceived (seqno_at (isn + 1)) (Some 1000);
      AckReceived (seqno_at (isn + 8)) (Some 1000); AckReceived (seqno_at (isn + 8)) (Some 1000);
      AckReceived (seqno_at (isn + 8)) (Some 1000); AckReceived (seqno_at (isn + 12)) (Some 1000);
      AckReceived (seqno_at (isn + 12)) (Some 1000); AckReceived (seqno_at (isn + 12)) (Some 1000);
      AckReceived (seqno_at (isn + 1)) (Some 1000); Tick (5 * rto) None; ExpectSegment [with_payload_size 4;
      with_data (str "ijkl"); with_seqno (seqno_at (isn + 8)); with_fin true]; ExpectNoSegment;
      AckReceived (seqno_at (isn + 13)) (Some 1000); AckReceived (seqno_at (isn + 1)) (Some 1000); Tick (5 * rto) None;
      ExpectNoSegment; ExpectState TCPSenderStateSummary.FIN_ACKED])].

Example send_extra_passes : passes send_extra = true.
Proof. vm_compute. reflexivity. Qed.

End SenderTests.

(** * The receiver *)

Module ReceiverTests.

Inductive ArrivalResult := NOT_SYN | OK.

Definition with_syn (h : TCPHeader * bytes) : TCPHeader * bytes :=
  ({| sport := sport h.1; dport := dport h.1; seqno := seqno h.1; ackno := ackno h.1; doff := doff h.1; urg := urg h.1;
      TCPHeader.ack := TCPHeader.ack h.1; psh := psh h.1; rst := rst h.1; syn := true; fin := fin h.1; win := win h.1;
      cksum := cksum h.1; uptr := uptr h.1 |}, h.2).
Definition with_fin (h : TCPHeader * bytes) : TCPHeader * bytes :=
  ({| sport := sport h.1; dport := dport h.1; seqno := seqno h.1; ackno := ackno h.1; doff := doff h.1; urg := urg h.1;
      TCPHeader.ack := TCPHeader.ack h.1; psh := psh h.1; rst := rst h.1; syn := syn h.1; fin := true; win := win h.1;
      cksum := cksum h.1; uptr := uptr h.1 |}, h.2).
Definition with_ack (n : WrappingInt32) (h : TCPHeader * bytes) : TCPHeader * bytes :=
  ({| sport := sport h.1; dport := dport h.1; seqno := seqno h.1; ackno := n; doff := doff h.1; urg := urg h.1;
      TCPHeader.ack := true; psh := psh h.1; rst := rst h.1; syn := syn h.1; fin := fin h.1; win := win h.1;
      cksum := cksum h.1; uptr := uptr h.1 |}, h.2).
Definition with_seqno (n : WrappingInt32) (h : TCPHeader * bytes) : TCPHeader * bytes :=
  ({| sport := sport h.1; dport := dport h.1; seqno := n; ackno := ackno h.1; doff := doff h.1; urg := urg h.1;
      TCPHeader.ack := TCPHeader.ack h.1; psh := psh h.1; rst := rst h.1; syn := syn h.1; fin := fin h.1; win := win h.1;
      cksum := cksum h.1; uptr := uptr h.1 |}, h.2).
Definition with_data (d : bytes) (h : TCPHeader * bytes) : TCPHeader * bytes := (h.1, d).

(** [SegmentArrives::build_segment]. *)
Definition arriving_segment (changes : list (TCPHeader * bytes -> TCPHeader * bytes)) : TCPSegment :=
  let h := fold_left (fun h f => f h) changes (header_default, []) in
  {| _header := h.1; _payload := buffer_of h.2 |}.

Inductive Step :=
| ExpectState (state : string)
| ExpectAckno (ackno : option WrappingInt32)
| ExpectWindow (n : Z)
| ExpectUnassembledBytes (n : Z)
| ExpectTotalAssembledBytes (n : Z)
| ExpectEof
| ExpectInputNotEnded
| ExpectBytes (data : bytes)
| SegmentArrives (changes : list (TCPHeader * bytes -> TCPHeader * bytes)) (result : option ArrivalResult).

Definition execute (step : Step) (t : TCPReceiver) : option TCPReceiver :=
  match step with
  | ExpectState state => expect (bool_decide (receiver_summary t = state)) t
  | ExpectAckno ackno =>
      expect match receiver_ackno t, ackno with Some a, Some b => wi_eqb a b | None, None => true | _, _ => false end t
  | ExpectWindow n => expect (window_size t =? n) t
  | ExpectUnassembledBytes n => expect (receiver_unassembled_bytes t =? n) t
  | ExpectTotalAssembledBytes n => expect (bytes_written (stream_out t) =? n) t
  | ExpectEof => expect (eof (stream_out t)) t
  | ExpectInputNotEnded => expect (negb (input_ended (stream_out t))) t
  | ExpectBytes data =>
      '(d, out) ← returned (ByteStream.read (stream_out t) (zlen data));
      expect ((buffer_size (stream_out t) =? zlen data) && bytes_eqb d data) (receiver_set_out t out)
  | SegmentArrives changes result =>
      t ← returned (segment_received t (arriving_segment changes));
      expect match result, receiver_ackno t with
             | Some NOT_SYN, Some _ | Some OK, None => false
             | _, _ => true
             end t
  end.

Definition run (test : Z * list Step) : bool := run_steps execute test.2 (tcp_receiver test.1).

Definition draws : list Z := [0; 2 ^ 32 - 1; 2 ^ 32 - 5; 2 ^ 31; 123456789].

Definition passes (tests : Z -> list (Z * list Step)) : bool := forallb (fun isn => forallb run (tests isn)) draws.

(** src/tests/recv_connect.cc. *)
Definition recv_connect (isn : Z) : list (Z * list Step) :=
  [(* line 18 *) (4000,
     [ExpectWindow 4000; ExpectAckno None; ExpectUnassembledBytes 0; ExpectTotalAssembledBytes 0;
      SegmentArrives [with_syn; with_seqno (seqno_at 0)] (Some OK); ExpectAckno (Some (seqno_at 1)); ExpectUnassembledBytes 0;
      ExpectTotalAssembledBytes 0]);
   (* line 30 *) (5435,
     [ExpectAckno None; ExpectUnassembledBytes 0; ExpectTotalAssembledBytes 0; SegmentArrives [with_syn;
      with_seqno (seqno_at 89347598)] (Some OK); ExpectAckno (Some (seqno_at 89347599)); ExpectUnassembledBytes 0;
      ExpectTotalAssembledBytes 0]);
   (* line 41 *) (5435,
     [ExpectAckno None; ExpectUnassembledBytes 0; ExpectTotalAssembledBytes 0;
      SegmentArrives [with_seqno (seqno_at 893475)] (Some NOT_SYN); ExpectAckno None; ExpectUnassembledBytes 0;
      ExpectTotalAssembledBytes 0]);
   (* line 52 *) (5435,
     [ExpectAckno None; ExpectUnassembledBytes 0; ExpectTotalAssembledBytes 0; SegmentArrives [with_ack (seqno_at 0);
      with_fin; with_seqno (seqno_at 893475)] (Some NOT_SYN); ExpectAckno None; ExpectUnassembledBytes 0;
      ExpectTotalAssembledBytes 0]);
   (* line 64 *) (5435,
     [ExpectAckno None; ExpectUnassembledBytes 0; ExpectTotalAssembledBytes 0; SegmentArrives [with_ack (seqno_at 0);
      with_fin; with_seqno (seqno_at 893475)] (Some NOT_SYN); ExpectAckno None; ExpectUnassembledBytes 0;
      ExpectTotalAssembledBytes 0; SegmentArrives [with_syn; with_seqno (seqno_at 89347598)] (Some OK);
      ExpectAckno (Some (seqno_at 89347599)); ExpectUnassembledBytes 0; ExpectTotalAssembledBytes 0]);
   (* line 80 *) (4000,
     [SegmentArrives [with_syn; with_seqno (seqno_at 5); with_fin] (Some OK);
      ExpectState TCPReceiverStateSummary.FIN_RECV; ExpectAckno (Some (seqno_at 7)); ExpectUnassembledBytes 0;
      ExpectTotalAssembledBytes 0]);
   (* line 89 *) (let cap := 65535 + 5 in (cap,
     [ExpectWindow cap]))].

Example recv_connect_passes : passes recv_connect = true.
Proof. vm_compute. reflexivity. Qed.

(** src/tests/recv_transmit.cc. Without the tests at lines 78 and 104. *)
Definition recv_transmit (isn : Z) : list (Z * list Step) :=
  [(* line 20 *) (4000,
     [SegmentArrives [with_syn; with_seqno (seqno_at 0)] (Some OK); SegmentArrives [with_seqno (seqno_at 1);
      with_data (str "abcd")] (Some OK); ExpectAckno (Some (seqno_at 5)); ExpectBytes (str "abcd");
      ExpectUnassembledBytes 0; ExpectTotalAssembledBytes 4]);
   (* line 30 *) (let isn := 384678 in (4000,
     [SegmentArrives [with_syn; with_seqno (seqno_at isn)] (Some OK); SegmentArrives [with_seqno (seqno_at (isn + 1));
      with_data (str "abcd")] (Some OK); ExpectAckno (Some (seqno_at (isn + 5))); ExpectUnassembledBytes 0;
      ExpectTotalAssembledBytes 4; ExpectBytes (str "abcd"); SegmentArrives [with_seqno (seqno_at (isn + 5));
      with_data (str "efgh")] (Some OK); ExpectAckno (Some (seqno_at (isn + 9))); ExpectUnassembledBytes 0;
      ExpectTotalAssembledBytes 8; ExpectBytes (str "efgh")]));
   (* line 48 *) (let isn := 5 in (4000,
     [SegmentArrives [with_syn; with_seqno (seqno_at isn)] (Some OK); SegmentArrives [with_seqno (seqno_at (isn + 1));
      with_data (str "abcd")] (Some OK); ExpectAckno (Some (seqno_at (isn + 5))); ExpectUnassembledBytes 0;
      ExpectTotalAssembledBytes 4; SegmentArrives [with_seqno (seqno_at (isn + 5)); with_data (str "efgh")] (Some OK);
      ExpectAckno (Some (seqno_at (isn + 9))); ExpectUnassembledBytes 0; ExpectTotalAssembledBytes 8;
      ExpectBytes (str "abcdefgh")]))].

Example recv_transmit_passes : passes recv_transmit = true.
Proof. vm_compute. reflexivity. Qed.

(** src/tests/recv_window.cc. *)
Definition recv_window (isn : Z) : list (Z * list Step) :=
  [(* line 18 *) (let isn := 23452 in let cap := 4000 in (cap,
     [SegmentArrives [with_syn; with_seqno (seqno_at isn)] (Some OK); ExpectAckno (Some (seqno_at (isn + 1)));
      ExpectWindow cap; SegmentArrives [with_seqno (seqno_at (isn + 1)); with_data (str "abcd")] (Some OK);
      ExpectAckno (Some (seqno_at (isn + 5))); ExpectWindow (cap - 4); SegmentArrives [with_seqno (seqno_at (isn + 9));
      with_data (str "ijkl")] (Some OK); ExpectAckno (Some (seqno_at (isn + 5))); ExpectWindow (cap - 4);
      SegmentArrives [with_seqno (seqno_at (isn + 5)); with_data (str "efgh")] (Some OK);
      ExpectAckno (Some (seqno_at (isn + 13))); ExpectWindow (cap - 12)]));
   (* line 40 *) (let isn := 23452 in let cap := 4000 in (cap,
     [SegmentArrives [with_syn; with_seqno (seqno_at isn)] (Some OK); ExpectAckno (Some (seqno_at (isn + 1)));
      ExpectWindow cap; SegmentArrives [with_seqno (seqno_at (isn + 1)); with_data (str "abcd")] (Some OK);
      ExpectAckno (Some (seqno_at (isn + 5))); ExpectWindow (cap - 4); ExpectBytes (str "abcd");
      ExpectAckno (Some (seqno_at (isn + 5))); ExpectWindow cap]));
   (* line 75 *) (let isn := 23452 in let cap := 2 in (cap,
     [SegmentArrives [with_syn; with_seqno (seqno_at isn)] (Some OK); SegmentArrives [with_seqno (seqno_at (isn + 2));
      with_data (str "bc")] (Some OK); ExpectTotalAssembledBytes 0; SegmentArrives [with_seqno (seqno_at (isn + 1));
      with_data (str "a")] (Some OK); ExpectAckno (Some (seqno_at (isn + 3))); ExpectWindow 0;
      ExpectTotalAssembledBytes 2; ExpectBytes (str "ab"); ExpectWindow 2]));
   (* line 107 *) (let isn := 294058 in let cap := 4 in (cap,
     [SegmentArrives [with_syn; with_seqno (seqno_at isn)] (Some OK); SegmentArrives [with_data (str "ab");
      with_seqno (seqno_at (isn + 1))] (Some OK); ExpectTotalAssembledBytes 2; ExpectWindow (cap - 2);
      SegmentArrives [with_data (str "abc"); with_seqno (seqno_at (isn + 1))] (Some OK); ExpectTotalAssembledBytes 3;
      ExpectWindow (cap - 3)]));
   (* line 150 *) (let isn := 23452 in let cap := 4 in (cap,
     [SegmentArrives [with_syn; with_seqno (seqno_at isn)] (Some OK); SegmentArrives [with_seqno (seqno_at (isn + 1));
      with_data (str "ab")] (Some OK); SegmentArrives [with_seqno (seqno_at (isn + 3)); with_data (str "cdef")] (Some OK)]));
   (* line 161 *) (let isn := 23452 in let cap := 4 in (cap,
     [SegmentArrives [with_syn; with_seqno (seqno_at isn)] (Some OK); SegmentArrives [with_seqno (seqno_at (isn + 1));
      with_data (str "ab")] (Some OK); SegmentArrives [with_seqno (seqno_at (isn + 3)); with_data (str "cd")] (Some OK)]));
   (* line 172 *) (let isn := 23452 in let cap := 4 in (cap,
     [SegmentArrives [with_syn; with_seqno (seqno_at isn)] (Some OK); SegmentArrives [with_seqno (seqno_at isn);
      with_data (str "a")] (Some OK); ExpectTotalAssembledBytes 0]))].

Example recv_window_passes : passes recv_window = true.
Proof. vm_compute. reflexivity. Qed.

(** src/tests/recv_reorder.cc. *)
Definition recv_reorder (isn : Z) : list (Z * list Step) :=
  [(* line 21 *) (2358,
     [SegmentArrives [with_syn; with_seqno (seqno_at isn)] (Some OK); ExpectAckno (Some (seqno_at (isn + 1)));
      SegmentArrives [with_seqno (seqno_at (isn + 10)); with_data (str "abcd")] (Some OK);
      ExpectAckno (Some (seqno_at (isn + 1))); ExpectBytes (str ""); ExpectUnassembledBytes 4;
      ExpectTotalAssembledBytes 0]);
   (* line 35 *) (2358,
     [SegmentArrives [with_syn; with_seqno (seqno_at isn)] (Some OK); ExpectAckno (Some (seqno_at (isn + 1)));
      SegmentArrives [with_seqno (seqno_at (isn + 5)); with_data (str "efgh")] (Some OK);
      ExpectAckno (Some (seqno_at (isn + 1))); ExpectBytes (str ""); ExpectUnassembledBytes 4;
      ExpectTotalAssembledBytes 0; SegmentArrives [with_seqno (seqno_at (isn + 1)); with_data (str "abcd")] (Some OK);
      ExpectAckno (Some (seqno_at (isn + 9))); ExpectBytes (str "abcdefgh"); ExpectUnassembledBytes 0;
      ExpectTotalAssembledBytes 8]);
   (* line 55 *) (2358,
     [SegmentArrives [with_syn; with_seqno (seqno_at isn)] (Some OK); ExpectAckno (Some (seqno_at (isn + 1)));
      SegmentArrives [with_seqno (seqno_at (isn + 5)); with_data (str "efgh")] (Some OK);
      ExpectAckno (Some (seqno_at (isn + 1))); ExpectBytes (str ""); ExpectUnassembledBytes 4;
      ExpectTotalAssembledBytes 0; SegmentArrives [with_seqno (seqno_at (isn + 1)); with_data (str "ab")] (Some OK);
      ExpectAckno (Some (seqno_at (isn + 3))); ExpectBytes (str "ab"); ExpectUnassembledBytes 4;
      ExpectTotalAssembledBytes 2; SegmentArrives [with_seqno (seqno_at (isn + 3)); with_data (str "cd")] (Some OK);
      ExpectAckno (Some (seqno_at (isn + 9))); ExpectBytes (str "cdefgh"); ExpectUnassembledBytes 0;
      ExpectTotalAssembledBytes 8]);
   (* line 79 *) (2358,
     [SegmentArrives [with_syn; with_seqno (seqno_at isn)] (Some OK); ExpectAckno (Some (seqno_at (isn + 1)));
      SegmentArrives [with_seqno (seqno_at (isn + 5)); with_data (str "e")] (Some OK);
      ExpectAckno (Some (seqno_at (isn + 1))); ExpectBytes (str ""); ExpectUnassembledBytes 1;
      ExpectTotalAssembledBytes 0; SegmentArrives [with_seqno (seqno_at (isn + 7)); with_data (str "g")] (Some OK);
      ExpectAckno (Some (seqno_at (isn + 1))); ExpectBytes (str ""); ExpectUnassembledBytes 2;
      ExpectTotalAssembledBytes 0; SegmentArrives [with_seqno (seqno_at (isn + 3)); with_data (str "c")] (Some OK);
      ExpectAckno (Some (seqno_at (isn + 1))); ExpectBytes (str ""); ExpectUnassembledBytes 3;
      ExpectTotalAssembledBytes 0; SegmentArrives [with_seqno (seqno_at (isn + 1)); with_data (str "ab")] (Some OK);
      ExpectAckno (Some (seqno_at (isn + 4))); ExpectBytes (str "abc"); ExpectUnassembledBytes 2;
      ExpectTotalAssembledBytes 3; SegmentArrives [with_seqno (seqno_at (isn + 6)); with_data (str "f")] (Some OK);
      ExpectUnassembledBytes 3; ExpectTotalAssembledBytes 3; ExpectBytes (str "");
      SegmentArrives [with_seqno (seqno_at (isn + 4)); with_data (str "d")] (Some OK); ExpectUnassembledBytes 0;
      ExpectTotalAssembledBytes 7; ExpectBytes (str "defg")]);
   (* line 115 *) (2358,
     [SegmentArrives [with_syn; with_seqno (seqno_at isn)] (Some OK); ExpectAckno (Some (seqno_at (isn + 1)));
      SegmentArrives [with_seqno (seqno_at (isn + 5)); with_data (str "e")] (Some OK);
      ExpectAckno (Some (seqno_at (isn + 1))); ExpectBytes (str ""); ExpectUnassembledBytes 1;
      ExpectTotalAssembledBytes 0; SegmentArrives [with_seqno (seqno_at (isn + 7)); with_data (str "g")] (Some OK);
      ExpectAckno (Some (seqno_at (isn + 1))); ExpectBytes (str ""); ExpectUnassembledBytes 2;
      ExpectTotalAssembledBytes 0; SegmentArrives [with_seqno (seqno_at (isn + 3)); with_data (str "c")] (Some OK);
      ExpectAckno (Some (seqno_at (isn + 1))); ExpectBytes (str ""); ExpectUnassembledBytes 3;
      ExpectTotalAssembledBytes 0; SegmentArrives [with_seqno (seqno_at (isn + 1));
      with_data (str "abcdefgh")] (Some OK); ExpectAckno (Some (seqno_at (isn + 9))); ExpectBytes (str "abcdefgh");
      ExpectUnassembledBytes 0; ExpectTotalAssembledBytes 8])].

Example recv_reorder_passes : passes recv_reorder = true.
Proof. vm_compute. reflexivity. Qed.

(** src/tests/recv_close.cc. *)
Definition recv_close (isn : Z) : list (Z * list Step) :=
  [(* line 18 *) (4000,
     [ExpectState TCPReceiverStateSummary.LISTEN; SegmentArrives [with_syn; with_seqno (seqno_at (isn + 0))] (Some OK);
      ExpectState TCPReceiverStateSummary.SYN_RECV; SegmentArrives [with_fin; with_seqno (seqno_at (isn + 1))] (Some OK);
      ExpectAckno (Some (seqno_at (isn + 2))); ExpectUnassembledBytes 0; ExpectBytes (str "");
      ExpectTotalAssembledBytes 0; ExpectState TCPReceiverStateSummary.FIN_RECV]);
   (* line 32 *) (4000,
     [ExpectState TCPReceiverStateSummary.LISTEN; SegmentArrives [with_syn; with_seqno (seqno_at (isn + 0))] (Some OK);
      ExpectState TCPReceiverStateSummary.SYN_RECV; SegmentArrives [with_fin; with_seqno (seqno_at (isn + 1));
      with_data (str "a")] (Some OK); ExpectState TCPReceiverStateSummary.FIN_RECV;
      ExpectAckno (Some (seqno_at (isn + 3))); ExpectUnassembledBytes 0; ExpectBytes (str "a");
      ExpectTotalAssembledBytes 1; ExpectState TCPReceiverStateSummary.FIN_RECV])].

Example recv_close_passes : passes recv_close = true.
Proof. vm_compute. reflexivity. Qed.

(** src/tests/recv_special.cc. Without the test at line 70. *)
Definition recv_special (isn : Z) : list (Z * list Step) :=
  [(* line 19 *) (4000,
     [ExpectState TCPReceiverStateSummary.LISTEN; SegmentArrives [with_seqno (seqno_at (isn + 1));
      with_data (str "hello")] (Some NOT_SYN); ExpectState TCPReceiverStateSummary.LISTEN; ExpectUnassembledBytes 0;
      ExpectBytes (str ""); ExpectTotalAssembledBytes 0; SegmentArrives [with_syn; with_seqno (seqno_at isn)] (Some OK);
      ExpectState TCPReceiverStateSummary.SYN_RECV; ExpectAckno (Some (seqno_at (isn + 1)))]);
   (* line 35 *) (4000,
     [ExpectState TCPReceiverStateSummary.LISTEN; SegmentArrives [with_syn; with_seqno (seqno_at isn);
      with_data (str "Hello, CS144!")] (Some OK); ExpectState TCPReceiverStateSummary.SYN_RECV;
      ExpectAckno (Some (seqno_at (isn + 14))); ExpectUnassembledBytes 0; ExpectBytes (str "Hello, CS144!")]);
   (* line 51 *) (4000,
     [ExpectState TCPReceiverStateSummary.LISTEN; SegmentArrives [with_syn; with_seqno (seqno_at isn)] (Some OK);
      ExpectState TCPReceiverStateSummary.SYN_RECV; ExpectAckno (Some (seqno_at (isn + 1))); ExpectUnassembledBytes 0;
      SegmentArrives [with_syn; with_seqno (seqno_at (isn + 1))] (Some OK); ExpectUnassembledBytes 0;
      ExpectTotalAssembledBytes 0; ExpectInputNotEnded; SegmentArrives [with_syn;
      with_seqno (seqno_at (isn + 5))] (Some OK); ExpectUnassembledBytes 0; ExpectTotalAssembledBytes 0;
      ExpectInputNotEnded]);
   (* line 86 *) (4000,
     [ExpectState TCPReceiverStateSummary.LISTEN; SegmentArrives [with_syn; with_seqno (seqno_at isn)] (Some OK);
      ExpectState TCPReceiverStateSummary.SYN_RECV; SegmentArrives [with_fin; with_data (str "Goodbye, CS144!");
      with_seqno (seqno_at (isn + 1))] (Some OK); ExpectState TCPReceiverStateSummary.FIN_RECV;
      ExpectBytes (str "Goodbye, CS144!"); ExpectAckno (Some (seqno_at (isn + 17))); ExpectEof]);
   (* line 104 *) (4000,
     [ExpectState TCPReceiverStateSummary.LISTEN; SegmentArrives [with_syn; with_seqno (seqno_at isn)] (Some OK);
      ExpectState TCPReceiverStateSummary.SYN_RECV; SegmentArrives [with_fin; with_data (str "oodbye, CS144!");
      with_seqno (seqno_at (isn + 2))] (Some OK); ExpectState TCPReceiverStateSummary.SYN_RECV; ExpectBytes (str "");
      ExpectAckno (Some (seqno_at (isn + 1))); ExpectInputNotEnded; SegmentArrives [with_data (str "G");
      with_seqno (seqno_at (isn + 1))] (Some OK); ExpectState TCPReceiverStateSummary.FIN_RECV;
      ExpectBytes (str "Goodbye, CS144!"); ExpectAckno (Some (seqno_at (isn + 17))); ExpectEof]);
   (* line 127 *) (4000,
     [ExpectState TCPReceiverStateSummary.LISTEN; SegmentArrives [with_syn; with_seqno (seqno_at isn);
      with_data (str "Hello and goodbye, CS144!"); with_fin] (Some OK);
      ExpectState TCPReceiverStateSummary.FIN_RECV; ExpectAckno (Some (seqno_at (isn + 27))); ExpectUnassembledBytes 0;
      ExpectBytes (str "Hello and goodbye, CS144!"); ExpectEof])].

Example recv_special_passes : passes recv_special = true.
Proof. vm_compute. reflexivity. Qed.

End ReceiverTests.

(** * The reassembler *)

Module ReassemblerTests.

Inductive Step :=
| BytesAvailable (data : bytes)
| BytesAssembled (n : Z)
| UnassembledBytes (n : Z)
| AtEof
| NotAtEof
| SubmitSegment (data : bytes) (index : Z) (eof : bool).

Definition execute (step : Step) (r : StreamReassembler) : option StreamReassembler :=
  match step with
  | BytesAvailable data =>
      '(d, out) ← returned (ByteStream.read (_output r) (zlen data));
      expect ((buffer_size (_output r) =? zlen data) && bytes_eqb d data) (set_stream_out r out)
  | BytesAssembled n => expect (bytes_written (_output r) =? n) r
  | UnassembledBytes n => expect (unassembled_bytes r =? n) r
  | AtEof => expect (eof (_output r)) r
  | NotAtEof => expect (negb (eof (_output r))) r
  | SubmitSegment data index e => returned (push_substring r data index e)
  end.

Definition run (test : Z * list Step) : bool := run_steps execute test.2 (stream_reassembler test.1).

(** src/tests/fsm_stream_reassembler_single.cc. *)
Definition fsm_stream_reassembler_single : list (Z * list Step) :=
  [(* line 13 *) (65000,
     [BytesAssembled 0; BytesAvailable (str ""); NotAtEof]);
   (* line 21 *) (65000,
     [SubmitSegment (str "a") 0 false; BytesAssembled 1; BytesAvailable (str "a"); NotAtEof]);
   (* line 31 *) (65000,
     [SubmitSegment (str "a") 0 true; BytesAssembled 1; BytesAvailable (str "a"); AtEof]);
   (* line 41 *) (65000,
     [SubmitSegment (str "") 0 true; BytesAssembled 0; BytesAvailable (str ""); AtEof]);
   (* line 51 *) (65000,
     [SubmitSegment (str "b") 0 true; BytesAssembled 1; BytesAvailable (str "b"); AtEof]);
   (* line 61 *) (65000,
     [SubmitSegment (str "") 0 false; BytesAssembled 0; BytesAvailable (str ""); NotAtEof]);
   (* line 71 *) (8,
     [SubmitSegment (str "abcdefgh") 0 false; BytesAssembled 8; BytesAvailable (str "abcdefgh"); NotAtEof]);
   (* line 81 *) (8,
     [SubmitSegment (str "abcdefgh") 0 true; BytesAssembled 8; BytesAvailable (str "abcdefgh"); AtEof]);
   (* line 91 *) (8,
     [SubmitSegment (str "abc") 0 false; BytesAssembled 3; SubmitSegment (str "bcdefgh") 1 true; BytesAssembled 8;
      BytesAvailable (str "abcdefgh"); AtEof]);
   (* line 104 *) (8,
     [SubmitSegment (str "abc") 0 false; BytesAssembled 3; NotAtEof; SubmitSegment (str "ghX") 6 true;
      BytesAssembled 3; NotAtEof; SubmitSegment (str "cdefg") 2 false; BytesAssembled 8;
      BytesAvailable (str "abcdefgh"); NotAtEof]);
   (* line 122 *) (8,
     [SubmitSegment (str "abc") 0 false; BytesAssembled 3; NotAtEof; SubmitSegment (str "") 6 false;
      BytesAssembled 3; NotAtEof; SubmitSegment (str "de") 3 true; BytesAssembled 5; BytesAvailable (str "abcde");
      AtEof])].

Example fsm_stream_reassembler_single_passes : forallb run fsm_stream_reassembler_single = true.
Proof. vm_compute. reflexivity. Qed.

(** src/tests/fsm_stream_reassembler_seq.cc. Without the tests at lines 40 and 56. *)
Definition fsm_stream_reassembler_seq : list (Z * list Step) :=
  [(* line 13 *) (65000,
     [SubmitSegment (str "abcd") 0 false; BytesAssembled 4; BytesAvailable (str "abcd"); NotAtEof;
      SubmitSegment (str "efgh") 4 false; BytesAssembled 8; BytesAvailable (str "efgh"); NotAtEof]);
   (* line 27 *) (65000,
     [SubmitSegment (str "abcd") 0 false; BytesAssembled 4; NotAtEof; SubmitSegment (str "efgh") 4 false;
      BytesAssembled 8; BytesAvailable (str "abcdefgh"); NotAtEof])].

Example fsm_stream_reassembler_seq_passes : forallb run fsm_stream_reassembler_seq = true.
Proof. vm_compute. reflexivity. Qed.

(** src/tests/fsm_stream_reassembler_dup.cc. Without the test at line 53. *)
Definition fsm_stream_reassembler_dup : list (Z * list Step) :=
  [(* line 15 *) (65000,
     [SubmitSegment (str "abcd") 0 false; BytesAssembled 4; BytesAvailable (str "abcd"); NotAtEof;
      SubmitSegment (str "abcd") 0 false; BytesAssembled 4; BytesAvailable (str ""); NotAtEof]);
   (* line 29 *) (65000,
     [SubmitSegment (str "abcd") 0 false; BytesAssembled 4; BytesAvailable (str "abcd"); NotAtEof;
      SubmitSegment (str "abcd") 4 false; BytesAssembled 8; BytesAvailable (str "abcd"); NotAtEof;
      SubmitSegment (str "abcd") 0 false; BytesAssembled 8; BytesAvailable (str ""); NotAtEof;
      SubmitSegment (str "abcd") 4 false; BytesAssembled 8; BytesAvailable (str ""); NotAtEof]);
   (* line 78 *) (65000,
     [SubmitSegment (str "abcd") 0 false; BytesAssembled 4; BytesAvailable (str "abcd"); NotAtEof;
      SubmitSegment (str "abcdef") 0 false; BytesAssembled 6; BytesAvailable (str "ef"); NotAtEof])].

Example fsm_stream_reassembler_dup_passes : forallb run fsm_stream_reassembler_dup = true.
Proof. vm_compute. reflexivity. Qed.

(** src/tests/fsm_stream_reassembler_holes.cc. *)
Definition fsm_stream_reassembler_holes : list (Z * list Step) :=
  [(* line 13 *) (65000,
     [SubmitSegment (str "b") 1 false; BytesAssembled 0; BytesAvailable (str ""); NotAtEof]);
   (* line 23 *) (65000,
     [SubmitSegment (str "b") 1 false; SubmitSegment (str "a") 0 false; BytesAssembled 2;
      BytesAvailable (str "ab"); NotAtEof]);
   (* line 34 *) (65000,
     [SubmitSegment (str "b") 1 true; BytesAssembled 0; BytesAvailable (str ""); NotAtEof;
      SubmitSegment (str "a") 0 false; BytesAssembled 2; BytesAvailable (str "ab"); AtEof]);
   (* line 50 *) (65000,
     [SubmitSegment (str "b") 1 false; SubmitSegment (str "ab") 0 false; BytesAssembled 2;
      BytesAvailable (str "ab"); NotAtEof]);
   (* line 61 *) (65000,
     [SubmitSegment (str "b") 1 false; BytesAssembled 0; BytesAvailable (str ""); NotAtEof;
      SubmitSegment (str "d") 3 false; BytesAssembled 0; BytesAvailable (str ""); NotAtEof;
      SubmitSegment (str "c") 2 false; BytesAssembled 0; BytesAvailable (str ""); NotAtEof;
      SubmitSegment (str "a") 0 false; BytesAssembled 4; BytesAvailable (str "abcd"); NotAtEof]);
   (* line 86 *) (65000,
     [SubmitSegment (str "b") 1 false; BytesAssembled 0; BytesAvailable (str ""); NotAtEof;
      SubmitSegment (str "d") 3 false; BytesAssembled 0; BytesAvailable (str ""); NotAtEof;
      SubmitSegment (str "abc") 0 false; BytesAssembled 4; BytesAvailable (str "abcd"); NotAtEof]);
   (* line 106 *) (65000,
     [SubmitSegment (str "b") 1 false; BytesAssembled 0; BytesAvailable (str ""); NotAtEof;
      SubmitSegment (str "d") 3 false; BytesAssembled 0; BytesAvailable (str ""); NotAtEof;
      SubmitSegment (str "a") 0 false; BytesAssembled 2; BytesAvailable (str "ab"); NotAtEof;
      SubmitSegment (str "c") 2 false; BytesAssembled 4; BytesAvailable (str "cd"); NotAtEof;
      SubmitSegment (str "") 4 true; BytesAssembled 4; BytesAvailable (str ""); AtEof])].

Example fsm_stream_reassembler_holes_passes : forallb run fsm_stream_reassembler_holes = true.
Proof. vm_compute. reflexivity. Qed.

(** src/tests/fsm_stream_reassembler_overlapping.cc. *)
Definition fsm_stream_reassembler_overlapping : list (Z * list Step) :=
  [(* line 13 *) (let cap := 1000 in (cap,
     [SubmitSegment (str "a") 0 false; SubmitSegment (str "ab") 0 false; BytesAssembled 2;
      BytesAvailable (str "ab")]));
   (* line 25 *) (let cap := 1000 in (cap,
     [SubmitSegment (str "a") 0 false; BytesAvailable (str "a"); SubmitSegment (str "ab") 0 false;
      BytesAvailable (str "b"); BytesAssembled 2]));
   (* line 38 *) (let cap := 1000 in (cap,
     [SubmitSegment (str "b") 1 false; BytesAvailable (str ""); SubmitSegment (str "ab") 0 false;
      BytesAvailable (str "ab"); UnassembledBytes 0; BytesAssembled 2]));
   (* line 51 *) (let cap := 1000 in (cap,
     [SubmitSegment (str "b") 1 false; BytesAvailable (str ""); SubmitSegment (str "bc") 1 false;
      BytesAvailable (str ""); UnassembledBytes 2; BytesAssembled 0]));
   (* line 64 *) (let cap := 1000 in (cap,
     [SubmitSegment (str "c") 2 false; BytesAvailable (str ""); SubmitSegment (str "bcd") 1 false;
      BytesAvailable (str ""); UnassembledBytes 3; BytesAssembled 0]));
   (* line 78 *) (let cap := 1000 in (cap,
     [SubmitSegment (str "b") 1 false; SubmitSegment (str "d") 3 false; BytesAvailable (str "");
      SubmitSegment (str "bcde") 1 false; BytesAvailable (str ""); BytesAssembled 0; UnassembledBytes 4]));
   (* line 93 *) (let cap := 1000 in (cap,
     [SubmitSegment (str "c") 2 false; SubmitSegment (str "bcd") 1 false; BytesAvailable (str "");
      BytesAssembled 0; UnassembledBytes 3; SubmitSegment (str "a") 0 false; BytesAvailable (str "abcd");
      BytesAssembled 4; UnassembledBytes 0]));
   (* line 111 *) (let cap := 1000 in (cap,
     [SubmitSegment (str "bcd") 1 false; SubmitSegment (str "c") 2 false; BytesAvailable (str "");
      BytesAssembled 0; UnassembledBytes 3; SubmitSegment (str "a") 0 false; BytesAvailable (str "abcd");
      BytesAssembled 4; UnassembledBytes 0]))].

Example fsm_stream_reassembler_overlapping_passes : forallb run fsm_stream_reassembler_overlapping = true.
Proof. vm_compute. reflexivity. Qed.

(** src/tests/fsm_stream_reassembler_cap.cc. Without the test at line 100. *)
Definition fsm_stream_reassembler_cap : list (Z * list Step) :=
  [(* line 13 *) (2,
     [SubmitSegment (str "ab") 0 false; BytesAssembled 2; BytesAvailable (str "ab");
      SubmitSegment (str "cd") 2 false; BytesAssembled 4; BytesAvailable (str "cd");
      SubmitSegment (str "ef") 4 false; BytesAssembled 6; BytesAvailable (str "ef")]);
   (* line 29 *) (2,
     [SubmitSegment (str "ab") 0 false; BytesAssembled 2; SubmitSegment (str "cd") 2 false; BytesAssembled 2;
      BytesAvailable (str "ab"); BytesAssembled 2; SubmitSegment (str "cd") 2 false; BytesAssembled 4;
      BytesAvailable (str "cd")]);
   (* line 47 *) (2,
     [SubmitSegment (str "bX") 1 false; BytesAssembled 0; SubmitSegment (str "a") 0 false; BytesAssembled 2;
      BytesAvailable (str "ab")]);
   (* line 59 *) (1,
     [SubmitSegment (str "ab") 0 false; BytesAssembled 1; SubmitSegment (str "ab") 0 false; BytesAssembled 1;
      BytesAvailable (str "a"); BytesAssembled 1; SubmitSegment (str "abc") 0 false; BytesAssembled 2;
      BytesAvailable (str "b"); BytesAssembled 2]);
   (* line 78 *) (8,
     [SubmitSegment (str "a") 0 false; BytesAssembled 1; BytesAvailable (str "a"); NotAtEof;
      SubmitSegment (str "bc") 1 false; BytesAssembled 3; NotAtEof; SubmitSegment (str "ghi") 6 true;
      BytesAssembled 3; NotAtEof; SubmitSegment (str "cdefg") 2 false; BytesAssembled 9;
      BytesAvailable (str "bcdefghi"); AtEof])].

Example fsm_stream_reassembler_cap_passes : forallb run fsm_stream_reassembler_cap = true.
Proof. vm_compute. reflexivity. Qed.

End ReassemblerTests.
