(* ===== verification/Util.v ===== *)
(** The rest of util/util.hh and util/util.cc: the clock [timestamp_ms], [hexdump], and the
    texts of the exceptions of [tagged_error], [unix_error] and [gai_error_category]
    (util/address.cc). The steady clock is the sequence of its readings. *)
From S2P Require Import Prelude Text.

(** * The clock *)

(** [program_start] is a static local variable: it gets its value when the function is
    called for the first time. [readings] counts the calls of [steady_clock::now]. *)
Record clock_state := { program_start : option Z; readings : nat }.

Definition clock_init : clock_state := {| program_start := None; readings := 0 |}.

Section clock.
(** The readings of [steady_clock::now], in nanoseconds. *)
Variable now : nat -> Z.

Definition timestamp_ms (c : clock_state) : Z * clock_state :=
  let '(start, k) :=
    match program_start c with
    | Some t => (t, readings c)
    | None => (now (readings c), S (readings c))
    end in
  (to_u64 (Z.quot (now k - start) 1000000), {| program_start := Some start; readings := S k |}).

(** The results of [n] calls. *)
Fixpoint timestamps (n : nat) (c : clock_state) : list Z :=
  match n with
  | O => []
  | S n' => let '(t, c') := timestamp_ms c in t :: timestamps n' c'
  end.
End clock.

(** * The texts of exceptions *)

Section texts.
(** [strerror] and [gai_strerror], and the texts of the exceptions the standard library
    throws itself. *)
Variables strerror gai_strerror : Z -> bytes.
Variable library_text : exception -> bytes.

(** [std::system_category] and the class [gai_error_category]: the message for a code. *)
Inductive error_category := system_category | gai_error_category.

Definition category_message (c : error_category) (code : Z) : bytes :=
  match c with system_category => strerror code | gai_error_category => gai_strerror code end.

(** [tagged_error(category, attempt, error_code).what()]; [std::system_error::what] is the
    message its category has for the code. *)
Definition tagged_what (category : error_category) (attempt : bytes) (error_code : Z) : bytes :=
  c_string (attempt ++ str ": " ++ category_message category error_code).

Definition what (e : exception) : bytes :=
  match e with
  | unix_error attempt errno => tagged_what system_category attempt errno
  | gai_error attempt code => tagged_what gai_error_category attempt code
  | runtime_error text => c_string text
  | _ => library_text e
  end.
End texts.

(** * Streams *)

(** What [hexdump] uses of [std::cout]: the characters written, the base of integers (a flag)
    and the fill character, which is not a flag. *)
Record ostream := { written : bytes; basefield : Z; fill : Init.Byte.byte }.

Definition put (s : bytes) (o : ostream) : ostream :=
  {| written := written o ++ s; basefield := basefield o; fill := fill o |}.

(** [o << std::setw(width) << n]. *)
Definition put_int (width : nat) (n : Z) (o : ostream) : ostream :=
  put (pad_left width (fill o) (show_base (basefield o) n)) o.

(** A [std::stringstream] opened for reading and writing on an initial text: it writes over
    that text from its beginning. *)
Record stringstream := { text : bytes; put_pos : nat }.

Definition stringstream_of (s : bytes) : stringstream := {| text := s; put_pos := 0 |}.

Definition put_char (c : Init.Byte.byte) (ss : stringstream) : stringstream :=
  {| text := take (put_pos ss) (text ss) ++ c :: drop (S (put_pos ss)) (text ss); put_pos := S (put_pos ss) |}.

(** * Hexdump *)

Definition printable (c : Init.Byte.byte) : Init.Byte.byte := if is_print c then c else byte.of_Z 46.

Definition spaces (n : nat) : bytes := replicate n (byte.of_Z 32).
Definition eol : bytes := [byte.of_Z 10].

Record dump := { cout : ostream; pchars : stringstream; printed : Z }.

(** The body of the loop, for the byte [c]. *)
Definition dump_byte (indent_string : bytes) (c : Init.Byte.byte) (d : dump) : dump :=
  let d :=
    if Z.land (printed d) 15 =? 0 then
      let d :=
        if negb (printed d =? 0) then
          {| cout := put eol (put (text (pchars d)) (put (str "    ") (cout d)));
             pchars := stringstream_of (str " "); printed := printed d |}
        else d in
      {| cout := put (str ":    ") (put_int 8 (printed d) (put indent_string (cout d)));
         pchars := pchars d; printed := printed d |}
    else if Z.land (printed d) 1 =? 0 then
      {| cout := put (str " ") (cout d); pchars := pchars d; printed := printed d |}
    else d in
  {| cout := put_int 2 (byte.unsigned c) (cout d);
     pchars := put_char (printable c) (pchars d);
     printed := printed d + 1 |}.

(** The loop over the bytes; [printed] is an [int]. *)
Fixpoint dump_loop (indent_string data : bytes) (d : dump) : outcome dump :=
  match data with
  | [] => Ok d
  | c :: data' =>
      if printed d =? 2 ^ 31 - 1 then Undefined
      else dump_loop indent_string data' (dump_byte indent_string c d)
  end.

(** [hexdump(data, len, indent)] for the [len] bytes [data]. *)
Definition hexdump (data : bytes) (indent : nat) (o : ostream) : outcome ostream :=
  let flags := basefield o in
  d ← dump_loop (spaces indent) data
        {| cout := {| written := written o; basefield := 16; fill := byte.of_Z 48 |};
           pchars := stringstream_of (str " "); printed := 0 |};
  let print_rem := (16 - Z.land (printed d) 15) mod 16 in
  let o' := put (spaces (Z.to_nat (2 * print_rem + print_rem / 2 + 4))) (cout d) in
  let o' := put (eol ++ eol) (put (text (pchars d)) o') in
  Ok {| written := written o'; basefield := flags; fill := fill o' |}.

(** * The reference picture *)

Definition pad_right (width : nat) (s : bytes) : bytes := s ++ spaces (width - length s).

(** Byte [i] of a row: two hexadecimal digits, after a space when it starts a new pair. *)
Definition cell (i : nat) (c : Init.Byte.byte) : bytes :=
  (if negb (i =? 0)%nat && Nat.even i then str " " else []) ++
  pad_left 2 (byte.of_Z 48) (show_base 16 (byte.unsigned c)).

(** A row of at most sixteen bytes at [offset]: indentation, offset, the bytes in a column
    39 characters wide, and the characters. *)
Definition row (indent : nat) (offset : Z) (r : bytes) : bytes :=
  spaces indent ++ pad_left 8 (byte.of_Z 48) (show_base 16 offset) ++ str ":    " ++
  pad_right 39 (concat (imap cell r)) ++ str "    " ++ map printable r.

(** The rows, each with its end of line. *)
Fixpoint rows (fuel : nat) (indent : nat) (offset : Z) (data : bytes) : bytes :=
  match fuel, data with
  | S fuel', _ :: _ => row indent offset (take 16 data) ++ eol ++ rows fuel' indent (offset + 16) (drop 16 data)
  | _, _ => []
  end.

Definition picture (indent : nat) (data : bytes) : bytes :=
  match data with
  | [] => spaces 5 ++ eol ++ eol
  | _ => rows (length data) indent 0 data ++ eol
  end.

(** * Lemmas *)

(** ** The clock *)

Section clock_lemmas.
Context (now : nat -> Z).

(** Later calls measure from the reading of the first one. *)
Lemma timestamps_started n start k :
  (forall j, now j <= now (S j)) -> start <= now k -> (forall j, now j - start < 2 ^ 64) ->
  timestamps now n {| program_start := Some start; readings := k |}
  = map (fun i => (now (k + i)%nat - start) / 1000000) (seq 0 n).
Proof.
  intros Hmono. revert k. induction n as [|n IH]; intros k Hk Hb; [done|].
  cbn [timestamps]. unfold timestamp_ms at 1. cbn [program_start readings].
  rewrite Z.quot_div_nonneg by lia. pose proof (Hb k). rewrite to_u64_small by (split; [apply Z.div_pos | apply Z.div_lt_upper_bound]; lia).
  rewrite IH; [|specialize (Hmono k); lia | done].
  cbn [seq map]. rewrite Nat.add_0_r. f_equal. rewrite <- seq_shift, map_map.
  apply map_ext. intros i. by rewrite Nat.add_succ_comm.
Qed.
End clock_lemmas.

(** ** The characters of a row *)

(** The stream of a row whose characters so far are [r]. *)
Definition row_chars (r : bytes) : stringstream :=
  match r with [] => stringstream_of (str " ") | _ => {| text := r; put_pos := length r |} end.

Lemma put_char_row r c : put_char c (row_chars r) = row_chars (r ++ [c]).
Proof.
  destruct r as [|x r]; [done|]. unfold row_chars, put_char. cbn [text put_pos app]. f_equal.
  - rewrite firstn_all. rewrite drop_ge by lia. done.
  - simpl. rewrite length_app. simpl. lia.
Qed.

(** ** The columns of a row *)

Lemma hex2_length (c : Init.Byte.byte) : length (pad_left 2 (byte.of_Z 48) (show_base 16 (byte.unsigned c))) = 2%nat.
Proof. apply pad_left_length, (show_base_length 16 1); [lia|]. pose proof (byte.unsigned_range c). lia. Qed.

Lemma cell_length i c : length (cell i c) = ((if negb (i =? 0)%nat && Nat.even i then 1 else 0) + 2)%nat.
Proof. unfold cell. rewrite length_app, hex2_length. by case_if. Qed.

Lemma cell_eq i c : cell i c =
  (if negb (i =? 0)%nat && Nat.even i then str " " else []) ++ pad_left 2 (byte.of_Z 48) (show_base 16 (byte.unsigned c)).
Proof. done. Qed.

Lemma cells_snoc r c : concat (imap cell (r ++ [c])) = concat (imap cell r) ++ cell (length r) c.
Proof. rewrite imap_app, concat_app. simpl. by rewrite app_nil_r, Nat.add_0_r. Qed.

Lemma even_or_odd n :
  (exists m, n = (2 * m)%nat /\ Nat.even n = true) \/ (exists m, n = (2 * m + 1)%nat /\ Nat.even n = false).
Proof.
  destruct (Nat.even n) eqn:E.
  - apply Nat.even_spec in E as [m ->]. eauto.
  - assert (Nat.odd n = true) as O by (by rewrite <- Nat.negb_even, E). apply Nat.odd_spec in O as [m ->]. eauto.
Qed.

Lemma cells_length r : r <> [] -> Z.of_nat (length (concat (imap cell r))) = 2 * zlen r + (zlen r - 1) / 2.
Proof.
  induction r as [|c r IH] using rev_ind; [done|]. intros _. rewrite cells_snoc, length_app, zlen_app, zlen_cons, zlen_nil.
  rewrite cell_length. destruct r as [|x r]; [done|]. specialize (IH ltac:(done)).
  change (length (x :: r) =? 0)%nat with false. cbn [negb andb].
  destruct (even_or_odd (length (x :: r))) as [(m & Hm & ->)|(m & Hm & ->)]; 
    unfold zlen in *; Z.to_euclidean_division_equations; lia.
Qed.

(** ** The loop *)

Section hexdump_lemmas.
Context (indent : nat).

(** The state after the bytes [r] of the row at [offset], with [w] written before it. *)
Definition in_row (w : bytes) (offset : Z) (r : bytes) : dump :=
  {| cout := {| written := w ++ spaces indent ++ pad_left 8 (byte.of_Z 48) (show_base 16 offset) ++ str ":    " ++
                  concat (imap cell r);
                basefield := 16; fill := byte.of_Z 48 |};
     pchars := row_chars (map printable r); printed := offset + zlen r |}.

(** The bits of [printed] that the loop looks at. *)
Lemma land_15 n : Z.land n 15 = n mod 16.
Proof. change 15 with (Z.ones 4). by rewrite Z.land_ones. Qed.

Lemma land_1 n : Z.land n 1 = n mod 2.
Proof. change 1 with (Z.ones 1) at 1. by rewrite Z.land_ones. Qed.

Lemma dump_first w c :
  dump_byte (spaces indent) c
    {| cout := {| written := w; basefield := 16; fill := byte.of_Z 48 |};
       pchars := stringstream_of (str " "); printed := 0 |} = in_row w 0 [c].
Proof. unfold dump_byte, in_row, put_int, put. simpl. rewrite app_nil_r, <- !app_assoc. done. Qed.

Lemma dump_next w offset r c :
  offset mod 16 = 0 -> 0 < zlen r < 16 -> dump_byte (spaces indent) c (in_row w offset r) = in_row w offset (r ++ [c]).
Proof.
  intros Ho Hr. unfold dump_byte, in_row. cbn [printed cout pchars]. rewrite land_15, land_1.
  assert (((offset + zlen r) mod 16 =? 0) = false) as -> by (Z.to_euclidean_division_equations; lia).
  rewrite map_app. cbn [map]. rewrite cells_snoc, (cell_eq (length r)). unfold zlen in *.
  replace (length r =? 0)%nat with false by lia. cbn [negb andb].
  destruct (even_or_odd (length r)) as [(m & Hm & ->)|(m & Hm & ->)].
  - replace ((offset + Z.of_nat (length r)) mod 2 =? 0) with true by (Z.to_euclidean_division_equations; lia).
    unfold put_int, put. cbn [written basefield fill pchars printed cout].
    rewrite put_char_row, length_app. simpl (length [c]). rewrite <- !app_assoc. f_equal. lia.
  - replace ((offset + Z.of_nat (length r)) mod 2 =? 0) with false by (Z.to_euclidean_division_equations; lia).
    unfold put_int, put. cbn [written basefield fill pchars printed cout].
    rewrite put_char_row, length_app. simpl (length [c]). rewrite <- !app_assoc. f_equal. lia.
Qed.

Lemma dump_wrap w offset r c :
  0 <= offset -> offset mod 16 = 0 -> zlen r = 16 ->
  dump_byte (spaces indent) c (in_row w offset r) = in_row (w ++ row indent offset r ++ eol) (offset + 16) [c].
Proof.
  intros Hp Ho Hr. unfold dump_byte, in_row. cbn [printed cout pchars]. rewrite land_15, Hr.
  assert (((offset + 16) mod 16 =? 0) = true) as -> by (Z.to_euclidean_division_equations; lia).
  replace (offset + 16 =? 0) with false by lia. cbn [negb printed cout pchars].
  assert (r <> []) as Hne by (intros ->; rewrite zlen_nil in Hr; lia).
  pose proof (cells_length r Hne) as Hl. rewrite Hr in Hl. change ((16 - 1) / 2) with 7 in Hl.
  unfold put_int, put, row, pad_right. cbn [written basefield fill].
  replace (39 - length (concat (imap cell r)))%nat with 0%nat by lia.
  assert (text (row_chars (map printable r)) = map printable r) as -> by (by destruct r).
  f_equal. f_equal.
  simpl (concat (imap cell [c])). rewrite !app_nil_r, <- !app_assoc. done.
Qed.

Lemma rows_cons fuel offset data :
  data <> [] -> rows (S fuel) indent offset data =
    row indent offset (take 16 data) ++ eol ++ rows fuel indent (offset + 16) (drop 16 data).
Proof. by destruct data. Qed.

(** The loop ends in the last row, with the rows before it written. *)
Lemma dump_loop_spec data : forall w offset r fuel,
  0 <= offset -> offset mod 16 = 0 -> 0 < zlen r <= 16 -> offset + zlen r + zlen data < 2 ^ 31 ->
  (length (r ++ data) <= fuel)%nat ->
  exists w' offset' r', dump_loop (spaces indent) data (in_row w offset r) = Ok (in_row w' offset' r') /\
    0 <= offset' /\ offset' mod 16 = 0 /\ 0 < zlen r' <= 16 /\
    w' ++ row indent offset' r' ++ eol = w ++ rows fuel indent offset (r ++ data).
Proof.
  induction data as [|c data IH]; intros w offset r fuel Hp Ho Hr Hb Hf.
  - exists w, offset, r. split; [done|]. split; [done|]. split; [done|]. split; [done|].
    rewrite app_nil_r in *. unfold zlen in Hr. destruct fuel as [|fuel]; [lia|]. destruct r as [|x r]; [simpl in Hr; lia|].
    cbn [rows]. rewrite take_ge, drop_ge by lia. destruct fuel; cbn [rows]; by rewrite app_nil_r.
  - cbn [dump_loop]. cbn [printed in_row]. rewrite zlen_cons in Hb. pose proof (zlen_nonneg data).
    replace (offset + zlen r =? 2 ^ 31 - 1) with false by lia.
    destruct (decide (zlen r = 16)) as [E16|].
    + rewrite dump_wrap by lia. unfold zlen in E16. destruct fuel as [|fuel]; [rewrite length_app in Hf; simpl in Hf; lia|].
      destruct (IH (w ++ row indent offset r ++ eol) (offset + 16) [c] fuel) as (w' & o' & r' & E & Ho' & Hm' & Hr' & Hw');
        [lia | Z.to_euclidean_division_equations; lia | done | unfold zlen in *; simpl; lia | rewrite length_app in *; simpl in *; lia |].
      exists w', o', r'. split; [done|]. split; [done|]. split; [done|]. split; [done|]. rewrite Hw'.
      rewrite rows_cons by (by destruct r). rewrite take_app_length', drop_app_length' by lia. by rewrite <- !app_assoc.
    + rewrite dump_next by lia. assert (r ++ c :: data = (r ++ [c]) ++ data) as Ea by (by rewrite <- app_assoc). rewrite Ea in Hf |- *.
      apply IH; [done | done | | | done]; rewrite zlen_app; change (zlen [c]) with 1; lia.
Qed.
End hexdump_lemmas.

Definition demo_cout : ostream := {| written := str "packet:"; basefield := 10; fill := byte.of_Z 32 |}.

(** * Properties *)

(** C33: [hexdump] draws its reference picture: after what was written before come rows of
    sixteen bytes, each with its indentation, its offset in eight hexadecimal digits, its
    bytes in pairs in a column of fixed width and its characters, then an empty line (no
    bytes give a line of five spaces). The base of the stream is restored; its fill
    character is left at '0'. *)
Theorem hexdump_picture data indent o :
  zlen data < 2 ^ 31 ->
  hexdump data indent o =
    Ok {| written := written o ++ picture indent data; basefield := basefield o; fill := byte.of_Z 48 |}.
Proof.
  intros Hlen. unfold hexdump. destruct data as [|c data].
  { simpl. f_equal. unfold put. simpl. by rewrite <- !app_assoc. }
  rewrite zlen_cons in Hlen. pose proof (zlen_nonneg data). cbn [dump_loop printed].
  change (0 =? 2 ^ 31 - 1) with false. cbv iota. rewrite dump_first.
  destruct (dump_loop_spec indent data (written o) 0 [c] (length (c :: data))) as (w' & o' & r' & -> & Ho & Hm & Hr & Hw);
    [lia | done | done | change (zlen [c]) with 1; lia | done |].
  cbn [mbind outcome_bind]. unfold picture. cbn [app] in Hw. rewrite app_assoc, <- Hw.
  unfold put. cbn [written basefield fill printed cout pchars in_row]. rewrite land_15. f_equal. f_equal.
  assert (r' <> []) as Hne by (intros ->; unfold zlen in Hr; simpl in Hr; lia).
  assert (text (row_chars (map printable r')) = map printable r') as -> by (by destruct r').
  unfold row, pad_right. rewrite <- !app_assoc. do 5 f_equal. rewrite !app_assoc. do 3 f_equal.
  change (str "    ") with (spaces 4). unfold spaces. rewrite <- replicate_add. f_equal.
  pose proof (cells_length r' Hne). Z.to_euclidean_division_equations. lia.
Qed.

Lemma hexdump_picture_witness :
  hexdump (str "Hello, hexdump! and more") 2 demo_cout =
    Ok {| written := str "packet:" ++ picture 2 (str "Hello, hexdump! and more"); basefield := 10; fill := byte.of_Z 48 |}.
Proof. apply (hexdump_picture (str "Hello, hexdump! and more") 2 demo_cout). by_compute. Defined.

(** [timestamp_ms] of a clock that does not go back: the first call gives the time that
    passes within it, and every later call the whole milliseconds since the first call. *)
Lemma timestamps_from_first_call now n :
  (forall j, now j <= now (S j)) -> (forall j, now j - now 0%nat < 2 ^ 64) ->
  timestamps now n clock_init = map (fun i => (now (S i) - now 0%nat) / 1000000) (seq 0 n).
Proof.
  intros Hmono Hb. destruct n as [|n]; [done|]. specialize (timestamps_started now (S n) (now 0%nat) 1 Hmono) as E.
  exact (E ltac:(apply Hmono) Hb).
Qed.
