(* ===== verification/Random.v ===== *)
(** The random generator: [get_random_generator] of util/util.hh/.cc, with the parts of the
    C++ library it uses, [std::seed_seq] and the engine [std::mt19937], as the C++ standard
    defines them. The numbers that [std::random_device] returns are a parameter. *)
From S2P Require Import Prelude.

(** * std::seed_seq *)

Definition mix (x : Z) : Z := Z.lxor x (Z.shiftr x 27).

Section generate.
Context (v : list Z) (n p q : nat).
Local Open Scope nat_scope.

(** The range that is filled is read and written modulo its length [n]. *)
Definition at_mod (b : list Z) (k : nat) : Z := nth (k mod n) b 0%Z.
Definition set_mod (b : list Z) (k : nat) (x : Z) : list Z := <[k mod n := x]> b.

(** What is added in step [k] of the first loop. *)
Definition seed_word (k : nat) : Z :=
  if k =? 0 then Z.of_nat (length v)
  else if k <=? length v then (Z.of_nat (k mod n) + nth (k - 1) v 0)%Z else Z.of_nat (k mod n).

Definition seed_step1 (b : list Z) (k : nat) : list Z :=
  let r1 := to_u32 (1664525 * mix (Z.lxor (Z.lxor (at_mod b k) (at_mod b (k + p))) (at_mod b (k + n - 1))))%Z in
  let r2 := to_u32 (r1 + seed_word k)%Z in
  let b := set_mod b (k + p) (to_u32 (at_mod b (k + p) + r1)%Z) in
  let b := set_mod b (k + q) (to_u32 (at_mod b (k + q) + r2)%Z) in
  set_mod b k r2.

Definition seed_step2 (b : list Z) (k : nat) : list Z :=
  let r3 := to_u32 (1566083941 * mix (to_u32 (at_mod b k + at_mod b (k + p) + at_mod b (k + n - 1)))) in
  let r4 := to_u32 (r3 - Z.of_nat (k mod n))%Z in
  let b := set_mod b (k + p) (Z.lxor (at_mod b (k + p)) r3) in
  let b := set_mod b (k + q) (Z.lxor (at_mod b (k + q)) r4) in
  set_mod b k r4.
End generate.

(** [seed_seq::generate] on a range of [n] words; [v] are the seeds. *)
Definition seed_seq_generate (v : list Z) (n : nat) : list Z :=
  (let t := if 623 <=? n then 11 else if 68 <=? n then 7 else if 39 <=? n then 5
            else if 7 <=? n then 3 else (n - 1) / 2 in
   let p := (n - t) / 2 in
   let q := p + t in
   let m := max (length v + 1) n in
   fold_left (seed_step2 n p q) (seq m n)
     (fold_left (seed_step1 v n p q) (seq 0 m) (repeat 0x8b8b8b8b%Z n)))%nat.

(** * std::mt19937 *)

Definition state_size : nat := 624.

(** The last [state_size] words of the sequence, the oldest first. *)
Definition mt19937 := list Z.

Definition UPPER : Z := 2 ^ 31.
Definition LOWER : Z := 2 ^ 31 - 1.

(** What the recurrence uses of the state, which has 19937 bits: the upper bit of the oldest
    word and all others. *)
Definition degenerate (x : mt19937) : bool :=
  (Z.land (hd 0 x) UPPER =? 0) && forallb (fun w => w =? 0) (tl x).

(** The constructor from a seed sequence: an all-zero state is replaced. *)
Definition mt_seed (v : list Z) : mt19937 :=
  let x := seed_seq_generate v state_size in
  if degenerate x then UPPER :: tl x else x.

(** The matrix of the recurrence, and tempering. *)
Definition twist (y : Z) : Z := Z.lxor (Z.shiftr y 1) (if Z.odd y then 0x9908b0df else 0).

Definition temper (x : Z) : Z :=
  let z := Z.lxor x (Z.land (Z.shiftr x 11) 0xffffffff) in
  let z := Z.lxor z (Z.land (to_u32 (Z.shiftl z 7)) 0x9d2c5680) in
  let z := Z.lxor z (Z.land (to_u32 (Z.shiftl z 15)) 0xefc60000) in
  Z.lxor z (Z.shiftr z 18).

(** [operator()]. *)
Definition mt_next (x : mt19937) : Z * mt19937 :=
  let y := Z.lor (Z.land (nth 0 x 0) UPPER) (Z.land (nth 1 x 0) LOWER) in
  let w := Z.lxor (nth 397 x 0) (twist y) in
  (temper w, tl x ++ [w]).

Fixpoint mt_run (k : nat) (x : mt19937) : mt19937 :=
  match k with O => x | S k' => mt_run k' (mt_next x).2 end.

(** * get_random_generator *)

(** [rd k] is what the [k]-th call of the device returns. *)
Definition seed_data (rd : nat -> Z) : list Z := map rd (seq 0 state_size).

Definition get_random_generator (rd : nat -> Z) : mt19937 := mt_seed (seed_data rd).

(** * Lemmas *)

Definition u32 (x : Z) : Prop := 0 <= x < 2 ^ 32.

Lemma u32_shiftr x k : u32 x -> 0 <= k -> u32 (Z.shiftr x k).
Proof.
  unfold u32. intros Hx Hk. rewrite Z.shiftr_div_pow2 by done. pose proof (Z.pow_pos_nonneg 2 k ltac:(lia) Hk).
  split; [apply Z.div_pos; lia|]. apply Z.div_lt_upper_bound; nia.
Qed.

Lemma u32_high x : 0 <= x -> u32 x <-> Z.shiftr x 32 = 0.
Proof.
  intros Hx. unfold u32. rewrite Z.shiftr_div_pow2 by lia. split; [intros; apply Z.div_small; lia|].
  intros Hz. pose proof (Z.div_mod x (2 ^ 32) ltac:(lia)). pose proof (Z.mod_pos_bound x (2 ^ 32) ltac:(lia)). lia.
Qed.

Lemma u32_lxor x y : u32 x -> u32 y -> u32 (Z.lxor x y).
Proof.
  intros Hx Hy. assert (0 <= Z.lxor x y) as Hn by (apply Z.lxor_nonneg; unfold u32 in *; lia).
  apply u32_high; [done|]. rewrite Z.shiftr_lxor. apply u32_high in Hx, Hy; [|unfold u32 in *; lia..]. by rewrite Hx, Hy.
Qed.

Lemma u32_land x y : u32 x -> 0 <= y -> u32 (Z.land x y).
Proof.
  intros Hx Hy. assert (0 <= Z.land x y) as Hn by (apply Z.land_nonneg; by right).
  apply u32_high; [done|]. rewrite Z.shiftr_land. apply u32_high in Hx; [|unfold u32 in Hx; lia]. by rewrite Hx, Z.land_0_l.
Qed.

Lemma u32_lor x y : u32 x -> u32 y -> u32 (Z.lor x y).
Proof.
  intros Hx Hy. assert (0 <= Z.lor x y) as Hn by (apply Z.lor_nonneg; unfold u32 in *; lia).
  apply u32_high; [done|]. rewrite Z.shiftr_lor. apply u32_high in Hx, Hy; [|unfold u32 in *; lia..]. by rewrite Hx, Hy.
Qed.

Lemma u32_to_u32 x : u32 (to_u32 x).
Proof. apply to_u32_range. Qed.

Lemma u32_nth (l : list Z) k : Forall u32 l -> u32 (nth k l 0).
Proof.
  intros Hl. revert k. induction Hl as [|x l Hx _ IH]; intros [|k]; simpl; try done; unfold u32; lia.
Qed.

Create HintDb u32.
#[export] Hint Resolve u32_shiftr u32_lxor u32_land u32_lor u32_to_u32 u32_nth : u32.

(** A block of [n] words. *)
Definition block (n : nat) (b : list Z) : Prop := length b = n /\ Forall u32 b.

Lemma block_set n b k x : block n b -> u32 x -> block n (set_mod n b k x).
Proof. intros [Hl Hb] Hx. unfold set_mod. split; [by rewrite length_insert | by apply Forall_insert]. Qed.

Lemma block_at n b k : block n b -> u32 (at_mod n b k).
Proof. intros [_ Hb]. by apply u32_nth. Qed.

#[local] Hint Resolve block_set block_at : u32.

Lemma block_step1 v n p q b k : block n b -> block n (seed_step1 v n p q b k).
Proof. intros Hb. unfold seed_step1. auto 10 with u32. Qed.

Lemma block_step2 n p q b k : block n b -> block n (seed_step2 n p q b k).
Proof. intros Hb. unfold seed_step2. auto 10 with u32. Qed.

Lemma block_fold n (f : list Z -> nat -> list Z) l b :
  (forall b k, block n b -> block n (f b k)) -> block n b -> block n (fold_left f l b).
Proof. intros Hf. revert b. induction l as [|k l IH]; intros b Hb; simpl; auto. Qed.

Lemma block_generate v n : block n (seed_seq_generate v n).
Proof.
  unfold seed_seq_generate. apply block_fold; [intros; by apply block_step2|]. apply block_fold; [intros; by apply block_step1|].
  split; [apply repeat_length|]. apply Forall_forall. intros x Hx%list_elem_of_In%repeat_spec. subst x. unfold u32. lia.
Qed.

(** ** The state is never all zero *)

Lemma degenerate_cons x0 x : degenerate (x0 :: x) = true <-> Z.land x0 UPPER = 0 /\ Forall (fun w => w = 0) x.
Proof.
  unfold degenerate. simpl. rewrite andb_true_iff, Z.eqb_eq, forallb_forall, Forall_forall. split; intros [? Hx]; (split; [done|]);
    intros w Hw; [apply Z.eqb_eq, Hx; by apply list_elem_of_In | apply Z.eqb_eq, Hx; by apply list_elem_of_In].
Qed.

Lemma twist_zero y : u32 y -> twist y = 0 -> y = 0.
Proof.
  intros Hy. unfold twist. destruct (Z.odd y) eqn:Ho; intros Ht.
  - exfalso. apply (f_equal (fun z => Z.testbit z 31)) in Ht. rewrite Z.lxor_spec, Z.shiftr_spec, Z.bits_0 in Ht by lia.
    change (Z.testbit 0x9908b0df 31) with true in Ht. rewrite (Z.bits_above_log2 y) in Ht; [done | unfold u32 in Hy; lia|].
    destruct (decide (y = 0)) as [->|]; [done|]. apply Z.log2_lt_pow2; unfold u32 in Hy; lia.
  - rewrite Z.lxor_0_r, Z.shiftr_div_pow2 in Ht by lia. change (2 ^ 1) with 2 in Ht.
    pose proof (Z.div_mod y 2 ltac:(lia)) as Hd. rewrite Ht, Zmod_odd, Ho in Hd. lia.
Qed.

(** A word with no upper and no lower bits. *)
Lemma halves_zero x : u32 x -> Z.land x UPPER = 0 -> Z.land x LOWER = 0 -> x = 0.
Proof.
  intros Hx Hu Hl. change LOWER with (Z.ones 31) in Hl. rewrite Z.land_ones in Hl by lia.
  apply (f_equal (fun z => Z.testbit z 31)) in Hu. rewrite Z.land_spec, Z.bits_0 in Hu.
  change (Z.testbit UPPER 31) with true in Hu. rewrite andb_true_r in Hu.
  pose proof (Z.testbit_spec' x 31 ltac:(lia)) as Hb. rewrite Hu in Hb. simpl in Hb.
  pose proof (Z.div_mod x (2 ^ 31) ltac:(lia)) as Hd. rewrite Hl in Hd. unfold u32 in Hx.
  assert (0 <= x / 2 ^ 31 < 2) by (split; [apply Z.div_pos; lia | apply Z.div_lt_upper_bound; lia]).
  rewrite Z.mod_small in Hb; lia.
Qed.

Lemma mt_next_block x : block state_size x -> block state_size (mt_next x).2 /\ u32 (mt_next x).1.
Proof.
  intros [Hlen Hx]. unfold mt_next. set (w := Z.lxor _ _).
  assert (u32 w) as Hw.
  { unfold w, twist. apply u32_lxor; [by apply u32_nth|]. apply u32_lxor; [|unfold u32; case_if; lia].
    apply u32_shiftr; [|lia]. unfold UPPER, LOWER. auto with u32 lia. }
  cbn [fst snd]. split; [|unfold temper; auto 20 with u32 lia]. destruct x as [|x0 x]; [done|]. simpl tl.
  apply Forall_cons in Hx as [_ Hx]. split; [rewrite length_app; simpl in *; lia|]. apply Forall_app. auto.
Qed.

Lemma mt_next_alive x : block state_size x -> degenerate x = false -> degenerate (mt_next x).2 = false.
Proof.
  intros [Hlen Hx] Hd. destruct x as [|x0 [|x1 rest]]; [discriminate Hlen | discriminate Hlen|]. unfold mt_next. cbn [nth tl snd app].
  match goal with |- ?b = false => destruct b eqn:Hz; [exfalso | reflexivity] end. apply degenerate_cons in Hz as [Hu1 Hz].
  apply Forall_app in Hz as [Hrest Hw]. apply Forall_cons_1 in Hw as [Hw _].
  assert (nth 395 rest 0 = 0) as H397.
  { rewrite Forall_forall in Hrest. apply Hrest, list_elem_of_In, nth_In. simpl in Hlen. unfold state_size in Hlen. lia. }
  rewrite H397, Z.lxor_0_l in Hw. apply Forall_cons_1 in Hx as [Hx0 Hx]. apply Forall_cons_1 in Hx as [Hx1 _].
  apply twist_zero in Hw; [|unfold UPPER, LOWER; auto with u32 lia]. apply Z.lor_eq_0_iff in Hw as [Hu0 Hl1].
  apply (halves_zero x1 Hx1 Hu1) in Hl1. subst x1.
  assert (degenerate (x0 :: 0 :: rest) = true) as Ht by (apply degenerate_cons; split; [done | by constructor]). congruence.
Qed.

Lemma mt_seed_block v : block state_size (mt_seed v) /\ degenerate (mt_seed v) = false.
Proof.
  unfold mt_seed. pose proof (block_generate v state_size) as Hb. revert Hb. generalize (seed_seq_generate v state_size) as x.
  intros x Hb. cbv zeta. destruct (degenerate x) eqn:Hd; [|by rewrite Hd]. destruct x as [|x0 x]; [by destruct Hb as [Hl _]; discriminate Hl|]. cbn [tl].
  destruct Hb as [Hl Hx]. apply Forall_cons_1 in Hx as [_ Hx]. split; [split; [done|]; constructor; [unfold u32, UPPER; lia | done]|].
  done.
Qed.

Lemma mt_run_inv k : forall x, block state_size x -> degenerate x = false ->
  block state_size (mt_run k x) /\ degenerate (mt_run k x) = false.
Proof.
  induction k as [|k IH]; intros x Hb Hd; [done|]. simpl. apply IH; [by apply mt_next_block | by apply mt_next_alive].
Qed.

Lemma generator_inv rd k :
  block state_size (mt_run k (get_random_generator rd)) /\ degenerate (mt_run k (get_random_generator rd)) = false.
Proof. destruct (mt_seed_block (seed_data rd)) as [Hb Hd]. exact (mt_run_inv k _ Hb Hd). Qed.

(** The words and the first number after seeding with [7 + 2654435761 * k], as an
    implementation of the C++ library gives them. *)
Example seeded_generator :
  let x := get_random_generator (fun k => to_u32 (7 + 2654435761 * Z.of_nat k)) in
  take 3 x = [2722779809; 2422776873; 1054157313] /\ (mt_next x).1 = 3682001561.
Proof. vm_compute. split; reflexivity. Qed.

(** * The generator *)

(** A generator from [get_random_generator] is sound, whatever the random device returns:
    its state always has 624 words of 32 bits and is never all zero in the bits that the
    recurrence uses, a state that would produce zeros for ever; and every number it
    returns has 32 bits. *)
Lemma random_generator_sound rd k :
  let x := mt_run k (get_random_generator rd) in
  length x = state_size /\ Forall u32 x /\ degenerate x = false /\ u32 (mt_next x).1.
Proof.
  destruct (generator_inv rd k) as [Hb Hd]. intros x. destruct (mt_next_block x Hb) as [_ Ho]. destruct Hb as [Hl Hx].
  split; [exact Hl|]. split; [exact Hx|]. split; [exact Hd | exact Ho].
Qed.
