(* ===== verification/FileDescriptor.v ===== *)
(** File descriptors: util/file_descriptor.hh, util/file_descriptor.cc and the wrapper
    [SystemCall] of util/util.cc.
    The kernel is a parameter: the class [Kernel] has the system calls the code makes, on
    an abstract state of the outside world, and [KernelLaws] has what their manual pages
    promise. The [FDWrapper] objects are shared by the handles on them, so they live in a
    store, and a [FileDescriptor] is a position in it; [duplicate] gives the same
    position. Effects are in the monad [os], in which what was changed before an exception
    stays changed. *)
From S2P Require Import Prelude Text Buffer.

(** * The kernel *)

(** A system call returns its value, [errno] and the new state of the world. *)
Class Kernel (W : Type) := {
  sys_read : Z -> Z -> W -> Z * Z * bytes * W;
  sys_writev : Z -> list (bytes * Z) -> W -> Z * Z * W;
  sys_close : Z -> W -> Z * Z * W;
  sys_getfl : Z -> W -> Z * Z * W;
  sys_setfl : Z -> Z -> W -> Z * Z * W
}.

(** What system calls have in common: the result is an [int], and a call that fails sets
    [errno]. *)
Definition int_result (ret errno : Z) : Prop := - 2 ^ 31 <= ret < 2 ^ 31 /\ (ret < 0 -> errno <> 0).

Definition iov_bytes (iov : list (bytes * Z)) : bytes := concat (map fst iov).

(** What read(2), writev(2), close(2) and fcntl(2) document: [is_open] are the open descriptors, [incoming] is what is left to read on a
    descriptor, [sent] is what was written to it and [status_flags] are its flags. A call
    that fails sets [errno] and transfers nothing; read(2) gives no bytes only when it is
    asked for none or at the end of the input; close(2) frees the descriptor even if it
    reports an error. *)
Class KernelLaws (W : Type) `{Kernel W} := {
  incoming : Z -> W -> bytes;
  sent : Z -> W -> bytes;
  status_flags : Z -> W -> Z;
  is_open : Z -> W -> bool;
  law_close fd w ret errno w' :
    sys_close fd w = (ret, errno, w') ->
    int_result ret errno /\ is_open fd w' = false /\ (forall fd', fd' <> fd -> is_open fd' w' = is_open fd' w);
  law_read fd n w ret errno data w' :
    0 <= n < 2 ^ 31 -> sys_read fd n w = (ret, errno, data, w') ->
    (0 <= ret -> ret <= n /\ data = take (Z.to_nat ret) (incoming fd w) /\ zlen data = ret /\
      incoming fd w' = drop (Z.to_nat ret) (incoming fd w) /\ (ret = 0 -> n = 0 \/ incoming fd w = [])) /\
    (ret < 0 -> - 2 ^ 31 <= ret /\ errno <> 0 /\ incoming fd w' = incoming fd w) /\
    sent fd w' = sent fd w;
  law_writev fd iov w ret errno w' :
    sys_writev fd iov w = (ret, errno, w') ->
    (0 <= ret -> ret <= zlen (iov_bytes iov) /\ ret < 2 ^ 31 /\
      sent fd w' = sent fd w ++ take (Z.to_nat ret) (iov_bytes iov)) /\
    (ret < 0 -> - 2 ^ 31 <= ret /\ errno <> 0 /\ sent fd w' = sent fd w);
  law_getfl fd w ret errno w' :
    sys_getfl fd w = (ret, errno, w') ->
    status_flags fd w' = status_flags fd w /\
    (0 <= ret -> ret = status_flags fd w /\ ret < 2 ^ 31) /\ (ret < 0 -> - 2 ^ 31 <= ret /\ errno <> 0);
  law_setfl fd fl w ret errno w' :
    sys_setfl fd fl w = (ret, errno, w') ->
    (0 <= ret -> ret < 2 ^ 31 /\ status_flags fd w' = fl) /\
    (ret < 0 -> - 2 ^ 31 <= ret /\ errno <> 0 /\ status_flags fd w' = status_flags fd w)
}.

(** * The store and the monad *)

Record FDWrapper := {
  _fd : Z;
  _eof : bool;
  _closed : bool;
  _read_count : Z;
  _write_count : Z
}.

Record OS (W : Type) := { fds : list FDWrapper; world : W }.
Arguments fds {W} o.
Arguments world {W} o.

Definition os (W A : Type) : Type := OS W -> outcome A * OS W.

#[global] Instance os_ret W : MRet (os W) := fun A a s => (Ok a, s).
#[global] Instance os_bind W : MBind (os W) := fun A B f c s =>
  match c s with
  | (Ok a, s') => f a s'
  | (Throw e, s') => (Throw e, s')
  | (Undefined, s') => (Undefined, s')
  end.

Section operations.
Context {W : Type} `{Kernel W}.

Definition lift {A} (c : outcome A) : os W A := fun s => (c, s).

(** A handle whose wrapper is gone has no meaning. *)
Definition get_fd (i : nat) : os W FDWrapper := fun s =>
  match fds s !! i with Some x => (Ok x, s) | None => (Undefined, s) end.

Definition put_fd (i : nat) (x : FDWrapper) : os W unit := fun s =>
  (Ok tt, {| fds := <[i := x]> (fds s); world := world s |}).

Definition call_kernel {A} (c : W -> A * W) : os W A := fun s =>
  let '(a, w) := c (world s) in (Ok a, {| fds := fds s; world := w |}).

(** [SystemCall]: the value is an [int]. *)
Definition SystemCall (attempt : bytes) (return_value errno errno_mask : Z) : outcome Z :=
  let return_value := to_i32 return_value in
  if (0 <=? return_value) || (errno =? errno_mask) then Ok return_value else Throw (unix_error attempt errno).

(** The conversion of a [size_t] to [ssize_t]. *)
Definition ssize (n : Z) : Z := if n <? 2 ^ 63 then n else n - 2 ^ 64.

(** ** FDWrapper *)

(** The constructor of [FDWrapper], inside [FileDescriptor(fd)]. *)
Definition new_fd (fd : Z) : os W nat := fun s =>
  if fd <? 0 then (Throw (runtime_error (str "invalid fd number:" ++ to_string fd)), s)
  else
    (Ok (length (fds s)),
     {| fds := fds s ++ [{| _fd := fd; _eof := false; _closed := false; _read_count := 0; _write_count := 0 |}];
        world := world s |}).

Definition close (i : nat) : os W unit :=
  x ← get_fd i;
  '(ret, errno) ← call_kernel (sys_close (_fd x));
  _ ← lift (SystemCall (str "close") ret errno 0);
  put_fd i {| _fd := _fd x; _eof := true; _closed := true; _read_count := _read_count x;
              _write_count := _write_count x |}.

(** [~FDWrapper]: an exception of [close] is caught. *)
Definition destroy_fd (i : nat) : os W unit :=
  x ← get_fd i;
  if _closed x then mret tt
  else fun s => match close i s with
                | (Throw _, s') => (Ok tt, s')
                | r => r
                end.

(** ** FileDescriptor *)

Definition duplicate (i : nat) : nat := i.

Definition fd_num (i : nat) : os W Z := x ← get_fd i; mret (_fd x).
Definition fd_eof (i : nat) : os W bool := x ← get_fd i; mret (_eof x).
Definition fd_closed (i : nat) : os W bool := x ← get_fd i; mret (_closed x).
Definition fd_read_count (i : nat) : os W Z := x ← get_fd i; mret (_read_count x).
Definition fd_write_count (i : nat) : os W Z := x ← get_fd i; mret (_write_count x).

Definition register_read (i : nat) : os W unit :=
  x ← get_fd i;
  put_fd i {| _fd := _fd x; _eof := _eof x; _closed := _closed x;
              _read_count := to_u32 (_read_count x + 1); _write_count := _write_count x |}.

Definition register_write (i : nat) : os W unit :=
  x ← get_fd i;
  put_fd i {| _fd := _fd x; _eof := _eof x; _closed := _closed x;
              _read_count := _read_count x; _write_count := to_u32 (_write_count x + 1) |}.

Definition set_eof (i : nat) : os W unit :=
  x ← get_fd i;
  put_fd i {| _fd := _fd x; _eof := true; _closed := _closed x;
              _read_count := _read_count x; _write_count := _write_count x |}.

Definition BUFFER_SIZE : Z := 1024 * 1024.

(** [read(str, limit)] gives [str] the value returned here; the kernel writes [data] over
    the beginning of the [size_to_read] characters. *)
Definition fd_read (i : nat) (limit : Z) : os W bytes :=
  let size_to_read := Z.min BUFFER_SIZE limit in
  fd ← fd_num i;
  '(ret, errno, data) ← call_kernel (fun w => let '(ret, errno, data, w') := sys_read fd size_to_read w in
                                              ((ret, errno, data), w'));
  bytes_read ← lift (SystemCall (str "read") ret errno 0);
  _ ← (if (0 <? limit) && (bytes_read =? 0) then set_eof i else mret tt);
  if size_to_read <? bytes_read then lift (Throw (runtime_error (str "read() read more than requested")))
  else if bytes_read <? 0 then lift (Throw length_error)
  else
    let str := data ++ drop (length data) (resize [] size_to_read) in
    _ ← register_read i;
    mret (resize str bytes_read).

(** The [do ... while (write_all and buffer.size())] loop of [write]; [Undefined] stands for
    the lack of fuel. *)
Fixpoint write_views (fuel : nat) (i : nat) (buffer : BufferViewList) (write_all : bool) (total : Z) : os W Z :=
  match fuel with
  | O => lift Undefined
  | S fuel' =>
      let iovecs := as_iovecs buffer in
      fd ← fd_num i;
      '(ret, errno) ← call_kernel (sys_writev fd iovecs);
      bytes_written ← lift (SystemCall (str "writev") ret errno 0);
      if (bytes_written =? 0) && negb (view_size buffer =? 0) then
        lift (Throw (runtime_error (str "write returned 0 given non-empty input buffer")))
      else if ssize (view_size buffer) <? bytes_written then
        lift (Throw (runtime_error (str "write wrote more than length of input buffer")))
      else
        _ ← register_write i;
        buffer' ← lift (view_remove_prefix buffer (to_u64 bytes_written));
        let total' := to_u64 (total + bytes_written) in
        if write_all && negb (view_size buffer' =? 0) then write_views fuel' i buffer' write_all total'
        else mret total'
  end.

Definition fd_write (i : nat) (buffer : BufferViewList) (write_all : bool) : os W Z :=
  write_views (S (Z.to_nat (view_size buffer))) i buffer write_all 0.

(** The overloads of [write] for a string and for a null-terminated string. *)
Definition write_string (i : nat) (str : bytes) (write_all : bool) : os W Z :=
  fd_write i (view_list_of str) write_all.
Definition write_c_string (i : nat) (str : bytes) (write_all : bool) : os W Z :=
  fd_write i (view_list_of (c_string str)) write_all.

Definition O_NONBLOCK : Z := 2048.

Definition set_blocking (i : nat) (blocking_state : bool) : os W unit :=
  fd ← fd_num i;
  '(ret, errno) ← call_kernel (sys_getfl fd);
  flags ← lift (SystemCall (str "fcntl") ret errno 0);
  let flags := if blocking_state then Z.lxor flags (Z.land flags O_NONBLOCK) else Z.lor flags O_NONBLOCK in
  '(ret, errno) ← call_kernel (sys_setfl fd flags);
  _ ← lift (SystemCall (str "fcntl") ret errno 0);
  mret tt.
End operations.

(** * Lemmas *)

Lemma system_call_spec attempt ret errno :
  - 2 ^ 31 <= ret < 2 ^ 31 -> (ret < 0 -> errno <> 0) ->
  SystemCall attempt ret errno 0 = if 0 <=? ret then Ok ret else Throw (unix_error attempt errno).
Proof.
  intros Hr He. assert (to_i32 ret = ret) as Hi by (unfold to_i32; case_if; word_lia).
  unfold SystemCall. rewrite Hi. destruct (0 <=? ret) eqn:E; [done|]. simpl.
  replace (errno =? 0) with false; [done|]. specialize (He ltac:(lia)). lia.
Qed.

Lemma view_size_eq v : zlen (views_concat v) < 2 ^ 64 -> view_size v = zlen (views_concat v).
Proof.
  intros Hv. unfold view_size, views_concat in *. pose proof (fold_size id (_views v) 0) as Hsz.
  rewrite list_fmap_id in Hsz. rewrite to_u64_small in Hsz by lia.
  pose proof (zlen_nonneg (concat (_views v))). rewrite to_u64_small in Hsz by lia. exact Hsz.
Qed.

Lemma iov_bytes_eq v : iov_bytes (as_iovecs v) = views_concat v.
Proof.
  unfold iov_bytes, as_iovecs, views_concat. rewrite (fold_snoc (fun v => (v, zlen v))). simpl app.
  f_equal. rewrite <- (list_fmap_id (_views v)) at 2. unfold fmap. rewrite map_map. done.
Qed.

Section laws.
Context {W : Type} `{KernelLaws W}.
Implicit Types s : OS W.

Lemma get_fd_eq i x s : fds s !! i = Some x -> get_fd i s = (Ok x, s).
Proof. unfold get_fd. by intros ->. Qed.

(** The wrapper [x'] is [x] but for its counters. *)
Definition same_fd (x x' : FDWrapper) : Prop := _fd x' = _fd x /\ _eof x' = _eof x /\ _closed x' = _closed x.

Lemma register_write_eq i x s :
  fds s !! i = Some x ->
  exists x' s', register_write i s = (Ok tt, s') /\ fds s' !! i = Some x' /\ same_fd x x' /\
    _write_count x' = to_u32 (_write_count x + 1) /\ world s' = world s.
Proof.
  intros Hx. unfold register_write, mbind, os_bind. rewrite (get_fd_eq i x s Hx).
  eexists _, _. split; [done|]. simpl. rewrite list_lookup_insert_eq by (eapply lookup_lt_Some; done). done.
Qed.

(** What the loop of [write] does: it transfers a prefix of the buffer; all of it if it
    returns and was asked to. *)
Lemma write_views_spec fuel : forall i buf all total s x,
  fds s !! i = Some x -> zlen (views_concat buf) < 2 ^ 63 -> zlen (views_concat buf) < Z.of_nat fuel ->
  0 <= total -> total + zlen (views_concat buf) < 2 ^ 64 ->
  exists r s' x' k, write_views fuel i buf all total s = (r, s') /\ 0 <= k <= zlen (views_concat buf) /\
    sent (_fd x) (world s') = sent (_fd x) (world s) ++ take (Z.to_nat k) (views_concat buf) /\
    fds s' !! i = Some x' /\ same_fd x x' /\
    match r with
    | Ok n => n = total + k /\ (all = true -> k = zlen (views_concat buf)) /\ (views_concat buf <> [] -> 0 < k)
    | Throw _ => True
    | Undefined => False
    end.
Proof.
  induction fuel as [|fuel IH]; intros i buf all total s x Hx Hc Hfuel Ht Hov.
  { pose proof (zlen_nonneg (views_concat buf)). lia. }
  pose proof (zlen_nonneg (views_concat buf)) as Hnn. cbn [write_views]. unfold mbind, os_bind, fd_num, mbind, os_bind.
  rewrite (get_fd_eq i x s Hx). cbn [mret os_ret]. unfold mret, os_ret, call_kernel.
  destruct (sys_writev (_fd x) (as_iovecs buf) (world s)) as [[ret errno] w'] eqn:Ew.
  apply law_writev in Ew as [Hok Hfail]. rewrite iov_bytes_eq in Hok. unfold lift.
  assert (- 2 ^ 31 <= ret < 2 ^ 31) as Hret
    by (destruct (decide (0 <= ret)); [destruct Hok as (? & ? & _) | destruct Hfail as (? & _)]; lia).
  rewrite system_call_spec by (done || intros; apply Hfail; lia).
  rewrite view_size_eq by lia. unfold ssize. replace (zlen (views_concat buf) <? 2 ^ 63) with true by lia.
  destruct (0 <=? ret) eqn:Er.
  2: { eexists _, _, x, 0. split; [done|]. split; [lia|]. destruct Hfail as (_ & _ & Hs); [lia|].
       simpl. rewrite Hs, app_nil_r. done. }
  destruct Hok as (Hle & _ & Hs); [lia|].
  case_if.
  { eexists _, _, x, 0. split; [done|]. split; [lia|]. simpl. replace ret with 0 in Hs by lia.
    simpl in Hs. done. }
  case_if; [lia|].
  destruct (register_write_eq i x {| fds := fds s; world := w' |} Hx) as (x1 & s1 & -> & Hx1 & Hsame & _ & Hw1).
  rewrite to_u64_small by lia. unfold view_remove_prefix.
  pose proof (view_remove_loop_spec (_views buf) ret ltac:(lia)) as Hrem.
  change (concat (_views buf)) with (views_concat buf) in Hrem. replace (ret <=? zlen (views_concat buf)) with true in Hrem by lia.
  destruct Hrem as (vs' & -> & Hvs). cbn [mbind outcome_bind]. set (buf' := {| _views := vs' |}).
  change (concat vs') with (views_concat buf') in Hvs.
  assert (zlen (views_concat buf') = zlen (views_concat buf) - ret) as Hz
    by (rewrite Hvs; unfold zlen in *; rewrite length_drop; lia).
  rewrite (view_size_eq buf') by lia. rewrite to_u64_small by lia.
  destruct (all && negb (zlen (views_concat buf') =? 0)) eqn:Eloop.
  - apply andb_true_iff in Eloop as [-> Enz].
    destruct (IH i buf' true (total + ret) s1 x1 Hx1) as (r & s' & x' & k & E & Hk & Hsent & Hx' & Hsame' & Hr); try lia.
    exists r, s', x', (ret + k). split; [exact E|]. split; [lia|]. destruct Hsame as (Hf & ? & ?), Hsame' as (? & ? & ?).
    split; [|split; [done|]; split; [unfold same_fd; split; congruence || (split; congruence)|]].
    + rewrite Hf, Hw1 in Hsent. simpl in Hsent. rewrite Hsent, Hs, Hvs, <- app_assoc. f_equal.
      rewrite Z2Nat.inj_add by lia. by rewrite take_take_drop.
    + destruct r as [n| |]; [|done|done]. destruct Hr as (? & Hall & _). split; [lia|]. split; [intros _; rewrite Hall by done; lia|].
      intros _. destruct (decide (ret = 0)); [|lia]. destruct (decide (zlen (views_concat buf) = 0)); lia.
  - eexists _, s1, x1, ret. split; [done|]. split; [lia|]. split; [by rewrite Hw1|]. split; [done|]. split; [done|].
    split; [done|]. split; [intros ->; simpl in Eloop; lia|].
    intros Hne. destruct (decide (ret = 0)); [|lia]. destruct (views_concat buf) as [|c l]; [done|].
    rewrite zlen_cons in *. pose proof (zlen_nonneg l). lia.
Qed.

(** Overwriting the beginning of a string and cutting it there. *)
Lemma resize_overwrite (data pad : bytes) : resize (data ++ pad) (zlen data) = data.
Proof.
  unfold resize, zlen. rewrite Nat2Z.id, take_app_length.
  replace (length data - length (data ++ pad))%nat with 0%nat by (rewrite length_app; lia). simpl. apply app_nil_r.
Qed.

Lemma set_eof_eq i x s :
  fds s !! i = Some x ->
  exists x' s', set_eof i s = (Ok tt, s') /\ fds s' !! i = Some x' /\ world s' = world s /\
    _fd x' = _fd x /\ _eof x' = true /\ _closed x' = _closed x /\ _read_count x' = _read_count x.
Proof.
  intros Hx. unfold set_eof, mbind, os_bind. rewrite (get_fd_eq i x s Hx).
  eexists _, _. split; [done|]. simpl. rewrite list_lookup_insert_eq by (eapply lookup_lt_Some; done). done.
Qed.

Lemma register_read_eq i x s :
  fds s !! i = Some x ->
  exists x' s', register_read i s = (Ok tt, s') /\ fds s' !! i = Some x' /\ same_fd x x' /\
    _read_count x' = to_u32 (_read_count x + 1) /\ world s' = world s.
Proof.
  intros Hx. unfold register_read, mbind, os_bind. rewrite (get_fd_eq i x s Hx).
  eexists _, _. split; [done|]. simpl. rewrite list_lookup_insert_eq by (eapply lookup_lt_Some; done). done.
Qed.

Lemma fd_read_spec i x s limit :
  fds s !! i = Some x -> 0 <= limit ->
  exists r s', fd_read i limit s = (r, s') /\
    match r with
    | Ok data =>
        incoming (_fd x) (world s) = data ++ incoming (_fd x) (world s') /\
        zlen data <= Z.min BUFFER_SIZE limit /\ (0 < limit -> data = [] -> incoming (_fd x) (world s) = []) /\
        exists x', fds s' !! i = Some x' /\ _fd x' = _fd x /\ _closed x' = _closed x /\
          _eof x' = _eof x || ((0 <? limit) && (zlen data =? 0)) /\
          _read_count x' = to_u32 (_read_count x + 1)
    | Throw (unix_error _ _) => fds s' = fds s /\ incoming (_fd x) (world s') = incoming (_fd x) (world s)
    | _ => False
    end /\ sent (_fd x) (world s') = sent (_fd x) (world s).
Proof.
  intros Hx Hl. unfold fd_read. unfold mbind, os_bind, fd_num, mbind, os_bind.
  rewrite (get_fd_eq i x s Hx). unfold mret, os_ret, call_kernel.
  set (n := Z.min BUFFER_SIZE limit). assert (0 <= n < 2 ^ 31) as Hn by (unfold n, BUFFER_SIZE; lia).
  destruct (sys_read (_fd x) n (world s)) as [[[ret errno] data] w'] eqn:Er.
  apply (law_read _ _ _ _ _ _ _ Hn) in Er as (Hok & Hfail & Hsent). unfold lift.
  assert (- 2 ^ 31 <= ret < 2 ^ 31) as Hret
    by (destruct (decide (0 <= ret)); [destruct Hok as (? & _) | destruct Hfail as (? & _)]; lia).
  rewrite system_call_spec by (done || intros; apply Hfail; lia). destruct (0 <=? ret) eqn:E0.
  2: { eexists _, _. split; [done|]. simpl. split; [|done]. split; [done|]. apply Hfail. lia. }
  destruct Hok as (Hle & Hdata & Hz & Hrest & Hend); [lia|].
  assert (incoming (_fd x) (world s) = data ++ incoming (_fd x) w') as Hin
    by (rewrite Hrest, Hdata; by rewrite take_drop).
  set (s0 := {| fds := fds s; world := w' |}). rewrite <- Hz, resize_overwrite.
  assert (exists x1 s1, (if (0 <? limit) && (zlen data =? 0) then set_eof i else fun s => (Ok tt, s)) s0 = (Ok tt, s1) /\
    fds s1 !! i = Some x1 /\ world s1 = w' /\ _fd x1 = _fd x /\ _closed x1 = _closed x /\
    _read_count x1 = _read_count x /\ _eof x1 = _eof x || ((0 <? limit) && (zlen data =? 0)))
    as (x1 & s1 & -> & Hx1 & Hw1 & Hf1 & Hc1 & Hr1 & He1).
  { case_if.
    - destruct (set_eof_eq i x s0 Hx) as (x1 & s1 & ? & ? & ? & ? & ? & ? & ?). exists x1, s1. rewrite orb_true_r. auto 10.
    - exists x, s0. rewrite orb_false_r. auto 10. }
  case_if; [lia|]. case_if; [lia|].
  destruct (register_read_eq i x1 s1 Hx1) as (x2 & s2 & -> & Hx2 & (Hf2 & He2 & Hc2) & Hr2 & Hw2).
  eexists _, _. split; [done|]. rewrite Hw2, Hw1. split; [|done]. split; [done|]. split; [lia|].
  split; [intros Hl0 ->; destruct Hend as [|]; [done | unfold n, BUFFER_SIZE in *; lia | done]|].
  exists x2. rewrite Hf2, He2, Hc2, Hr2, Hr1. auto 10.
Qed.

(** Only [O_NONBLOCK] changes. *)
Definition blocking_flags (flags : Z) (blocking : bool) : Z :=
  if blocking then Z.lxor flags (Z.land flags O_NONBLOCK) else Z.lor flags O_NONBLOCK.

Lemma blocking_flags_spec flags blocking j :
  0 <= j -> Z.testbit (blocking_flags flags blocking) j = if j =? 11 then negb blocking else Z.testbit flags j.
Proof.
  intros Hj. assert (Z.testbit O_NONBLOCK j = (j =? 11)) as Hb.
  { change O_NONBLOCK with (2 ^ 11). rewrite Z.pow2_bits_eqb by lia. lia. }
  unfold blocking_flags. destruct blocking; rewrite ?Z.lxor_spec, ?Z.land_spec, ?Z.lor_spec, Hb;
    destruct (Z.testbit flags j), (j =? 11); done.
Qed.

Lemma set_blocking_spec i x s b :
  fds s !! i = Some x -> exists r s', set_blocking i b s = (r, s') /\ fds s' = fds s /\
    match r with
    | Ok _ => status_flags (_fd x) (world s') = blocking_flags (status_flags (_fd x) (world s)) b
    | Throw (unix_error _ _) => status_flags (_fd x) (world s') = status_flags (_fd x) (world s)
    | _ => False
    end.
Proof.
  intros Hx. unfold set_blocking, mbind, os_bind, fd_num, mbind, os_bind. rewrite (get_fd_eq i x s Hx).
  unfold mret, os_ret, call_kernel, lift.
  destruct (sys_getfl (_fd x) (world s)) as [[r1 e1] w1] eqn:E1. apply law_getfl in E1 as (Hs1 & Hok1 & Hf1).
  rewrite system_call_spec by (destruct (decide (0 <= r1)); [destruct Hok1 | destruct Hf1]; lia).
  destruct (0 <=? r1) eqn:Er1; [|by eexists _, _].
  destruct Hok1 as [-> Hlt1]; [lia|]. fold (blocking_flags (status_flags (_fd x) (world s)) b). cbn [world].
  destruct (sys_setfl _ _ w1) as [[r2 e2] w2] eqn:E2. apply law_setfl in E2 as (Hok2 & Hf2).
  rewrite system_call_spec by (destruct (decide (0 <= r2)); [destruct Hok2 | destruct Hf2 as (? & ? & _)]; lia).
  destruct (0 <=? r2) eqn:Er2; eexists _, _; (split; [done|]); (split; [done|]).
  - apply Hok2. lia.
  - simpl. rewrite <- Hs1. apply Hf2. lia.
Qed.
End laws.

(** * A kernel with one device, which satisfies the laws *)

Record device := { sink : bytes; source : bytes; quota : Z; dev_flags : Z; dev_open : bool }.

(** At most [quota] bytes are accepted by one [writev]. *)
#[global] Instance device_kernel : Kernel device := {|
  sys_read fd n w :=
    let k := Z.max 0 (Z.min n (zlen (source w))) in
    (k, 0, take (Z.to_nat k) (source w),
     {| sink := sink w; source := drop (Z.to_nat k) (source w); quota := quota w; dev_flags := dev_flags w; dev_open := dev_open w |});
  sys_writev fd iov w :=
    let k := Z.max 0 (Z.min (Z.min (quota w) (2 ^ 31 - 1)) (zlen (iov_bytes iov))) in
    (k, 0, {| sink := sink w ++ take (Z.to_nat k) (iov_bytes iov); source := source w; quota := quota w;
              dev_flags := dev_flags w; dev_open := dev_open w |});
  sys_close fd w :=
    if fd =? 3 then
      (0, 0, {| sink := sink w; source := source w; quota := quota w; dev_flags := dev_flags w; dev_open := false |})
    else (-1, 9, w);
  sys_getfl fd w := if dev_flags w <? 2 ^ 31 then (Z.max (-1) (dev_flags w), 9, w) else (-1, 9, w);
  sys_setfl fd fl w := (0, 0, {| sink := sink w; source := source w; quota := quota w; dev_flags := fl;
                                 dev_open := dev_open w |})
|}.

#[global] Program Instance device_laws : KernelLaws device := {|
  incoming fd w := source w;
  sent fd w := sink w;
  status_flags fd w := dev_flags w;
  is_open fd w := (fd =? 3) && dev_open w
|}.
Next Obligation.
  intros fd w ret errno w'. simpl. unfold int_result. case_if; intros [= <- <- <-]; cbn [dev_open].
  - rewrite andb_false_r. split; [lia|]. split; [done|]. intros fd' Hne. by replace (fd' =? 3) with false by lia.
  - split; [lia | done].
Qed.
Next Obligation.
  intros fd n w ret errno data w' Hn. simpl. intros [= <- <- <- <-]. pose proof (zlen_nonneg (source w)).
  split; [|split; [lia | done]]. intros _. split; [lia|]. split; [done|]. split; [unfold zlen in *; rewrite length_take; lia|].
  split; [done|]. intros Hz. destruct (decide (n = 0)); [by left|]. right. apply zlen_zero. lia.
Qed.
Next Obligation.
  intros fd iov w ret errno w'. simpl. intros [= <- <- <-]. pose proof (zlen_nonneg (iov_bytes iov)).
  split; [intros _; split; [lia|]; split; [lia | done] | lia].
Qed.
Next Obligation.
  intros fd w ret errno w'. simpl. case_if; intros [= <- <- <-]; (split; [done|]); split; lia.
Qed.
Next Obligation.
  intros fd fl w ret errno w'. simpl. intros [= <- <- <-]. split; [done | lia].
Qed.

Definition demo_os : OS device :=
  {| fds := [{| _fd := 3; _eof := false; _closed := false; _read_count := 0; _write_count := 0 |}];
     world := {| sink := []; source := str "xyz"; quota := 2; dev_flags := 2; dev_open := true |} |}.

(** * Properties *)

(** C22: [FileDescriptor::write] on any kernel that keeps the contract of writev(2). It always
    terminates, returning or throwing; on every path the kernel has received a prefix of
    the buffer and nothing else; a return value is the length of that prefix, which with
    [write_all] is the whole buffer, however the kernel splits it, and otherwise is not
    empty unless the buffer is. *)
Theorem fd_write_exact {W} `{KernelLaws W} i x buf all (s : OS W) :
  fds s !! i = Some x -> zlen (views_concat buf) < 2 ^ 63 ->
  exists r s' k, fd_write i buf all s = (r, s') /\ 0 <= k <= zlen (views_concat buf) /\
    sent (_fd x) (world s') = sent (_fd x) (world s) ++ take (Z.to_nat k) (views_concat buf) /\
    match r with
    | Ok n => n = k /\ (all = true -> n = zlen (views_concat buf)) /\ (views_concat buf <> [] -> 0 < n)
    | Throw _ => True
    | Undefined => False
    end.
Proof.
  intros Hx Hc. pose proof (zlen_nonneg (views_concat buf)).
  destruct (write_views_spec (Datatypes.S (Z.to_nat (view_size buf))) i buf all 0 s x Hx Hc)
    as (r & s' & x' & k & E & Hk & Hs & _ & _ & Hr); [rewrite view_size_eq; lia | lia | lia |].
  exists r, s', k. split; [exact E|]. split; [done|]. split; [done|].
  destruct r as [n| |]; [|done|done]. destruct Hr as (-> & Hall & Hpos). rewrite Z.add_0_l. auto.
Qed.

Lemma fd_write_exact_witness :
  exists s', fd_write 0 (view_list_of (str "abcde")) true demo_os = (Ok 5, s') /\
    sent 3 (world s') = sent 3 (world demo_os) ++ str "abcde".
Proof.
  destruct (fd_write_exact 0 {| _fd := 3; _eof := false; _closed := false; _read_count := 0; _write_count := 0 |}
    (view_list_of (str "abcde")) true demo_os) as (r & s' & k & E & _ & Hs & Hr); [reflexivity | by_compute |].
  destruct r as [n|e|]; [|vm_compute in E; discriminate|vm_compute in E; discriminate].
  destruct Hr as (-> & Hall & _). specialize (Hall eq_refl). subst k. exists s'. split; [exact E | exact Hs].
Defined.

(** C23: [FileDescriptor::read] on any kernel that keeps the contract of read(2). It returns
    the next bytes of the input, at most [limit] and at most one mebibyte, and marks the
    end of file exactly when nothing came although something was asked for, and then the
    input is at its end; the read is counted. If the system call fails it throws the error,
    nothing is consumed and the wrapper is unchanged; there is no other outcome, and what
    was sent is as before. *)
Theorem fd_read_exact {W} `{KernelLaws W} i x limit (s : OS W) :
  fds s !! i = Some x -> 0 <= limit ->
  exists r s', fd_read i limit s = (r, s') /\
    match r with
    | Ok data =>
        incoming (_fd x) (world s) = data ++ incoming (_fd x) (world s') /\
        zlen data <= Z.min BUFFER_SIZE limit /\ (0 < limit -> data = [] -> incoming (_fd x) (world s) = []) /\
        exists x', fds s' !! i = Some x' /\ _fd x' = _fd x /\ _closed x' = _closed x /\
          _eof x' = _eof x || ((0 <? limit) && (zlen data =? 0)) /\
          _read_count x' = to_u32 (_read_count x + 1)
    | Throw (unix_error _ _) => fds s' = fds s /\ incoming (_fd x) (world s') = incoming (_fd x) (world s)
    | _ => False
    end /\ sent (_fd x) (world s') = sent (_fd x) (world s).
Proof. apply fd_read_spec. Qed.

Lemma fd_read_exact_witness :
  exists data s', fd_read 0 2 demo_os = (Ok data, s') /\ data = str "xy" /\
    incoming 3 (world demo_os) = data ++ incoming 3 (world s').
Proof.
  destruct (fd_read_exact 0 {| _fd := 3; _eof := false; _closed := false; _read_count := 0; _write_count := 0 |}
    2 demo_os) as (r & s' & E & Hr & _); [reflexivity | lia |].
  vm_compute in E. injection E as <- <-. eexists _, _. split; [vm_compute; reflexivity|].
  split; [reflexivity|]. apply Hr.
Defined.

(** [set_blocking] changes the [O_NONBLOCK] bit of the descriptor's flags to what was
    asked for and no other bit; if one of its system calls fails it throws and the flags
    are as they were. *)
Lemma set_blocking_exact {W} `{KernelLaws W} i x b (s : OS W) :
  fds s !! i = Some x ->
  exists r s', set_blocking i b s = (r, s') /\ fds s' = fds s /\
    match r with
    | Ok _ => forall j, 0 <= j -> Z.testbit (status_flags (_fd x) (world s')) j
        = if j =? 11 then negb b else Z.testbit (status_flags (_fd x) (world s)) j
    | Throw (unix_error _ _) => status_flags (_fd x) (world s') = status_flags (_fd x) (world s)
    | _ => False
    end.
Proof.
  intros Hx. destruct (set_blocking_spec i x s b Hx) as (r & s' & E & Hf & Hr).
  exists r, s'. split; [done|]. split; [done|]. destruct r as [u| |]; [|done|done].
  rewrite Hr. intros j Hj. by apply blocking_flags_spec.
Qed.
