(* ===== verification/OSLogic.v ===== *)
(** A program logic for the monad [os] of FileDescriptor.v: weakest preconditions with a
    postcondition for a return and one for an exception, and the rules for its primitives
    and for the operations on descriptors. An undefined behaviour satisfies neither
    postcondition. *)
From S2P Require Import Prelude Buffer FileDescriptor.

Section wp.
Context {W : Type}.
Implicit Types s : OS W.

(** [c] started in [s] returns a value and a state that satisfy [Q], or throws an exception
    in a state that satisfies [E]. *)
Definition wp {A} (c : os W A) (Q : A -> OS W -> Prop) (E : exception -> OS W -> Prop) s : Prop :=
  match c s with
  | (Ok a, s') => Q a s'
  | (Throw e, s') => E e s'
  | (Undefined, _) => False
  end.

(** The state with another world, and with another wrapper. *)
Definition set_world s (w : W) : OS W := {| fds := fds s; world := w |}.
Definition set_fd s (i : nat) (x : FDWrapper) : OS W := {| fds := <[i := x]> (fds s); world := world s |}.

(** The wrapper after one more read, and after one more write. *)
Definition counted_read (x : FDWrapper) : FDWrapper :=
  {| _fd := _fd x; _eof := _eof x; _closed := _closed x;
     _read_count := to_u32 (_read_count x + 1); _write_count := _write_count x |}.
Definition counted_write (x : FDWrapper) : FDWrapper :=
  {| _fd := _fd x; _eof := _eof x; _closed := _closed x;
     _read_count := _read_count x; _write_count := to_u32 (_write_count x + 1) |}.

(** A wrapper as its constructor leaves it. *)
Definition fresh_fd (fd : Z) : FDWrapper :=
  {| _fd := fd; _eof := false; _closed := false; _read_count := 0; _write_count := 0 |}.

(** A system call and the check of its result. *)
Definition syscall (attempt : bytes) (c : W -> (Z * Z) * W) : os W Z :=
  '(ret, errno) ← call_kernel c;
  lift (SystemCall attempt ret errno 0).

(** [try c catch (...) { h; throw; }], which is also what the destructor of a local object
    does when an exception leaves its scope. *)
Definition on_throw {A} (c : os W A) (h : os W unit) : os W A := fun s =>
  match c s with
  | (Throw e, s') => match h s' with (Ok _, s'') => (Throw e, s'') | (_, s'') => (Undefined, s'') end
  | r => r
  end.

Section rules.
Context {A B : Type}.
Implicit Types (Q : A -> OS W -> Prop) (E : exception -> OS W -> Prop).

Lemma wp_ret (a : A) Q E s : Q a s -> wp (mret a) Q E s.
Proof. done. Qed.

Lemma wp_throw e Q E s : E e s -> wp (lift (Throw e)) Q E s.
Proof. done. Qed.

Lemma wp_bind (c : os W B) (f : B -> os W A) Q E s :
  wp c (fun b s' => wp (f b) Q E s') E s -> wp (c ≫= f) Q E s.
Proof. unfold wp, mbind, os_bind. by destruct (c s) as [[b|e|] s']. Qed.

Lemma wp_mono (c : os W A) Q Q' E E' s :
  wp c Q E s -> (forall a s', Q a s' -> Q' a s') -> (forall e s', E e s' -> E' e s') -> wp c Q' E' s.
Proof. unfold wp. destruct (c s) as [[a|e|] s']; auto. Qed.

(** The handler runs in the state of the exception, and must return. *)
Lemma wp_on_throw (c : os W A) h Q E s :
  wp c Q (fun e s' => wp h (fun _ s'' => E e s'') (fun _ _ => False) s') s -> wp (on_throw c h) Q E s.
Proof.
  unfold wp, on_throw. destruct (c s) as [[a|e|] s']; [done| |done].
  by destruct (h s') as [[u|e'|] s''].
Qed.
End rules.

(** ** Primitives *)

Lemma wp_get_fd i x Q E s : fds s !! i = Some x -> Q x s -> wp (get_fd i) Q E s.
Proof. unfold wp, get_fd. by intros ->. Qed.

Lemma wp_fd_num i x Q E s : fds s !! i = Some x -> Q (_fd x) s -> wp (fd_num i) Q E s.
Proof. intros Hx HQ. by apply wp_bind, (wp_get_fd i x). Qed.

Lemma wp_call {A} (c : W -> A * W) Q E s :
  (forall a w, c (world s) = (a, w) -> Q a (set_world s w)) -> wp (call_kernel c) Q E s.
Proof. intros H. unfold wp, call_kernel. destruct (c (world s)) as [a w]. by apply H. Qed.

Lemma wp_system_call attempt ret errno Q E s :
  int_result ret errno -> (0 <= ret -> Q ret s) -> (ret < 0 -> E (unix_error attempt errno) s) ->
  wp (lift (SystemCall attempt ret errno 0)) Q E s.
Proof.
  intros [Hr He] HQ HE. unfold wp, lift. rewrite system_call_spec by done.
  case_if; [apply HQ | apply HE]; lia.
Qed.

Lemma wp_syscall attempt c Q E s :
  (forall ret errno w, c (world s) = ((ret, errno), w) ->
    int_result ret errno /\ (0 <= ret -> Q ret (set_world s w)) /\
    (ret < 0 -> E (unix_error attempt errno) (set_world s w))) ->
  wp (syscall attempt c) Q E s.
Proof.
  intros H. apply wp_bind, wp_call. intros [ret errno] w Ec. destruct (H ret errno w Ec) as (Hi & HQ & HE).
  by apply wp_system_call.
Qed.

Lemma register_read_set i x s : fds s !! i = Some x -> register_read i s = (Ok tt, set_fd s i (counted_read x)).
Proof. intros Hx. unfold register_read, mbind, os_bind. by rewrite (get_fd_eq i x s Hx). Qed.

Lemma wp_register_read i x Q E s :
  fds s !! i = Some x -> Q tt (set_fd s i (counted_read x)) -> wp (register_read i) Q E s.
Proof. intros Hx HQ. unfold wp. by rewrite (register_read_set i x s Hx). Qed.

Lemma wp_register_write i x Q E s :
  fds s !! i = Some x -> Q tt (set_fd s i (counted_write x)) -> wp (register_write i) Q E s.
Proof. intros Hx HQ. by apply wp_bind, (wp_get_fd i x). Qed.

Lemma wp_new_fd fd Q E s :
  0 <= fd -> Q (length (fds s)) {| fds := fds s ++ [fresh_fd fd]; world := world s |} -> wp (new_fd fd) Q E s.
Proof. intros Hfd HQ. unfold wp, new_fd. by replace (fd <? 0) with false by lia. Qed.

Lemma wp_fd_eof i x Q E s : fds s !! i = Some x -> Q (_eof x) s -> wp (fd_eof i) Q E s.
Proof. intros Hx HQ. by apply wp_bind, (wp_get_fd i x). Qed.

(** The store after a change of one wrapper. *)
Lemma set_fd_lookup s i x x' : fds s !! i = Some x -> fds (set_fd s i x') !! i = Some x'.
Proof. intros Hx. simpl. apply list_lookup_insert_eq. by eapply lookup_lt_Some. Qed.

Lemma set_fd_other s i j x' : i <> j -> fds (set_fd s i x') !! j = fds s !! j.
Proof. intros Hij. simpl. by apply list_lookup_insert_ne. Qed.

Lemma new_fd_lookup (l : list FDWrapper) x : (l ++ [x]) !! length l = Some x.
Proof. by rewrite lookup_app_r, Nat.sub_diag by lia. Qed.
End wp.

(** Wrappers that differ in their counters only. *)
#[global] Instance same_fd_preorder : PreOrder same_fd.
Proof.
  split; [done|]. intros x y z (? & ? & ?) (? & ? & ?). unfold same_fd. split; [congruence | split; congruence].
Qed.

(** ** Operations on descriptors *)

Section operations.
Context {W : Type} `{KernelLaws W}.
Implicit Types s : OS W.

Lemma wp_fd_write_all i x buf Q E s :
  fds s !! i = Some x -> zlen (views_concat buf) < 2 ^ 63 ->
  (forall s' x', fds s' !! i = Some x' -> same_fd x x' ->
    sent (_fd x) (world s') = sent (_fd x) (world s) ++ views_concat buf -> Q (zlen (views_concat buf)) s') ->
  (forall e s' x', fds s' !! i = Some x' -> same_fd x x' -> E e s') ->
  wp (fd_write i buf true) Q E s.
Proof.
  intros Hx Hc HQ HE. pose proof (zlen_nonneg (views_concat buf)).
  destruct (write_views_spec (Datatypes.S (Z.to_nat (view_size buf))) i buf true 0 s x Hx Hc)
    as (r & s' & x' & k & Ew & Hk & Hs & Hx' & Hsame & Hr); [rewrite view_size_eq; lia | lia | lia |].
  unfold wp, fd_write. rewrite Ew. destruct r as [n|e|]; [|by eapply HE|done].
  destruct Hr as (-> & Hall & _). specialize (Hall eq_refl) as ->. rewrite Z.add_0_l.
  apply (HQ s' x'); [done..|]. rewrite Hs. unfold zlen. by rewrite Nat2Z.id, firstn_all.
Qed.

(** Writing a whole string. *)
Lemma wp_write_string i x (str : bytes) Q E s :
  fds s !! i = Some x -> zlen str < 2 ^ 63 ->
  (forall s' x', fds s' !! i = Some x' -> same_fd x x' ->
    sent (_fd x) (world s') = sent (_fd x) (world s) ++ str -> Q (zlen str) s') ->
  (forall e s' x', fds s' !! i = Some x' -> same_fd x x' -> E e s') ->
  wp (write_string i str true) Q E s.
Proof.
  intros Hx Hz HQ HE. assert (views_concat (view_list_of str) = str) as Hv by apply app_nil_r.
  apply (wp_fd_write_all i x); [done | by rewrite Hv | by rewrite Hv | done].
Qed.

(** [close] frees the descriptor on every path; it marks the wrapper unless close(2) failed. *)
Lemma wp_close i x Q E s :
  fds s !! i = Some x ->
  (forall s' x', fds s' !! i = Some x' -> _fd x' = _fd x -> _closed x' = true -> _eof x' = true ->
    is_open (_fd x) (world s') = false -> (forall fd', fd' <> _fd x -> is_open fd' (world s') = is_open fd' (world s)) ->
    Q tt s') ->
  (forall e s', fds s' = fds s -> is_open (_fd x) (world s') = false ->
    (forall fd', fd' <> _fd x -> is_open fd' (world s') = is_open fd' (world s)) -> E (unix_error (str "close") e) s') ->
  wp (close i) Q E s.
Proof.
  intros Hx HQ HE. apply wp_bind, (wp_get_fd i x); [done|]. apply wp_bind, wp_call. intros [ret errno] w Ec.
  apply law_close in Ec as (Hint & Hcl & Hother). apply wp_bind, wp_system_call; [done| |]; intros Hr; [|by apply HE].
  eapply HQ; [by eapply (set_fd_lookup (set_world s w)) | done..].
Qed.

(** The destructor of a wrapper that is not closed closes its descriptor, even if close(2)
    reports an error, and throws nothing. *)
Lemma destroy_fd_spec i x s :
  fds s !! i = Some x -> _closed x = false ->
  wp (destroy_fd i)
    (fun _ s' => is_open (_fd x) (world s') = false /\
      forall fd', fd' <> _fd x -> is_open fd' (world s') = is_open fd' (world s))
    (fun _ _ => False) s.
Proof.
  intros Hx Hc. apply wp_bind, (wp_get_fd i x); [done|]. rewrite Hc.
  set (P s' := is_open (_fd x) (world s') = false /\ forall fd', fd' <> _fd x -> is_open fd' (world s') = is_open fd' (world s)).
  assert (wp (close i) (fun _ => P) (fun _ => P) s) as Hclose by (apply (wp_close i x); [done | by intros; split | by intros; split]).
  unfold wp in *. destruct (close i s) as [[u|e|] s']; done.
Qed.

(** The destructor of a wrapper that is closed does nothing. *)
Lemma destroy_fd_closed i x s : fds s !! i = Some x -> _closed x = true -> destroy_fd i s = (Ok tt, s).
Proof. intros Hx Hc. unfold destroy_fd, mbind, os_bind. rewrite (get_fd_eq i x s Hx). by rewrite Hc. Qed.

(** A failed [close] leaves the wrapper open, so its destructor calls close(2) a second time
    on a descriptor that is already free. *)
Lemma failed_close_closes_again i x s ret errno w :
  fds s !! i = Some x -> _closed x = false -> sys_close (_fd x) (world s) = (ret, errno, w) ->
  - 2 ^ 31 <= ret < 0 -> errno <> 0 ->
  close i s = (Throw (unix_error (str "close") errno), set_world s w) /\
  is_open (_fd x) w = false /\ (destroy_fd i (set_world s w)).2 = (close i (set_world s w)).2 /\
  world (close i (set_world s w)).2 = (sys_close (_fd x) w).2.
Proof.
  intros Hx Hc E Hr He. pose proof E as (_ & Hcl & _)%law_close.
  assert (forall s0, fds s0 = fds s -> close i s0 =
    let '(r, e, w0) := sys_close (_fd x) (world s0) in
    match SystemCall (str "close") r e 0 with
    | Ok _ => put_fd i {| _fd := _fd x; _eof := true; _closed := true; _read_count := _read_count x;
                          _write_count := _write_count x |} (set_world s0 w0)
    | Throw ex => (Throw ex, set_world s0 w0) | Undefined => (Undefined, set_world s0 w0)
    end) as Hclose.
  { intros s0 Hs0. unfold close, mbind, os_bind. rewrite (get_fd_eq i x s0) by (by rewrite Hs0).
    unfold call_kernel, lift. destruct (sys_close (_fd x) (world s0)) as [[r e] w0]. by destruct (SystemCall _ _ _ _). }
  split; [rewrite Hclose by done; rewrite E, system_call_spec by lia; by replace (0 <=? ret) with false by lia|].
  split; [done|]. unfold destroy_fd, mbind, os_bind. rewrite (get_fd_eq i x (set_world s w) Hx), Hc.
  rewrite (Hclose (set_world s w)) by done. cbn [set_world world].
  destruct (sys_close (_fd x) w) as [[r e] w0]. by destruct (SystemCall _ _ _ _) as [| |].
Qed.

Lemma wp_fd_read i x limit Q E s :
  fds s !! i = Some x -> 0 <= limit ->
  (forall data s' x', incoming (_fd x) (world s) = data ++ incoming (_fd x) (world s') ->
    (0 < limit -> data = [] -> incoming (_fd x) (world s) = []) ->
    sent (_fd x) (world s') = sent (_fd x) (world s) ->
    fds s' !! i = Some x' -> _fd x' = _fd x -> _closed x' = _closed x ->
    _eof x' = _eof x || ((0 <? limit) && (zlen data =? 0)) -> Q data s') ->
  (forall a e s', fds s' = fds s -> incoming (_fd x) (world s') = incoming (_fd x) (world s) ->
    sent (_fd x) (world s') = sent (_fd x) (world s) -> E (unix_error a e) s') ->
  wp (fd_read i limit) Q E s.
Proof.
  intros Hx Hl HQ HE. destruct (fd_read_spec i x s limit Hx Hl) as (r & s' & Er & Hr & Hs).
  unfold wp. rewrite Er. destruct r as [data|e|]; [|by destruct e; try done; destruct Hr; apply HE|done].
  destruct Hr as (Hin & _ & Hend & x' & Hx' & Hf & Hc & He & _). by eapply HQ.
Qed.
End operations.
