(* ===== verification/Handles.v ===== *)
(** The handles of util/file_descriptor.hh: a [FileDescriptor] object holds a
    [std::shared_ptr] to an [FDWrapper], which lives as long as a handle points to it.
    Objects are named by numbers; a handle is the position of its wrapper in the store of
    FileDescriptor.v, or null after it was moved from. The destructor of a wrapper runs
    when its last handle is destroyed or assigned to. *)
From stdpp Require Import gmap.
From S2P Require Import Prelude Buffer FileDescriptor OSLogic.

(** * Objects and their operations *)

Record store (W : Type) := { sys : OS W; handles : gmap nat (option nat) }.
Arguments sys {W} s.
Arguments handles {W} s.

(** [_internal_fd.use_count()] of the handles on wrapper [i]. *)
Definition use_count (hs : gmap nat (option nat)) (i : nat) : nat := size (filter (fun e => e.2 = Some i) hs).

Section operations.
Context {W : Type} `{Kernel W}.
Implicit Types σ : store W.

Definition set_sys σ (s : OS W) : store W := {| sys := s; handles := handles σ |}.
Definition set_handles σ (hs : gmap nat (option nat)) : store W := {| sys := sys σ; handles := hs |}.

(** The end of a [shared_ptr] to the wrapper that [p] names: the destructor of the wrapper
    runs if no other handle has it. *)
Definition release (p : option nat) σ : outcome unit * store W :=
  match p with
  | Some i =>
      if decide (use_count (handles σ) i = 0)%nat then
        let '(r, s) := destroy_fd i (sys σ) in (r, set_sys σ s)
      else (Ok tt, σ)
  | None => (Ok tt, σ)
  end.

(** [FileDescriptor(fd)], for the object [h]. *)
Definition construct (h : nat) (fd : Z) σ : outcome unit * store W :=
  match new_fd fd (sys σ) with
  | (Ok i, s) => (Ok tt, set_handles (set_sys σ s) (<[h := Some i]> (handles σ)))
  | (Throw e, s) => (Throw e, set_sys σ s)
  | (Undefined, s) => (Undefined, set_sys σ s)
  end.

(** [h' = h.duplicate()] for a new object [h']. *)
Definition duplicate_handle (h h' : nat) σ : outcome unit * store W :=
  match handles σ !! h with
  | Some p => (Ok tt, set_handles σ (<[h' := duplicate <$> p]> (handles σ)))
  | None => (Undefined, σ)
  end.

(** [FileDescriptor(FileDescriptor &&)]: the new object [h'] takes the pointer of [h]. *)
Definition move_construct (h h' : nat) σ : outcome unit * store W :=
  match handles σ !! h with
  | Some p => (Ok tt, set_handles σ (<[h' := p]> (<[h := None]> (handles σ))))
  | None => (Undefined, σ)
  end.

(** [operator=(FileDescriptor &&)]: [h'] takes the pointer of [h] and gives up its own; an
    object assigned to itself keeps it. *)
Definition move_assign (h h' : nat) σ : outcome unit * store W :=
  match handles σ !! h, handles σ !! h' with
  | Some p, Some old =>
      if decide (h = h') then (Ok tt, σ)
      else release old (set_handles σ (<[h' := p]> (<[h := None]> (handles σ))))
  | _, _ => (Undefined, σ)
  end.

(** [~FileDescriptor()]. *)
Definition destroy (h : nat) σ : outcome unit * store W :=
  match handles σ !! h with
  | Some p => release p (set_handles σ (delete h (handles σ)))
  | None => (Undefined, σ)
  end.

(** A method of the object [h]: it follows the pointer. *)
Definition call {A} (h : nat) (method : nat -> os W A) σ : outcome A * store W :=
  match handles σ !! h with
  | Some (Some i) => let '(r, s) := method i (sys σ) in (r, set_sys σ s)
  | _ => (Undefined, σ)
  end.
End operations.

(** * Which methods leave the descriptors alone *)

(** Reading, writing and setting flags neither open nor close descriptors. *)
Class KernelFrame (W : Type) `{KernelLaws W} := {
  frame_read fd n w f : is_open f (sys_read fd n w).2 = is_open f w;
  frame_writev fd iov w f : is_open f (sys_writev fd iov w).2 = is_open f w;
  frame_getfl fd w f : is_open f (sys_getfl fd w).2 = is_open f w;
  frame_setfl fd fl w f : is_open f (sys_setfl fd fl w).2 = is_open f w
}.

Section quiet.
Context {W : Type} `{KernelLaws W}.
Implicit Types s : OS W.

(** What owns a descriptor: its number and whether it was closed. *)
Definition owner (x : FDWrapper) : Z * bool := (_fd x, _closed x).

(** The wrappers own the same descriptors, and the same descriptors are open. *)
Record keeps s s' : Prop := {
  kp_fds : owner <$> fds s' = owner <$> fds s;
  kp_open : forall f, is_open f (world s') = is_open f (world s)
}.

#[global] Instance keeps_preorder : PreOrder keeps.
Proof. split; [done|]. intros s1 s2 s3 [E1 O1] [E2 O2]. split; [congruence|]. intros f. by rewrite O2. Qed.

Definition quiet {A} (c : os W A) : Prop := forall s, keeps s (c s).2.

Lemma quiet_ret {A} (a : A) : quiet (mret a).
Proof. intros s. reflexivity. Qed.

Lemma quiet_lift {A} (r : outcome A) : quiet (lift r).
Proof. intros s. reflexivity. Qed.

Lemma quiet_bind {A B} (c : os W A) (f : A -> os W B) : quiet c -> (forall a, quiet (f a)) -> quiet (c ≫= f).
Proof.
  intros Hc Hf s. unfold mbind, os_bind. pose proof (Hc s) as Hk. destruct (c s) as [[a|e|] s']; try done.
  etransitivity; [exact Hk | apply Hf].
Qed.

Lemma quiet_if {A} (b : bool) (c1 c2 : os W A) : quiet c1 -> quiet c2 -> quiet (if b then c1 else c2).
Proof. by destruct b. Qed.

Lemma quiet_get i : quiet (get_fd i).
Proof. intros s. unfold get_fd. by destruct (fds s !! i). Qed.

Lemma quiet_call {A} (c : W -> A * W) : (forall w f, is_open f (c w).2 = is_open f w) -> quiet (call_kernel c).
Proof. intros Hc s. unfold call_kernel. specialize (Hc (world s)). by destruct (c (world s)). Qed.

(** An update of a wrapper that keeps what it owns. *)
Lemma quiet_update i (g : FDWrapper -> FDWrapper) :
  (forall x, owner (g x) = owner x) -> quiet (x ← get_fd i; put_fd i (g x)).
Proof.
  intros Hg s. unfold mbind, os_bind, get_fd. destruct (fds s !! i) as [x|] eqn:Hx; [|done]. split; [|done].
  simpl. rewrite list_fmap_insert, Hg. apply list_insert_id. by rewrite list_lookup_fmap, Hx.
Qed.
End quiet.

Create HintDb quiet.
#[export] Hint Resolve quiet_ret quiet_lift quiet_bind quiet_if quiet_get quiet_call quiet_update : quiet.

(** Goes through a method call by call. *)
Ltac quiet_steps :=
  cbv zeta;
  repeat match goal with
  | |- quiet (_ ≫= _) => apply quiet_bind
  | |- quiet (if _ then _ else _) => apply quiet_if
  | |- forall _, quiet _ => intros ?
  end; auto with quiet.

Section methods.
Context {W : Type} `{KernelFrame W}.

Lemma quiet_num i : quiet (fd_num i).
Proof. unfold fd_num. auto with quiet. Qed.

Lemma quiet_register_read i : quiet (register_read i).
Proof. by apply (quiet_update i counted_read). Qed.

Lemma quiet_register_write i : quiet (register_write i).
Proof. by apply (quiet_update i counted_write). Qed.

Lemma quiet_set_eof i : quiet (set_eof i).
Proof.
  by apply (quiet_update i (fun x => {| _fd := _fd x; _eof := true; _closed := _closed x;
    _read_count := _read_count x; _write_count := _write_count x |})).
Qed.

#[local] Hint Resolve quiet_num quiet_register_read quiet_register_write quiet_set_eof : quiet.

(** [read], [write] and [set_blocking] leave the descriptors alone. *)
Lemma quiet_read i limit : quiet (fd_read i limit).
Proof.
  unfold fd_read. apply quiet_bind; [auto with quiet|]. intros fd. apply quiet_bind.
  - apply quiet_call. intros w f. pose proof (frame_read fd (Z.min BUFFER_SIZE limit) w f) as Hf.
    by destruct (sys_read _ _ w) as [[[? ?] ?] ?].
  - intros [[ret errno] data]. quiet_steps.
Qed.

Lemma quiet_write i buf all : quiet (fd_write i buf all).
Proof.
  unfold fd_write. generalize 0 as total. generalize (Datatypes.S (Z.to_nat (view_size buf))) as fuel.
  intros fuel. revert buf. induction fuel as [|fuel IH]; intros buf total; cbn [write_views]; [auto with quiet|].
  apply quiet_bind; [auto with quiet|]. intros fd. apply quiet_bind.
  - apply quiet_call. intros w f. apply frame_writev.
  - intros [ret errno]. quiet_steps.
Qed.

Lemma quiet_set_blocking i b : quiet (set_blocking i b).
Proof.
  unfold set_blocking. apply quiet_bind; [auto with quiet|]. intros fd. apply quiet_bind.
  - apply quiet_call. intros w f. apply frame_getfl.
  - intros [ret errno]. apply quiet_bind; [auto with quiet|]. intros flags. apply quiet_bind.
    + apply quiet_call. intros w f. apply frame_setfl.
    + intros [ret' errno']. quiet_steps.
Qed.
End methods.

(** * Ownership *)

Section ownership.
Context {W : Type} `{KernelLaws W}.
Implicit Types σ : store W.

(** Wrapper [i] has a handle. *)
Definition live σ (i : nat) : Prop := exists h, handles σ !! h = Some (Some i).

(** A wrapper with a handle that was not closed has descriptor [f]. *)
Definition owned σ (f : Z) : Prop :=
  exists i x, live σ i /\ fds (sys σ) !! i = Some x /\ _closed x = false /\ _fd x = f.

Record own_inv σ : Prop := {
  ow_valid i : live σ i -> is_Some (fds (sys σ) !! i);
  ow_open f : owned σ f -> is_open f (world (sys σ)) = true;
  ow_distinct i x j y : live σ i -> live σ j -> fds (sys σ) !! i = Some x -> fds (sys σ) !! j = Some y ->
    _closed x = false -> _closed y = false -> _fd x = _fd y -> i = j
}.

(** Every wrapper that has a handle exists. *)
Definition valid σ : Prop := forall i, live σ i -> is_Some (fds (sys σ) !! i).

(** What a program does with its objects: it wraps descriptor numbers, copies, moves, assigns
    and destroys handles, calls [close] and other methods; the outside world may open and
    close descriptors too. A [careful] program wraps a descriptor that the kernel has
    opened and that nothing else owns, and calls [close] on a wrapper that is not closed and
    with success; and nobody outside closes what it owns. *)
Inductive hstep (careful : bool) : store W -> store W -> Prop :=
| h_new σ h fd :
    handles σ !! h = None -> 0 <= fd ->
    (careful = true -> is_open fd (world (sys σ)) = true /\ ~ owned σ fd) ->
    hstep careful σ (construct h fd σ).2
| h_duplicate σ h h' :
    is_Some (handles σ !! h) -> handles σ !! h' = None -> hstep careful σ (duplicate_handle h h' σ).2
| h_move σ h h' :
    is_Some (handles σ !! h) -> handles σ !! h' = None -> hstep careful σ (move_construct h h' σ).2
| h_assign σ h h' :
    is_Some (handles σ !! h) -> is_Some (handles σ !! h') -> hstep careful σ (move_assign h h' σ).2
| h_destroy σ h : is_Some (handles σ !! h) -> hstep careful σ (destroy h σ).2
| h_close σ h i :
    handles σ !! h = Some (Some i) ->
    (careful = true -> (call h close σ).1 = Ok tt /\ exists x, fds (sys σ) !! i = Some x /\ _closed x = false) ->
    hstep careful σ (call h close σ).2
| h_call {A} σ h i (method : nat -> os W A) :
    handles σ !! h = Some (Some i) -> (forall i, quiet (method i)) -> hstep careful σ (call h method σ).2
| h_world σ w :
    (careful = true -> forall f, owned σ f -> is_open f w = true) ->
    hstep careful σ (set_sys σ {| fds := fds (sys σ); world := w |}).

Definition hsteps (careful : bool) : store W -> store W -> Prop := rtc (hstep careful).

(** ** Lemmas *)

Lemma use_count_zero hs i : use_count hs i = 0%nat <-> forall h, hs !! h <> Some (Some i).
Proof.
  unfold use_count. rewrite map_size_empty_iff, map_empty_filter. unfold map_Forall. split.
  - intros Hall h Hh. by apply (Hall h _ Hh).
  - intros Hall h p Hh Hp. simpl in Hp. subst p. by apply (Hall h).
Qed.

Lemma use_count_live σ i : use_count (handles σ) i = 0%nat <-> ~ live σ i.
Proof.
  rewrite use_count_zero. unfold live. split; [by intros Hall [h Hh]; apply (Hall h)|].
  intros Hn h Hh. apply Hn. by exists h.
Qed.

#[global] Instance live_dec σ i : Decision (live σ i).
Proof.
  destruct (decide (use_count (handles σ) i = 0)%nat) as [Hz|Hz]; [right; by apply use_count_live|]. left.
  unfold use_count in Hz. apply map_size_non_empty_iff, map_choose in Hz as (h & p & Hh).
  apply map_lookup_filter_Some in Hh as [Hh Hp]. exists h. simpl in Hp. by rewrite Hh, Hp.
Defined.

(** [close] changes its own wrapper only, and only if close(2) succeeds; the descriptor is
    free afterwards in any case. *)
Lemma close_cases i x (s : OS W) :
  fds s !! i = Some x ->
  exists r s', close i s = (r, s') /\ is_open (_fd x) (world s') = false /\
    (forall f, f <> _fd x -> is_open f (world s') = is_open f (world s)) /\
    match r with
    | Ok _ => exists x', fds s' = <[i := x']> (fds s) /\ _closed x' = true
    | Throw _ => fds s' = fds s
    | Undefined => False
    end.
Proof.
  intros Hx. unfold close, mbind, os_bind. rewrite (get_fd_eq i x s Hx). unfold call_kernel, lift.
  destruct (sys_close (_fd x) (world s)) as [[ret errno] w] eqn:Ec.
  apply law_close in Ec as ([Hr He] & Hcl & Hother). rewrite system_call_spec by done.
  destruct (0 <=? ret); eexists _, _; (split; [done|]); (split; [done|]); (split; [done|]); [by eexists | done].
Qed.

(** The destructor changes its own wrapper only, and closes its descriptor if it is not
    closed. *)
Lemma destroy_fd_exact i x (s : OS W) :
  fds s !! i = Some x ->
  exists s', destroy_fd i s = (Ok tt, s') /\ (forall j, j <> i -> fds s' !! j = fds s !! j) /\
    if _closed x then s' = s
    else is_open (_fd x) (world s') = false /\ forall f, f <> _fd x -> is_open f (world s') = is_open f (world s).
Proof.
  intros Hx. destruct (_closed x) eqn:Hc.
  { exists s. split; [by apply (destroy_fd_closed i x) | done]. }
  unfold destroy_fd, mbind, os_bind. rewrite (get_fd_eq i x s Hx), Hc.
  destruct (close_cases i x s Hx) as (r & s' & -> & Hcl & Hother & Hr). exists s'. destruct r as [[]|e|]; [| |done].
  - destruct Hr as (x' & -> & _). split; [done|]. split; [|done]. intros j Hj. by apply list_lookup_insert_ne.
  - by rewrite Hr.
Qed.

(** ** The handles after an operation *)

Lemma copied_live σ h h' p i :
  handles σ !! h = Some p -> live (set_handles σ (<[h' := duplicate <$> p]> (handles σ))) i -> live σ i.
Proof.
  intros Hp [k Hk]. simpl in Hk. apply lookup_insert_Some in Hk as [[_ Hk] | [_ Hk]]; [exists h | by exists k].
  destruct p as [j|]; [|done]. simpl in Hk. unfold duplicate in Hk. congruence.
Qed.

Lemma moved_live σ h h' p i :
  handles σ !! h = Some p -> live (set_handles σ (<[h' := p]> (<[h := None]> (handles σ)))) i -> live σ i.
Proof.
  intros Hp [k Hk]. simpl in Hk. apply lookup_insert_Some in Hk as [[_ Hk] | [_ Hk]]; [exists h; congruence|].
  apply lookup_insert_Some in Hk as [[_ Hk] | [_ Hk]]; [done | by exists k].
Qed.

Lemma deleted_live σ h i : live (set_handles σ (delete h (handles σ))) i -> live σ i.
Proof. intros [k Hk]. simpl in Hk. apply lookup_delete_Some in Hk as [_ Hk]. by exists k. Qed.

Lemma new_live σ h fd i :
  live (construct h fd σ).2 i -> 0 <= fd -> i = length (fds (sys σ)) \/ (live σ i /\ i <> length (fds (sys σ))).
Proof.
  intros [k Hk] Hfd. unfold construct, new_fd in Hk. replace (fd <? 0) with false in Hk by lia. simpl in Hk.
  destruct (decide (i = length (fds (sys σ)))) as [|Hne]; [by left | right; split; [|done]].
  apply lookup_insert_Some in Hk as [[_ [= ?]] | [_ Hk]]; [done | by exists k].
Qed.

(** Fewer handles own less. *)
Lemma fewer_inv σ hs :
  own_inv σ -> (forall i, live (set_handles σ hs) i -> live σ i) -> own_inv (set_handles σ hs).
Proof.
  intros [Hv Ho Hd] Hl. constructor.
  - intros i Hi. by apply Hv, Hl.
  - intros f (i & x & Hi & Hx). apply Ho. exists i, x. split; [by apply Hl | done].
  - intros i x j y Hi Hj. eapply Hd; by apply Hl.
Qed.

(** The end of a handle. [σ] is the store before, [hs] the handles that are left. *)
Lemma release_exact σ hs p :
  valid σ -> (forall i, live (set_handles σ hs) i -> live σ i) -> (forall i, p = Some i -> live σ i) ->
  exists σ', release p (set_handles σ hs) = (Ok tt, σ') /\ handles σ' = hs /\
    (forall j, live (set_handles σ hs) j -> fds (sys σ') !! j = fds (sys σ) !! j) /\
    match p with
    | Some i =>
        (live (set_handles σ hs) i -> sys σ' = sys σ) /\
        (~ live (set_handles σ hs) i -> forall x, fds (sys σ) !! i = Some x ->
          if _closed x then sys σ' = sys σ
          else is_open (_fd x) (world (sys σ')) = false /\
            forall f, f <> _fd x -> is_open f (world (sys σ')) = is_open f (world (sys σ)))
    | None => sys σ' = sys σ
    end.
Proof.
  intros Hv Hl Hp. destruct p as [i|]; simpl; [|by eexists]. case_decide as Hu.
  2: { eexists. split; [done|]. split; [done|]. split; [done|]. split; [done|]. intros Hn. destruct Hu. by apply (use_count_live (set_handles σ hs)). }
  apply (use_count_live (set_handles σ hs)) in Hu. destruct (Hv i (Hp i eq_refl)) as [x Hx].
  destruct (destroy_fd_exact i x (sys σ) Hx) as (s' & E & Hother & Hcl). rewrite E.
  eexists. split; [done|]. split; [done|]. split; [intros j Hj; apply Hother; by intros ->|].
  split; [done|]. intros _ y Hy. rewrite Hx in Hy. injection Hy as <-. by destruct (_closed x).
Qed.

(** It keeps the ownership. *)
Lemma release_inv σ hs p σ' :
  own_inv σ -> (forall i, live (set_handles σ hs) i -> live σ i) -> (forall i, p = Some i -> live σ i) ->
  release p (set_handles σ hs) = (Ok tt, σ') -> own_inv σ'.
Proof.
  intros Hinv Hl Hp E. pose proof (fewer_inv σ hs Hinv Hl) as Hinv'.
  destruct (release_exact σ hs p (ow_valid _ Hinv) Hl Hp) as (σ1 & E1 & Eh & Hsame & Hcase). rewrite E in E1. injection E1 as <-.
  assert (forall i, live σ' i -> live (set_handles σ hs) i) as Hl' by (intros i [k Hk]; exists k; simpl; by rewrite <- Eh).
  constructor.
  - intros j Hj%Hl'. rewrite Hsame by done. by apply (ow_valid _ Hinv').
  - intros f (j & y & Hj%Hl' & Hy & Hcy & <-). rewrite Hsame in Hy by done.
    assert (is_open (_fd y) (world (sys σ)) = true) as Hop
      by (apply (ow_open _ Hinv); exists j, y; split; [by apply Hl | done]).
    destruct p as [i|]; [|by rewrite Hcase]. destruct Hcase as [Hkeep Hend].
    destruct (decide (live (set_handles σ hs) i)) as [Hi|Hi]; [by rewrite Hkeep|].
    destruct (ow_valid _ Hinv i (Hp i eq_refl)) as [x Hx]. specialize (Hend Hi x Hx).
    destruct (_closed x) eqn:Hcx; [by rewrite Hend|]. rewrite (proj2 Hend); [done|].
    intros Heq. assert (j = i) as ->; [|done]. apply (ow_distinct _ Hinv j y i x); try done; [by apply Hl | by apply Hp].
  - intros j y k z Hj%Hl' Hk%Hl' Hy Hz. rewrite Hsame in Hy, Hz by done. by eapply (ow_distinct _ Hinv').
Qed.

(** A state in which the same wrappers own the same descriptors. *)
Lemma keeps_inv σ s : own_inv σ -> keeps (sys σ) s -> own_inv (set_sys σ s).
Proof.
  intros [Hv Ho Hd] [Hf Hop].
  assert (forall j y', fds s !! j = Some y' -> exists y, fds (sys σ) !! j = Some y /\ owner y' = owner y) as Hback.
  { intros j y' Hy. assert ((owner <$> fds s) !! j = Some (owner y')) as Hl by (by rewrite list_lookup_fmap, Hy).
    rewrite Hf, list_lookup_fmap in Hl. destruct (fds (sys σ) !! j) as [y|]; [|done]. exists y. split; [done|].
    simpl in Hl. congruence. }
  constructor; simpl.
  - intros i Hi. apply Hv in Hi as [x Hx]. apply lookup_lt_is_Some. apply lookup_lt_Some in Hx.
    apply (f_equal length) in Hf. rewrite !length_fmap in Hf. by rewrite Hf.
  - intros f (j & y' & Hj & Hy' & Hc & <-). simpl in Hy'. destruct (Hback j y' Hy') as (y & Hy & [= Ef Ec]).
    rewrite Hop, Ef. apply Ho. exists j, y. split; [done|]. split; [done|]. split; [congruence | done].
  - intros i x' j y' Hi Hj Hx' Hy' Hcx Hcy Heq. destruct (Hback i x' Hx') as (x & Hx & [= Efx Ecx]).
    destruct (Hback j y' Hy') as (y & Hy & [= Efy Ecy]). apply (Hd i x j y); try done; congruence.
Qed.

Lemma construct_inv σ h fd :
  own_inv σ -> handles σ !! h = None -> 0 <= fd -> is_open fd (world (sys σ)) = true -> ~ owned σ fd ->
  construct h fd σ = (Ok tt, {| sys := {| fds := fds (sys σ) ++ [fresh_fd fd]; world := world (sys σ) |};
                                handles := <[h := Some (length (fds (sys σ)))]> (handles σ) |}) /\
  own_inv (construct h fd σ).2.
Proof.
  intros [Hv Ho Hd] Hh Hfd Hop Hno. unfold construct, new_fd. replace (fd <? 0) with false by lia. cbn [snd].
  split; [done|]. set (n := length (fds (sys σ))). set (σ' := set_handles _ _).
  assert (forall i, live σ' i -> i = n \/ (live σ i /\ i <> n)) as Hlive.
  { intros i [k Hk]. apply (new_live σ h fd i); [|done]. exists k. unfold construct, new_fd.
    by replace (fd <? 0) with false by lia. }
  assert (forall i y, fds (sys σ') !! i = Some y -> i <> n -> fds (sys σ) !! i = Some y) as Hold.
  { intros i y Hi Hne. simpl in Hi. apply lookup_app_Some in Hi as [? | [? Hi]]; [done|].
    apply list_lookup_singleton_Some in Hi as [? _]. lia. }
  assert (forall y, fds (sys σ') !! n = Some y -> y = fresh_fd fd) as Hnew
    by (intros y Hy; simpl in Hy; unfold n in Hy; rewrite new_fd_lookup in Hy; by injection Hy as <-).
  constructor.
  - intros i [-> | [Hi _]]%Hlive; simpl; [unfold n; rewrite new_fd_lookup; by eexists|].
    apply Hv in Hi as [x Hx]. rewrite lookup_app_l; [by exists x | by eapply lookup_lt_Some].
  - intros f (i & x & [-> | [Hi Hne]]%Hlive & Hx & Hc & <-); [by rewrite (Hnew x Hx)|].
    simpl. apply Ho. exists i, x. split; [done|]. split; [by apply Hold | done].
  - intros i x j y Hi%Hlive Hj%Hlive Hx Hy Hcx Hcy Heq.
    destruct Hi as [-> | [Hi Hni]], Hj as [-> | [Hj Hnj]]; [done | | |].
    + destruct Hno. exists j, y. rewrite (Hnew x Hx) in Heq. split; [done|]. split; [by apply Hold | done].
    + destruct Hno. exists i, x. rewrite (Hnew y Hy) in Heq. split; [done|]. split; [by apply Hold | done].
    + apply (Hd i x j y); auto.
Qed.

Lemma close_inv σ h i x σ' :
  own_inv σ -> handles σ !! h = Some (Some i) -> fds (sys σ) !! i = Some x -> _closed x = false ->
  call h close σ = (Ok tt, σ') -> own_inv σ'.
Proof.
  intros [Hv Ho Hd] Hh Hx Hc. unfold call. rewrite Hh. destruct (close i (sys σ)) as [[[]|e|] s'] eqn:E; intros [= <-].
  destruct (close_cases i x _ Hx) as (r & s1 & E1 & _ & Hother & Hr). rewrite E in E1. injection E1 as <- <-.
  destruct Hr as (x' & Hf & Hc'). assert (live σ i) as Hi by by exists h.
  assert (forall j y, fds s' !! j = Some y -> _closed y = false -> j <> i /\ fds (sys σ) !! j = Some y) as Hold.
  { intros j y Hy Hcy. rewrite Hf in Hy. destruct (decide (j = i)) as [->|Hne].
    - rewrite list_lookup_insert_eq in Hy by (by eapply lookup_lt_Some). injection Hy as <-. congruence.
    - by rewrite list_lookup_insert_ne in Hy by done. }
  constructor; simpl.
  - intros j Hj. rewrite Hf. apply lookup_lt_is_Some. rewrite length_insert. by apply lookup_lt_is_Some, Hv.
  - intros f (j & y & Hj & Hy & Hcy & <-). simpl in Hy. destruct (Hold j y Hy Hcy) as [Hne Hy0].
    rewrite Hother; [apply Ho; by exists j, y|]. intros Heq. by destruct Hne; apply (Hd j y i x).
  - intros j y k z Hj Hk Hy Hz Hcy Hcz. simpl in Hy, Hz.
    destruct (Hold j y Hy Hcy) as [_ Hy0], (Hold k z Hz Hcz) as [_ Hz0]. by apply (Hd j y k z).
Qed.

(** Every step keeps the wrappers of the handles. *)
Lemma hstep_valid careful σ σ' : valid σ -> hstep careful σ σ' -> valid σ'.
Proof.
  intros Hv Hstep. destruct Hstep as [σ h fd Hh Hfd _ | σ h h' [p Hp] Hh' | σ h h' [p Hp] Hh' | σ h h' [p Hp] [q Hq]
    | σ h [p Hp] | σ h i Hh _ | A σ h i method Hh Hq | σ w _].
  - intros i [-> | [Hi Hne]]%new_live; [| |done]; unfold construct, new_fd; replace (fd <? 0) with false by lia; simpl.
    + rewrite new_fd_lookup. by eexists.
    + apply Hv in Hi as [x Hx]. rewrite lookup_app_l; [by exists x | by eapply lookup_lt_Some].
  - unfold duplicate_handle. rewrite Hp. intros i Hi. by eapply Hv, copied_live.
  - unfold move_construct. rewrite Hp. intros i Hi. by eapply Hv, moved_live.
  - unfold move_assign. rewrite Hp, Hq. case_decide as Heq; [done|].
    destruct (release_exact σ (<[h' := p]> (<[h := None]> (handles σ))) q Hv) as (σ' & -> & Eh & Hsame & _).
    { intros i. by apply moved_live. }
    { intros i ->. by exists h'. }
    intros i [k Hk]. simpl in Hk |- *. rewrite Eh in Hk. rewrite Hsame by by exists k. apply Hv, (moved_live σ h h' p i Hp). by exists k.
  - unfold destroy. rewrite Hp. destruct (release_exact σ (delete h (handles σ)) p Hv) as (σ' & -> & Eh & Hsame & _).
    { intros i. apply deleted_live. }
    { intros i ->. by exists h. }
    intros i [k Hk]. simpl in Hk |- *. rewrite Eh in Hk. rewrite Hsame by by exists k. apply Hv, (deleted_live σ h). by exists k.
  - unfold call. rewrite Hh. destruct (Hv i) as [x Hx]; [by exists h|].
    destruct (close_cases i x (sys σ) Hx) as (r & s' & -> & _ & _ & Hr). intros j Hj. apply Hv in Hj. simpl.
    destruct r as [u|e|]; [|by rewrite Hr | done]. destruct Hr as (x' & -> & _). apply lookup_lt_is_Some.
    rewrite length_insert. by apply lookup_lt_is_Some.
  - unfold call. rewrite Hh. destruct (Hq i (sys σ)) as [Hf _]. destruct (method i (sys σ)) as [r s].
    intros j Hj. apply Hv, lookup_lt_is_Some in Hj. apply lookup_lt_is_Some. simpl in *.
    apply (f_equal length) in Hf. rewrite !length_fmap in Hf. by rewrite Hf.
  - exact Hv.
Qed.

(** The steps of a careful program keep the ownership. *)
Lemma hstep_inv σ σ' : own_inv σ -> hstep true σ σ' -> own_inv σ'.
Proof.
  intros Hinv Hstep. destruct Hstep as [σ h fd Hh Hfd Hcar | σ h h' [p Hp] Hh' | σ h h' [p Hp] Hh' | σ h h' [p Hp] [q Hq]
    | σ h [p Hp] | σ h i Hh Hcar | A σ h i method Hh Hq | σ w Hw].
  - destruct (Hcar eq_refl). by apply construct_inv.
  - unfold duplicate_handle. rewrite Hp. apply fewer_inv; [done|]. intros i. by apply (copied_live σ h h').
  - unfold move_construct. rewrite Hp. apply fewer_inv; [done|]. intros i. by apply (moved_live σ h h').
  - unfold move_assign. rewrite Hp, Hq. case_decide as Heq; [done|]. set (hs := <[h' := p]> _).
    assert (forall i, live (set_handles σ hs) i -> live σ i) as Hl by (intros i; by apply (moved_live σ h h')).
    assert (forall i, q = Some i -> live σ i) as Hlq by (intros i ->; by exists h').
    destruct (release_exact σ hs q (ow_valid _ Hinv) Hl Hlq) as (σ' & E & _). rewrite E. by eapply release_inv.
  - unfold destroy. rewrite Hp. set (hs := delete h _).
    assert (forall i, live (set_handles σ hs) i -> live σ i) as Hl by (intros i; apply (deleted_live σ h)).
    assert (forall i, p = Some i -> live σ i) as Hlp by (intros i ->; by exists h).
    destruct (release_exact σ hs p (ow_valid _ Hinv) Hl Hlp) as (σ' & E & _). rewrite E. by eapply release_inv.
  - destruct (Hcar eq_refl) as (Hok & x & Hx & Hc). destruct (call h close σ) as [r σ'] eqn:E. simpl in *. subst r.
    by eapply (close_inv σ h i x).
  - unfold call. rewrite Hh. pose proof (Hq i (sys σ)) as Hk. destruct (method i (sys σ)) as [r s]. by apply keeps_inv.
  - destruct Hinv as [Hv Ho Hd]. constructor; [exact Hv | | exact Hd]. intros f Hf. by apply Hw.
Qed.

Definition empty_store (w : W) : store W := {| sys := {| fds := []; world := w |}; handles := ∅ |}.

Lemma empty_store_inv w : own_inv (empty_store w).
Proof.
  assert (forall i, ~ live (empty_store w) i) as Hn by (intros i [h Hh]; simpl in Hh; by rewrite lookup_empty in Hh).
  constructor; [intros i Hi | intros f (i & ? & Hi & _) | intros i x j y Hi]; by apply Hn in Hi.
Qed.

Lemma hsteps_inv σ σ' : hsteps true σ σ' -> own_inv σ -> own_inv σ'.
Proof. induction 1; eauto using hstep_inv. Qed.

Lemma hsteps_valid careful σ σ' : hsteps careful σ σ' -> valid σ -> valid σ'.
Proof. induction 1; eauto using hstep_valid. Qed.
End ownership.

(** A second [close] reaches for the number of a wrapper that is already closed: another
    handle that has the number by now loses its descriptor. *)
Lemma second_close_hits_other {W} `{KernelLaws W} (σ : store W) h i x h' j y :
  handles σ !! h = Some (Some i) -> fds (sys σ) !! i = Some x -> _closed x = true ->
  handles σ !! h' = Some (Some j) -> fds (sys σ) !! j = Some y -> _closed y = false -> _fd y = _fd x ->
  let σ' := (call h close σ).2 in
  fds (sys σ') !! j = Some y /\ is_open (_fd y) (world (sys σ')) = false.
Proof.
  intros Hh Hx Hcx _ Hy Hcy Heq. assert (i <> j) as Hij by congruence. unfold call. rewrite Hh, Heq.
  destruct (close_cases i x (sys σ) Hx) as (r & s' & -> & Hcl & _ & Hr). split; [|done]. simpl.
  destruct r as [u|e|]; [destruct Hr as (x' & -> & _); by rewrite list_lookup_insert_ne | by rewrite Hr | done].
Qed.

(** * A kernel that is its table of open descriptors, which satisfies the laws *)

#[global] Instance table_kernel : Kernel (list Z) := {|
  sys_read fd n w := (0, 0, [], w);
  sys_writev fd iov w := (0, 0, w);
  sys_close fd w := if decide (fd ∈ w) then (0, 0, filter (fun f => f <> fd) w) else (-1, 9, w);
  sys_getfl fd w := (-1, 9, w);
  sys_setfl fd fl w := (-1, 9, w)
|}.

#[global] Program Instance table_laws : KernelLaws (list Z) := {|
  incoming fd w := [];
  sent fd w := [];
  status_flags fd w := 0;
  is_open fd w := bool_decide (fd ∈ w)
|}.
Next Obligation.
  intros fd w ret errno w'. simpl. unfold int_result. case_decide as Hin; intros [= <- <- <-]; (split; [lia|]).
  - split; [apply bool_decide_eq_false; rewrite list_elem_of_filter; tauto|].
    intros fd' Hne. apply bool_decide_ext. rewrite list_elem_of_filter. tauto.
  - split; [by apply bool_decide_eq_false | done].
Qed.
Next Obligation.
  intros fd n w ret errno data w' Hn. simpl. intros [= <- <- <- <-]. split; [|split; [lia | done]].
  intros _. split; [lia|]. split; [done|]. split; [done|]. split; [done|]. by right.
Qed.
Next Obligation.
  intros fd iov w ret errno w'. simpl. intros [= <- <- <-]. pose proof (zlen_nonneg (iov_bytes iov)).
  split; [intros _; split; [lia|]; split; [lia | done] | lia].
Qed.
Next Obligation. intros fd w ret errno w'. simpl. intros [= <- <- <-]. split; [done|]. lia. Qed.
Next Obligation. intros fd fl w ret errno w'. simpl. intros [= <- <- <-]. lia. Qed.

#[global] Program Instance table_frame : KernelFrame (list Z).
Solve All Obligations with done.

(** A descriptor with two handles. *)
Definition demo_store : store (list Z) := (duplicate_handle 0 1 (construct 0 3 (empty_store [3; 5])).2).2.

Lemma demo_hsteps careful : hsteps careful (empty_store [3; 5]) demo_store.
Proof.
  eapply rtc_l; [|apply rtc_once, h_duplicate; [by eexists | done]]. apply h_new; [done | lia |]. split; [by_compute|].
  intros (i & x & [h Hh] & _). simpl in Hh. by rewrite lookup_empty in Hh.
Qed.

Lemma use_count_delete hs h i : hs !! h = Some (Some i) -> use_count hs i = Datatypes.S (use_count (delete h hs) i).
Proof.
  intros Hh. unfold use_count. rewrite map_filter_delete. set (m := filter _ hs).
  assert (m !! h = Some (Some i)) as Hm by (apply map_lookup_filter_Some; done).
  rewrite map_size_delete_Some by (by eexists). destruct (size m) eqn:Es; [|done].
  apply map_size_empty_iff in Es. by rewrite Es, lookup_empty in Hm.
Qed.

(** The end of a handle. *)
Lemma destroy_exact {W} `{KernelLaws W} (σ : store W) h p :
  valid σ -> handles σ !! h = Some p ->
  exists σ', destroy h σ = (Ok tt, σ') /\ handles σ' = delete h (handles σ) /\
    match p with
    | None => sys σ' = sys σ
    | Some i => exists x, fds (sys σ) !! i = Some x /\
        if bool_decide (use_count (handles σ) i = 1%nat) && negb (_closed x)
        then is_open (_fd x) (world (sys σ')) = false /\
             forall f, f <> _fd x -> is_open f (world (sys σ')) = is_open f (world (sys σ))
        else sys σ' = sys σ
    end.
Proof.
  intros Hv Hh. unfold destroy. rewrite Hh.
  destruct (release_exact σ (delete h (handles σ)) p Hv) as (σ' & E & Ehs & _ & Hp).
  { intros i. apply deleted_live. }
  { intros i ->. by exists h. }
  exists σ'. split; [done|]. split; [done|]. destruct p as [i|]; [|done]. destruct Hp as [Hmore Hlast].
  destruct (Hv i) as [x Hx]; [by exists h|]. exists x. split; [done|].
  rewrite (use_count_delete _ _ _ Hh). case_bool_decide as Hu; simpl.
  - assert (~ live (set_handles σ (delete h (handles σ))) i) as Hn by (apply use_count_live; simpl; lia).
    specialize (Hlast Hn x Hx). by destruct (_closed x).
  - apply Hmore, dec_stable. intros Hn%use_count_live. simpl in Hn. by rewrite Hn in Hu.
Qed.

Lemma destroy_spec {W} `{KernelLaws W} (σ : store W) h p :
  own_inv σ -> handles σ !! h = Some p ->
  exists σ', destroy h σ = (Ok tt, σ') /\ handles σ' = delete h (handles σ) /\ own_inv σ' /\
    match p with
    | None => sys σ' = sys σ
    | Some i => exists x, fds (sys σ) !! i = Some x /\
        if bool_decide (use_count (handles σ) i = 1%nat) && negb (_closed x)
        then is_open (_fd x) (world (sys σ')) = false /\
             forall f, f <> _fd x -> is_open f (world (sys σ')) = is_open f (world (sys σ))
        else sys σ' = sys σ
    end.
Proof.
  intros Hinv Hh. destruct (destroy_exact σ h p (ow_valid _ Hinv) Hh) as (σ' & E & Ehs & Hp).
  exists σ'. split; [done|]. split; [done|]. split; [|done].
  pose proof (h_destroy true σ h ltac:(by exists p)) as Hs. rewrite E in Hs. by eapply hstep_inv.
Qed.

(** * Properties *)

(** C24: the lifetime of descriptors. Whatever a program does with its [FileDescriptor]
    objects (constructing, duplicating, moving, assigning, destroying and closing them,
    with whatever results, and calling the other methods), a wrapper that has a handle
    exists. If it is [careful], that is, it wraps only descriptors that are open and not
    wrapped yet, never closes a wrapper that is closed, and no close(2) that it asks for
    fails, then the descriptor of a wrapper with a handle is open in the kernel as long as
    the wrapper was not closed, and no two such wrappers have the same descriptor. (After a
    second or a failed [close] this is lost: [second_close_hits_other] and
    [failed_close_closes_again].) *)
Theorem descriptor_lifetime {W} `{KernelLaws W} careful w (σ : store W) :
  hsteps careful (empty_store w) σ ->
  (forall h i, handles σ !! h = Some (Some i) -> is_Some (fds (sys σ) !! i)) /\
  (careful = true ->
    (forall h i x, handles σ !! h = Some (Some i) -> fds (sys σ) !! i = Some x -> _closed x = false ->
      is_open (_fd x) (world (sys σ)) = true) /\
    (forall h i x h' j y, handles σ !! h = Some (Some i) -> handles σ !! h' = Some (Some j) ->
      fds (sys σ) !! i = Some x -> fds (sys σ) !! j = Some y -> _closed x = false -> _closed y = false ->
      _fd x = _fd y -> i = j)).
Proof.
  intros Hs. split.
  - intros h i Hh. apply (hsteps_valid _ _ _ Hs (ow_valid _ (empty_store_inv w))). by exists h.
  - intros ->. destruct (hsteps_inv _ _ Hs (empty_store_inv w)) as [Hv Ho Hd]. split.
    + intros h i x Hh Hx Hc. apply Ho. exists i, x. split; [by exists h | done].
    + intros h i x h' j y Hh Hh'. apply Hd; [by exists h | by exists h'].
Qed.

Lemma descriptor_lifetime_witness :
  exists x, fds (sys demo_store) !! 0%nat = Some x /\ is_open (_fd x) (world (sys demo_store)) = true.
Proof.
  destruct (descriptor_lifetime true [3; 5] demo_store (demo_hsteps true)) as [Hex Hcar].
  destruct (Hex 1%nat 0%nat) as [x Hx]; [reflexivity|]. exists x. split; [exact Hx|].
  apply (proj1 (Hcar eq_refl) 1%nat 0%nat x); [reflexivity | exact Hx|]. vm_compute in Hx. injection Hx as <-. reflexivity.
Defined.

(** C25: the end of a handle, whatever the program did before. Destroying a [FileDescriptor]
    never throws; the last handle of a wrapper that was not closed closes its descriptor,
    even if close(2) reports an error, and touches no other descriptor; a handle that is not
    the last, that was moved from, or whose wrapper was closed, changes nothing. *)
Theorem handle_destroy_exact {W} `{KernelLaws W} careful w (σ : store W) h p :
  hsteps careful (empty_store w) σ -> handles σ !! h = Some p ->
  exists σ', destroy h σ = (Ok tt, σ') /\ handles σ' = delete h (handles σ) /\
    match p with
    | None => sys σ' = sys σ
    | Some i => exists x, fds (sys σ) !! i = Some x /\
        if bool_decide (use_count (handles σ) i = 1%nat) && negb (_closed x)
        then is_open (_fd x) (world (sys σ')) = false /\
             forall f, f <> _fd x -> is_open f (world (sys σ')) = is_open f (world (sys σ))
        else sys σ' = sys σ
    end.
Proof.
  intros Hs Hh. apply destroy_exact; [|done]. exact (hsteps_valid _ _ _ Hs (ow_valid _ (empty_store_inv w))).
Qed.

Lemma handle_destroy_exact_witness :
  exists σ1 σ2, destroy 0 demo_store = (Ok tt, σ1) /\ sys σ1 = sys demo_store /\
    destroy 1 σ1 = (Ok tt, σ2) /\ is_open 3 (world (sys σ2)) = false /\ is_open 5 (world (sys σ2)) = true.
Proof.
  destruct (handle_destroy_exact true [3; 5] demo_store 0 (Some 0%nat) (demo_hsteps true) eq_refl) as (σ1 & E1 & _ & x & Hx & Hsys).
  assert (hsteps true (empty_store [3; 5]) σ1) as Hst.
  { eapply rtc_r; [exact (demo_hsteps true)|]. pose proof (h_destroy true demo_store 0 ltac:(by eexists)) as Hd. by rewrite E1 in Hd. }
  exists σ1. assert (handles σ1 !! 1%nat = Some (Some 0%nat)) as Hh1 by (vm_compute in E1; injection E1 as <-; reflexivity).
  destruct (handle_destroy_exact true [3; 5] σ1 1 (Some 0%nat) Hst Hh1) as (σ2 & E2 & _).
  exists σ2. split; [exact E1|]. split; [exact Hsys|]. split; [exact E2|].
  vm_compute in E1. injection E1 as <-. vm_compute in E2. injection E2 as <-. split; reflexivity.
Defined.
