(* ===== verification/EventLoop.v ===== *)
(** The event loop: util/eventloop.hh and util/eventloop.cc, over the handles of Handles.v.
    A rule owns a [FileDescriptor] object, a duplicate of the one it was made with, which is
    destroyed when the rule is erased. The [std::function] objects of a rule are values of a
    type [C] of closures, which the class [Closures] runs: a closure can do anything with
    the objects of the program and with the world, it can throw, and it can add rules to the
    loop it is called from; it does not call [wait_next_event] of that loop.
    poll(2) is a parameter, the class [Poll].
    The two loops of [wait_next_event] are [setup] and [service]; they carry the rules
    already visited and those still to visit, at whose end new rules appear. Closures that
    go on adding rules can keep [setup] from ending, so it has fuel. *)
From stdpp Require Import gmap.
From S2P Require Import Prelude Buffer FileDescriptor OSLogic Handles.

Definition POLLIN : Z := 1.
Definition POLLOUT : Z := 4.
Definition POLLERR : Z := 8.
Definition POLLHUP : Z := 16.
Definition POLLNVAL : Z := 32.
Definition EINTR : Z := 4.

Record pollfd := { pfd : Z; events : Z; revents : Z }.

(** poll(2): the value, [errno], the [revents] of the entries, and the new world. *)
Class Poll (W : Type) := sys_poll : list pollfd -> Z -> W -> Z * Z * list Z * W.

Inductive Direction := In | Out.

(** [static_cast<short>(direction)]. *)
Definition direction_events (d : Direction) : Z := match d with In => POLLIN | Out => POLLOUT end.

Record Rule (C : Type) := {
  fd : nat;
  direction : Direction;
  callback : C;
  interest : C;
  cancel : C
}.
Arguments fd {C} r.
Arguments direction {C} r.
Arguments callback {C} r.
Arguments interest {C} r.
Arguments cancel {C} r.

Inductive Result := Success | Timeout | Exit.

(** A computation: its result, the rules it added to the loop, and the store afterwards. *)
Definition ev (W C A : Type) : Type := store W -> outcome A * list (Rule C) * store W.

#[global] Instance ev_ret W C : MRet (ev W C) := fun A a σ => (Ok a, [], σ).
#[global] Instance ev_bind W C : MBind (ev W C) := fun A B f c σ =>
  match c σ with
  | (Ok a, new, σ1) => let '(r, new', σ2) := f a σ1 in (r, new ++ new', σ2)
  | (Throw e, new, σ1) => (Throw e, new, σ1)
  | (Undefined, new, σ1) => (Undefined, new, σ1)
  end.

(** What a call of a closure does: as a [CallbackT] and as an [InterestT]. *)
Class Closures (W C : Type) := {
  invoke : C -> ev W C unit;
  ask : C -> ev W C bool
}.

Section loop.
Context {W C : Type} {K : Kernel W} {Q : Poll W} {X : Closures W C}.
Implicit Types (r : Rule C) (σ : store W).

Definition raise {A} (e : exception) : ev W C A := fun σ => (Throw e, [], σ).

(** A method of the object [h]. *)
Definition method {A} (h : nat) (m : nat -> os W A) : ev W C A := fun σ =>
  let '(o, σ') := call h m σ in (o, [], σ').

Definition service_count r : ev W C Z :=
  match direction r with In => method (fd r) fd_read_count | Out => method (fd r) fd_write_count end.

(** [add_rule] with the object [h]; [h'] is the object in the new rule. *)
Definition add_rule (h h' : nat) (direction : Direction) (callback interest cancel : C) : ev W C unit := fun σ =>
  match duplicate_handle h h' σ with
  | (Ok _, σ') => (Ok tt, [{| fd := h'; direction := direction; callback := callback; interest := interest;
                              cancel := cancel |}], σ')
  | (Throw e, σ') => (Throw e, [], σ')
  | (Undefined, σ') => (Undefined, [], σ')
  end.

(** [it = _rules.erase(it)]: the object of the rule is destroyed. *)
Definition erase_rule r : ev W C unit := fun σ => let '(o, σ') := destroy (fd r) σ in (o, [], σ').

(** [this_rule.cancel(); it = _rules.erase(it)]. *)
Definition cancel_rule r : ev W C unit := _ ← invoke (cancel r); erase_rule r.

(** One iteration of the first loop: the entry for the rule and whether it is interested,
    or nothing if the rule is cancelled. *)
Definition poll_entry r : ev W C (option (pollfd * bool)) :=
  eof ← method (fd r) fd_eof;
  if (match direction r with In => true | Out => false end) && eof then _ ← cancel_rule r; mret None
  else
    closed ← method (fd r) fd_closed;
    if closed : bool then _ ← cancel_rule r; mret None
    else
      interested ← ask (interest r);
      n ← method (fd r) fd_num;
      mret (Some ({| pfd := n; events := if interested : bool then direction_events (direction r) else 0;
                     revents := 0 |}, interested)).

Fixpoint setup (fuel : nat) (kept rest : list (Rule C)) (pollfds : list pollfd) (something_to_poll : bool) σ
  : option (outcome (list pollfd * bool) * list (Rule C) * store W) :=
  match rest with
  | [] => Some (Ok (pollfds, something_to_poll), kept, σ)
  | r :: rest' =>
      match fuel with
      | O => None
      | S fuel' =>
          match poll_entry r σ with
          | (Ok None, new, σ') => setup fuel' kept (rest' ++ new) pollfds something_to_poll σ'
          | (Ok (Some (p, b)), new, σ') =>
              setup fuel' (kept ++ [r]) (rest' ++ new) (pollfds ++ [p]) (something_to_poll || b) σ'
          | (Throw e, new, σ') => Some (Throw e, kept ++ rest ++ new, σ')
          | (Undefined, new, σ') => Some (Undefined, kept ++ rest ++ new, σ')
          end
      end
  end.

Definition has (v mask : Z) : bool := negb (Z.land v mask =? 0).

(** The text of the exception at a busy wait. *)
Definition BUSY_WAIT : bytes :=
  str "EventLoop: busy wait detected: callback did not read/write fd and is still interested".

(** One iteration of the second loop: whether the rule stays. *)
Definition handle r (p : pollfd) : ev W C bool :=
  if has (revents p) (Z.lor POLLERR POLLNVAL) then
    raise (runtime_error (str "EventLoop: error on polled file descriptor"))
  else
    let poll_ready := has (revents p) (events p) in
    let poll_hup := has (revents p) POLLHUP in
    if poll_hup && negb (events p =? 0) && negb poll_ready then _ ← cancel_rule r; mret false
    else if poll_ready then
      count_before ← service_count r;
      _ ← invoke (callback r);
      count_after ← service_count r;
      if count_before =? count_after then
        interested ← ask (interest r);
        if interested : bool then raise (runtime_error BUSY_WAIT) else mret true
      else mret true
    else mret true.

(** [pollfds[idx]] beyond the entries is undefined. *)
Fixpoint service (kept rest : list (Rule C)) (pollfds : list pollfd) σ
  : outcome Result * list (Rule C) * store W :=
  match rest with
  | [] => (Ok Success, kept, σ)
  | r :: rest' =>
      match pollfds with
      | [] => (Undefined, kept ++ rest, σ)
      | p :: pollfds' =>
          match handle r p σ with
          | (Ok stays, new, σ') => service (if stays : bool then kept ++ [r] else kept) (rest' ++ new) pollfds' σ'
          | (Throw e, new, σ') => (Throw e, kept ++ rest ++ new, σ')
          | (Undefined, new, σ') => (Undefined, kept ++ rest ++ new, σ')
          end
      end
  end.

(** The entries with the [revents] that poll(2) wrote. *)
Definition answered (pollfds : list pollfd) (revs : list Z) : list pollfd :=
  zip_with (fun p rv => {| pfd := pfd p; events := events p; revents := rv |}) pollfds revs.

(** After the first loop: poll(2) and the second loop. *)
Definition poll_and_service (rules : list (Rule C)) (pollfds : list pollfd) (timeout_ms : Z) σ
  : outcome Result * list (Rule C) * store W :=
  let '(ret, errno, revs, w) := sys_poll pollfds timeout_ms (world (sys σ)) in
  let σ' := set_sys σ {| fds := fds (sys σ); world := w |} in
  let go := service [] rules (answered pollfds revs) σ' in
  match SystemCall (str "poll") ret errno 0 with
  | Ok n => if n =? 0 then (Ok Timeout, rules, σ') else go
  | Throw (unix_error _ e) => if e =? EINTR then (Ok Exit, rules, σ') else go
  | Throw e => (Throw e, rules, σ')
  | Undefined => (Undefined, rules, σ')
  end.

(** [wait_next_event]: the result, the rules and the store afterwards, unless the fuel was
    not enough for the first loop. *)
Definition wait_next_event (fuel : nat) (_rules : list (Rule C)) (timeout_ms : Z) σ
  : option (outcome Result * list (Rule C) * store W) :=
  match setup fuel [] _rules [] false σ with
  | Some (Ok (pollfds, something_to_poll), rules, σ1) =>
      Some (if negb something_to_poll then (Ok Exit, rules, σ1) else poll_and_service rules pollfds timeout_ms σ1)
  | Some (Throw e, rules, σ1) => Some (Throw e, rules, σ1)
  | Some (Undefined, rules, σ1) => Some (Undefined, rules, σ1)
  | None => None
  end.
End loop.

(** * Computations that respect the loop *)

(** poll(2) answers every entry and neither opens nor closes descriptors; it returns an
    [int] and sets [errno] when it fails. *)
Class PollLaws (W : Type) `{KernelLaws W} `{Poll W} : Prop := {
  law_poll ps t w ret errno revs w' :
    sys_poll ps t w = (ret, errno, revs, w') -> int_result ret errno /\ length revs = length ps;
  frame_poll ps t w f : is_open f (sys_poll ps t w).2 = is_open f w
}.

Section respect.
Context {W C : Type} `{PollLaws W} `{Closures W C}.
(** The names of the objects that the rules of the loop own. *)
Context (L : nat -> Prop).
Implicit Types (r : Rule C) (σ : store W).

Definition has_fd (h : nat) σ : Prop := L h /\ exists i, handles σ !! h = Some (Some i).

(** [c] has no undefined behaviour when [h] is an object of the loop, adds no rule and
    leaves the objects of the loop alone, except that [h] is gone after the results that
    [gone] tells. *)
Definition drops (h : nat) {A} (gone : A -> bool) (c : ev W C A) : Prop :=
  forall σ, own_inv σ -> has_fd h σ ->
  exists o σ', c σ = (o, [], σ') /\ o <> Undefined /\ own_inv σ' /\
    (forall h', L h' -> h' <> h -> handles σ' !! h' = handles σ !! h') /\
    handles σ' !! h = match o with
                      | Ok a => if gone a then None else handles σ !! h
                      | _ => handles σ !! h
                      end.

(** Nothing is dropped. *)
Definition tame (h : nat) {A} (c : ev W C A) : Prop := drops h (fun _ => false) c.

Definition rule_tame r : Prop :=
  tame (fd r) (invoke (callback r)) /\ tame (fd r) (ask (interest r)) /\ tame (fd r) (invoke (cancel r)).

Lemma drops_ret {A} h (gone : A -> bool) a : gone a = false -> drops h gone (mret a).
Proof. intros Hg σ Hi Hh. exists (Ok a), σ. by rewrite Hg. Qed.

Lemma drops_raise {A} h (gone : A -> bool) e : drops h gone (raise e).
Proof. intros σ Hi Hh. by exists (Throw e), σ. Qed.

Lemma drops_bind {A B} h (gone : B -> bool) (c : ev W C A) (f : A -> ev W C B) :
  tame h c -> (forall a, drops h gone (f a)) -> drops h gone (c ≫= f).
Proof.
  intros Hc Hf σ Hi Hh. destruct (Hc σ Hi Hh) as (o & σ1 & E & Ho & Hi1 & Hother & Hsame). unfold mbind, ev_bind. rewrite E.
  destruct o as [a|e|]; [| by exists (Throw e), σ1 | done].
  destruct (Hf a σ1 Hi1) as (o' & σ2 & E' & Ho' & Hi2 & Hother' & Hsame').
  { destruct Hh as [HL [i Hh]]. split; [done|]. exists i. by rewrite Hsame. }
  exists o', σ2. rewrite E'. split; [done|]. split; [done|]. split; [done|]. split.
  - intros h' HL Hne. by rewrite Hother', Hother.
  - rewrite Hsame'. by rewrite Hsame.
Qed.

(** A method that leaves the descriptors alone and is defined on every wrapper. *)
Lemma tame_method {A} h (m : nat -> os W A) :
  (forall i, quiet (m i)) -> (forall i s, is_Some (fds s !! i) -> (m i s).1 <> Undefined) -> tame h (method h m).
Proof.
  intros Hq Hd σ Hi [HL [i Hh]]. assert (is_Some (fds (sys σ) !! i)) as Hx by (apply (ow_valid _ Hi); by exists h).
  unfold method, call. rewrite Hh. specialize (Hq i (sys σ)). specialize (Hd i (sys σ) Hx). destruct (m i (sys σ)) as [o s].
  exists o, (set_sys σ s). split; [done|]. split; [done|]. split; [by apply keeps_inv|]. by destruct o.
Qed.

(** A field of the wrapper behind the rule. *)
Lemma tame_field {A} h (f : FDWrapper -> A) : tame h (method h (fun i => x ← get_fd i; mret (f x))).
Proof.
  apply tame_method; [intros i; apply quiet_bind; [apply quiet_get | intros; apply quiet_ret]|].
  intros i s [x Hx]. unfold mbind, os_bind. by rewrite (get_fd_eq i x s Hx).
Qed.

Lemma drops_cancel {A} r (gone : A -> bool) a :
  rule_tame r -> gone a = true -> drops (fd r) gone (_ ← cancel_rule r; mret a).
Proof.
  intros (_ & _ & Hc) Hg σ Hi Hh. destruct (Hc σ Hi Hh) as (o & σ1 & E & Ho & Hi1 & Hother & Hsame).
  destruct Hh as [HL [i Hh]]. unfold cancel_rule, mbind, ev_bind. rewrite E. destruct o as [[]|e|]; [| by exists (Throw e), σ1 | done].
  rewrite Hh in Hsame. destruct (destroy_spec σ1 (fd r) (Some i) Hi1 Hsame) as (σ2 & E2 & Hhs & Hi2 & _).
  exists (Ok a), σ2. unfold erase_rule. rewrite E2. split; [done|]. split; [done|]. split; [done|]. rewrite Hhs, Hg. split.
  - intros h' HL' Hne. rewrite lookup_delete_ne by done. by apply Hother.
  - apply lookup_delete_eq.
Qed.

Lemma service_count_tame r : tame (fd r) (service_count r).
Proof. unfold service_count. destruct (direction r); apply tame_field. Qed.

(** Through the binds and branches of an iteration. *)
Ltac drops_steps :=
  repeat first
    [ apply drops_bind; [first [assumption | apply tame_field | apply service_count_tame] | intros ?]
    | apply drops_raise | apply drops_ret; reflexivity | apply drops_cancel; [assumption | reflexivity] | case_if ].

Lemma poll_entry_drops r : rule_tame r -> drops (fd r) (fun o => match o with Some _ => false | None => true end) (poll_entry r).
Proof. intros Hr. pose proof Hr as (_ & Hint & _). unfold poll_entry. drops_steps. Qed.

Lemma handle_drops r p : rule_tame r -> drops (fd r) negb (handle r p).
Proof. intros Hr. pose proof Hr as (Hcb & Hint & _). unfold handle. cbv zeta. drops_steps. Qed.

(** ** The loops *)

(** The rules own objects of their own, and their closures respect the loop. *)
Record loop_inv (rules : list (Rule C)) σ : Prop := {
  li_own : own_inv σ;
  li_fds : Forall (fun r => has_fd (fd r) σ) rules;
  li_distinct : NoDup (fd <$> rules);
  li_tame : Forall rule_tame rules
}.

(** What visiting the rules [rest] after the rules [kept] leaves: the rules [stay] of [rest],
    each with its object; the objects of the others are gone and nothing else of the loop
    has changed. *)
Record visited (kept rest : list (Rule C)) σ (stay : list (Rule C)) σ' : Prop := {
  vi_sub : stay `sublist_of` rest;
  vi_inv : loop_inv (kept ++ stay) σ';
  vi_frame h : L h -> h ∉ fd <$> rest -> handles σ' !! h = handles σ !! h;
  vi_gone r : r ∈ rest -> r ∉ stay -> handles σ' !! fd r = None
}.

Lemma visited_end kept σ : loop_inv kept σ -> visited kept [] σ [] σ.
Proof. intros Hi. constructor; [done | by rewrite app_nil_r | done | by intros r ?%not_elem_of_nil]. Qed.

(** The rules with the same objects. *)
Lemma loop_inv_same rules σ σ' :
  loop_inv rules σ -> own_inv σ' -> (forall r, r ∈ rules -> handles σ' !! fd r = handles σ !! fd r) -> loop_inv rules σ'.
Proof.
  intros [_ Hf Hd Ht] Ho Hsame. constructor; try done. rewrite Forall_forall in Hf |- *. intros r Hr.
  destruct (Hf r Hr) as [HL [i Hi]]. split; [done|]. exists i. by rewrite Hsame.
Qed.

Lemma loop_inv_drop kept r rest σ : loop_inv (kept ++ r :: rest) σ -> loop_inv (kept ++ rest) σ.
Proof.
  intros [Ho Hf Hd Ht]. assert (kept ++ rest `sublist_of` kept ++ r :: rest) as Hsub by (apply sublist_app; [done | by apply sublist_cons]).
  constructor; [done | by eapply Forall_sublist | | by eapply Forall_sublist].
  eapply sublist_NoDup; [exact Hd | by apply fmap_sublist].
Qed.

Lemma other_fd kept r rest σ r' :
  loop_inv (kept ++ r :: rest) σ -> r' ∈ kept ++ rest -> fd r' <> fd r.
Proof.
  intros [_ _ Hd _] Hin Heq. rewrite fmap_app, fmap_cons in Hd. apply NoDup_app in Hd as (_ & Hk & [Hr _]%NoDup_cons).
  apply elem_of_app in Hin as [Hin | Hin]; apply (list_elem_of_fmap_2 fd) in Hin; rewrite Heq in Hin; [|done].
  apply (Hk _ Hin). left.
Qed.

(** One iteration that the loop survives, on the rule [r]. *)
Lemma visit_rule {A} (gone : A -> bool) (c : ev W C A) kept r rest σ :
  drops (fd r) gone c -> loop_inv (kept ++ r :: rest) σ ->
  exists (o : outcome A) σ1, c σ = (o, [], σ1) /\
    match o with
    | Ok a =>
        if gone a then loop_inv (kept ++ rest) σ1 /\ forall stay σ', visited kept rest σ1 stay σ' -> visited kept (r :: rest) σ stay σ'
        else loop_inv ((kept ++ [r]) ++ rest) σ1 /\
          forall stay σ', visited (kept ++ [r]) rest σ1 stay σ' -> visited kept (r :: rest) σ (r :: stay) σ'
    | Throw _ => visited kept (r :: rest) σ (r :: rest) σ1
    | Undefined => False
    end.
Proof.
  intros Hc Hinv. pose proof (li_fds _ _ Hinv) as Hf. rewrite Forall_forall in Hf.
  destruct (Hc σ (li_own _ _ Hinv) (Hf r ltac:(set_solver))) as (o & σ1 & E & Ho & Hi1 & Hother & Hr).
  exists o, σ1. split; [done|].
  assert (forall r', r' ∈ kept ++ rest -> handles σ1 !! fd r' = handles σ !! fd r') as Hsame.
  { intros r' Hin. apply Hother; [apply Hf; set_solver | by eapply other_fd]. }
  assert (handles σ1 !! fd r = handles σ !! fd r -> loop_inv (kept ++ r :: rest) σ1) as Hall.
  { intros Heq. apply (loop_inv_same _ σ); [done..|]. intros r' [Hin | [-> | Hin]%elem_of_cons]%elem_of_app; [| done |];
      apply Hsame; set_solver. }
  assert (forall h, L h -> h ∉ fd <$> r :: rest -> handles σ1 !! h = handles σ !! h) as Hframe.
  { intros h HL Hn. apply Hother; [done|]. intros ->. apply Hn. left. }
  destruct o as [a|e|]; [| |done].
  2: { specialize (Hall Hr). constructor; [done | done | done | by intros r' ? ?]. }
  destruct (gone a).
  - split; [by apply (loop_inv_same _ σ); [eapply loop_inv_drop | |]|]. intros stay σ' [Hsub Hi Hfr Hg]. constructor; [by apply sublist_cons | done | |].
    + intros h HL Hn. rewrite Hfr by (done || set_solver). by apply Hframe.
    + intros r' [-> | Hin]%elem_of_cons Hns; [|by apply Hg]. rewrite Hfr; [done | apply Hf; set_solver |].
      intros [r'' [Heq Hin]]%list_elem_of_fmap. by apply (other_fd kept r rest σ r'' Hinv); [set_solver|].
  - specialize (Hall Hr). rewrite <- app_assoc. split; [done|]. intros stay σ' [Hsub Hi Hfr Hg].
    rewrite <- app_assoc in Hi. constructor; [by apply sublist_skip | done | |].
    + intros h HL Hn. rewrite Hfr by (done || set_solver). by apply Hframe.
    + intros r' [-> | Hin]%elem_of_cons Hns; set_solver.
Qed.

(** The first loop: the rules that stay, in order, with one entry each. *)
Lemma setup_spec rest : forall fuel kept ps b σ,
  (length rest <= fuel)%nat -> loop_inv (kept ++ rest) σ -> length ps = length kept ->
  exists o stay σ', setup fuel kept rest ps b σ = Some (o, kept ++ stay, σ') /\ visited kept rest σ stay σ' /\
    o <> Undefined /\ (forall ps' b', o = Ok (ps', b') -> length ps' = length (kept ++ stay)).
Proof.
  induction rest as [|r rest IH]; intros fuel kept ps b σ Hfuel Hinv Hps.
  { eexists _, [], σ. destruct fuel; simpl; rewrite app_nil_r in Hinv |- *; (split; [done|]);
      (split; [by apply visited_end|]); (split; [done|]); by intros ps' b' [= <- <-]. }
  destruct fuel as [|fuel]; simpl in Hfuel; [lia|]. cbn [setup].
  assert (rule_tame r) as Ht by (pose proof (li_tame _ _ Hinv) as Ht; rewrite Forall_forall in Ht; apply Ht; set_solver).
  destruct (visit_rule _ _ kept r rest σ (poll_entry_drops r Ht) Hinv) as (o & σ1 & E & Hv). rewrite E, !app_nil_r.
  destruct o as [[[p b1]|]|e|]; [| | |done].
  - destruct Hv as [Hi1 Hv]. destruct (IH fuel (kept ++ [r]) (ps ++ [p]) (b || b1) σ1) as (o & stay & σ' & E' & Hvis & Ho & Hl);
      [lia | done | by rewrite !length_app, Hps |]. rewrite <- app_assoc in E'. exists o, (r :: stay), σ'.
    split; [exact E'|]. split; [by apply Hv|]. split; [done|]. intros ps' b' Hok. rewrite (Hl ps' b' Hok), <- app_assoc. done.
  - destruct Hv as [Hi1 Hv]. destruct (IH fuel kept ps b σ1) as (o & stay & σ' & E' & Hvis & Hrest); [lia | done | done |].
    exists o, stay, σ'. split; [exact E'|]. split; [by apply Hv | done].
  - eexists _, (r :: rest), σ1. split; [done|]. by split.
Qed.

(** The second loop: every rule finds its entry. *)
Lemma service_spec rest : forall kept ps σ,
  loop_inv (kept ++ rest) σ -> length ps = length rest ->
  exists o stay σ', service kept rest ps σ = (o, kept ++ stay, σ') /\ visited kept rest σ stay σ' /\
    o <> Undefined /\ (forall res, o = Ok res -> res = Success).
Proof.
  induction rest as [|r rest IH]; intros kept ps σ Hinv Hps.
  { eexists _, [], σ. rewrite app_nil_r in Hinv. destruct ps; simpl; rewrite app_nil_r; (split; [done|]);
      (split; [by apply visited_end|]); (split; [done|]); by intros res [= <-]. }
  destruct ps as [|p ps]; [done|]. simpl in Hps. cbn [service].
  assert (rule_tame r) as Ht by (pose proof (li_tame _ _ Hinv) as Ht; rewrite Forall_forall in Ht; apply Ht; set_solver).
  destruct (visit_rule _ _ kept r rest σ (handle_drops r p Ht) Hinv) as (o & σ1 & E & Hv). rewrite E, !app_nil_r.
  destruct o as [[]|e|]; cbn [negb] in Hv; [| | |done].
  - destruct Hv as [Hi1 Hv]. destruct (IH (kept ++ [r]) ps σ1) as (o & stay & σ' & E' & Hvis & Ho); [done | lia |].
    rewrite <- app_assoc in E'. exists o, (r :: stay), σ'. split; [exact E'|]. split; [by apply Hv | done].
  - destruct Hv as [Hi1 Hv]. destruct (IH kept ps σ1) as (o & stay & σ' & E' & Hvis & Ho); [done | lia |].
    exists o, stay, σ'. split; [exact E'|]. split; [by apply Hv | done].
  - eexists _, (r :: rest), σ1. split; [done|]. by split.
Qed.

Lemma same_rule (rules : list (Rule C)) r r' : NoDup (fd <$> rules) -> r ∈ rules -> r' ∈ rules -> fd r = fd r' -> r = r'.
Proof.
  intros Hd [i Hi]%list_elem_of_lookup_1 [j Hj]%list_elem_of_lookup_1 Heq.
  assert (i = j) as ->; [|congruence]. eapply NoDup_lookup; [exact Hd | rewrite list_lookup_fmap, Hi; reflexivity |].
  rewrite list_lookup_fmap, Hj, Heq. reflexivity.
Qed.

(** Two passes after each other, and a change of the world between them. *)
Lemma visited_trans rules σ rules1 σ1 rules2 σ2 :
  loop_inv rules σ -> visited [] rules σ rules1 σ1 -> visited [] rules1 σ1 rules2 σ2 -> visited [] rules σ rules2 σ2.
Proof.
  intros [_ Hf Hd _] [Hs1 Hi1 Hf1 Hg1] [Hs2 Hi2 Hf2 Hg2].
  assert (forall h, h ∉ fd <$> rules -> h ∉ fd <$> rules1) as Hmore
    by (intros h Hh Hin; apply Hh; eapply elem_of_sublist; [exact Hin | by apply fmap_sublist]).
  constructor; [by etransitivity | done | |].
  - intros h HL Hh. rewrite Hf2 by auto. by apply Hf1.
  - intros r Hr Hn. destruct (decide (fd r ∈ fd <$> rules1)) as [Hin|Hout].
    + apply list_elem_of_fmap in Hin as (r' & Heq & Hr'). rewrite Heq. apply Hg2; [done|].
      intros Hr2. apply Hn. assert (r' ∈ rules) as Hr'' by (eapply elem_of_sublist; [exact Hr' | done]).
      by rewrite (same_rule rules r r').
    + rewrite Forall_forall in Hf. rewrite Hf2 by (done || by apply Hf). apply Hg1; [done|].
      intros Hin. by apply Hout, list_elem_of_fmap_2.
Qed.

Lemma visited_world kept rest σ stay σ' w :
  visited kept rest σ stay σ' -> (forall f, is_open f w = is_open f (world (sys σ'))) ->
  visited kept rest σ stay (set_sys σ' {| fds := fds (sys σ'); world := w |}).
Proof.
  intros [Hs Hi Hf Hg] Hw. constructor; try done. apply (loop_inv_same _ σ'); [done | | done].
  eapply hstep_inv; [exact (li_own _ _ Hi)|]. apply h_world. intros _ f Hown. rewrite Hw. by apply (ow_open _ (li_own _ _ Hi)).
Qed.

Lemma poll_and_service_spec rules ps t σ :
  loop_inv rules σ -> length ps = length rules ->
  exists o rules' σ', poll_and_service rules ps t σ = (o, rules', σ') /\ visited [] rules σ rules' σ' /\ o <> Undefined.
Proof.
  intros Hi Hl. unfold poll_and_service. pose proof (frame_poll ps t (world (sys σ))) as Hframe.
  destruct (sys_poll ps t (world (sys σ))) as [[[ret errno] revs] w] eqn:Ep. apply law_poll in Ep as [[Hr He] Hrl]. simpl in Hframe.
  assert (visited [] rules σ rules σ) as Hv by (by constructor).
  pose proof (visited_world _ _ _ _ _ w Hv Hframe) as Hw.
  destruct (service_spec rules [] (answered ps revs) _ (vi_inv _ _ _ _ _ Hw)) as (o & stay & σ' & E & Hs & Ho & _);
    [unfold answered; rewrite length_zip_with; lia|].
  rewrite E, system_call_spec by done. assert (visited [] rules σ stay σ') as Hv' by (by eapply visited_trans).
  case_if; case_if; by eexists _, _, _.
Qed.
End respect.

(** * What the second loop does without closures *)

Section idle.
Context {W C : Type} `{Kernel W} `{Poll W} `{Closures W C}.
Implicit Types (r : Rule C) (σ : store W).

(** No error, nothing that was asked for, and a hang-up only if nothing was asked for. *)
Definition idle (p : pollfd) : Prop :=
  has (revents p) (Z.lor POLLERR POLLNVAL) = false /\ has (revents p) (events p) = false /\
  (events p = 0 \/ has (revents p) POLLHUP = false).

Lemma handle_idle r p σ : idle p -> handle r p σ = (Ok true, [], σ).
Proof.
  intros (He & Hready & Hhup). unfold handle. rewrite He, Hready.
  destruct Hhup as [-> | ->]; [|done]. by rewrite andb_false_r.
Qed.

Lemma service_idle rest : forall kept ps σ,
  length ps = length rest -> Forall idle ps -> service kept rest ps σ = (Ok Success, kept ++ rest, σ).
Proof.
  induction rest as [|r rest IH]; intros kept ps σ Hl Hp; destruct ps as [|p ps]; try done; cbn [service]; [by rewrite app_nil_r|].
  apply Forall_cons_1 in Hp as [Hp Hps]. rewrite handle_idle, app_nil_r, IH by (done || simpl in Hl; lia). by rewrite <- app_assoc.
Qed.

(** The rules [pre] are served without an exception, and [new] are the rules that their
    closures add. *)
Inductive serves : list (Rule C) -> list pollfd -> store W -> list (Rule C) -> store W -> Prop :=
| serves_nil σ : serves [] [] σ [] σ
| serves_cons r p σ stays new σ1 pre ps new' σ2 :
    handle r p σ = (Ok stays, new, σ1) -> serves pre ps σ1 new' σ2 -> serves (r :: pre) (p :: ps) σ (new ++ new') σ2.

Lemma service_app pre ps σ new σ' : serves pre ps σ new σ' -> forall kept rest ps',
  exists kept', service kept (pre ++ rest) (ps ++ ps') σ = service kept' (rest ++ new) ps' σ'.
Proof.
  induction 1 as [σ | r p σ stays new σ1 pre ps new' σ2 E _ IH]; intros kept rest ps'.
  { exists kept. simpl. by rewrite app_nil_r. }
  cbn [app service]. rewrite E. destruct (IH (if stays then kept ++ [r] else kept) (rest ++ new) ps') as [kept' E'].
  exists kept'. by rewrite <- app_assoc, E', <- app_assoc.
Qed.

(** With more rules than entries the loop does not come to its end. *)
Lemma service_overrun ps : forall kept rest σ,
  (length ps < length rest)%nat -> forall res, (service kept rest ps σ).1.1 <> Ok res.
Proof.
  induction ps as [|p ps IH]; intros kept rest σ Hl res; destruct rest as [|r rest]; simpl in Hl; try lia; cbn [service]; [done|].
  destruct (handle r p σ) as [[[stays|e|] new] σ1]; [|done..]. apply IH. rewrite length_app. lia.
Qed.
End idle.

(** A callback that neither serves its descriptor nor loses interest ends the loop with an
    exception. *)
Lemma busy_wait_detected {W C} `{Kernel W} `{Closures W C} (r : Rule C) p (σ : store W) c σ1 σ2 σ3 σ4 :
  has (revents p) (Z.lor POLLERR POLLNVAL) = false -> has (revents p) (events p) = true ->
  service_count r σ = (Ok c, [], σ1) -> invoke (callback r) σ1 = (Ok tt, [], σ2) ->
  service_count r σ2 = (Ok c, [], σ3) -> ask (interest r) σ3 = (Ok true, [], σ4) ->
  handle r p σ = (Throw (runtime_error BUSY_WAIT), [], σ4).
Proof.
  intros He Hready E1 E2 E3 E4. unfold handle. rewrite He, Hready, andb_false_r. cbv zeta.
  unfold mbind, ev_bind. by rewrite E1, E2, E3, Z.eqb_refl, E4.
Qed.

(** * A loop for the witnesses *)

(** A poll(2) with a fixed result that answers each entry by a function. *)
Definition poll_of (ret errno : Z) (answer : pollfd -> Z) : Poll (list Z) := fun ps t w => (ret, errno, map answer ps, w).

Lemma ready_poll_laws : @PollLaws (list Z) _ _ (poll_of 1 0 events).
Proof.
  constructor; [|done]. intros ps t w r e revs w' [= <- <- <- <-]. unfold int_result. split; [lia | apply length_map].
Qed.

(** Closures on the store [demo_store], in which the objects 0 and 1 are handles of one
    descriptor: 0 does nothing, 1 reads from object 1, 2 reads and adds a rule; 3 is not
    interested. *)
#[global] Instance demo_closures : Closures (list Z) nat := {|
  invoke c := match c with
              | 0%nat | 3%nat => mret tt
              | 1%nat => _ ← method 1 (fun i => fd_read i 1); mret tt
              | _ => _ ← method 1 (fun i => fd_read i 1); add_rule 0 7 In 1%nat 0%nat 0%nat
              end;
  ask c := mret (negb (c =? 3)%nat)
|}.

Definition demo_rule (callback interest : nat) : Rule nat :=
  {| fd := 1; direction := In; callback := callback; interest := interest; cancel := 0%nat |}.

Lemma fd_read_defined {W} `{KernelLaws W} i limit (s : OS W) :
  0 <= limit -> is_Some (fds s !! i) -> (fd_read i limit s).1 <> Undefined.
Proof. intros Hl [x Hx]. destruct (fd_read_spec i x s limit Hx Hl) as (r & s' & -> & Hr & _). by destruct r. Qed.

Lemma demo_loop_inv : loop_inv (fun h => h = 1%nat) [demo_rule 1 0] demo_store.
Proof.
  constructor.
  - apply (hsteps_inv _ _ (demo_hsteps true)), empty_store_inv.
  - repeat constructor. by exists 0%nat.
  - simpl. apply NoDup_singleton.
  - repeat constructor; try (by apply drops_ret). apply drops_bind; [|intros; by apply drops_ret].
    apply tame_method; [intros i; apply quiet_read | intros i s Hi; by apply fd_read_defined].
Qed.

(** * Properties *)



(** C39: [Success] without an event. If poll(2) fails with an error other than an interrupting
    signal, or if all it reports are hang-ups of descriptors whose rules were not
    interested, no closure is called after it and [wait_next_event] returns [Success], as if
    a rule had been triggered. *)
Theorem success_without_trigger {W C} `{Kernel W} `{Poll W} `{Closures W C} fuel (rules : list (Rule C)) timeout_ms (σ : store W)
    ps rules1 σ1 ret errno revs w :
  setup fuel [] rules [] false σ = Some (Ok (ps, true), rules1, σ1) -> length ps = length rules1 ->
  sys_poll ps timeout_ms (world (sys σ1)) = (ret, errno, revs, w) ->
  (0 < ret < 2 ^ 31 \/ (- 2 ^ 31 <= ret < 0 /\ errno <> 0 /\ errno <> EINTR)) ->
  length revs = length ps -> Forall idle (answered ps revs) ->
  wait_next_event fuel rules timeout_ms σ = Some (Ok Success, rules1, set_sys σ1 {| fds := fds (sys σ1); world := w |}).
Proof.
  intros E Hl Ep Hret Hrl Hrv. unfold wait_next_event, poll_and_service. rewrite E. cbn [negb]. rewrite Ep.
  rewrite system_call_spec by (unfold int_result; lia).
  rewrite service_idle; [|unfold answered; rewrite length_zip_with; lia | done]. cbn [app].
  destruct Hret as [Hret | (Hret & He & Hi)].
  - replace (0 <=? ret) with true by lia. by replace (ret =? 0) with false by lia.
  - replace (0 <=? ret) with false by lia. by replace (errno =? EINTR) with false by lia.
Qed.

Lemma success_without_trigger_witness :
  let hung := demo_rule 1 3 in
  let other := {| fd := 0; direction := Out; callback := 0%nat; interest := 0%nat; cancel := 0%nat |} in
  let answer p := if events p =? 0 then POLLHUP else 0 in
  wait_next_event (Q := poll_of 1 0 answer) 2 [hung; other] 10 demo_store = Some (Ok Success, [hung; other], demo_store).
Proof.
  apply (@success_without_trigger _ _ _ (poll_of 1 0 (fun p => if events p =? 0 then POLLHUP else 0)) _ 2
    [demo_rule 1 3; {| fd := 0; direction := Out; callback := 0%nat; interest := 0%nat; cancel := 0%nat |}] 10 demo_store
    [{| pfd := 3; events := 0; revents := 0 |}; {| pfd := 3; events := 4; revents := 0 |}] _ demo_store 1 0 [16; 0]);
    [vm_compute; reflexivity | reflexivity | reflexivity | lia | reflexivity |].
  constructor; [|constructor; [|constructor]]; (split; [reflexivity|]; split; [reflexivity|]); [left | right]; reflexivity.
Defined.

(** C40: a rule that is added from the second loop. When a closure that the second loop calls
    adds a rule to the loop (the rules before it having been served), [wait_next_event]
    never returns a result: there is no poll entry for the new rule, and the entry that is
    read for it lies beyond the array, unless an exception comes first. *)
Theorem rule_added_by_callback_overruns {W C} `{Kernel W} `{Poll W} `{Closures W C} fuel (rules : list (Rule C)) timeout_ms (σ : store W)
    ps pre r post σ1 n errno revs w ps1 p ps2 new1 σ2 stays r' new σ3 :
  setup fuel [] rules [] false σ = Some (Ok (ps, true), pre ++ r :: post, σ1) -> length ps = length (pre ++ r :: post) ->
  sys_poll ps timeout_ms (world (sys σ1)) = (n, errno, revs, w) -> 0 < n < 2 ^ 31 -> length revs = length ps ->
  answered ps revs = ps1 ++ p :: ps2 ->
  serves pre ps1 (set_sys σ1 {| fds := fds (sys σ1); world := w |}) new1 σ2 ->
  handle r p σ2 = (Ok stays, r' :: new, σ3) ->
  exists o rules' σ', wait_next_event fuel rules timeout_ms σ = Some (o, rules', σ') /\ forall res, o <> Ok res.
Proof.
  intros E Hl Ep Hn Hrl Ea Hs Hh. unfold wait_next_event, poll_and_service. rewrite E. cbn [negb]. rewrite Ep.
  rewrite system_call_spec by (unfold int_result; lia).
  replace (0 <=? n) with true by lia. replace (n =? 0) with false by lia.
  assert (length ps1 = length pre) as Hl1 by (clear -Hs; induction Hs; simpl; lia).
  destruct (service_app pre ps1 _ new1 σ2 Hs [] (r :: post) (p :: ps2)) as [kept Es]. rewrite Ea, Es. cbn [app service]. rewrite Hh.
  set (kept' := if stays then _ else _). pose proof (service_overrun ps2 kept' ((post ++ new1) ++ r' :: new) σ3) as Hover.
  destruct (service kept' _ ps2 σ3) as [[o rules'] σ']. exists o, rules', σ'. split; [done|]. apply Hover.
  apply (f_equal length) in Ea. unfold answered in Ea. rewrite length_zip_with, !length_app in Ea. rewrite length_app in Hl.
  rewrite !length_app. simpl in *. lia.
Qed.

Lemma rule_added_by_callback_overruns_witness :
  exists rules' σ', wait_next_event (Q := poll_of 1 0 events) 1 [demo_rule 2 0] 10 demo_store = Some (Undefined, rules', σ').
Proof.
  edestruct (@rule_added_by_callback_overruns _ _ _ (poll_of 1 0 events) _ 1 [demo_rule 2 0] 10 demo_store
    [{| pfd := 3; events := 1; revents := 0 |}] [] (demo_rule 2 0) [] demo_store 1 0 [1] [3; 5] [] {| pfd := 3; events := 1; revents := 1 |} [] []
    demo_store) as (o & rules' & σ' & E & Ho);
    [vm_compute; reflexivity | reflexivity | reflexivity | lia | reflexivity | reflexivity | constructor | vm_compute; reflexivity |].
  exists rules', σ'. rewrite E. vm_compute in E. injection E as <- _ _. reflexivity.
Defined.
