(* ===== verification/Address.v ===== *)
(** Internet addresses: util/address.hh, util/address.cc, and [FdAdapterConfig] of
    tcp_helpers/tcp_config.hh. A [sockaddr_storage] is its 128 bytes, laid out as on Linux
    x86-64, and the resolver functions getaddrinfo(3) and getnameinfo(3) are a parameter:
    the class [Resolver], with what their manual pages promise of numeric addresses in
    [ResolverLaws]. *)
From S2P Require Import Prelude Text FileDescriptor OSLogic.
From coqutil Require Import Word.LittleEndianList.

(** * Definitions *)

Abbreviation byte := Init.Byte.byte.

(** [sizeof(sockaddr_storage)] and [sizeof(sockaddr_in)]. *)
Definition SOCKADDR_STORAGE : Z := 128.
Definition SOCKADDR_IN : Z := 16.

Definition AF_UNSPEC : Z := 0.
Definition AF_UNIX : Z := 1.
Definition AF_INET : Z := 2.
Definition AI_NUMERICHOST : Z := 0x4.
Definition AI_ALL : Z := 0x10.
Definition AI_NUMERICSERV : Z := 0x400.
Definition NI_NUMERICHOST : Z := 1.
Definition NI_NUMERICSERV : Z := 2.
Definition NI_MAXHOST : Z := 1025.
Definition NI_MAXSERV : Z := 32.

(** [Address::Raw]: the bytes of the wrapped [sockaddr_storage], at first all zero. *)
Definition raw_zero : bytes := replicate (Z.to_nat SOCKADDR_STORAGE) (byte.of_Z 0).

(** [memcpy] of [src] over the beginning of [dst], which is long enough. *)
Definition overwrite (dst src : bytes) : bytes := src ++ drop (length src) dst.

Record Address := { _size : Z; _address : bytes }.

(** The memory an [Address] gives to a system call: [_size] bytes from its storage. *)
Definition sockaddr_of (a : Address) : bytes := take (Z.to_nat (_size a)) (_address a).

(** [Address(addr, size)] for a pointer to the memory [addr]. *)
Definition address_of_sockaddr (addr : bytes) (size : Z) : outcome Address :=
  if SOCKADDR_STORAGE <? size then Throw (runtime_error (str "invalid sockaddr size"))
  else if zlen addr <? size then Undefined
  else Ok {| _size := to_u32 size; _address := overwrite raw_zero (take (Z.to_nat size) addr) |}.

(** What the C++ standard leaves to the implementation. [null_copy] says that [memcpy] of no
    bytes from a null pointer has an effect, which is then none: the language the program is
    written in leaves it undefined, later ones and the usual libraries allow it.
    [string_max_size] is [std::string::max_size()], which is at most [PTRDIFF_MAX]. *)
Class Platform := {
  null_copy : bool;
  string_max_size : Z;
  string_max_size_bound : 0 <= string_max_size < 2 ^ 63
}.

(** [Address(nullptr, size)]. *)
Definition address_of_null `{Platform} (size : Z) : outcome Address :=
  if SOCKADDR_STORAGE <? size then Throw (runtime_error (str "invalid sockaddr size"))
  else if (size =? 0) && null_copy then Ok {| _size := 0; _address := raw_zero |}
  else Undefined.

(** The fields of [struct addrinfo] that are used as hints; the rest is zero. *)
Record addrinfo := { ai_flags : Z; ai_family : Z; ai_socktype : Z; ai_protocol : Z }.

Definition make_hints (ai_flags ai_family : Z) : addrinfo :=
  {| ai_flags := ai_flags; ai_family := ai_family; ai_socktype := 0; ai_protocol := 0 |}.

(** The bytes of [struct sockaddr_in]: the family in host order, the port and the address in
    network order, and eight zero bytes. *)
Definition sockaddr_in (family port : Z) (s_addr : bytes) : bytes :=
  le_split 2 family ++ rev (le_split 2 port) ++ s_addr ++ replicate 8 (byte.of_Z 0).

(** [htobe32] and [be32toh] on a little-endian machine. *)
Definition bswap32 (z : Z) : Z := le_combine (rev (le_split 4 z)).

Definition ss_family (storage : bytes) : Z := le_combine (take 2 storage).

(** [sin_addr.s_addr] of a [sockaddr_in]: the four bytes at offset four. *)
Definition s_addr (sin : bytes) : Z := le_combine (slice sin 4 8).

Definition ipv4_numeric (a : Address) : outcome Z :=
  if negb (ss_family (_address a) =? AF_INET) || negb (_size a =? SOCKADDR_IN) then
    Throw (runtime_error (str "ipv4_numeric called on non-IPV4 address"))
  else Ok (bswap32 (s_addr (take (Z.to_nat (_size a)) (_address a)))).

Definition from_ipv4_numeric (ip_address : Z) : outcome Address :=
  address_of_sockaddr (sockaddr_in AF_INET 0 (le_split 4 (bswap32 ip_address))) SOCKADDR_IN.

(** [operator==]: [memcmp] of the first [_size] bytes. *)
Definition address_eqb (a other : Address) : bool :=
  if negb (_size a =? _size other) then false
  else bool_decide (sockaddr_of a = sockaddr_of other).

Definition address_neqb (a other : Address) : bool := negb (address_eqb a other).

(** ** The resolver *)

(** [getaddrinfo] takes null-terminated strings and gives its result and the first entry of
    the list, its memory and its length; [getnameinfo] gives its result and the characters
    it writes to its two buffers. *)
Class Resolver (W : Type) := {
  getaddrinfo : bytes -> bytes -> addrinfo -> W -> Z * option (bytes * Z) * W;
  getnameinfo : bytes -> Z -> Z -> Z -> Z -> Z * bytes * bytes
}.

Section addresses.
Context {W : Type} `{Resolver W}.

(** [Address(node, service, hints)]. *)
Definition address_resolved (node service : bytes) (hints : addrinfo) : os W Address :=
  '(gai_ret, resolved_address) ← call_kernel (getaddrinfo (c_string node) (c_string service) hints);
  if negb (gai_ret =? 0) then
    lift (Throw (gai_error (str "getaddrinfo(" ++ node ++ str ", " ++ service ++ str ")") gai_ret))
  else
    match resolved_address with
    | None => lift (Throw (runtime_error (str "getaddrinfo returned successfully but with no results")))
    | Some (ai_addr, ai_addrlen) => lift (address_of_sockaddr ai_addr ai_addrlen)
    end.

(** [Address(hostname, service)]. *)
Definition address_of_name (hostname service : bytes) : os W Address :=
  address_resolved hostname service (make_hints AI_ALL AF_INET).

(** [Address(ip, port)]. *)
Definition address_of_ip (ip : bytes) (port : Z) : os W Address :=
  address_resolved ip (to_string port) (make_hints (Z.lor AI_NUMERICHOST AI_NUMERICSERV) AF_INET).

(** [ip_port]: the buffers are zero at first; [stoi] gives an [int], which is converted to
    [uint16_t]. *)
Definition ip_port (a : Address) : outcome (bytes * Z) :=
  let '(gni_ret, ip, port) :=
    getnameinfo (sockaddr_of a) (_size a) NI_MAXHOST NI_MAXSERV (Z.lor NI_NUMERICHOST NI_NUMERICSERV) in
  if negb (gni_ret =? 0) then Throw (gai_error (str "getnameinfo") gni_ret)
  else
    p ← stoi (c_string (overwrite (replicate (Z.to_nat NI_MAXSERV) (byte.of_Z 0)) port));
    Ok (c_string (overwrite (replicate (Z.to_nat NI_MAXHOST) (byte.of_Z 0)) ip), to_u16 p).

Definition address_ip (a : Address) : outcome bytes := ip_and_port ← ip_port a; Ok ip_and_port.1.
Definition address_port (a : Address) : outcome Z := ip_and_port ← ip_port a; Ok ip_and_port.2.

Definition address_to_string (a : Address) : outcome bytes :=
  ip_and_port ← ip_port a;
  Ok (ip_and_port.1 ++ str ":" ++ to_string ip_and_port.2).

(** [FdAdapterConfig] with its default member initializers. *)
Record FdAdapterConfig := { cfg_source : Address; cfg_destination : Address; loss_rate_dn : Z; loss_rate_up : Z }.

Definition fd_adapter_config : os W FdAdapterConfig :=
  source ← address_of_ip (str "0") 0;
  destination ← address_of_ip (str "0") 0;
  mret {| cfg_source := source; cfg_destination := destination; loss_rate_dn := 0; loss_rate_up := 0 |}.
End addresses.

(** * What the resolver promises *)

(** The dotted text of an IPv4 address. *)
Definition dotted (q : bytes) : bytes :=
  match q with
  | [a; b; c; d] =>
      to_string (byte.unsigned a) ++ str "." ++ to_string (byte.unsigned b) ++ str "." ++
      to_string (byte.unsigned c) ++ str "." ++ to_string (byte.unsigned d)
  | _ => []
  end.

(** The number of an IPv4 address, its first byte the most significant one. *)
Definition quad_value (q : bytes) : Z := le_combine (rev q).

(** Documented behaviour: the address of an entry fills its memory, and is an IPv4 socket
    address when the hints ask for one; a numeric address and port are translated in both
    directions. *)
Class ResolverLaws (W : Type) `{Resolver W} := {
  law_getaddrinfo node service hints w ret mem len w' :
    getaddrinfo node service hints w = (ret, Some (mem, len), w') ->
    0 <= len <= zlen mem /\ (ai_family hints = AF_INET -> len = SOCKADDR_IN /\ ss_family mem = AF_INET);
  law_numeric_in q port w : length q = 4%nat -> 0 <= port < 2 ^ 16 ->
    (getaddrinfo (dotted q) (to_string port) (make_hints (Z.lor AI_NUMERICHOST AI_NUMERICSERV) AF_INET) w).1
    = (0, Some (sockaddr_in AF_INET port q, SOCKADDR_IN));
  law_numeric_out q port : length q = 4%nat -> 0 <= port < 2 ^ 16 ->
    getnameinfo (sockaddr_in AF_INET port q) SOCKADDR_IN NI_MAXHOST NI_MAXSERV (Z.lor NI_NUMERICHOST NI_NUMERICSERV)
    = (0, dotted q ++ [byte.of_Z 0], to_string port ++ [byte.of_Z 0])
}.

(** The invariant of [Address]: the size is within the storage, and the storage is zero
    beyond it. *)
Record address_wf (a : Address) : Prop := {
  aw_size : 0 <= _size a <= SOCKADDR_STORAGE;
  aw_storage : zlen (_address a) = SOCKADDR_STORAGE;
  aw_rest : drop (Z.to_nat (_size a)) (_address a)
    = replicate (Z.to_nat (SOCKADDR_STORAGE - _size a)) (byte.of_Z 0)
}.

(** * Lemmas *)

Lemma address_wf_split a :
  address_wf a -> _address a = sockaddr_of a ++ replicate (Z.to_nat (SOCKADDR_STORAGE - _size a)) (byte.of_Z 0).
Proof. intros [_ _ Hr]. unfold sockaddr_of. by rewrite <- Hr, take_drop. Qed.

(** Construction from a socket address: all three outcomes. *)
Lemma address_of_sockaddr_spec addr size :
  0 <= size ->
  match address_of_sockaddr addr size with
  | Ok a => address_wf a /\ _size a = size /\ sockaddr_of a = take (Z.to_nat size) addr /\
      size <= SOCKADDR_STORAGE /\ size <= zlen addr
  | Throw e => e = runtime_error (str "invalid sockaddr size") /\ SOCKADDR_STORAGE < size
  | Undefined => size <= SOCKADDR_STORAGE /\ zlen addr < size
  end.
Proof.
  intros Hs. unfold address_of_sockaddr. case_if; [split; [done | lia]|]. case_if; [lia|].
  unfold SOCKADDR_STORAGE, zlen in *. rewrite to_u32_small by lia. cbn [_size _address].
  assert (length (take (Z.to_nat size) addr) = Z.to_nat size) as Hl by (rewrite length_take; lia).
  assert (length raw_zero = 128%nat) as Hz by done.
  assert (take (Z.to_nat size) (overwrite raw_zero (take (Z.to_nat size) addr)) = take (Z.to_nat size) addr) as Ht
    by (unfold overwrite; by rewrite take_app_length').
  split; [constructor; cbn [_size _address]|].
  - unfold SOCKADDR_STORAGE. lia.
  - unfold SOCKADDR_STORAGE, overwrite, zlen. rewrite length_app, length_drop, Hl, Hz. lia.
  - unfold overwrite. rewrite drop_app_length', Hl by done. unfold raw_zero. rewrite drop_replicate. f_equal.
    unfold SOCKADDR_STORAGE. lia.
  - split; [done|]. split; [exact Ht | lia].
Qed.

Lemma sockaddr_in_length family port q : length q = 4%nat -> zlen (sockaddr_in family port q) = SOCKADDR_IN.
Proof.
  intros Hq. unfold sockaddr_in, zlen. rewrite !length_app, length_rev, !length_le_split, Hq, length_replicate. done.
Qed.

(** An IPv4 socket address as an [Address]. *)
Lemma address_of_ipv4 port q :
  length q = 4%nat -> exists a, address_of_sockaddr (sockaddr_in AF_INET port q) SOCKADDR_IN = Ok a /\
    address_wf a /\ _size a = SOCKADDR_IN /\ sockaddr_of a = sockaddr_in AF_INET port q.
Proof.
  intros Hq. pose proof (sockaddr_in_length AF_INET port q Hq) as Hl.
  pose proof (address_of_sockaddr_spec (sockaddr_in AF_INET port q) SOCKADDR_IN ltac:(done)) as Hspec.
  destruct (address_of_sockaddr _ _) as [a|e|].
  - destruct Hspec as (Hwf & Hsize & Hbytes & _). exists a. split; [done|]. split; [done|]. split; [done|].
    rewrite Hbytes, firstn_all2; [done|]. unfold zlen in Hl. lia.
  - destruct Hspec as [_ Hs]. done.
  - destruct Hspec as [_ Hs]. lia.
Qed.

Lemma bswap32_le_split q : length q = 4%nat -> le_split 4 (bswap32 (le_combine q)) = rev q.
Proof.
  intros Hq. unfold bswap32. rewrite (split_le_combine' q 4) by done.
  apply split_le_combine'. by rewrite length_rev.
Qed.

(** The number of an address that is an IPv4 socket address. *)
Lemma ipv4_numeric_value a port q :
  address_wf a -> _size a = SOCKADDR_IN -> sockaddr_of a = sockaddr_in AF_INET port q -> length q = 4%nat ->
  ipv4_numeric a = Ok (quad_value q).
Proof.
  intros Hwf Hs Hb Hq. unfold ipv4_numeric. fold (sockaddr_of a). rewrite Hs, Hb.
  assert (ss_family (_address a) = AF_INET) as ->.
  { rewrite (address_wf_split a Hwf), Hb. unfold ss_family, sockaddr_in. rewrite <- !app_assoc.
    by rewrite take_app_length' by (by rewrite length_le_split). }
  simpl. f_equal. unfold s_addr, slice, sockaddr_in.
  rewrite (app_assoc (le_split 2 AF_INET)), drop_app_length' by (by rewrite length_app, length_rev, !length_le_split).
  rewrite take_app_length' by done. unfold bswap32, quad_value. by rewrite (split_le_combine' q 4).
Qed.

(** The text of a decimal number has no null character. *)
Lemma to_string_no_null n : 0 <= n -> Forall (fun c => byte.unsigned c <> 0) (to_string n).
Proof.
  intros Hn. unfold to_string. replace (n <? 0) with false by lia.
  eapply Forall_impl; [apply show_base_spec; lia|]. intros c Hc%digit_range. simpl in *. lia.
Qed.

Lemma dotted_no_null q : Forall (fun c => byte.unsigned c <> 0) (dotted q).
Proof.
  unfold dotted. destruct q as [|a [|b [|c [|d [|]]]]]; try constructor.
  repeat (apply Forall_app; split); try (apply to_string_no_null, byte.unsigned_range);
    by repeat constructor.
Qed.

(** What is left of a null-terminated text in a buffer of zeros. *)
Lemma c_string_buffer (n : nat) (s : bytes) :
  Forall (fun c => byte.unsigned c <> 0) s ->
  c_string (overwrite (replicate n (byte.of_Z 0)) (s ++ [byte.of_Z 0])) = s.
Proof. intros Hs. unfold overwrite. rewrite <- app_assoc. simpl. by apply c_string_app. Qed.

(** Results of an invariant of addresses and of their sizes. *)
#[export] Hint Resolve dotted_no_null to_string_no_null : sponge.

(** * A resolver of numeric addresses, which satisfies the laws *)

Definition dot : byte := byte.of_Z 46.

(** The octet at the start of a text, and what follows its digits. *)
Definition read_octet (s : bytes) : option (byte * bytes) :=
  let '(ds, rest) := span (is_digit 10) s in
  match ds with
  | [] => None
  | _ => if 255 <? digits_value 10 ds then None else Some (byte.of_Z (digits_value 10 ds), rest)
  end.

(** [n] more octets, each after a dot. *)
Fixpoint read_octets (n : nat) (s : bytes) : option bytes :=
  match n, s with
  | O, [] => Some []
  | S n', c :: s' =>
      if decide (c = dot) then '(b, rest) ← read_octet s'; cons b <$> read_octets n' rest else None
  | _, _ => None
  end.

Definition read_quad (s : bytes) : option bytes := read_octets 4 (dot :: s).

Definition read_port (s : bytes) : option Z :=
  if decide (s = str "http") then Some 80
  else match stoi s with Ok p => if (0 <=? p) && (p <? 2 ^ 16) then Some p else None | _ => None end.

Section numeric.
Context {W : Type}.

Definition numeric_getaddrinfo (node service : bytes) (hints : addrinfo) (w : W) : Z * option (bytes * Z) * W :=
  match read_quad node, read_port service with
  | Some q, Some p => (0, Some (sockaddr_in AF_INET p q, SOCKADDR_IN), w)
  | _, _ => (-2, None, w)
  end.

Definition numeric_getnameinfo (addr : bytes) (size hostlen servlen flags : Z) : Z * bytes * bytes :=
  if (size =? SOCKADDR_IN) && (ss_family addr =? AF_INET) then
    (0, dotted (slice addr 4 8) ++ [byte.of_Z 0], to_string (le_combine (rev (slice addr 2 4))) ++ [byte.of_Z 0])
  else (-6, [], []).

Definition numeric_resolver : Resolver W :=
  {| getaddrinfo := numeric_getaddrinfo; getnameinfo := numeric_getnameinfo |}.
End numeric.

Lemma read_octet_to_string (b : byte) rest :
  match rest with c :: _ => is_digit 10 c = false | [] => True end ->
  read_octet (to_string (byte.unsigned b) ++ rest) = Some (b, rest).
Proof.
  intros Hrest. pose proof (byte.unsigned_range b). unfold read_octet, to_string.
  replace (byte.unsigned b <? 0) with false by lia.
  destruct (show_base_spec 10 (byte.unsigned b)) as (Hne & Hds & Hv); [lia | lia |].
  rewrite span_app by done. destruct (show_base 10 _) eqn:E; [done|]. rewrite Hv.
  replace (255 <? byte.unsigned b) with false by lia. by rewrite byte.of_Z_unsigned.
Qed.

Lemma read_quad_dotted q : length q = 4%nat -> read_quad (dotted q) = Some q.
Proof.
  intros Hq. destruct q as [|a [|b [|c [|d [|]]]]]; try discriminate Hq. unfold read_quad, dotted.
  change (str ".") with [dot]. cbn [app read_octets]. rewrite decide_True by done.
  rewrite read_octet_to_string by done. cbn [mbind option_bind read_octets]. rewrite decide_True by done.
  rewrite read_octet_to_string by done. cbn [mbind option_bind read_octets]. rewrite decide_True by done.
  rewrite read_octet_to_string by done. cbn [mbind option_bind read_octets]. rewrite decide_True by done.
  rewrite <- (app_nil_r (to_string (byte.unsigned d))), read_octet_to_string by done. done.
Qed.

Lemma read_octets_length n : forall s q, read_octets n s = Some q -> length q = n.
Proof.
  induction n as [|n IH]; intros [|c s] q; simpl; try discriminate; [by intros [= <-]|].
  case_decide; [|discriminate]. destruct (read_octet s) as [[b rest]|]; simpl; [|discriminate].
  destruct (read_octets n rest) as [q'|] eqn:E; simpl; [|discriminate]. intros [= <-]. simpl. f_equal. by eapply IH.
Qed.

Lemma ss_family_in port q tail : ss_family (sockaddr_in AF_INET port q ++ tail) = AF_INET.
Proof. unfold ss_family, sockaddr_in. rewrite <- !app_assoc. by rewrite take_app_length' by (by rewrite length_le_split). Qed.

Lemma sockaddr_in_parts family port q :
  length q = 4%nat -> 0 <= port < 2 ^ 16 ->
  slice (sockaddr_in family port q) 4 8 = q /\ le_combine (rev (slice (sockaddr_in family port q) 2 4)) = port.
Proof.
  intros Hq Hp. unfold slice, sockaddr_in. split.
  - rewrite (app_assoc (le_split 2 family)), drop_app_length' by (by rewrite length_app, length_rev, !length_le_split).
    by rewrite take_app_length'.
  - rewrite drop_app_length' by (by rewrite length_le_split).
    rewrite take_app_length' by (by rewrite length_rev, length_le_split). rewrite rev_involutive, le_combine_split.
    apply Z.mod_small. exact Hp.
Qed.

Lemma read_port_to_string p : 0 <= p < 2 ^ 16 -> read_port (to_string p) = Some p.
Proof.
  intros Hp. unfold read_port. pose proof (stoi_to_string p [] ltac:(lia) I) as Hst. rewrite app_nil_r in Hst.
  rewrite decide_False.
  - rewrite Hst. by replace ((0 <=? p) && (p <? 2 ^ 16)) with true by lia.
  - intros E. rewrite E in Hst. discriminate Hst.
Qed.

#[global] Instance device_resolver : Resolver device := numeric_resolver.

Lemma numeric_resolver_laws W : @ResolverLaws W numeric_resolver.
Proof.
  constructor; cbn [getaddrinfo getnameinfo numeric_resolver].
  - intros node service hints w ret mem len w'. unfold numeric_getaddrinfo, read_quad.
    destruct (read_octets 4 _) as [q|] eqn:Eq; [|discriminate]. apply read_octets_length in Eq.
    destruct (read_port service) as [p|]; [|discriminate]. intros [= <- <- <- <-].
    rewrite sockaddr_in_length by done. split; [done|]. intros _. split; [done|].
    rewrite <- (app_nil_r (sockaddr_in _ _ _)). apply ss_family_in.
  - intros q port w Hq Hp. unfold numeric_getaddrinfo. by rewrite read_quad_dotted, read_port_to_string.
  - intros q port Hq Hp. unfold numeric_getnameinfo. rewrite <- (app_nil_r (sockaddr_in _ _ _)) at 1.
    rewrite ss_family_in. change ((SOCKADDR_IN =? SOCKADDR_IN) && (AF_INET =? AF_INET)) with true.
    by destruct (sockaddr_in_parts AF_INET port q Hq Hp) as [-> ->].
Qed.

#[global] Instance device_resolver_laws : ResolverLaws device := numeric_resolver_laws device.

(** The port read back is the port, and the text of the address follows. *)
Lemma ip_port_ipv4 {W} `{ResolverLaws W} a port q :
  _size a = SOCKADDR_IN -> sockaddr_of a = sockaddr_in AF_INET port q -> length q = 4%nat -> 0 <= port < 2 ^ 16 ->
  ip_port a = Ok (dotted q, port).
Proof.
  intros Hs Hb Hq Hp. unfold ip_port. rewrite Hs, Hb, law_numeric_out by done. cbn [negb Z.eqb].
  rewrite !c_string_buffer by (auto with sponge; apply to_string_no_null; lia).
  pose proof (stoi_to_string port [] ltac:(lia) I) as Hst. rewrite app_nil_r in Hst. rewrite Hst.
  cbn [mbind outcome_bind]. by rewrite to_u16_small.
Qed.

Lemma quad_value_range q : length q = 4%nat -> 0 <= quad_value q < 2 ^ 32.
Proof. intros Hq. unfold quad_value. pose proof (le_combine_bound (rev q)) as Hb. rewrite length_rev, Hq in Hb. exact Hb. Qed.

(** An address of the size and family of IPv4 has a port and four bytes. *)
Lemma ipv4_total a :
  address_wf a -> ss_family (_address a) = AF_INET -> _size a = SOCKADDR_IN ->
  exists n, ipv4_numeric a = Ok n /\ 0 <= n < 2 ^ 32.
Proof.
  intros Hwf Hf Hs. unfold ipv4_numeric. rewrite Hf, Hs. simpl. eexists. split; [done|].
  unfold bswap32. pose proof (le_combine_bound (rev (le_split 4 (s_addr (take 16 (_address a)))))) as Hb.
  rewrite length_rev, length_le_split in Hb. exact Hb.
Qed.

(** The resolving constructor on all its paths: the resolver is asked once. *)
Lemma address_resolved_spec {W} `{ResolverLaws W} node service hints (s : OS W) :
  wp (address_resolved node service hints)
    (fun a s' => address_wf a /\ fds s' = fds s /\
      (exists r, getaddrinfo (c_string node) (c_string service) hints (world s) = (r, world s')) /\
      (ai_family hints = AF_INET -> exists n, ipv4_numeric a = Ok n /\ 0 <= n < 2 ^ 32))
    (fun e s' => fds s' = fds s /\
      match e with gai_error _ code => code <> 0 | runtime_error _ => True | _ => False end) s.
Proof.
  apply wp_bind, wp_call. intros [ret res] w E. destruct (ret =? 0) eqn:E0; cbn [negb].
  2: { apply wp_throw. split; [done | lia]. }
  destruct res as [[mem len]|]; [|by apply wp_throw].
  pose proof E as [Hlen Hfam]%law_getaddrinfo.
  pose proof (address_of_sockaddr_spec mem len ltac:(lia)) as Hspec. unfold wp, lift.
  destruct (address_of_sockaddr mem len) as [a|e|]; [| |lia].
  - destruct Hspec as (Hwf & Hs & Hb & Hle & _). split; [done|]. split; [done|].
    split; [by eexists|]. intros [-> Hss]%Hfam.
    apply ipv4_total; [done| |done]. rewrite (address_wf_split a Hwf), Hb, <- Hss. unfold ss_family, SOCKADDR_IN in *.
    f_equal. unfold zlen in Hlen. rewrite take_app_le by (rewrite length_take; lia). by rewrite take_take.
  - destruct Hspec as [-> _]. done.
Qed.

(** The constructor from a dotted address and a port. *)
Lemma address_of_ip_spec {W} `{ResolverLaws W} q port (s : OS W) :
  length q = 4%nat -> 0 <= port < 2 ^ 16 ->
  wp (address_of_ip (dotted q) port)
    (fun a s' => address_wf a /\ address_ip a = Ok (dotted q) /\ address_port a = Ok port /\
      address_to_string a = Ok (dotted q ++ str ":" ++ to_string port) /\ ipv4_numeric a = Ok (quad_value q))
    (fun _ _ => False) s.
Proof.
  intros Hq Hp. apply wp_bind, wp_call. intros [ret res] w E.
  rewrite !c_string_id in E by (auto with sponge; apply to_string_no_null; lia).
  pose proof (law_numeric_in q port (world s) Hq Hp) as Hlaw. rewrite E in Hlaw. injection Hlaw as -> ->.
  cbn [Z.eqb negb]. destruct (address_of_ipv4 port q Hq) as (a & Ea & Hwf & Hs & Hb). unfold wp, lift. rewrite Ea.
  unfold address_ip, address_port, address_to_string. rewrite (ip_port_ipv4 a port q) by done.
  split; [done|]. split; [done|]. split; [done|]. split; [done|]. by apply (ipv4_numeric_value a port).
Qed.

(** * Properties *)

(** C30: every [Address] that the resolving constructors return is well formed: its size is
    within the 128 bytes of its storage, which is zero beyond the size, and when IPv4 was
    asked for it has a 32-bit number. Their other outcomes are the error of the resolver
    and the exceptions for a missing or too long result; nothing is read out of bounds
    and no descriptor changes. *)
Theorem address_constructors_wf {W} `{ResolverLaws W} node service hints (s : OS W) :
  wp (address_resolved node service hints)
    (fun a s' => address_wf a /\ fds s' = fds s /\
      (ai_family hints = AF_INET -> exists n, ipv4_numeric a = Ok n /\ 0 <= n < 2 ^ 32))
    (fun e s' => fds s' = fds s /\
      match e with gai_error _ code => code <> 0 | runtime_error _ => True | _ => False end) s.
Proof. eapply wp_mono; [apply address_resolved_spec | | done]. intros a s' (? & ? & _ & ?). done. Qed.

Lemma address_constructors_wf_witness :
  wp (address_resolved (str "18.243.0.1") (str "http") (make_hints AI_ALL AF_INET))
    (fun a s' => address_wf a /\ fds s' = fds demo_os /\
      (AF_INET = AF_INET -> exists n, ipv4_numeric a = Ok n /\ 0 <= n < 2 ^ 32))
    (fun e s' => fds s' = fds demo_os /\
      match e with gai_error _ code => code <> 0 | runtime_error _ => True | _ => False end) demo_os.
Proof. apply (address_constructors_wf (str "18.243.0.1") (str "http") (make_hints AI_ALL AF_INET) demo_os). Defined.

(** [Address::operator==], which compares only the first [_size] bytes, is equality: two
    well-formed addresses compare equal exactly when they are the same. *)
Lemma address_equality a b : address_wf a -> address_wf b -> (address_eqb a b = true <-> a = b).
Proof.
  intros Ha Hb. unfold address_eqb. split.
  - case_if; [done|]. intros E%bool_decide_eq_true. assert (_size a = _size b) as Hs by (destruct (_size a =? _size b) eqn:?; [lia | done]).
    pose proof (address_wf_split a Ha) as Ea. pose proof (address_wf_split b Hb) as Eb. rewrite E, Hs, <- Eb in Ea.
    destruct a, b. simpl in *. by subst.
  - intros ->. rewrite Z.eqb_refl. by apply bool_decide_eq_true.
Qed.

Lemma address_equality_witness :
  exists a b, from_ipv4_numeric 3232235777 = Ok a /\ from_ipv4_numeric 16843009 = Ok b /\
    address_wf a /\ address_wf b /\ address_eqb a b = false /\ (address_eqb a b = true <-> a = b).
Proof.
  assert (forall n, exists a, from_ipv4_numeric n = Ok a /\ address_wf a) as Hwf.
  { intros n. destruct (address_of_ipv4 0 (le_split 4 (bswap32 n)) (length_le_split 4 _)) as (a & E & Hwf & _). eauto. }
  destruct (Hwf 3232235777) as (a & Ea & Ha), (Hwf 16843009) as (b & Eb & Hb).
  exists a, b. split; [exact Ea|]. split; [exact Eb|]. split; [exact Ha|]. split; [exact Hb|].
  split; [|exact (address_equality a b Ha Hb)].
  vm_compute in Ea, Eb. injection Ea as <-. injection Eb as <-. vm_compute. reflexivity.
Defined.

(** The round trip of numeric addresses: [from_ipv4_numeric] succeeds on every 32-bit
    number, [ipv4_numeric] gives that number back, and with a resolver that keeps its
    contract the address is shown as the four bytes of the number, the most significant
    first, and port zero. *)
Lemma ipv4_numeric_roundtrip {W} `{ResolverLaws W} n :
  0 <= n < 2 ^ 32 ->
  exists a, from_ipv4_numeric n = Ok a /\ address_wf a /\ ipv4_numeric a = Ok n /\
    ip_port a = Ok (dotted (rev (le_split 4 n)), 0).
Proof.
  intros Hn. unfold from_ipv4_numeric.
  assert (le_split 4 (bswap32 n) = rev (le_split 4 n)) as ->.
  { unfold bswap32. apply split_le_combine'. by rewrite length_rev, length_le_split. }
  assert (length (rev (le_split 4 n)) = 4%nat) as Hl by (by rewrite length_rev, length_le_split).
  destruct (address_of_ipv4 0 _ Hl) as (a & E & Hwf & Hs & Hb). exists a. split; [done|]. split; [done|]. split.
  - rewrite (ipv4_numeric_value a 0 _ Hwf Hs Hb Hl). f_equal. unfold quad_value. rewrite rev_involutive, le_combine_split.
    apply Z.mod_small. exact Hn.
  - by apply ip_port_ipv4.
Qed.

Lemma ipv4_numeric_roundtrip_witness :
  exists a, from_ipv4_numeric 3232235777 = Ok a /\ address_wf a /\ ipv4_numeric a = Ok 3232235777 /\
    ip_port (W := device) a = Ok (str "192.168.1.1", 0).
Proof. apply (ipv4_numeric_roundtrip (W := device) 3232235777). by_compute. Defined.

(** C31: an [Address] made from the text of an IPv4 address and a port gives both back, is
    shown as "address:port", and its number is that of the four bytes; no exception is
    possible. *)
Theorem address_text_roundtrip {W} `{ResolverLaws W} q port (s : OS W) :
  length q = 4%nat -> 0 <= port < 2 ^ 16 ->
  wp (address_of_ip (dotted q) port)
    (fun a s' => address_wf a /\ address_ip a = Ok (dotted q) /\ address_port a = Ok port /\
      address_to_string a = Ok (dotted q ++ str ":" ++ to_string port) /\ ipv4_numeric a = Ok (quad_value q))
    (fun _ _ => False) s.
Proof. apply address_of_ip_spec. Qed.

Lemma address_text_roundtrip_witness :
  wp (address_of_ip (str "8.8.8.8") 53)
    (fun a s' => address_wf a /\ address_ip a = Ok (str "8.8.8.8") /\ address_port a = Ok 53 /\
      address_to_string a = Ok (str "8.8.8.8:53") /\ ipv4_numeric a = Ok 134744072)
    (fun _ _ => False) demo_os.
Proof. apply (address_text_roundtrip (replicate 4 (byte.of_Z 8)) 53 demo_os); by_compute. Defined.
