(* ===== verification/Socket.v ===== *)
(** Sockets: util/socket.hh and util/socket.cc. The classes [Socket], [UDPSocket],
    [TCPSocket] and [LocalStreamSocket] are handles on file descriptors, so a socket is a
    position in the store of wrappers. The system calls on sockets are the class
    [SocketKernel]; [SocketLaws] has what their manual pages promise. *)
From S2P Require Import Prelude Text Buffer FileDescriptor OSLogic Address.

(** * The kernel *)

Definition SOCK_STREAM : Z := 1.
Definition SOCK_DGRAM : Z := 2.
Definition SOL_SOCKET : Z := 1.
Definition SO_REUSEADDR : Z := 2.
Definition SO_TYPE : Z := 3.
Definition SO_DOMAIN : Z := 39.
Definition SHUT_RD : Z := 0.
Definition SHUT_WR : Z := 1.
Definition SHUT_RDWR : Z := 2.
Definition MSG_TRUNC : Z := 0x20.

(** Which name of a socket is asked for: getsockname(2) or getpeername(2). *)
Inductive name_of := Local | Peer.

(** A call gives its result, [errno], what it wrote to the memory it was given, and the new
    world. [sys_getsockopt] writes an [int] and its length; [sys_getname] and
    [sys_recvfrom] write an address and its length, of which as much as fits into the
    space they are given. *)
Class SocketKernel (W : Type) := {
  sys_socket : Z -> Z -> Z -> W -> Z * Z * W;
  sys_getsockopt : Z -> Z -> Z -> Z -> W -> Z * Z * Z * Z * W;
  sys_setsockopt : Z -> Z -> Z -> bytes -> W -> Z * Z * W;
  sys_getname : name_of -> Z -> Z -> W -> Z * Z * bytes * Z * W;
  sys_bind : Z -> bytes -> W -> Z * Z * W;
  sys_connect : Z -> bytes -> W -> Z * Z * W;
  sys_shutdown : Z -> Z -> W -> Z * Z * W;
  sys_recvfrom : Z -> Z -> Z -> Z -> W -> Z * Z * bytes * bytes * Z * W;
  sys_sendmsg : Z -> bytes -> list (bytes * Z) -> Z -> W -> Z * Z * W;
  sys_listen : Z -> Z -> W -> Z * Z * W;
  sys_accept : Z -> W -> Z * Z * W
}.

(** [UDPSocket::received_datagram]. *)
Record received_datagram := { source_address : Address; payload : bytes }.

Section sockets.
Context {W : Type} `{Kernel W} `{SocketKernel W} `{Platform}.

(** * Socket *)

(** [Socket(domain, type)]. *)
Definition socket_new (domain type : Z) : os W nat :=
  fd ← syscall (str "socket") (sys_socket domain type 0);
  new_fd fd.

(** One of the two checks of [Socket(fd, domain, type)]: the option [option] of the socket. *)
Definition verify_option (i : nat) (option expected : Z) (mismatch : bytes) : os W unit :=
  fd ← fd_num i;
  '(ret, errno, actual_value, len) ← call_kernel (fun w =>
     let '(ret, errno, v, len, w') := sys_getsockopt fd SOL_SOCKET option 4 w in ((ret, errno, v, len), w'));
  _ ← lift (SystemCall (str "getsockopt") ret errno 0);
  if negb (len =? 4) || negb (actual_value =? expected) then lift (Throw (runtime_error mismatch)) else mret tt.

(** [Socket(FileDescriptor &&fd, domain, type)], for the descriptor [i] that is moved in. *)
Definition socket_of_fd (i : nat) (domain type : Z) : os W nat :=
  _ ← verify_option i SO_DOMAIN domain (str "socket domain mismatch");
  _ ← verify_option i SO_TYPE type (str "socket type mismatch");
  mret i.

Definition name_of_function (n : name_of) : bytes :=
  match n with Local => str "getsockname" | Peer => str "getpeername" end.

(** [get_address]: the kernel writes into a zeroed [Address::Raw] and reports a size. *)
Definition get_address (i : nat) (n : name_of) : os W Address :=
  fd ← fd_num i;
  '(ret, errno, address, size) ← call_kernel (fun w =>
     let '(ret, errno, a, size, w') := sys_getname n fd SOCKADDR_STORAGE w in ((ret, errno, a, size), w'));
  _ ← lift (SystemCall (name_of_function n) ret errno 0);
  lift (address_of_sockaddr (overwrite raw_zero address) size).

Definition local_address (i : nat) : os W Address := get_address i Local.
Definition peer_address (i : nat) : os W Address := get_address i Peer.

Definition bind (i : nat) (address : Address) : os W unit :=
  fd ← fd_num i;
  _ ← syscall (str "bind") (sys_bind fd (sockaddr_of address));
  mret tt.

Definition connect (i : nat) (address : Address) : os W unit :=
  fd ← fd_num i;
  _ ← syscall (str "connect") (sys_connect fd (sockaddr_of address));
  mret tt.

Definition shutdown (i : nat) (how : Z) : os W unit :=
  fd ← fd_num i;
  _ ← syscall (str "shutdown") (sys_shutdown fd how);
  if how =? SHUT_RD then register_read i
  else if how =? SHUT_WR then register_write i
  else if how =? SHUT_RDWR then _ ← register_read i; register_write i
  else lift (Throw (runtime_error (str "Socket::shutdown() called with invalid `how`"))).

(** [setsockopt<option_type>], with the bytes of the value. *)
Definition setsockopt (i : nat) (level option : Z) (option_value : bytes) : os W unit :=
  fd ← fd_num i;
  _ ← syscall (str "setsockopt") (sys_setsockopt fd level option option_value);
  mret tt.

(** [int(true)] as four bytes. *)
Definition set_reuseaddr (i : nat) : os W unit :=
  setsockopt i SOL_SOCKET SO_REUSEADDR (LittleEndianList.le_split 4 1).

(** * UDPSocket *)

Definition udp_socket : os W nat := socket_new AF_INET SOCK_DGRAM.
Definition udp_socket_of_fd (i : nat) : os W nat := socket_of_fd i AF_INET SOCK_DGRAM.

(** [recv(datagram, mtu)]: the result, the datagram of the caller, which is also changed when
    an exception is thrown, and the new state. A payload longer than any string can be is
    the exception of [resize]. *)
Definition recv_into (i : nat) (datagram : received_datagram) (mtu : Z) (s : OS W)
  : outcome unit * received_datagram * OS W :=
  if string_max_size <? mtu then (Throw length_error, datagram, s) else
  let buffer := resize (payload datagram) mtu in
  match (fd ← fd_num i;
         call_kernel (fun w =>
           let '(ret, errno, data, src, fromlen, w') := sys_recvfrom fd mtu MSG_TRUNC SOCKADDR_STORAGE w in
           ((ret, errno, data, src, fromlen), w'))) s with
  | (Ok (ret, errno, data, src, fromlen), s1) =>
      let received := {| source_address := source_address datagram; payload := overwrite buffer data |} in
      match SystemCall (str "recvfrom") ret errno 0 with
      | Ok recv_len =>
          if to_i64 mtu <? recv_len then (Throw (runtime_error (str "recvfrom (oversized datagram)")), received, s1)
          else
            match (_ ← register_read i; lift (address_of_sockaddr (overwrite raw_zero src) fromlen)) s1 with
            | (Ok a, s2) =>
                (Ok tt, {| source_address := a; payload := resize (payload received) recv_len |}, s2)
            | (Throw e, s2) => (Throw e, received, s2)
            | (Undefined, s2) => (Undefined, received, s2)
            end
      | Throw e => (Throw e, received, s1)
      | Undefined => (Undefined, received, s1)
      end
  | (Throw e, s1) => (Throw e, datagram, s1)
  | (Undefined, s1) => (Undefined, datagram, s1)
  end.

(** [recv(mtu)]: starts from the address [{nullptr, 0}] and the empty string. *)
Definition recv (i : nat) (mtu : Z) : os W received_datagram := fun s =>
  match address_of_null 0 with
  | Ok a =>
      match recv_into i {| source_address := a; payload := [] |} mtu s with
      | (Ok _, ret, s') => (Ok ret, s')
      | (Throw e, _, s') => (Throw e, s')
      | (Undefined, _, s') => (Undefined, s')
      end
  | Throw e => (Throw e, s)
  | Undefined => (Undefined, s)
  end.

(** [sendmsg_helper], for a destination of [destination] bytes, none without one. *)
Definition sendmsg_helper (fd_num : Z) (destination : bytes) (payload : BufferViewList) : os W unit :=
  bytes_sent ← syscall (str "sendmsg") (sys_sendmsg fd_num destination (as_iovecs payload) 0);
  if negb (to_u64 bytes_sent =? view_size payload) then
    lift (Throw (runtime_error (str "datagram payload too big for sendmsg()")))
  else mret tt.

Definition sendto (i : nat) (destination : Address) (payload : BufferViewList) : os W unit :=
  fd ← fd_num i;
  _ ← sendmsg_helper fd (sockaddr_of destination) payload;
  register_write i.

Definition send (i : nat) (payload : BufferViewList) : os W unit :=
  fd ← fd_num i;
  _ ← sendmsg_helper fd [] payload;
  register_write i.

(** * TCPSocket and LocalStreamSocket *)

Definition tcp_socket : os W nat := socket_new AF_INET SOCK_STREAM.
Definition tcp_socket_of_fd (i : nat) : os W nat := socket_of_fd i AF_INET SOCK_STREAM.

Definition listen (i : nat) (backlog : Z) : os W unit :=
  fd ← fd_num i;
  _ ← syscall (str "listen") (sys_listen fd backlog);
  mret tt.

(** [accept]: the new descriptor has one owner, so it is destroyed when the constructor of
    the new socket throws. *)
Definition accept (i : nat) : os W nat :=
  _ ← register_read i;
  fd ← fd_num i;
  new ← syscall (str "accept") (sys_accept fd);
  j ← new_fd new;
  on_throw (tcp_socket_of_fd j) (destroy_fd j).

Definition local_stream_socket_of_fd (i : nat) : os W nat := socket_of_fd i AF_UNIX SOCK_STREAM.
End sockets.

(** * What the kernel promises *)

(** [sock_domain] and [sock_type] the domain and type of
    a socket, [sock_name] its local and peer address, [inbox] the datagrams waiting on a
    socket with their senders, and [outbox] those it sent with their destinations. *)
Class SocketLaws (W : Type) `{KernelLaws W} `{SocketKernel W} := {
  sock_domain : Z -> W -> Z;
  sock_type : Z -> W -> Z;
  sock_name : name_of -> Z -> W -> bytes;
  inbox : Z -> W -> list (bytes * bytes);
  outbox : Z -> W -> list (bytes * bytes);
  law_socket domain type w ret errno w' :
    sys_socket domain type 0 w = (ret, errno, w') ->
    int_result ret errno /\ (forall fd', fd' <> ret -> is_open fd' w' = is_open fd' w) /\
    (0 <= ret -> is_open ret w = false /\ is_open ret w' = true /\ sent ret w' = [] /\
      sock_domain ret w' = domain /\ sock_type ret w' = type) /\
    (ret < 0 -> is_open ret w' = is_open ret w);
  law_getsockopt fd option w ret errno v len w' :
    option = SO_DOMAIN \/ option = SO_TYPE ->
    sys_getsockopt fd SOL_SOCKET option 4 w = (ret, errno, v, len, w') ->
    int_result ret errno /\
    (0 <= ret -> len = 4 /\ v = if option =? SO_DOMAIN then sock_domain fd w else sock_type fd w) /\
    (forall fd', is_open fd' w' = is_open fd' w /\ sock_domain fd' w' = sock_domain fd' w /\
      sock_type fd' w' = sock_type fd' w);
  law_getname n fd len w ret errno a size w' :
    sys_getname n fd len w = (ret, errno, a, size, w') ->
    int_result ret errno /\
    (0 <= ret -> size = zlen (sock_name n fd w) /\ a = take (Z.to_nat len) (sock_name n fd w));
  law_connect fd a w ret errno w' :
    sys_connect fd a w = (ret, errno, w') -> int_result ret errno /\ sent fd w' = sent fd w;
  law_shutdown fd how w ret errno w' :
    sys_shutdown fd how w = (ret, errno, w') -> int_result ret errno /\ sent fd w' = sent fd w;
  law_recvfrom fd size w ret errno data src fromlen w' :
    0 <= size -> sys_recvfrom fd size MSG_TRUNC SOCKADDR_STORAGE w = (ret, errno, data, src, fromlen, w') ->
    int_result ret errno /\
    (0 <= ret -> exists datagram, inbox fd w = (src, datagram) :: inbox fd w' /\ ret = zlen datagram /\
      data = take (Z.to_nat size) datagram /\ fromlen = zlen src /\ fromlen <= SOCKADDR_STORAGE) /\
    (ret < 0 -> inbox fd w' = inbox fd w);
  law_sendmsg fd name iov w ret errno w' :
    sys_sendmsg fd name iov 0 w = (ret, errno, w') ->
    int_result ret errno /\
    (0 <= ret -> ret <= zlen (iov_bytes iov) /\
      outbox fd w' = outbox fd w ++ [(name, take (Z.to_nat ret) (iov_bytes iov))]) /\
    (ret < 0 -> outbox fd w' = outbox fd w);
  law_accept fd w ret errno w' :
    sys_accept fd w = (ret, errno, w') ->
    int_result ret errno /\ (forall fd', fd' <> ret -> is_open fd' w' = is_open fd' w) /\
    (0 <= ret -> is_open ret w = false /\ is_open ret w' = true) /\
    (ret < 0 -> is_open ret w' = is_open ret w)
}.

(** * Lemmas *)

Section laws.
Context {W : Type} `{SocketLaws W}.
Implicit Types s : OS W.

(** One check of the constructor from a descriptor. *)
Lemma verify_option_spec i x option expected mismatch s :
  fds s !! i = Some x -> option = SO_DOMAIN \/ option = SO_TYPE ->
  let actual := (if option =? SO_DOMAIN then sock_domain else sock_type) (_fd x) (world s) in
  wp (verify_option i option expected mismatch)
    (fun _ s' => fds s' = fds s /\ actual = expected /\ forall fd', is_open fd' (world s') = is_open fd' (world s) /\
      sock_domain fd' (world s') = sock_domain fd' (world s) /\ sock_type fd' (world s') = sock_type fd' (world s))
    (fun e s' => fds s' = fds s /\ (forall fd', is_open fd' (world s') = is_open fd' (world s)) /\
      match e with
      | runtime_error t => t = mismatch /\ actual <> expected
      | unix_error a _ => a = str "getsockopt"
      | _ => False
      end) s.
Proof.
  intros Hx Ho actual. apply wp_bind, (wp_fd_num i x); [done|]. apply wp_bind, wp_call. intros [[[ret errno] v] len] w E.
  destruct (sys_getsockopt _ _ _ _ _) as [[[[ret' errno'] v'] len'] w'] eqn:E'. injection E as -> -> -> -> ->.
  apply (law_getsockopt _ _ _ _ _ _ _ _ Ho) in E' as (Hint & Hok & Hsame).
  apply wp_bind, wp_system_call; [done| |].
  - intros [-> Hv]%Hok. assert (v = actual) as -> by (rewrite Hv; unfold actual; by case_if).
    cbn [negb Z.eqb orb Pos.eqb]. destruct (actual =? expected) eqn:Ea; cbn [negb].
    + apply wp_ret. split; [done|]. split; [lia | done].
    + apply wp_throw. split; [done|]. split; [intros; apply Hsame|]. split; [done | lia].
  - intros _. split; [done|]. split; [intros; apply Hsame | done].
Qed.

(** [Socket(fd, domain, type)] returns exactly for a socket of that domain and type. *)
Lemma socket_of_fd_spec i x domain type s :
  fds s !! i = Some x ->
  wp (socket_of_fd i domain type)
    (fun j s' => j = i /\ fds s' = fds s /\ sock_domain (_fd x) (world s') = domain /\ sock_type (_fd x) (world s') = type /\
      forall fd', is_open fd' (world s') = is_open fd' (world s))
    (fun e s' => fds s' = fds s /\ (forall fd', is_open fd' (world s') = is_open fd' (world s)) /\
      match e with
      | runtime_error t => t = str "socket domain mismatch" /\ sock_domain (_fd x) (world s) <> domain \/
                           t = str "socket type mismatch" /\ sock_type (_fd x) (world s) <> type
      | unix_error a _ => a = str "getsockopt"
      | _ => False
      end) s.
Proof.
  intros Hx. apply wp_bind. eapply wp_mono; [by apply (verify_option_spec i x); [|left]| |]; cbn [Z.eqb Pos.eqb SO_DOMAIN].
  - intros _ s1 (Hf1 & Hd & Hs1). apply wp_bind. eapply wp_mono;
      [apply (verify_option_spec i x); [by rewrite Hf1 | by right] | |]; cbn [Z.eqb Pos.eqb SO_DOMAIN SO_TYPE].
    + intros _ s2 (Hf2 & Ht & Hs2). apply wp_ret. destruct (Hs1 (_fd x)) as (_ & Hd1 & Ht1), (Hs2 (_fd x)) as (_ & Hd2 & Ht2).
      split; [done|]. split; [congruence|]. split; [congruence|]. split; [congruence|].
      intros fd'. destruct (Hs1 fd') as [? _], (Hs2 fd') as [? _]. congruence.
    + intros e s2 (Hf2 & Hs2 & He). split; [congruence|]. destruct (Hs1 (_fd x)) as (_ & _ & Ht1).
      split; [intros fd'; destruct (Hs1 fd') as [? _]; rewrite Hs2; congruence|].
      destruct e; try done. right. rewrite <- Ht1. done.
  - intros e s1 (Hf1 & Hs1 & He). split; [done|]. split; [done|]. destruct e; try done. by left.
Qed.

(** The address of a socket, unless it is longer than any address the class can hold. *)
Lemma get_address_spec i x n s :
  fds s !! i = Some x ->
  wp (get_address i n)
    (fun a s' => fds s' = fds s /\ address_wf a /\ sockaddr_of a = sock_name n (_fd x) (world s))
    (fun e s' => fds s' = fds s /\
      match e with
      | runtime_error t => t = str "invalid sockaddr size" /\ SOCKADDR_STORAGE < zlen (sock_name n (_fd x) (world s))
      | unix_error a _ => a = name_of_function n
      | _ => False
      end) s.
Proof.
  intros Hx. apply wp_bind, (wp_fd_num i x); [done|]. apply wp_bind, wp_call. intros [[[ret errno] a] size] w E.
  destruct (sys_getname _ _ _ _) as [[[[ret' errno'] a'] size'] w'] eqn:E'. injection E as -> -> -> -> ->.
  apply law_getname in E' as [Hint Hok]. apply wp_bind, wp_system_call; [done| |done].
  intros [-> ->]%Hok. set (nm := sock_name n (_fd x) (world s)) in *. pose proof (zlen_nonneg nm).
  pose proof (address_of_sockaddr_spec (overwrite raw_zero (take (Z.to_nat SOCKADDR_STORAGE) nm)) (zlen nm) ltac:(lia)) as Hspec.
  unfold wp, lift. destruct (address_of_sockaddr _ _) as [a|e|].
  - destruct Hspec as (Hwf & Hsize & Hb & Hle & _). split; [done|]. split; [done|]. rewrite Hb.
    unfold overwrite, zlen, SOCKADDR_STORAGE in *. rewrite Nat2Z.id, (firstn_all2 nm) by lia. by rewrite take_app_length.
  - destruct Hspec as [-> Hlt]. done.
  - destruct Hspec as [Hle Hlt]. unfold overwrite, zlen, SOCKADDR_STORAGE in *. rewrite length_app, length_take in Hlt. lia.
Qed.

(** [recv] on all its paths. *)
Lemma recv_spec `{Platform} i x mtu s :
  fds s !! i = Some x -> 0 <= mtu < 2 ^ 64 -> null_copy = true ->
  wp (recv i mtu)
    (fun d s' => exists src datagram, inbox (_fd x) (world s) = (src, datagram) :: inbox (_fd x) (world s') /\
      payload d = datagram /\ zlen datagram <= mtu /\ sockaddr_of (source_address d) = src /\
      address_wf (source_address d) /\ fds s' = <[i := counted_read x]> (fds s))
    (fun e s' => fds s' = fds s /\
      match e with
      | runtime_error t => t = str "recvfrom (oversized datagram)" /\
          exists src datagram, inbox (_fd x) (world s) = (src, datagram) :: inbox (_fd x) (world s') /\ mtu < zlen datagram
      | unix_error a _ => a = str "recvfrom" /\ inbox (_fd x) (world s') = inbox (_fd x) (world s)
      | length_error => string_max_size < mtu /\ s' = s
      | _ => False
      end) s.
Proof.
  intros Hx Hmtu Hnull. unfold wp, recv, address_of_null, recv_into. rewrite Hnull. cbn [Z.ltb Z.compare SOCKADDR_STORAGE Z.eqb andb].
  destruct (string_max_size <? mtu) eqn:Ex; [split; [done|]; split; [lia | done]|]. cbn [payload source_address].
  pose proof string_max_size_bound as Hmax. rewrite to_i64_small by lia.
  unfold mbind, os_bind, fd_num, mbind, os_bind. rewrite (get_fd_eq i x s Hx). unfold mret, os_ret, call_kernel.
  destruct (sys_recvfrom (_fd x) mtu MSG_TRUNC SOCKADDR_STORAGE (world s)) as [[[[[ret errno] data] src] fromlen] w'] eqn:Er.
  apply law_recvfrom in Er as (Hint & Hok & Hfail); [|lia]. destruct Hint as [Hret Herr].
  rewrite system_call_spec by done. destruct (0 <=? ret) eqn:E0; [|split; [done|]; split; [done | apply Hfail; lia]].
  destruct Hok as (datagram & Hin & -> & -> & -> & Hsrc); [lia|].
  destruct (mtu <? zlen datagram) eqn:Em; [split; [done|]; split; [done|]; exists src, datagram; split; [done | lia]|].
  rewrite (register_read_set i x {| fds := fds s; world := w' |} Hx). unfold lift, set_fd. cbn [fds world].
  pose proof (zlen_nonneg src).
  pose proof (address_of_sockaddr_spec (overwrite raw_zero src) (zlen src) ltac:(lia)) as Hspec.
  destruct (address_of_sockaddr _ _) as [a|e|]; cbn [payload source_address fds world].
  - destruct Hspec as (Hwf & _ & Hb & _). exists src, datagram. split; [done|].
    assert (take (Z.to_nat mtu) datagram = datagram) as -> by (apply firstn_all2; unfold zlen in *; lia).
    split; [apply resize_overwrite|]. split; [lia|]. split; [|done].
    rewrite Hb. unfold overwrite, zlen. by rewrite Nat2Z.id, take_app_length.
  - destruct Hspec as [_ Hlt]. lia.
  - destruct Hspec as [_ Hlt]. unfold overwrite in Hlt. rewrite zlen_app in Hlt. pose proof (zlen_nonneg (drop (length src) raw_zero)). lia.
Qed.

(** Where a copy from a null pointer is undefined, [recv(mtu)] is. *)
Lemma recv_null `{Platform} i mtu s : null_copy = false -> recv i mtu s = (Undefined, s).
Proof. intros Hnull. unfold recv, address_of_null. by rewrite Hnull. Qed.

(** Sending one datagram. *)
Lemma sendmsg_helper_spec fd dst buf s :
  zlen (views_concat buf) < 2 ^ 63 ->
  wp (sendmsg_helper fd dst buf)
    (fun _ s' => fds s' = fds s /\ outbox fd (world s') = outbox fd (world s) ++ [(dst, views_concat buf)])
    (fun e s' => fds s' = fds s /\
      match e with
      | unix_error a _ => a = str "sendmsg" /\ outbox fd (world s') = outbox fd (world s)
      | runtime_error t => t = str "datagram payload too big for sendmsg()" /\
          exists k, 0 <= k < zlen (views_concat buf) /\
            outbox fd (world s') = outbox fd (world s) ++ [(dst, take (Z.to_nat k) (views_concat buf))]
      | _ => False
      end) s.
Proof.
  intros Hb. pose proof (zlen_nonneg (views_concat buf)). apply wp_bind, wp_syscall. intros ret errno w E.
  apply law_sendmsg in E as (Hint & Hok & Hfail). rewrite iov_bytes_eq in Hok. split; [done|].
  split; [|intros Hr; split; [done|]; split; [done | by apply Hfail]]. intros Hr. destruct (Hok Hr) as [Hle Hout].
  rewrite view_size_eq by lia. rewrite to_u64_small by lia. destruct (ret =? zlen (views_concat buf)) eqn:Er; cbn [negb].
  - apply wp_ret. split; [done|]. simpl. rewrite Hout. do 3 f_equal. apply firstn_all2. unfold zlen in *. lia.
  - apply wp_throw. split; [done|]. split; [done|]. exists ret. split; [lia | done].
Qed.

(** [shutdown] counts a direction that is shut down as served. *)
Lemma shutdown_spec i x how s :
  fds s !! i = Some x ->
  wp (shutdown i how)
    (fun _ s' => sent (_fd x) (world s') = sent (_fd x) (world s) /\ SHUT_RD <= how <= SHUT_RDWR /\
      exists x', fds s' !! i = Some x' /\ same_fd x x' /\
        _read_count x' = (if how =? SHUT_WR then _read_count x else to_u32 (_read_count x + 1)) /\
        _write_count x' = (if how =? SHUT_RD then _write_count x else to_u32 (_write_count x + 1)))
    (fun e s' => fds s' = fds s /\
      match e with
      | unix_error a _ => a = str "shutdown"
      | runtime_error _ => ~ (SHUT_RD <= how <= SHUT_RDWR)
      | _ => False
      end) s.
Proof.
  intros Hx. apply wp_bind, (wp_fd_num i x); [done|]. apply wp_bind, wp_syscall. intros ret errno w E.
  apply law_shutdown in E as [Hint Hsent]. split; [done|]. split; [|done]. intros _.
  unfold SHUT_RD, SHUT_WR, SHUT_RDWR. destruct (how =? 0) eqn:E0; [|destruct (how =? 1) eqn:E1; [|destruct (how =? 2) eqn:E2]].
  - apply (wp_register_read i x); [done|]. split; [done|]. split; [lia|]. exists (counted_read x).
    split; [by eapply (set_fd_lookup (set_world s w))|]. replace (how =? 1) with false by lia. done.
  - apply (wp_register_write i x); [done|]. split; [done|]. split; [lia|]. exists (counted_write x).
    split; [by eapply (set_fd_lookup (set_world s w)) | done].
  - apply wp_bind, (wp_register_read i x); [done|].
    apply (wp_register_write i (counted_read x)); [by eapply (set_fd_lookup (set_world s w))|].
    split; [done|]. split; [lia|]. exists (counted_write (counted_read x)).
    split; [by eapply set_fd_lookup, (set_fd_lookup (set_world s w)) | done].
  - apply wp_throw. split; [done|]. lia.
Qed.
End laws.

(** * A network, which satisfies the laws *)

(** One byte stream comes in, in the pieces [reply], of which read(2) takes one at a time; [mail] are datagrams that wait; a new descriptor is
    [next_fd]; accept(2) gives sockets of kind [accepts]. *)
Record net := {
  next_fd : Z;
  opened : Z -> bool;
  kind : Z -> Z * Z;
  accepts : Z * Z;
  streams : Z -> bytes;
  reply : list bytes;
  mail : list (bytes * bytes);
  posted : Z -> list (bytes * bytes);
  own_name : bytes
}.

Definition update {A} (f : Z -> A) (k : Z) (v : A) : Z -> A := fun k' => if k' =? k then v else f k'.

Definition net_open (w : net) (k : Z * Z) : net :=
  {| next_fd := next_fd w + 1; opened := update (opened w) (next_fd w) true; kind := update (kind w) (next_fd w) k;
     accepts := accepts w; streams := update (streams w) (next_fd w) []; reply := reply w; mail := mail w;
     posted := posted w; own_name := own_name w |}.

(** At most [n] bytes of the next piece that is not empty, and what is left. *)
Fixpoint next_piece (n : nat) (l : list bytes) : bytes * list bytes :=
  match l with
  | [] => ([], [])
  | [] :: l' => next_piece n l'
  | c :: l' => (take n c, drop n c :: l')
  end.

Lemma next_piece_spec n l :
  let '(data, l') := next_piece n l in
  concat l = data ++ concat l' /\ (length data <= n)%nat /\ (data = [] -> n = O \/ concat l = []).
Proof.
  induction l as [|[|c p] l IH]; simpl; [auto with lia | done|]. rewrite app_assoc. split; [by rewrite (take_drop n (c :: p))|].
  split; [rewrite length_take; lia|]. destruct n; [auto | done].
Qed.

(** The next descriptor, if there is one. *)
Definition net_socket (k : Z * Z) (w : net) : Z * Z * net :=
  if (0 <=? next_fd w) && (next_fd w <? 1024) && negb (opened w (next_fd w)) then (next_fd w, 0, net_open w k)
  else (-1, 24, w).

#[global] Instance net_kernel : Kernel net := {|
  sys_read fd n w :=
    let '(data, rest) := next_piece (Z.to_nat n) (reply w) in
    (zlen data, 0, data,
     {| next_fd := next_fd w; opened := opened w; kind := kind w; accepts := accepts w; streams := streams w;
        reply := rest; mail := mail w; posted := posted w; own_name := own_name w |});
  sys_writev fd iov w :=
    let k := Z.min (2 ^ 31 - 1) (zlen (iov_bytes iov)) in
    (k, 0, {| next_fd := next_fd w; opened := opened w; kind := kind w; accepts := accepts w;
              streams := update (streams w) fd (streams w fd ++ take (Z.to_nat k) (iov_bytes iov));
              reply := reply w; mail := mail w; posted := posted w; own_name := own_name w |});
  sys_close fd w :=
    (0, 0, {| next_fd := next_fd w; opened := update (opened w) fd false; kind := kind w; accepts := accepts w;
              streams := streams w; reply := reply w; mail := mail w; posted := posted w; own_name := own_name w |});
  sys_getfl fd w := (-1, 9, w);
  sys_setfl fd fl w := (-1, 9, w)
|}.

#[global] Instance net_sockets : SocketKernel net := {|
  sys_socket domain type protocol w := net_socket (domain, type) w;
  sys_getsockopt fd level option len w :=
    (0, 0, (if option =? SO_DOMAIN then (kind w fd).1 else (kind w fd).2), len, w);
  sys_setsockopt fd level option value w := (0, 0, w);
  sys_getname n fd len w := (0, 0, take (Z.to_nat len) (own_name w), zlen (own_name w), w);
  sys_bind fd a w := (0, 0, w);
  sys_connect fd a w := (0, 0, w);
  sys_shutdown fd how w := (0, 0, w);
  sys_recvfrom fd size flags len w :=
    match mail w with
    | (src, data) :: rest =>
        if (zlen data <? 2 ^ 16) && (zlen src <=? len) then
          (zlen data, 0, take (Z.to_nat size) data, src, zlen src,
           {| next_fd := next_fd w; opened := opened w; kind := kind w; accepts := accepts w; streams := streams w;
              reply := reply w; mail := rest; posted := posted w; own_name := own_name w |})
        else (-1, 71, [], [], 0, w)
    | [] => (-1, 11, [], [], 0, w)
    end;
  sys_sendmsg fd name iov flags w :=
    if zlen (iov_bytes iov) <? 2 ^ 16 then
      (zlen (iov_bytes iov), 0,
       {| next_fd := next_fd w; opened := opened w; kind := kind w; accepts := accepts w; streams := streams w;
          reply := reply w; mail := mail w;
          posted := update (posted w) fd (posted w fd ++ [(name, iov_bytes iov)]); own_name := own_name w |})
    else (-1, 90, w);
  sys_listen fd backlog w := (0, 0, w);
  sys_accept fd w := net_socket (accepts w) w
|}.

#[global] Program Instance net_kernel_laws : KernelLaws net := {|
  incoming fd w := concat (reply w);
  sent fd w := streams w fd;
  status_flags fd w := 0;
  is_open fd w := opened w fd
|}.
Next Obligation.
  intros fd w ret errno w'. simpl. intros [= <- <- <-]. split; [unfold int_result; lia|]. cbn [opened]. unfold update.
  rewrite Z.eqb_refl. split; [done|]. intros fd' Hne. by replace (fd' =? fd) with false by lia.
Qed.
Next Obligation.
  intros fd n w ret errno data w' Hn. simpl. pose proof (next_piece_spec (Z.to_nat n) (reply w)) as Hp.
  destruct (next_piece _ _) as [d rest]. destruct Hp as (Hc & Hl & Hz). intros [= <- <- <- <-]. pose proof (zlen_nonneg d).
  split; [|split; [lia | done]]. intros _. unfold zlen in *. rewrite Nat2Z.id, Hc, take_app_length, drop_app_length.
  split; [lia|]. split; [done|]. split; [done|]. split; [done|]. intros Hz0. rewrite <- Hc.
  destruct Hz as [? | ?]; [destruct d; [done | simpl in *; lia] | left; lia | by right].
Qed.
Next Obligation.
  intros fd iov w ret errno w'. simpl. intros [= <- <- <-]. pose proof (zlen_nonneg (iov_bytes iov)). simpl.
  unfold update. rewrite Z.eqb_refl. split; [intros _; split; [lia|]; split; [lia | done] | lia].
Qed.
Next Obligation. intros fd w ret errno w'. simpl. intros [= <- <- <-]. split; [done|]. split; lia. Qed.
Next Obligation. intros fd fl w ret errno w'. simpl. intros [= <- <- <-]. split; lia. Qed.

Lemma net_socket_law k w ret errno w' :
  net_socket k w = (ret, errno, w') ->
  int_result ret errno /\ (forall fd', fd' <> ret -> opened w' fd' = opened w fd') /\
  (0 <= ret -> opened w ret = false /\ opened w' ret = true /\ streams w' ret = [] /\ kind w' ret = k) /\
  (ret < 0 -> opened w' ret = opened w ret).
Proof.
  unfold net_socket, int_result. case_if; intros [= <- <- <-].
  - split; [lia|]. unfold net_open, update. cbn [opened streams kind]. rewrite Z.eqb_refl. split; [|split; [|lia]].
    + intros fd' Hne. by replace (fd' =? next_fd w) with false by lia.
    + intros _. split; [|done]. destruct (opened w (next_fd w)); [rewrite andb_false_r in Hif; done | done].
  - split; [lia|]. split; [done|]. split; [lia | done].
Qed.

#[global] Program Instance net_laws : SocketLaws net := {|
  sock_domain fd w := (kind w fd).1;
  sock_type fd w := (kind w fd).2;
  sock_name n fd w := own_name w;
  inbox fd w := mail w;
  outbox fd w := posted w fd
|}.
Next Obligation.
  intros domain type w ret errno w' (Hi & Hf & Hok & Hbad)%net_socket_law. split; [done|]. split; [done|]. split; [|done].
  intros (H1 & H2 & H3 & H4)%Hok. cbn. by rewrite H4.
Qed.
Next Obligation.
  intros fd option w ret errno v len w' Ho. simpl. intros [= <- <- <- <- <-]. split; [unfold int_result; lia|]. done.
Qed.
Next Obligation. intros n fd len w ret errno a size w'. simpl. intros [= <- <- <- <- <-]. split; [unfold int_result; lia | done]. Qed.
Next Obligation. intros fd a w ret errno w'. simpl. intros [= <- <- <-]. split; [unfold int_result; lia | done]. Qed.
Next Obligation. intros fd how w ret errno w'. simpl. intros [= <- <- <-]. split; [unfold int_result; lia | done]. Qed.
Next Obligation.
  intros fd size w ret errno data src fromlen w' Hs. cbn. unfold int_result. destruct (mail w) as [|[src0 data0] rest] eqn:Em.
  { intros [= <- <- <- <- <- <-]. split; [lia|]. split; [lia | by rewrite Em]. }
  pose proof (zlen_nonneg data0). case_if; intros [= <- <- <- <- <- <-].
  - split; [lia|]. split; [|lia]. intros _. exists data0. cbn [mail]. split; [done|]. split; [done|]. split; [done|].
    split; [done | unfold SOCKADDR_STORAGE in *; lia].
  - split; [lia|]. split; [lia | by rewrite Em].
Qed.
Next Obligation.
  intros fd name iov w ret errno w'. cbn. unfold int_result. pose proof (zlen_nonneg (iov_bytes iov)).
  case_if; intros [= <- <- <-].
  - split; [lia|]. split; [|lia]. intros _. split; [lia|]. cbn [posted]. unfold update. rewrite Z.eqb_refl.
    unfold zlen. by rewrite Nat2Z.id, firstn_all.
  - split; [lia|]. split; [lia | done].
Qed.
Next Obligation.
  intros fd w ret errno w' (Hi & Hf & Hok & Hbad)%net_socket_law. split; [done|]. split; [done|]. split; [|done].
  intros (H1 & H2 & _)%Hok. done.
Qed.

#[global] Instance net_resolver : Resolver net := numeric_resolver.
#[global] Instance net_resolver_laws : ResolverLaws net := numeric_resolver_laws net.

Definition demo_net : net :=
  {| next_fd := 5; opened := fun fd => fd =? 3; kind := fun _ => (AF_INET, SOCK_DGRAM); accepts := (AF_INET, SOCK_STREAM);
     streams := fun _ => []; reply := [str "HTTP/1.1 "; str "200 OK"];
     mail := [(sockaddr_in AF_INET 53 (replicate 4 (byte.of_Z 8)), str "answer")];
     posted := fun _ => []; own_name := sockaddr_in AF_INET 1024 (replicate 4 (byte.of_Z 1)) |}.

(** A usual platform: 64-bit, with a library that copies nothing from a null pointer. *)
#[global] Program Instance usual_platform : Platform := {| null_copy := true; string_max_size := 2 ^ 62 |}.
Next Obligation. done. Qed.

Definition net_os : OS net := {| fds := [fresh_fd 3]; world := demo_net |}.

(** * Properties *)

(** C27: [TCPSocket::accept]. It returns a handle on a fresh wrapper of a descriptor that was
    not open before and is a TCP socket; if anything fails, in accept(2) or in the checks
    of the new socket, it throws and the descriptor that accept(2) made is closed again:
    no descriptor is leaked and none is lost. When it returns, the read on the listening
    socket has been counted. *)
Theorem accept_exact {W} `{SocketLaws W} i x (s : OS W) :
  fds s !! i = Some x ->
  wp (accept i)
    (fun j s' => j = length (fds s) /\ exists fd, fds s' = <[i := counted_read x]> (fds s) ++ [fresh_fd fd] /\
      is_open fd (world s) = false /\ is_open fd (world s') = true /\
      (forall fd', fd' <> fd -> is_open fd' (world s') = is_open fd' (world s)) /\
      sock_domain fd (world s') = AF_INET /\ sock_type fd (world s') = SOCK_STREAM)
    (fun e s' => forall fd', is_open fd' (world s') = is_open fd' (world s)) s.
Proof.
  intros Hx. apply wp_bind, (wp_register_read i x); [done|]. pose proof (set_fd_lookup s i x (counted_read x) Hx) as Hx1.
  apply wp_bind, (wp_fd_num i (counted_read x)); [done|]. apply wp_bind, wp_syscall. intros fd errno w E.
  apply law_accept in E as (Hint & Hother & Hok & Hbad). split; [done|]. split.
  2: { intros Hneg fd'. destruct (decide (fd' = fd)) as [->|]; [by apply Hbad | by apply Hother]. }
  intros Hfd. destruct (Hok Hfd) as [Hwas Hnow]. apply wp_bind, wp_new_fd; [done|].
  set (s1 := {| fds := _; world := _ |}). set (j := length _).
  assert (fds s1 !! j = Some (fresh_fd fd)) as Hj by apply new_fd_lookup.
  apply wp_on_throw. eapply wp_mono; [by apply (socket_of_fd_spec j)| |].
  - intros j' s' (-> & Hfds & Hd & Ht & Hop). split; [unfold j; simpl; apply length_insert|]. exists fd. rewrite Hfds.
    split; [done|]. split; [done|]. split; [by rewrite Hop|]. split; [intros fd' Hne; rewrite Hop; by apply Hother | done].
  - intros e s' (Hfds & Hop & _). eapply wp_mono; [apply (destroy_fd_spec j (fresh_fd fd)); [by rewrite Hfds | done] | | done].
    intros _ s2 [Hcl Hrest] fd'. destruct (decide (fd' = fd)) as [->|Hne]; [etrans; [exact Hcl | symmetry; exact Hwas]|].
    rewrite Hrest by done. rewrite Hop. by apply Hother.
Qed.

Lemma accept_exact_witness :
  wp (accept 0)
    (fun j s' => j = 1%nat /\ exists fd, fds s' = [counted_read (fresh_fd 3)] ++ [fresh_fd fd] /\
      is_open fd (world net_os) = false /\ is_open fd (world s') = true /\
      (forall fd', fd' <> fd -> is_open fd' (world s') = is_open fd' (world net_os)) /\
      sock_domain fd (world s') = AF_INET /\ sock_type fd (world s') = SOCK_STREAM)
    (fun e s' => forall fd', is_open fd' (world s') = is_open fd' (world net_os)) net_os.
Proof. apply (accept_exact 0 (fresh_fd 3) net_os). reflexivity. Defined.

(** C29: [UDPSocket::recv(mtu)], for any [mtu] of type [size_t]. Where the implementation
    leaves a copy of no bytes from a null pointer undefined, the call is undefined before it
    reads anything. Otherwise it returns the next datagram whole, with the address of its
    sender, and counts the read; or a datagram longer than [mtu] is an exception: it is
    taken from the socket and lost, and the read is not counted; or recvfrom(2) fails and
    nothing is consumed; or [mtu] is longer than any string and nothing has happened. There is
    no other outcome, but for the exhaustion of memory. *)
Theorem recv_exact {W} `{SocketLaws W} `{Platform} i x mtu (s : OS W) :
  fds s !! i = Some x -> 0 <= mtu < 2 ^ 64 ->
  (null_copy = false -> recv i mtu s = (Undefined, s)) /\
  (null_copy = true ->
  wp (recv i mtu)
    (fun d s' => exists src datagram, inbox (_fd x) (world s) = (src, datagram) :: inbox (_fd x) (world s') /\
      payload d = datagram /\ zlen datagram <= mtu /\ sockaddr_of (source_address d) = src /\
      address_wf (source_address d) /\ fds s' = <[i := counted_read x]> (fds s))
    (fun e s' => fds s' = fds s /\
      match e with
      | runtime_error t => t = str "recvfrom (oversized datagram)" /\
          exists src datagram, inbox (_fd x) (world s) = (src, datagram) :: inbox (_fd x) (world s') /\ mtu < zlen datagram
      | unix_error a _ => a = str "recvfrom" /\ inbox (_fd x) (world s') = inbox (_fd x) (world s)
      | length_error => string_max_size < mtu /\ s' = s
      | _ => False
      end) s).
Proof. intros Hx Hmtu. split; [apply recv_null | by apply recv_spec]. Qed.

Lemma recv_exact_witness :
  exists d s', recv 0 65536 net_os = (Ok d, s') /\ payload d = str "answer" /\ mail (world s') = [] /\
    address_wf (source_address d).
Proof.
  destruct (recv_exact 0 (fresh_fd 3) 65536 net_os eq_refl ltac:(lia)) as [_ Hr]. specialize (Hr eq_refl). unfold wp in Hr.
  destruct (recv 0 65536 net_os) as [[d|e|] s'] eqn:E; [|vm_compute in E; discriminate E|done].
  destruct Hr as (src & datagram & Hin & Hp & _ & _ & Hwf & _). exists d, s'. split; [reflexivity|].
  simpl in Hin. injection Hin as _ Hd Hm. rewrite Hp, <- Hd. split; [reflexivity|]. split; [by rewrite <- Hm | exact Hwf].
Defined.

(** C34: [UDPSocket::sendto] of fewer than [2 ^ 63] bytes. When it returns, exactly one
    datagram was sent, to the destination and with the whole payload whatever buffers it is
    in, and the write is counted. If sendmsg(2) fails nothing was sent; if the kernel took
    only a part, that part was sent as a datagram and the call throws. *)
Theorem sendto_exact {W} `{SocketLaws W} i x dst buf (s : OS W) :
  fds s !! i = Some x -> zlen (views_concat buf) < 2 ^ 63 ->
  wp (sendto i dst buf)
    (fun _ s' => outbox (_fd x) (world s') = outbox (_fd x) (world s) ++ [(sockaddr_of dst, views_concat buf)] /\
      fds s' = <[i := counted_write x]> (fds s))
    (fun e s' => fds s' = fds s /\
      match e with
      | unix_error a _ => a = str "sendmsg" /\ outbox (_fd x) (world s') = outbox (_fd x) (world s)
      | runtime_error t => t = str "datagram payload too big for sendmsg()" /\
          exists k, 0 <= k < zlen (views_concat buf) /\
            outbox (_fd x) (world s') = outbox (_fd x) (world s) ++ [(sockaddr_of dst, take (Z.to_nat k) (views_concat buf))]
      | _ => False
      end) s.
Proof.
  intros Hx Hb. apply wp_bind, (wp_fd_num i x); [done|]. apply wp_bind. eapply wp_mono; [by apply sendmsg_helper_spec | | done].
  intros _ s1 [Hf Hout]. apply (wp_register_write i x); [by rewrite Hf|]. simpl. by rewrite Hf.
Qed.

Lemma sendto_exact_witness :
  exists a s', from_ipv4_numeric 134744072 = Ok a /\ sendto 0 a (view_list_of (str "question")) net_os = (Ok tt, s') /\
    outbox 3 (world s') = [(sockaddr_of a, str "question")].
Proof.
  destruct (from_ipv4_numeric 134744072) as [a| |] eqn:Ea; [|discriminate Ea|discriminate Ea]. exists a.
  pose proof (sendto_exact 0 (fresh_fd 3) a (view_list_of (str "question")) net_os eq_refl ltac:(by_compute)) as Hr.
  unfold wp in Hr. destruct (sendto 0 a _ net_os) as [[[]|e|] s'] eqn:E; [|vm_compute in E; discriminate E|done].
  exists s'. split; [reflexivity|]. split; [reflexivity|]. destruct Hr as [Hout _]. exact Hout.
Defined.
