(* ===== verification/Tun.v ===== *)
(** TUN and TAP devices: util/tun.hh and util/tun.cc. The system calls open(2) and ioctl(2)
    are the class [TunKernel], with what they promise in [TunLaws]. *)
From S2P Require Import Prelude Text FileDescriptor OSLogic Address Socket.

(** * Definitions *)

Definition CLONEDEV : bytes := str "/dev/net/tun".
Definition O_RDWR : Z := 2.
Definition IFF_TUN : Z := 0x0001.
Definition IFF_TAP : Z := 0x0002.
Definition IFF_NO_PI : Z := 0x1000.
Definition IFNAMSIZ : Z := 16.

(** The fields of [struct ifreq] that are not zero. *)
Record ifreq := { ifr_name : bytes; ifr_flags : Z }.

(** [open(path, flags)] and [ioctl(fd, TUNSETIFF, &ifreq)]. *)
Class TunKernel (W : Type) := {
  sys_open : bytes -> Z -> W -> Z * Z * W;
  sys_tunsetiff : Z -> ifreq -> W -> Z * Z * W
}.

(** [strncpy(dst, src, n)]: the characters of [src] up to its end, at most [n], then zeros up
    to [n]; the rest of [dst] is kept. *)
Definition strncpy (dst src : bytes) (n : nat) : bytes :=
  let s := take n (c_string src) in
  overwrite dst (s ++ replicate (n - length s) (byte.of_Z 0)).

(** The request for the device [devname]. *)
Definition tun_request (devname : bytes) (is_tun : bool) : ifreq :=
  let name := strncpy (replicate (Z.to_nat IFNAMSIZ) (byte.of_Z 0)) devname (Z.to_nat (IFNAMSIZ - 1)) in
  {| ifr_name := <[Z.to_nat (IFNAMSIZ - 1) := byte.of_Z 0]> name;
     ifr_flags := Z.lor (if is_tun then IFF_TUN else IFF_TAP) IFF_NO_PI |}.

Section tun.
Context {W : Type} `{Kernel W} `{TunKernel W}.

(** [TunTapFD(devname, is_tun)]: the base object is destroyed when the body throws. *)
Definition tun_tap_fd (devname : bytes) (is_tun : bool) : os W nat :=
  fd ← syscall (str "open") (sys_open CLONEDEV O_RDWR);
  i ← new_fd fd;
  on_throw
    (fd ← fd_num i;
     _ ← syscall (str "ioctl") (sys_tunsetiff fd (tun_request devname is_tun));
     mret i)
    (destroy_fd i).

Definition tun_fd (devname : bytes) : os W nat := tun_tap_fd devname true.
Definition tap_fd (devname : bytes) : os W nat := tun_tap_fd devname false.
End tun.

(** * What the kernel promises *)

(** A name the kernel takes as it is: for an empty one, and for a format such as tun%d, it
    chooses a name. *)
Definition plain_name (name : bytes) : bool :=
  match name with [] => false | _ => forallb (fun c => negb (byte.unsigned c =? 37)) name end.

(** [attached] is the network device a descriptor stands for, with its flags. *)
Class TunLaws (W : Type) `{KernelLaws W} `{TunKernel W} := {
  attached : Z -> W -> option (bytes * Z);
  law_open path flags w ret errno w' :
    sys_open path flags w = (ret, errno, w') ->
    int_result ret errno /\ (forall fd', fd' <> ret -> is_open fd' w' = is_open fd' w) /\
    (0 <= ret -> is_open ret w = false /\ is_open ret w' = true) /\ (ret < 0 -> is_open ret w' = is_open ret w);
  law_tunsetiff fd r w ret errno w' :
    sys_tunsetiff fd r w = (ret, errno, w') ->
    int_result ret errno /\ (forall fd', is_open fd' w' = is_open fd' w) /\
    (0 <= ret -> exists name, attached fd w' = Some (name, ifr_flags r) /\
      (plain_name (c_string (ifr_name r)) = true -> name = c_string (ifr_name r)))
}.

(** * Lemmas *)

(** The name in the request ends in time: it is the name asked for, cut to fifteen
    characters. *)
Lemma tun_request_name devname is_tun :
  length (ifr_name (tun_request devname is_tun)) = 16%nat /\
  c_string (ifr_name (tun_request devname is_tun)) = take 15 (c_string devname).
Proof.
  unfold tun_request, strncpy, overwrite. cbn [ifr_name]. change (Z.to_nat (IFNAMSIZ - 1)) with 15%nat.
  change (Z.to_nat IFNAMSIZ) with 16%nat. set (s := take 15 (c_string devname)).
  assert (length s <= 15)%nat as Hs by (unfold s; rewrite length_take; lia).
  assert (Forall (fun c => byte.unsigned c <> 0) s) as Hn by (apply Forall_take, c_string_no_null).
  set (zs := replicate (15 - length s) (byte.of_Z 0)).
  assert (length (s ++ zs) = 15%nat) as Hl by (unfold zs; rewrite length_app, length_replicate; lia).
  rewrite Hl. change (drop 15 (replicate 16 (byte.of_Z 0))) with [byte.of_Z 0].
  rewrite <- Hl at 1 3. rewrite <- (Nat.add_0_r (length (s ++ zs))), insert_app_r. simpl (<[0%nat:=_]> _).
  split; [rewrite length_app, Hl; done|].
  destruct (decide (length s = 15%nat)) as [E|Hne].
  - unfold zs. rewrite E. simpl. rewrite app_nil_r. by apply c_string_app.
  - unfold zs. destruct (15 - length s)%nat as [|k] eqn:Ek; [lia|]. simpl. rewrite <- app_assoc. by apply c_string_app.
Qed.

(** A network with a TUN driver, which gives a descriptor the device asked for, or tun0 when
    it is to choose, and knows the device of each descriptor. *)
Definition tun_net : Type := net * (Z -> option (bytes * Z)).

(** A call on the network leaves the devices alone. *)
Definition on_net {A} (c : net -> A * net) (w : tun_net) : A * tun_net := let '(a, n) := c w.1 in (a, (n, w.2)).

#[global] Instance tun_net_kernel : Kernel tun_net := {|
  sys_read fd n := on_net (sys_read fd n); sys_writev fd iov := on_net (sys_writev fd iov); sys_close fd := on_net (sys_close fd);
  sys_getfl fd := on_net (sys_getfl fd); sys_setfl fd fl := on_net (sys_setfl fd fl)
|}.

#[global] Instance tun_net_driver : TunKernel tun_net := {|
  sys_open path flags := on_net (net_socket (0, 0));
  sys_tunsetiff fd r w :=
    let name := c_string (ifr_name r) in
    let device := if plain_name name then name else str "tun0" in
    if opened w.1 fd then (0, 0, (w.1, update w.2 fd (Some (device, ifr_flags r)))) else (-1, 9, w)
|}.

Lemma on_net_inv {A} (c : net -> A * net) w a w' : on_net c w = (a, w') -> c w.1 = (a, w'.1).
Proof. unfold on_net. destruct (c w.1) as [a0 n]. by intros [= <- <-]. Qed.

#[global] Program Instance tun_net_laws : KernelLaws tun_net := {|
  incoming fd w := incoming fd w.1; sent fd w := sent fd w.1; status_flags fd w := status_flags fd w.1;
  is_open fd w := is_open fd w.1
|}.
Next Obligation. intros fd w ret errno w' E%on_net_inv. by apply law_close. Qed.
Next Obligation. intros fd n w ret errno data w' Hn E%on_net_inv. by apply law_read. Qed.
Next Obligation. intros fd iov w ret errno w' E%on_net_inv. by apply law_writev. Qed.
Next Obligation. intros fd w ret errno w' E%on_net_inv. by apply law_getfl. Qed.
Next Obligation. intros fd fl w ret errno w' E%on_net_inv. by apply law_setfl in E. Qed.

#[global] Program Instance tun_net_tun_laws : TunLaws tun_net := {| attached fd w := w.2 fd |}.
Next Obligation. intros path flags w ret errno w' (Hi & Hf & Hok & Hb)%on_net_inv%net_socket_law. cbn. naive_solver. Qed.
Next Obligation.
  intros fd r w ret errno w'. cbn [sys_tunsetiff tun_net_driver]. unfold int_result. cbv zeta.
  destruct (opened w.1 fd); intros [= <- <- <-]; (split; [lia|]); (split; [done|]); [|lia]. intros _. cbn [snd]. unfold update.
  rewrite Z.eqb_refl. eexists. split; [done|]. by intros ->.
Qed.
Definition tun_os : OS tun_net := {| fds := [fresh_fd 3]; world := (demo_net, fun _ => None) |}.

(** * Properties *)

(** C35: opening a TUN or TAP device. The constructor returns a handle on a fresh descriptor
    that stands for a device in the mode asked for and without packet information, and no
    other descriptor is touched; its name is the given one, cut to fifteen characters, unless
    that is empty or a format, for which the kernel chooses. If a system call fails it
    throws and the descriptor it had opened is closed again. *)
Theorem tun_tap_fd_exact {W} `{TunLaws W} devname is_tun (s : OS W) :
  wp (tun_tap_fd devname is_tun)
    (fun i s' => i = length (fds s) /\ exists fd name, fds s' = fds s ++ [fresh_fd fd] /\
      is_open fd (world s) = false /\ is_open fd (world s') = true /\
      (forall fd', fd' <> fd -> is_open fd' (world s') = is_open fd' (world s)) /\
      attached fd (world s') = Some (name, if is_tun then 0x1001 else 0x1002) /\
      (plain_name (take 15 (c_string devname)) = true -> name = take 15 (c_string devname)))
    (fun e s' => (forall fd', is_open fd' (world s') = is_open fd' (world s)) /\
      match e with unix_error a _ => a = str "open" \/ a = str "ioctl" | _ => False end) s.
Proof.
  apply wp_bind, wp_syscall. intros fd errno w E. apply law_open in E as (Hint & Hother & Hok & Hbad).
  split; [done|]. split.
  2: { intros Hneg. split; [|by left]. intros fd'. destruct (decide (fd' = fd)) as [->|]; [by apply Hbad | by apply Hother]. }
  intros Hfd. destruct (Hok Hfd) as [Hwas Hnow]. apply wp_bind, wp_new_fd; [done|].
  set (s1 := {| fds := _; world := _ |}). set (i := length _).
  assert (fds s1 !! i = Some (fresh_fd fd)) as Hi by apply new_fd_lookup.
  apply wp_on_throw, wp_bind, (wp_fd_num i (fresh_fd fd)); [done|]. apply wp_bind, wp_syscall. intros ret errno' w' E.
  apply law_tunsetiff in E as (Hint' & Hop & Hatt). split; [done|]. split.
  - intros (name & Hname & Hplain)%Hatt. apply wp_ret. split; [done|]. exists fd, name. split; [done|]. split; [done|].
    split; [etrans; [apply Hop | done]|]. split; [intros fd' Hne; etrans; [apply Hop | by apply Hother]|].
    destruct (tun_request_name devname is_tun) as [_ Hreq]. rewrite Hreq in Hplain.
    split; [etrans; [exact Hname|]; by destruct is_tun | exact Hplain].
  - intros _. eapply wp_mono; [by apply (destroy_fd_spec i (fresh_fd fd))| |done].
    intros _ s2 [Hcl Hrest]. split; [|by right]. intros fd'.
    destruct (decide (fd' = fd)) as [->|Hne]; [etrans; [exact Hcl | symmetry; exact Hwas]|].
    rewrite Hrest by done. etrans; [apply Hop | by apply Hother].
Qed.

Lemma tun_tap_fd_exact_witness :
  exists s', tun_tap_fd (str "tun144-with-a-long-name") true tun_os = (Ok 1%nat, s') /\
    attached 5 (world s') = Some (str "tun144-with-a-l", 0x1001).
Proof.
  pose proof (tun_tap_fd_exact (str "tun144-with-a-long-name") true tun_os) as Hr. unfold wp in Hr.
  destruct (tun_tap_fd _ true tun_os) as [[i|e|] s'] eqn:E; [|vm_compute in E; discriminate E|done].
  destruct Hr as (-> & fd & name & Hf & _ & _ & _ & Ha & Hn). exists s'. split; [reflexivity|].
  assert (fd = 5) as -> by (vm_compute in E; injection E as E; subst s'; by injection Hf).
  rewrite Ha, Hn by reflexivity. reflexivity.
Defined.
