(* ===== verification/Webget.v ===== *)
(** The program apps/webget.cc. Its computations are in the monad [io]: they act on the
    system as those of [os] do, and produce the characters written to [std::cout], which
    stay written when an exception follows. *)
From S2P Require Import Prelude Text Buffer FileDescriptor OSLogic Address Socket Util.

(** * The monad *)

Definition io (W A : Type) : Type := OS W -> outcome A * bytes * OS W.

#[global] Instance io_ret W : MRet (io W) := fun A a s => (Ok a, [], s).
#[global] Instance io_bind W : MBind (io W) := fun A B f c s =>
  match c s with
  | (Ok a, out, s') => let '(r, out', s'') := f a s' in (r, out ++ out', s'')
  | (Throw e, out, s') => (Throw e, out, s')
  | (Undefined, out, s') => (Undefined, out, s')
  end.

Section io.
Context {W : Type} `{Kernel W}.

Definition run {A} (c : os W A) : io W A := fun s => let '(r, s') := c s in (r, [], s').

(** [std::cout << text]. *)
Definition print (text : bytes) : io W unit := fun s => (Ok tt, text, s).

(** The scope of the local object that owns the descriptor [i]: its destructor runs whether
    the block ends or throws. *)
Definition scope {A} (i : nat) (c : io W A) : io W A := fun s =>
  let '(r, out, s') := c s in
  match destroy_fd i s' with
  | (Undefined, s'') => (Undefined, out, s'')
  | (_, s'') => (r, out, s'')
  end.
End io.

(** * The program *)

Definition crlf : bytes := [byte.of_Z 13; byte.of_Z 10].

Section webget.
Context {W : Type} `{Kernel W} `{SocketKernel W} `{Resolver W}.

(** [while (!sock1.eof()) { string acc = sock1.read(); cout << acc; }]; [Undefined] stands for
    the lack of fuel. *)
Fixpoint print_all (fuel : nat) (i : nat) : io W unit :=
  match fuel with
  | O => fun s => (Undefined, [], s)
  | S fuel' =>
      eof ← run (fd_eof i);
      if eof : bool then mret tt
      else
        acc ← run (fd_read i npos);
        _ ← print acc;
        print_all fuel' i
  end.

(** The statements of [get_URL] up to the loop, on the socket [sock1]. *)
Definition send_request (sock1 : nat) (host path : bytes) : os W unit :=
  addr ← address_of_name host (str "http");
  _ ← connect sock1 addr;
  _ ← write_string sock1 (str "GET " ++ path ++ str " " ++ str "HTTP/1.1" ++ crlf) true;
  _ ← write_string sock1 (str "Host: " ++ host ++ crlf) true;
  _ ← write_c_string sock1 (str "Connection:  close" ++ crlf ++ crlf) true;
  shutdown sock1 SHUT_WR.

Definition get_URL (fuel : nat) (host path : bytes) : io W unit :=
  sock1 ← run tcp_socket;
  scope sock1
    (_ ← run (send_request sock1 host path);
     _ ← print_all fuel sock1;
     run (close sock1)).

Inductive exit_status := Aborted | Exited (code : Z).

Definition EXIT_SUCCESS : Z := 0.
Definition EXIT_FAILURE : Z := 1.

Definition usage (argv0 : bytes) : bytes :=
  str "Usage: " ++ argv0 ++ str " HOST PATH" ++ [byte.of_Z 10] ++
  [byte.of_Z 9] ++ str "Example: " ++ argv0 ++ str " stanford.edu /class/cs144" ++ [byte.of_Z 10].

(** [main], with the texts of exceptions: how the program ends, and what it writes to its
    output and its error output. *)
Definition main (what : exception -> bytes) (fuel : nat) (argv : list bytes) (s : OS W)
  : outcome exit_status * bytes * bytes * OS W :=
  match argv with
  | [] => (Ok Aborted, [], [], s)
  | [argv0; host; path] =>
      match get_URL fuel host path s with
      | (Ok _, out, s') => (Ok (Exited EXIT_SUCCESS), out, [], s')
      | (Throw e, out, s') => (Ok (Exited EXIT_FAILURE), out, what e ++ [byte.of_Z 10], s')
      | (Undefined, out, s') => (Undefined, out, [], s')
      end
  | argv0 :: _ => (Ok (Exited EXIT_FAILURE), [], usage argv0, s)
  end.
End webget.

(** The request, as the server receives it. *)
Definition request (host path : bytes) : bytes :=
  str "GET " ++ path ++ str " HTTP/1.1" ++ crlf ++ str "Host: " ++ host ++ crlf ++
  str "Connection:  close" ++ crlf ++ crlf.

(** The calls of [get_URL] before its loop. *)
Definition request_phase {W} `{Kernel W} `{SocketKernel W} `{Resolver W} (host path : bytes) : os W nat :=
  i ← tcp_socket;
  _ ← send_request i host path;
  mret i.

(** Resolving a name writes nothing to a descriptor that is open. *)
Class QuietResolver (W : Type) `{KernelLaws W} `{Resolver W} : Prop :=
  law_quiet node service hints w r w' fd :
    getaddrinfo node service hints w = (r, w') -> is_open fd w = true -> sent fd w' = sent fd w.

(** * Lemmas *)

Section io_lemmas.
Context {W : Type}.

Lemma run_eq {A} (c : os W A) s r s' : c s = (r, s') -> run c s = (r, [], s').
Proof. unfold run. by intros ->. Qed.

Lemma io_bind_throw {A B} (c : io W A) (f : A -> io W B) s e out s' :
  c s = (Throw e, out, s') -> (c ≫= f) s = (Throw e, out, s').
Proof. unfold mbind, io_bind. by intros ->. Qed.

(** A computation without output, and then another. *)
Lemma io_bind_ok {A B} (c : io W A) (f : A -> io W B) s a s1 r out s2 :
  c s = (Ok a, [], s1) -> f a s1 = (r, out, s2) -> (c ≫= f) s = (r, out, s2).
Proof. unfold mbind, io_bind. intros -> ->. done. Qed.
End io_lemmas.

Section laws.
Context {W : Type} `{SocketLaws W} `{!Resolver W} `{!ResolverLaws W} `{!QuietResolver W}.
Implicit Types s : OS W.

(** A new TCP socket. *)
Lemma tcp_socket_spec s :
  wp tcp_socket
    (fun i s' => i = length (fds s) /\ exists fd, fds s' = fds s ++ [fresh_fd fd] /\ sent fd (world s') = [] /\
      is_open fd (world s') = true)
    (fun e s' => fds s' = fds s) s.
Proof.
  apply wp_bind, wp_syscall. intros fd errno w E. apply law_socket in E as (Hint & _ & Hok & _).
  split; [done|]. split; [|done]. intros Hfd. apply wp_new_fd; [done|]. split; [done|]. exists fd.
  destruct (Hok Hfd) as (_ & ? & ? & _). done.
Qed.

Lemma wp_connect i x a Q E s :
  fds s !! i = Some x ->
  (forall s', fds s' = fds s -> sent (_fd x) (world s') = sent (_fd x) (world s) -> Q tt s') ->
  (forall e s', fds s' = fds s -> E e s') -> wp (connect i a) Q E s.
Proof.
  intros Hx HQ HE. apply wp_bind, (wp_fd_num i x); [done|]. apply wp_bind, wp_syscall. intros ret errno w Ec.
  apply law_connect in Ec as [Hint Hs]. split; [done|]. split; [intros _; by apply HQ | intros _; by apply HE].
Qed.

(** The request of [get_URL]: on return it was sent whole and nothing else; the wrapper is
    that of the socket in any case. *)
Lemma send_request_spec i x host path s :
  fds s !! i = Some x -> zlen host + zlen path < 2 ^ 62 ->
  sent (_fd x) (world s) = [] -> is_open (_fd x) (world s) = true ->
  wp (send_request i host path)
    (fun _ s' => (exists x', fds s' !! i = Some x' /\ same_fd x x') /\ sent (_fd x) (world s') = request host path)
    (fun e s' => exists x', fds s' !! i = Some x' /\ same_fd x x') s.
Proof.
  intros Hx Hz Hsent Hopen. pose proof (zlen_nonneg host). pose proof (zlen_nonneg path).
  apply wp_bind. eapply wp_mono; [apply address_resolved_spec | |].
  2: { intros e s' [Hf _]. exists x. rewrite Hf. done. }
  intros a s1 (_ & Hf1 & (r & Eg) & _). apply (law_quiet _ _ _ _ _ _ (_fd x)) in Eg; [|done].
  apply wp_bind, (wp_connect i x); [by rewrite Hf1| |intros e s' Hf; exists x; by rewrite Hf, Hf1].
  intros s2 Hf2 Hs2. rewrite <- Hf1, <- Hf2 in Hx. rewrite Eg, Hsent in Hs2.
  apply wp_bind, (wp_write_string i x); [done | rewrite !zlen_app; unfold zlen in *; simpl; lia | | by eauto].
  intros s3 x3 Hx3 Hx03 Hs3. pose proof Hx03 as (Hf3 & _ & _).
  apply wp_bind, (wp_write_string i x3); [done | rewrite !zlen_app; unfold zlen in *; simpl; lia | |].
  2: { intros e s' x' ? ?. exists x'. split; [done | by etrans]. }
  intros s4 x4 Hx4 Hx34 Hs4. rewrite Hf3 in Hs4. assert (same_fd x x4) as H04 by (by etrans). pose proof H04 as (Hf4 & _ & _).
  apply wp_bind, (wp_write_string i x4); [done | by_compute | |].
  2: { intros e s' x' ? ?. exists x'. split; [done | by etrans]. }
  intros s5 x5 Hx5 Hx45 Hs5. rewrite Hf4 in Hs5. assert (same_fd x x5) as H05 by (by etrans). pose proof H05 as (Hf5 & _ & _).
  eapply wp_mono; [by apply (shutdown_spec i x5)| |].
  - rewrite Hf5. intros _ s6 (Hs6 & _ & x6 & Hx6 & Hx56 & _). split; [exists x6; split; [done | by etrans]|].
    rewrite Hs6, Hs5, Hs4, Hs3, Hs2. unfold request. rewrite <- !app_assoc. done.
  - intros e s6 [Hf6 _]. exists x5. by rewrite Hf6.
Qed.

(** The loop: with fuel for the bytes that are left it ends, having printed them all or
    stopped at an error. *)
Lemma print_all_spec fuel : forall i x s,
  fds s !! i = Some x -> _eof x = false -> (S (length (incoming (_fd x) (world s))) < fuel)%nat ->
  exists r out s' x', print_all fuel i s = (r, out, s') /\ fds s' !! i = Some x' /\ _fd x' = _fd x /\
    _closed x' = _closed x /\
    match r with
    | Ok _ => out = incoming (_fd x) (world s)
    | Throw (unix_error _ _) => out `prefix_of` incoming (_fd x) (world s)
    | _ => False
    end.
Proof.
  induction fuel as [|fuel IH]; intros i x s Hx He Hfuel; [lia|]. cbn [print_all]. unfold mbind, io_bind, run.
  unfold fd_eof at 1. unfold mbind, os_bind. rewrite (get_fd_eq i x s Hx). cbn [mret os_ret]. unfold mret, os_ret. rewrite He.
  assert (exists r s', fd_read i npos s = (r, s')) as (r & s1 & Er) by (by destruct (fd_read i npos s); eauto).
  pose proof (fd_read_spec i x s npos Hx ltac:(by_compute)) as (r0 & s0 & Er0 & Hr & _).
  rewrite Er in Er0. injection Er0 as <- <-. rewrite Er. destruct r as [data|e|]; [| |done].
  2: { eexists _, [], s1, x. split; [done|]. destruct e; try done. destruct Hr as [-> _].
       split; [done|]. split; [done|]. split; [done|]. apply prefix_nil. }
  destruct Hr as (Hin & _ & Hend & x1 & Hx1 & Hf1 & Hc1 & He1 & _). cbn [print].
  change (0 <? npos) with true in He1. rewrite He in He1. cbn [orb andb] in He1.
  destruct data as [|c data].
  - specialize (Hend ltac:(done) eq_refl). destruct fuel as [|fuel]; [lia|].
    exists (Ok tt), [], s1, x1. split; [|done]. cbn [print_all]. unfold mbind, io_bind, run, fd_eof, mbind, os_bind.
    rewrite (get_fd_eq i x1 s1 Hx1). unfold mret, os_ret. by rewrite He1.
  - rewrite zlen_cons in He1. pose proof (zlen_nonneg data). replace (1 + zlen data =? 0) with false in He1 by lia.
    destruct (IH i x1 s1 Hx1 He1) as (r & out & s' & x' & E & Hx' & Hf' & Hc' & Hr).
    { rewrite Hf1. rewrite Hin in Hfuel. rewrite length_app in Hfuel. simpl in Hfuel. lia. }
    exists r, ((c :: data) ++ out), s', x'. rewrite E. split; [done|]. split; [done|]. split; [congruence|]. split; [congruence|].
    rewrite Hin, <- Hf1. destruct r as [u|e|]; [by rewrite Hr| |done]. destruct e; try done. by apply prefix_app.
Qed.
(** Leaving the scope of the socket: its descriptor is closed, whether or not [close] was
    called before, and the result stands. *)
Lemma scope_closes {A} i (c : io W A) s r out s1 x :
  c s = (r, out, s1) -> r <> Undefined -> fds s1 !! i = Some x ->
  (_closed x = true -> is_open (_fd x) (world s1) = false) ->
  exists s', scope i c s = (r, out, s') /\ is_open (_fd x) (world s') = false.
Proof.
  intros E Hr Hx Hcl. unfold scope. rewrite E. destruct (_closed x) eqn:Ec.
  - rewrite (destroy_fd_closed i x s1 Hx Ec). exists s1. split; [done | by apply Hcl].
  - pose proof (destroy_fd_spec i x s1 Hx Ec) as Hd. unfold wp in Hd.
    destruct (destroy_fd i s1) as [[u|e|] s2]; [|done|done]. exists s2. by destruct Hd.
Qed.

(** The end of [get_URL]: the loop, [close], and the destructor. *)
Lemma print_and_close fuel i x s :
  fds s !! i = Some x -> _eof x = false -> _closed x = false -> (S (length (incoming (_fd x) (world s))) < fuel)%nat ->
  exists r out s' x', (_ ← print_all fuel i; run (close i)) s = (r, out, s') /\ fds s' !! i = Some x' /\ _fd x' = _fd x /\
    (_closed x' = true -> is_open (_fd x) (world s') = false) /\
    match r with
    | Ok _ => out = incoming (_fd x) (world s)
    | Throw (unix_error _ _) => out `prefix_of` incoming (_fd x) (world s)
    | _ => False
    end.
Proof.
  intros Hx He Hc Hfuel. destruct (print_all_spec fuel i x s Hx He Hfuel) as (r & out & s1 & x1 & E & Hx1 & Hf1 & Hc1 & Hr).
  unfold mbind, io_bind. rewrite E. destruct r as [u|e|]; [| |done].
  2: { exists (Throw e), out, s1, x1. split; [done|]. split; [done|]. split; [done|]. split; [congruence | done]. }
  assert (wp (close i)
    (fun _ s' => exists x', fds s' !! i = Some x' /\ _fd x' = _fd x /\ is_open (_fd x) (world s') = false)
    (fun e s' => (exists a n, e = unix_error a n) /\ fds s' = fds s1) s1) as Hclose.
  { apply (wp_close i x1); [done | |]; rewrite Hf1.
    - intros s' x' ? ? _ _ ? _. exists x'. done.
    - intros e s' ? _ _. split; [by eexists _, _ | done]. }
  unfold wp in Hclose. unfold run. destruct (close i s1) as [[v|e|] s2]; [| |done].
  - destruct Hclose as (x' & Hx' & Hf' & Hcl). exists (Ok v), (out ++ []), s2, x'. rewrite app_nil_r. done.
  - destruct Hclose as [(a & n & ->) Hfds]. exists (Throw (unix_error a n)), (out ++ []), s2, x1. rewrite app_nil_r, Hfds.
    split; [done|]. split; [done|]. split; [done|]. split; [congruence|]. by rewrite Hr.
Qed.
(** [get_URL] on all its paths. *)
Lemma get_URL_spec fuel host path s :
  zlen host + zlen path < 2 ^ 62 ->
  match request_phase host path s with
  | (Ok i, s1) => exists x, fds s1 !! i = Some x /\ sent (_fd x) (world s1) = request host path /\
      ((S (length (incoming (_fd x) (world s1))) < fuel)%nat ->
       exists r out s', get_URL fuel host path s = (r, out, s') /\ is_open (_fd x) (world s') = false /\
         match r with
         | Ok _ => out = incoming (_fd x) (world s1)
         | Throw (unix_error _ _) => out `prefix_of` incoming (_fd x) (world s1)
         | _ => False
         end)
  | (Throw e, s1) => exists s', get_URL fuel host path s = (Throw e, [], s') /\
      forall x, fds s1 !! length (fds s) = Some x -> is_open (_fd x) (world s') = false
  | (Undefined, _) => False
  end.
Proof.
  intros Hz. pose proof (tcp_socket_spec s) as Hsock. unfold wp in Hsock.
  unfold request_phase, mbind, os_bind. destruct (tcp_socket s) as [[i|e|] s1] eqn:E1; [| |done].
  2: { exists s1. split; [by apply io_bind_throw, run_eq|]. intros x Hx. rewrite Hsock in Hx. apply lookup_lt_Some in Hx. lia. }
  destruct Hsock as (-> & fd & Hfds & Hsent & Hopen). set (i := length (fds s)) in *.
  assert (fds s1 !! i = Some (fresh_fd fd)) as Hx by (rewrite Hfds; apply new_fd_lookup).
  pose proof (send_request_spec i _ host path s1 Hx Hz Hsent Hopen) as Hreq. unfold wp in Hreq.
  destruct (send_request i host path s1) as [[[]|e|] s2] eqn:E2; [| |done].
  - destruct Hreq as [(x & Hx2 & Hf & He & Hc) Hs]. exists x. split; [done|]. split; [by rewrite Hf|]. intros Hfuel.
    destruct (print_and_close fuel i x s2 Hx2 He Hc Hfuel) as (r & out & s3 & x3 & E3 & Hx3 & Hf3 & Hc3 & Hr).
    apply (io_bind_ok _ (fun _ => _ ← print_all fuel i; run (close i)) _ _ _ _ _ _ (run_eq _ _ _ _ E2)) in E3. rewrite <- Hf3 in Hc3.
    destruct (scope_closes i _ s1 r out s3 x3 E3) as (s' & E4 & Hcl); [by intros -> | done | done |].
    exists r, out, s'. split; [exact (io_bind_ok _ _ _ _ _ _ _ _ (run_eq _ _ _ _ E1) E4)|]. by rewrite <- Hf3 at 1.
  - destruct Hreq as (x & Hx2 & Hf & He & Hc).
    destruct (scope_closes i _ s1 (Throw e) [] s2 x
      (io_bind_throw _ (fun _ => _ ← print_all fuel i; run (close i)) _ _ _ _ (run_eq _ _ _ _ E2)))
      as (s' & E4 & Hcl); [done | done | by rewrite Hc |].
    exists s'. split; [exact (io_bind_ok _ _ _ _ _ _ _ _ (run_eq _ _ _ _ E1) E4)|].
    intros x' Hx'. rewrite Hx2 in Hx'. by injection Hx' as <-.
Qed.
End laws.

#[global] Instance net_quiet : QuietResolver net.
Proof.
  intros node service hints w r w' fd E _. cbn in E. unfold numeric_getaddrinfo in E.
  destruct (read_quad node), (read_port service); by injection E as <- <-.
Qed.

(** The text of exceptions on a system whose messages are the numbers of the errors. *)
Definition demo_what : exception -> bytes := what to_string to_string (fun _ => str "std::exception").

(** A host that does not resolve: the message says what was tried. *)
Lemma main_unresolved :
  (main demo_what 9 [str "webget"; str "nowhere"; str "/"] net_os).1 =
    (Ok (Exited EXIT_FAILURE), [], str "getaddrinfo(nowhere, http): -2" ++ [byte.of_Z 10]).
Proof. vm_compute. reflexivity. Qed.

(** * Properties *)

(** C26: the program webget with a host and a path, on any network that keeps the contracts of
    its system calls. If the socket cannot be made, the name resolved, the connection made
    or the request sent, it prints nothing, reports the exception and exits with failure.
    Otherwise exactly the request for the path and host was sent and the loop terminates:
    either the program exits with success and its output is everything the server sent
    from then on, or a system call failed, which is reported, and a prefix was printed. On
    every path the socket is closed at the end. *)
Theorem webget_exact {W} `{SocketLaws W} `{!Resolver W} `{!ResolverLaws W} `{!QuietResolver W}
    what fuel argv0 host path (s : OS W) :
  zlen host + zlen path < 2 ^ 62 ->
  match request_phase host path s with
  | (Ok i, s1) => exists x, fds s1 !! i = Some x /\ sent (_fd x) (world s1) = request host path /\
      ((S (length (incoming (_fd x) (world s1))) < fuel)%nat ->
       exists code out err s', main what fuel [argv0; host; path] s = (Ok (Exited code), out, err, s') /\
         is_open (_fd x) (world s') = false /\
         (code = EXIT_SUCCESS /\ out = incoming (_fd x) (world s1) /\ err = [] \/
          code = EXIT_FAILURE /\ out `prefix_of` incoming (_fd x) (world s1) /\
            exists attempt errno, err = what (unix_error attempt errno) ++ [byte.of_Z 10]))
  | (Throw e, s1) => exists s',
      main what fuel [argv0; host; path] s = (Ok (Exited EXIT_FAILURE), [], what e ++ [byte.of_Z 10], s') /\
      forall x, fds s1 !! length (fds s) = Some x -> is_open (_fd x) (world s') = false
  | (Undefined, _) => False
  end.
Proof.
  intros Hz. pose proof (get_URL_spec fuel host path s Hz) as Hspec. cbn [main].
  destruct (request_phase host path s) as [[i|e|] s1]; [| |done].
  - destruct Hspec as (x & Hx & Hs & Hrun). exists x. split; [done|]. split; [done|]. intros Hfuel.
    destruct (Hrun Hfuel) as (r & out & s' & -> & Hcl & Hr). destruct r as [u|e|]; [| |done].
    + exists EXIT_SUCCESS, out, [], s'. split; [done|]. split; [done|]. by left.
    + destruct e as [| | | |a n|]; try done. eexists EXIT_FAILURE, out, _, s'. split; [done|]. split; [done|].
      right. split; [done|]. split; [done|]. by exists a, n.
  - destruct Hspec as (s' & -> & Hcl). by exists s'.
Qed.

Lemma webget_exact_witness :
  exists s', main demo_what 17 [str "webget"; str "10.0.0.1"; str "/hello"] net_os
    = (Ok (Exited EXIT_SUCCESS), str "HTTP/1.1 200 OK", [], s') /\ is_open 5 (world s') = false.
Proof.
  pose proof (webget_exact demo_what 17 (str "webget") (str "10.0.0.1") (str "/hello") net_os ltac:(by_compute)) as Hw.
  destruct (request_phase (str "10.0.0.1") (str "/hello") net_os) as [[i|e|] s1] eqn:E; [|exfalso; vm_compute in E; discriminate E|done].
  assert (i = 1%nat /\ (_fd <$> fds s1 !! 1%nat) = Some 5 /\ incoming 5 (world s1) = str "HTTP/1.1 200 OK") as (-> & Hfd & Hrep)
    by (vm_compute in E; injection E as <- <-; vm_compute; done).
  destruct Hw as (x & Hx & Hsent & Hrun). rewrite Hx in Hfd. injection Hfd as Hfd.
  destruct Hrun as (code & out & err & s' & Em & Hcl & Hr); [rewrite Hfd, Hrep; vm_compute; lia|].
  exists s'. rewrite Hfd in Hcl. split; [|exact Hcl].
  assert ((main demo_what 17 [str "webget"; str "10.0.0.1"; str "/hello"] net_os).1.1.1 = Ok (Exited EXIT_SUCCESS)) as Hok
    by (vm_compute; reflexivity).
  rewrite Em in Hok. injection Hok as ->. destruct Hr as [(_ & -> & ->)|(Hbad & _)]; [|discriminate Hbad].
  rewrite Em. by rewrite Hfd, Hrep.
Defined.
