(* ===== verification/Doctests.v ===== *)
(** The programs of doctests/: parser_dt.cc, address_dt.cc and socket_dt.cc with the examples
    they include. They use the codecs, addresses and sockets of the library together, so
    this file composes Parser.v, Address.v, FileDescriptor.v and Socket.v. *)
From S2P Require Import Prelude Text Buffer Parser FileDescriptor OSLogic Handles Address Socket Webget.

(** * parser_dt *)

(** doctests/parser_example.cc: values are serialized after a byte that is already there,
    and parsed again. *)
Definition val1 : Z := 0xdeadbeef.
Definition val2 : Z := 0xc0c0.
Definition val3 : Z := 0xff.
Definition val4 : Z := 0x0c05fefe.

Definition parser_buffer : bytes :=
  let buffer := [byte.of_Z 0x32] in
  let buffer := unparse_u32 buffer val1 in
  let buffer := unparse_u16 buffer val2 in
  let buffer := unparse_u8 buffer val3 in
  unparse_u32 buffer val4.

Definition parser_example : outcome unit :=
  let p := net_parser (buffer_of parser_buffer) in
  '(out0, p) ← Parser.u8 p;
  '(out1, p) ← Parser.u32 p;
  '(out2, p) ← Parser.u16 p;
  '(out3, p) ← Parser.u8 p;
  '(out4, p) ← Parser.u32 p;
  if negb (out0 =? 0x32) || negb (out1 =? val1) || negb (out2 =? val2) || negb (out3 =? val3) || negb (out4 =? val4)
  then Throw (runtime_error (str "bad parse")) else Ok tt.

(** [try { ... } catch (...) { return EXIT_FAILURE; } return EXIT_SUCCESS;]. *)
Definition exit_code (r : outcome unit) : outcome Z :=
  match r with Ok _ => Ok EXIT_SUCCESS | Throw _ => Ok EXIT_FAILURE | Undefined => Undefined end.

Definition parser_dt : outcome Z := exit_code parser_example.

Example parser_dt_succeeds : parser_dt = Ok EXIT_SUCCESS.
Proof. reflexivity. Qed.

(** * address_dt *)

Section address_dt.
Context {W : Type} `{Resolver W}.

(** The three examples and the check that follows them. *)
Definition address_examples : os W unit :=
  google_webserver ← address_of_name (str "www.google.com") (str "https");
  a_dns_server ← address_of_ip (str "18.71.0.151") 53;
  a_dns_server_numeric ← lift (ipv4_numeric a_dns_server);
  port ← lift (address_port google_webserver);
  if negb (port =? 443) || negb (a_dns_server_numeric =? 0x12470097)
  then lift (Throw (runtime_error (str "unexpected value"))) else mret tt.

(** [main]: its exit code and its error output. *)
Definition address_dt (what : exception -> bytes) (s : OS W) : outcome Z * bytes * OS W :=
  match address_examples s with
  | (Ok _, s') => (Ok EXIT_SUCCESS, [], s')
  | (Throw e, s') =>
      (Ok EXIT_FAILURE, str "This test requires Internet access and working DNS." ++ [byte.of_Z 10] ++
                        str "Error: " ++ what e ++ [byte.of_Z 10], s')
  | (Undefined, s') => (Undefined, [], s')
  end.
End address_dt.

Lemma stoi_defined s : stoi s <> Undefined.
Proof. unfold stoi, read_int. destruct (split_sign _) as [negative s']. repeat case_match; done. Qed.

(** The program has no undefined behaviour, and its exit code is success exactly if the web
    server's name resolves to an address whose port is 443: everything about the numeric
    address is certain. *)
Lemma address_dt_exact {W} `{ResolverLaws W} what (s : OS W) :
  exists code err s', address_dt what s = (Ok code, err, s') /\ (code = EXIT_SUCCESS \/ code = EXIT_FAILURE) /\
    (code = EXIT_SUCCESS <-> exists a s1, address_of_name (str "www.google.com") (str "https") s = (Ok a, s1) /\
      address_port a = Ok 443).
Proof.
  unfold address_dt, address_examples. unfold mbind, os_bind at 1.
  pose proof (address_resolved_spec (str "www.google.com") (str "https") (make_hints AI_ALL AF_INET) s) as Hname.
  unfold wp in Hname. fold (address_of_name (W := W) (str "www.google.com") (str "https")) in Hname.
  destruct (address_of_name _ _ s) as [[a|e|] s1]; [| |done].
  2: { eexists EXIT_FAILURE, _, s1. split; [done|]. split; [by right|]. split; [done|]. by intros (? & ? & ? & _). }
  pose proof (address_of_ip_spec [byte.of_Z 18; byte.of_Z 71; byte.of_Z 0; byte.of_Z 151] 53 s1 eq_refl ltac:(lia)) as Hip.
  change (dotted _) with (str "18.71.0.151") in Hip. unfold wp in Hip. unfold mbind, os_bind.
  destruct (address_of_ip (str "18.71.0.151") 53 s1) as [[b|e|] s2]; [|done|done].
  destruct Hip as (_ & _ & _ & _ & Hnum). unfold lift. rewrite Hnum.
  assert (address_port a <> Undefined) as Hdef.
  { unfold address_port, ip_port. destruct (getnameinfo _ _ _ _ _) as [[ret ip] port]. case_if; [done|].
    destruct (stoi _) eqn:Es; [done | done | by apply stoi_defined in Es]. }
  change (quad_value _) with 0x12470097. destruct (address_port a) as [port|e|] eqn:Ep; [| |done].
  - cbn [Z.eqb Pos.eqb negb]. destruct (port =? 443) eqn:E443; cbn [negb orb].
    + eexists EXIT_SUCCESS, _, s2. split; [done|]. split; [by left|]. split; [|done]. intros _. exists a, s1.
      split; [done|]. rewrite Ep. f_equal. lia.
    + eexists EXIT_FAILURE, _, s2. split; [done|]. split; [by right|]. split; [done|]. intros (? & ? & [= <- <-] & Ha).
      rewrite Ep in Ha. injection Ha as ->. done.
  - eexists EXIT_FAILURE, _, s2. split; [done|]. split; [by right|]. split; [done|]. intros (? & ? & [= <- <-] & Ha). congruence.
Qed.

(** * socket_dt *)

(** socketpair(2): the result, [errno] and the two descriptors. *)
Class Socketpair (W : Type) := sys_socketpair : Z -> Z -> Z -> W -> Z * Z * (Z * Z) * W.

Section socket_dt.
Context {W : Type} `{Kernel W} `{SocketKernel W} `{Socketpair W} `{Resolver W} `{Platform}.

(** The scope of a local object that owns the descriptor [i]. *)
Definition local {A} (i : nat) (c : os W A) : os W A := fun s =>
  let '(r, s1) := c s in
  match destroy_fd i s1 with
  | (Undefined, s2) => (Undefined, s2)
  | (_, s2) => (r, s2)
  end.

(** [((std::random_device()()) % 50000) + 1025] as [uint16_t]. *)
Definition portnum (random : Z) : Z := to_u16 (random mod 50000 + 1025).

Definition hi_there : bytes := str "hi there".
Definition hi_yourself : bytes := str "hi yourself".

Definition check_received (recvd recvd2 : bytes) : os W unit :=
  if negb (bool_decide (recvd = hi_there)) || negb (bool_decide (recvd2 = hi_yourself))
  then lift (Throw (runtime_error (str "wrong data received"))) else mret tt.

(** doctests/socket_example_1.cc: datagrams. *)
Definition socket_example_1 (random : Z) : os W unit :=
  let port := portnum random in
  sock1 ← udp_socket;
  local sock1 (
    a ← address_of_ip (str "127.0.0.1") port;
    _ ← Socket.bind sock1 a;
    sock2 ← udp_socket;
    local sock2 (
      a ← address_of_ip (str "127.0.0.1") port;
      _ ← sendto sock2 a (view_list_of (c_string hi_there));
      recvd ← recv sock1 65536;
      _ ← connect sock1 (source_address recvd);
      _ ← send sock1 (view_list_of (c_string hi_yourself));
      recvd2 ← recv sock2 65536;
      check_received (payload recvd) (payload recvd2))).

(** doctests/socket_example_2.cc: a TCP connection. *)
Definition socket_example_2 (random : Z) : os W unit :=
  let port := portnum random in
  sock1 ← tcp_socket;
  local sock1 (
    a ← address_of_ip (str "127.0.0.1") port;
    _ ← Socket.bind sock1 a;
    _ ← listen sock1 1;
    sock2 ← tcp_socket;
    local sock2 (
      a ← address_of_ip (str "127.0.0.1") port;
      _ ← connect sock2 a;
      sock3 ← accept sock1;
      local sock3 (
        _ ← write_c_string sock3 hi_there true;
        recvd ← fd_read sock2 npos;
        _ ← write_c_string sock2 hi_yourself true;
        recvd2 ← fd_read sock3 npos;
        _ ← close sock1;
        _ ← close sock2;
        _ ← shutdown sock3 SHUT_RDWR;
        check_received recvd recvd2))).

(** [LocalStreamSocket name{FileDescriptor(fd)}]. *)
Definition local_socket (fd : Z) : os W nat :=
  i ← new_fd fd;
  on_throw (local_stream_socket_of_fd i) (destroy_fd i).

(** doctests/socket_example_3.cc: a pair of local sockets. *)
Definition socket_example_3 : os W unit :=
  '(ret, errno, (fd0, fd1)) ← call_kernel (fun w =>
     let '(ret, errno, p, w') := sys_socketpair AF_UNIX SOCK_STREAM 0 w in ((ret, errno, p), w'));
  _ ← lift (SystemCall (str "socketpair") ret errno 0);
  pipe1 ← local_socket fd0;
  local pipe1 (
    pipe2 ← local_socket fd1;
    local pipe2 (
      _ ← write_c_string pipe1 hi_there true;
      recvd ← fd_read pipe2 npos;
      _ ← write_c_string pipe2 hi_yourself true;
      recvd2 ← fd_read pipe1 npos;
      check_received recvd recvd2)).

(** [main]; [random1] and [random2] are what the random device returns. *)
Definition socket_dt (random1 random2 : Z) (s : OS W) : outcome Z * OS W :=
  let '(r, s') := (_ ← socket_example_1 random1; _ ← socket_example_2 random2; socket_example_3) s in
  (exit_code r, s').
End socket_dt.

(** On a scripted network the programs end with success. *)
#[global] Instance net_socketpair : Socketpair net := fun domain type protocol w =>
  let '(fd0, e0, w0) := net_socket (domain, type) w in
  let '(fd1, e1, w1) := net_socket (domain, type) w0 in
  if (0 <=? fd0) && (0 <=? fd1) then (0, 0, (fd0, fd1), w1) else (-1, 24, (0, 0), w).

Definition script : net :=
  {| next_fd := 5; opened := fun fd => fd =? 3; kind := fun _ => (AF_INET, SOCK_STREAM); accepts := (AF_INET, SOCK_STREAM);
     streams := fun _ => []; reply := [hi_there; hi_yourself; hi_there; hi_yourself];
     mail := [(sockaddr_in AF_INET 53 (replicate 4 (byte.of_Z 8)), hi_there);
              (sockaddr_in AF_INET 53 (replicate 4 (byte.of_Z 8)), hi_yourself)];
     posted := fun _ => []; own_name := sockaddr_in AF_INET 1024 (replicate 4 (byte.of_Z 1)) |}.

Definition script_os : OS net := {| fds := [fresh_fd 3]; world := script |}.

Example socket_dt_succeeds : (socket_dt 1 2 script_os).1 = Ok EXIT_SUCCESS.
Proof. vm_compute. reflexivity. Qed.

(** * What the kernel promises *)

(** The calls that neither open nor close descriptors; socketpair(2) opens two sockets of the
    domain and type asked for. *)
Class SocketFrame (W : Type) `{SocketLaws W} `{Resolver W} `{Socketpair W} : Prop := {
  frame_bind fd a w f : is_open f (sys_bind fd a w).2 = is_open f w;
  frame_connect fd a w f : is_open f (sys_connect fd a w).2 = is_open f w;
  frame_shutdown fd how w f : is_open f (sys_shutdown fd how w).2 = is_open f w;
  frame_listen fd backlog w f : is_open f (sys_listen fd backlog w).2 = is_open f w;
  frame_recvfrom fd size flags len w f : is_open f (sys_recvfrom fd size flags len w).2 = is_open f w;
  frame_sendmsg fd name iov flags w f : is_open f (sys_sendmsg fd name iov flags w).2 = is_open f w;
  frame_getaddrinfo node service hints w f : is_open f (getaddrinfo node service hints w).2 = is_open f w;
  law_socketpair domain type w ret errno fd0 fd1 w' :
    sys_socketpair domain type 0 w = (ret, errno, (fd0, fd1), w') ->
    int_result ret errno /\ (ret < 0 -> forall f, is_open f w' = is_open f w) /\
    (0 <= ret -> 0 <= fd0 /\ 0 <= fd1 /\ fd0 <> fd1 /\ is_open fd0 w = false /\ is_open fd1 w = false /\
      is_open fd0 w' = true /\ is_open fd1 w' = true /\
      (forall f, f <> fd0 -> f <> fd1 -> is_open f w' = is_open f w) /\
      sock_domain fd0 w' = domain /\ sock_type fd0 w' = type /\ sock_domain fd1 w' = domain /\ sock_type fd1 w' = type)
}.

(** * Scopes *)

Section scopes.
Context {W : Type} `{KernelLaws W}.
Implicit Types (s : OS W) (L : list (nat * option Z)).

(** The local objects of a program: the wrapper of each, and its descriptor unless the
    program has closed it. [was] and [now] are the open descriptors before the program and
    now, [l] the wrappers now; [strict] says that no call of [close] has failed. *)
Definition entry (strict : bool) (was now : Z -> bool) (l : list FDWrapper) (e : nat * option Z) : Prop :=
  exists x, l !! e.1 = Some x /\
    match e.2 with
    | Some f => _fd x = f /\ _closed x = false /\ was f = false /\ (strict = true -> now f = true)
    | None => _closed x = true
    end.

Definition descriptors L : list Z := omap snd L.

(** The descriptors of the local objects are the only ones that differ from those before
    the program. *)
Record owned (strict : bool) (was now : Z -> bool) (l : list FDWrapper) L : Prop := {
  own_other f : f ∉ descriptors L -> now f = was f;
  own_entries : Forall (entry strict was now l) L;
  own_distinct : NoDup (descriptors L);
  own_objects : NoDup (map fst L)
}.

Definition owns (strict : bool) (was : Z -> bool) L s : Prop :=
  owned strict was (fun f => is_open f (world s)) (fds s) L.

Lemma owns_start s : owns true (fun f => is_open f (world s)) [] s.
Proof. constructor; [done | constructor..]. Qed.

Lemma owns_end strict was s : owns strict was [] s -> forall f, is_open f (world s) = was f.
Proof. intros [Ho _ _ _] f. apply Ho, not_elem_of_nil. Qed.

Lemma owns_weaken strict was L s : owns strict was L s -> owns false was L s.
Proof.
  intros [Ho He Hd Hi]. constructor; try done. eapply Forall_impl; [exact He|]. intros [i [f|]] (x & Hx & Hr); exists x; [|done].
  destruct Hr as (? & ? & ? & _). by repeat split.
Qed.

(** What leaves the descriptors alone leaves the local objects alone. *)
Lemma owns_keeps strict was L s s' : owns strict was L s -> keeps s s' -> owns strict was L s'.
Proof.
  intros [Ho He Hd Hi] [Hf Hop]. constructor; try done; [intros f Hin; by rewrite Hop; auto|].
  eapply Forall_impl; [exact He|]. intros [i o] (x & Hx & Hr). simpl in *.
  assert ((owner <$> fds s') !! i = Some (owner x)) as Hl by (by rewrite Hf, list_lookup_fmap, Hx).
  rewrite list_lookup_fmap in Hl. destruct (fds s' !! i) as [x'|] eqn:Hx'; [|done]. simpl in Hl. injection Hl as Hfd Hc.
  exists x'. split; [done|]. destruct o as [f|]; simpl in *; [|congruence]. destruct Hr as (? & ? & ? & ?).
  rewrite Hop. split; [congruence|]. split; [congruence|]. auto.
Qed.

(** A postcondition may use that it is one. *)
Lemma wp_result {A} (c : os W A) (Q : A -> OS W -> Prop) (E : exception -> OS W -> Prop) s :
  wp c (fun a s' => c s = (Ok a, s') -> Q a s') (fun e s' => c s = (Throw e, s') -> E e s') s -> wp c Q E s.
Proof. unfold wp. destruct (c s) as [[a|e|] s']; auto. Qed.

(** A call that is defined on the objects [hs] and leaves the descriptors alone. *)
Definition safe (hs : list nat) {A} (c : os W A) : Prop :=
  (forall s, Forall (fun i => is_Some (fds s !! i)) hs -> wp c (fun _ _ => True) (fun _ _ => True) s) /\ quiet c.

Lemma wp_safe {A} hs (c : os W A) was L s (Q : A -> OS W -> Prop) (E : exception -> OS W -> Prop) :
  safe hs c -> owns true was L s -> Forall (fun i => i ∈ map fst L) hs ->
  (forall a s', owns true was L s' -> Q a s') -> (forall e s', owns false was L s' -> E e s') -> wp c Q E s.
Proof.
  intros [Hwp Hq] Hown Hin HQ HE. assert (Forall (fun i => is_Some (fds s !! i)) hs) as Hex.
  { eapply Forall_impl; [exact Hin|]. intros i [e [-> He]]%list_elem_of_fmap. destruct Hown as [_ Hall _ _].
    rewrite Forall_forall in Hall. destruct (Hall e He) as (x & Hx & _). by exists x. }
  specialize (Hwp s Hex). specialize (Hq s). unfold wp in *. destruct (c s) as [[a|e|] s']; [| |done].
  - by eapply HQ, owns_keeps.
  - by eapply HE, owns_weaken, owns_keeps.
Qed.

(** The end of an object. *)
Lemma owns_destroy strict was i o L s :
  owns strict was ((i, o) :: L) s -> exists s', destroy_fd i s = (Ok tt, s') /\ owns strict was L s'.
Proof.
  intros [Ho He Hd Hi]. apply Forall_cons_1 in He as [(x & Hx & Hr) He]. simpl in *.
  apply NoDup_cons in Hi as [Hni Hi]. destruct (destroy_fd_exact i x s Hx) as (s' & E & Hother & Hcl).
  exists s'. split; [done|].
  assert (forall e, e ∈ L -> fds s' !! e.1 = fds s !! e.1) as Hsame.
  { intros e Hin. apply Hother. intros Heq. apply Hni. rewrite <- Heq. apply list_elem_of_fmap. by exists e. }
  destruct o as [f|]; simpl in *.
  - destruct Hr as (<- & Hc & Hwas & _). rewrite Hc in Hcl. destruct Hcl as [Hnow Hrest]. apply NoDup_cons in Hd as [Hnd Hd].
    constructor; try done.
    + intros f' Hf'. destruct (decide (f' = _fd x)) as [->|Hne]; [by rewrite Hwas|]. rewrite Hrest by done. apply Ho.
      by rewrite not_elem_of_cons.
    + rewrite Forall_forall in He |- *. intros [j p] Hin. destruct (He _ Hin) as (y & Hy & Hry).
      exists y. rewrite Hsame by done. split; [done|]. destruct p as [g|]; simpl in *; [|done].
      destruct Hry as (? & ? & ? & Hst). split; [done|]. split; [done|]. split; [done|]. intros Hs. rewrite Hrest; [auto|].
      intros ->. apply Hnd. unfold descriptors. rewrite list_elem_of_omap. by exists (j, Some (_fd x)).
  - rewrite Hr in Hcl. subst s'. by constructor.
Qed.

Lemma owns_perm strict was L L' s : L ≡ₚ L' -> owns strict was L s -> owns strict was L' s.
Proof.
  intros Hp [Ho He Hd Hi]. assert (descriptors L ≡ₚ descriptors L') as Hpd by (unfold descriptors; by rewrite Hp).
  constructor; [intros f; rewrite <- Hpd; apply Ho | by rewrite <- Hp | by rewrite <- Hpd | by rewrite <- Hp].
Qed.

(** The objects [hs] are there, with or without their descriptors. *)
Definition objects (strict : bool) (was : Z -> bool) (hs : list nat) s : Prop :=
  exists L, map fst L ≡ₚ hs /\ owns strict was L s.

Lemma objects_weaken strict was hs s : objects strict was hs s -> objects false was hs s.
Proof. intros (L & Hl & Hown). exists L. split; [done | by eapply owns_weaken]. Qed.

Lemma objects_end strict was s : objects strict was [] s -> forall f, is_open f (world s) = was f.
Proof. intros (L & Hl & Hown). apply Permutation_nil_r in Hl. destruct L; [|done]. by apply (owns_end strict). Qed.

(** The rule for scopes: the object is gone after its scope. *)
Lemma wp_local {A} i (c : os W A) was hs s (Q : A -> OS W -> Prop) (E : exception -> OS W -> Prop) :
  wp c (fun _ s' => objects true was (i :: hs) s') (fun _ s' => objects false was (i :: hs) s') s ->
  (forall a s', objects true was hs s' -> Q a s') -> (forall e s', objects false was hs s' -> E e s') ->
  wp (local i c) Q E s.
Proof.
  intros Hc HQ HE. assert (forall strict s1, objects strict was (i :: hs) s1 -> exists s2, destroy_fd i s1 = (Ok tt, s2) /\ objects strict was hs s2) as Hend.
  { intros strict s1 (L0 & Hl & Hown).
    assert (exists o L, L0 ≡ₚ (i, o) :: L /\ map fst L ≡ₚ hs) as (o & L & Hp & Hl').
    { assert (i ∈ map fst L0) as ([j o] & -> & (L & Hp)%elem_of_Permutation)%list_elem_of_fmap by (rewrite Hl; left).
      exists o, L. split; [done|]. rewrite Hp in Hl. simpl in Hl. by apply Permutation_cons_inv in Hl. }
    apply (owns_perm _ _ _ _ _ Hp) in Hown. destruct (owns_destroy _ _ _ _ _ _ Hown) as (s2 & E2 & Hown2). exists s2. split; [done|]. by exists L. }
  unfold wp, local in *. destruct (c s) as [[a|e|] s1]; [| |done]; destruct (Hend _ _ Hc) as (s2 & -> & Hobj); auto.
Qed.

(** The entries of other objects, when only the object [i] and its descriptor change. *)
Lemma other_entries strict was now now' l l' i f L :
  Forall (entry true was now l) L -> f ∉ descriptors L -> i ∉ map fst L ->
  (forall g, g <> f -> now' g = now g) -> (forall j, j <> i -> l' !! j = l !! j) ->
  Forall (entry strict was now' l') L.
Proof.
  intros He Hf Hi Hop Hfds. rewrite Forall_forall in He |- *. intros [j o] Hin. destruct (He _ Hin) as (y & Hy & Hr).
  exists y. simpl in *. rewrite Hfds by (intros ->; apply Hi, list_elem_of_fmap; by exists (i, o)). split; [done|].
  destruct o as [g|]; [|done]. destruct Hr as (? & ? & ? & Hst). split; [done|]. split; [done|]. split; [done|]. intros _.
  rewrite Hop; [auto|]. intros ->. apply Hf, list_elem_of_omap. by exists (j, Some f).
Qed.

(** [close] on an object that has its descriptor. *)
Lemma wp_close_object i f was L s (Q : unit -> OS W -> Prop) (E : exception -> OS W -> Prop) :
  owns true was ((i, Some f) :: L) s -> (forall u s', owns true was ((i, None) :: L) s' -> Q u s') ->
  (forall e s', owns false was ((i, Some f) :: L) s' -> E e s') -> wp (close i) Q E s.
Proof.
  intros Hown HQ HE. destruct Hown as [Ho He Hd Hi]. apply Forall_cons_1 in He as [(x & Hx & <- & Hc & Hwas & _) He]. simpl in Hx, Hwas.
  pose proof Hd as [Hnd Hd']%NoDup_cons. pose proof Hi as [Hni _]%NoDup_cons. simpl in Hni.
  destruct (close_cases i x s Hx) as (r & s' & Ec & Hnow & Hrest & Hr). unfold wp. rewrite Ec.
  assert (forall g, g ∉ descriptors L -> is_open g (world s') = was g) as Hother.
  { intros g Hg. destruct (decide (g = _fd x)) as [->|Hne]; [by rewrite Hnow|]. rewrite Hrest by done. apply Ho. simpl.
    rewrite not_elem_of_cons. auto. }
  destruct r as [u|e|]; [| |done].
  - destruct Hr as (x' & Hf & Hc'). apply HQ. constructor; try done. constructor.
    + exists x'. split; [simpl; rewrite Hf; apply list_lookup_insert_eq; by eapply lookup_lt_Some | done].
    + eapply other_entries; try done. intros j Hj. rewrite Hf. by apply list_lookup_insert_ne.
  - apply HE. constructor; try done.
    + intros g Hg. apply Hother. simpl in Hg. rewrite not_elem_of_cons in Hg. tauto.
    + constructor; [exists x; simpl; rewrite Hr; by repeat split|]. eapply other_entries; try done. intros j _. by rewrite Hr.
Qed.

(** A new object with a descriptor that was not open before. *)
Lemma owned_new was now now' l L f :
  owned true was now l L -> now f = false -> now' f = true -> (forall g, g <> f -> now' g = now g) ->
  owned true was now' (l ++ [fresh_fd f]) ((length l, Some f) :: L).
Proof.
  intros [Ho He Hd Hi] Hwas Hnow Hrest.
  assert (forall e, e ∈ L -> (l ++ [fresh_fd f]) !! e.1 = l !! e.1 /\ e.1 <> length l) as Hold.
  { intros e Hin. rewrite Forall_forall in He. destruct (He e Hin) as (x & Hx & _). apply lookup_lt_Some in Hx as Hlt.
    rewrite lookup_app_l by done. split; [done | lia]. }
  assert (f ∉ descriptors L) as Hnf.
  { intros Hin. apply list_elem_of_omap in Hin as (e & Hin & Hsome). rewrite Forall_forall in He.
    destruct (He e Hin) as (x & _ & Hr). rewrite Hsome in Hr. destruct Hr as (_ & _ & _ & Hst). rewrite Hst in Hwas; done. }
  constructor; simpl.
  - intros g Hg. rewrite not_elem_of_cons in Hg. destruct Hg as [Hne Hg]. rewrite Hrest by done. by apply Ho.
  - constructor; [exists (fresh_fd f); simpl; rewrite new_fd_lookup; rewrite <- (Ho f Hnf); by repeat split|].
    rewrite Forall_forall in He |- *. intros e Hin. destruct (He e Hin) as (x & Hx & Hr). exists x. destruct (Hold e Hin) as [-> _].
    split; [done|]. destruct e as [j [g|]]; [|done]. simpl in *. destruct Hr as (? & ? & ? & Hst). split; [done|]. split; [done|].
    split; [done|]. intros _. rewrite Hrest; [auto|]. intros ->. apply Hnf, list_elem_of_omap. by exists (j, Some f).
  - by apply NoDup_cons.
  - apply NoDup_cons. split; [|done]. intros [e [Heq Hin]]%list_elem_of_fmap. by destruct (Hold e Hin).
Qed.

(** A descriptor that is open already, and is to be left alone. *)
Definition opened_too (f : Z) (was : Z -> bool) : Z -> bool := fun g => (g =? f) || was g.

Lemma owned_out was now l L f :
  owned true was now l L -> now f = false -> (f ∉ descriptors L) /\ was f = false.
Proof.
  intros [Ho He _ _] Hnow. assert (f ∉ descriptors L) as Hnf.
  { intros (e & Hin & Hsome)%list_elem_of_omap. rewrite Forall_forall in He.
    destruct (He e Hin) as (x & _ & Hr). rewrite Hsome in Hr. destruct Hr as (_ & _ & _ & Hst). rewrite Hst in Hnow; done. }
  split; [done|]. by rewrite <- Ho.
Qed.

Lemma owned_other was now l L f :
  owned true was now l L -> f ∉ descriptors L -> owned true (opened_too f was) (opened_too f now) l L.
Proof.
  intros [Ho He Hd Hi] Hnf. constructor; try done.
  - intros g Hg. unfold opened_too. by rewrite Ho.
  - rewrite Forall_forall in He |- *. intros e Hin. destruct (He e Hin) as (x & Hx & Hr). exists x. split; [done|].
    destruct e as [j [g|]]; [|done]. simpl in *. destruct Hr as (? & ? & Hw & Hst). unfold opened_too.
    assert (g <> f) as Hne by (intros ->; apply Hnf, list_elem_of_omap; by exists (j, Some f)).
    replace (g =? f) with false by lia. done.
Qed.

(** An object takes over the descriptor that was left alone. *)
Lemma owned_adopt was now l L f :
  owned true (opened_too f was) now l L -> f ∉ descriptors L -> was f = false ->
  owned true was now (l ++ [fresh_fd f]) ((length l, Some f) :: L).
Proof.
  intros [Ho He Hd Hi] Hnf Hwas. assert (forall e, e ∈ L -> (l ++ [fresh_fd f]) !! e.1 = l !! e.1 /\ e.1 <> length l) as Hold.
  { intros e Hin. rewrite Forall_forall in He. destruct (He e Hin) as (x & Hx & _). apply lookup_lt_Some in Hx as Hlt.
    rewrite lookup_app_l by done. split; [done | lia]. }
  unfold opened_too in *. constructor; simpl.
  - intros g Hg. rewrite not_elem_of_cons in Hg. destruct Hg as [Hne Hg]. rewrite Ho by done. by replace (g =? f) with false by lia.
  - constructor; [exists (fresh_fd f); simpl; rewrite new_fd_lookup, Ho, Z.eqb_refl by done; by repeat split|].
    rewrite Forall_forall in He |- *. intros e Hin. destruct (He e Hin) as (x & Hx & Hr). exists x. destruct (Hold e Hin) as [-> _].
    split; [done|]. destruct e as [j [g|]]; [|done]. simpl in *. destruct Hr as (? & ? & Hw & Hst). split; [done|]. split; [done|].
    split; [|done]. by apply orb_false_iff in Hw as [_ ?].
  - by apply NoDup_cons.
  - apply NoDup_cons. split; [|done]. intros [e [Heq Hin]]%list_elem_of_fmap. by destruct (Hold e Hin).
Qed.

Lemma owns_new was L s s' f :
  owns true was L s -> is_open f (world s) = false -> is_open f (world s') = true ->
  (forall g, g <> f -> is_open g (world s') = is_open g (world s)) -> fds s' = fds s ++ [fresh_fd f] ->
  owns true was ((length (fds s), Some f) :: L) s'.
Proof. unfold owns. intros Hown Hwas Hnow Hrest ->. by eapply owned_new. Qed.
End scopes.

(** * The calls of the examples *)

Section calls.
Context {W : Type} `{SocketFrame W} `{!KernelFrame W} `{!ResolverLaws W} `{Platform}.
Implicit Types (s : OS W) (L : list (nat * option Z)).

Lemma quiet_syscall attempt (c : W -> (Z * Z) * W) :
  (forall w f, is_open f (c w).2 = is_open f w) -> quiet (syscall attempt c).
Proof. intros Hc. unfold syscall. apply quiet_bind; [by apply quiet_call|]. intros [ret errno]. apply quiet_lift. Qed.

Lemma syscall_defined attempt (c : W -> (Z * Z) * W) s : wp (syscall attempt c) (fun _ _ => True) (fun _ _ => True) s.
Proof.
  unfold wp, syscall, mbind, os_bind, call_kernel, lift. destruct (c (world s)) as [[ret errno] w].
  unfold SystemCall. by destruct (_ || _).
Qed.

(** A method that makes one system call on its descriptor. *)
Lemma safe_method {A} i attempt (c : Z -> W -> (Z * Z) * W) (k : Z -> os W A) :
  (forall fd w f, is_open f (c fd w).2 = is_open f w) -> (forall r, safe [i] (k r)) ->
  safe [i] (fd ← fd_num i; r ← syscall attempt (c fd); k r).
Proof.
  intros Hc Hk. split.
  - intros s Hin. pose proof Hin as [[x Hx] _]%Forall_cons_1. apply wp_bind, (wp_fd_num i x); [done|]. apply wp_bind.
    pose proof (syscall_defined attempt (c (_fd x)) s) as Hd. pose proof (quiet_syscall attempt (c (_fd x)) (Hc _) s) as [Hf _].
    unfold wp in *. destruct (syscall attempt _ s) as [[r|e|] s1]; [|done|done]. apply Hk.
    constructor; [|constructor]. apply lookup_lt_is_Some. apply (f_equal length) in Hf. rewrite !length_fmap in Hf. simpl in Hf.
    rewrite Hf. by eapply lookup_lt_Some.
  - apply quiet_bind; [apply quiet_num|]. intros fd. apply quiet_bind; [by apply quiet_syscall|]. intros r. apply Hk.
Qed.

Lemma safe_mret {A} hs (a : A) : safe hs (mret a).
Proof. split; [done | apply quiet_ret]. Qed.

Lemma safe_lift_throw {A} hs e : safe hs (lift (A := A) (Throw e)).
Proof. split; [done | apply quiet_lift]. Qed.

Lemma safe_register_read i : safe [i] (register_read i).
Proof. split; [|apply quiet_register_read]. intros s [[x Hx] _]%Forall_cons_1. by apply (wp_register_read i x). Qed.

Lemma safe_register_write i : safe [i] (register_write i).
Proof. split; [|apply quiet_register_write]. intros s [[x Hx] _]%Forall_cons_1. by apply (wp_register_write i x). Qed.

Lemma safe_socket_bind i a : safe [i] (Socket.bind i a).
Proof. apply (safe_method i _ (fun fd => sys_bind fd (sockaddr_of a))); [intros; apply frame_bind | intros; apply safe_mret]. Qed.

Lemma safe_connect i a : safe [i] (connect i a).
Proof. apply (safe_method i _ (fun fd => sys_connect fd (sockaddr_of a))); [intros; apply frame_connect | intros; apply safe_mret]. Qed.

Lemma safe_listen i n : safe [i] (listen i n).
Proof. apply (safe_method i _ (fun fd => sys_listen fd n)); [intros; apply frame_listen | intros; apply safe_mret]. Qed.

Lemma safe_shutdown i how : safe [i] (shutdown i how).
Proof.
  apply (safe_method i _ (fun fd => sys_shutdown fd how)); [intros; apply frame_shutdown|]. intros r.
  repeat case_if; auto using safe_register_read, safe_register_write, safe_lift_throw.
  split; [|apply quiet_bind; [apply quiet_register_read | intros; apply quiet_register_write]].
  intros s [[x Hx] _]%Forall_cons_1. apply wp_bind, (wp_register_read i x); [done|].
  by apply (wp_register_write i (counted_read x)); [eapply set_fd_lookup|].
Qed.

Lemma safe_read i : safe [i] (fd_read i npos).
Proof.
  split; [|apply quiet_read]. intros s [[x Hx] _]%Forall_cons_1. by apply (wp_fd_read i x).
Qed.

Lemma safe_write i text : zlen (c_string text) < 2 ^ 63 -> safe [i] (write_c_string i text true).
Proof.
  intros Hz. split; [|apply quiet_write]. intros s [[x Hx] _]%Forall_cons_1. by apply (wp_write_string i x).
Qed.

Lemma safe_address ip port : safe [] (address_of_ip ip port).
Proof.
  split.
  - intros s _. eapply wp_mono; [apply address_resolved_spec | done | done].
  - unfold address_of_ip, address_resolved. apply quiet_bind; [apply quiet_call; intros; apply frame_getaddrinfo|].
    intros [ret res]. apply quiet_if; [apply quiet_lift|]. destruct res as [[mem len]|]; apply quiet_lift.
Qed.

Lemma safe_check a b : safe [] (check_received a b).
Proof. unfold check_received. case_if; [apply safe_lift_throw | apply safe_mret]. Qed.

(** [sendto] and [send]. *)
Lemma safe_sendmsg i name buf :
  safe [i] (fd ← fd_num i; _ ← sendmsg_helper fd name buf; register_write i).
Proof.
  unfold sendmsg_helper. split.
  - intros s [[x Hx] _]%Forall_cons_1. apply wp_bind, (wp_fd_num i x); [done|]. apply wp_bind, wp_bind, wp_syscall.
    intros ret errno w E. apply law_sendmsg in E as (Hint & _). split; [done|]. split; [|done]. intros _.
    case_if; [done|]. apply wp_ret. by apply (wp_register_write i x).
  - apply quiet_bind; [apply quiet_num|]. intros fd. apply quiet_bind; [|intros; apply quiet_register_write].
    apply quiet_bind; [apply quiet_syscall; intros; apply frame_sendmsg|]. intros n. case_if; [apply quiet_lift | apply quiet_ret].
Qed.

Lemma quiet_recv i mtu : quiet (recv i mtu).
Proof.
  intros s. unfold recv, recv_into. destruct (address_of_null 0) as [a|e|]; [|done|done]. case_if; [done|]. cbn [payload source_address].
  match goal with |- context [mbind ?f (fd_num i) s] => set (c := mbind f (fd_num i)) end.
  assert (quiet c) as Hc.
  { apply quiet_bind; [apply quiet_num|]. intros fd. apply quiet_call. intros w f.
    pose proof (frame_recvfrom fd mtu MSG_TRUNC SOCKADDR_STORAGE w f) as Hf.
    by destruct (sys_recvfrom _ _ _ _ w) as [[[[[? ?] ?] ?] ?] ?]. }
  specialize (Hc s). destruct (c s) as [[[[[[ret errno] data] src] fromlen]|e|] s1]; [|done|done].
  destruct (SystemCall _ ret errno 0) as [n|e|]; [|done|done]. case_if; [done|].
  assert (quiet (_ ← register_read i; lift (address_of_sockaddr (overwrite raw_zero src) fromlen))) as Hr
    by (apply quiet_bind; [apply quiet_register_read | intros; apply quiet_lift]).
  specialize (Hr s1). match goal with |- context [mbind ?f (register_read i) s1] => destruct (mbind f (register_read i) s1) as [[b|e|] s2] end;
    by etransitivity.
Qed.

Lemma safe_recv (Hnull : null_copy = true) i : safe [i] (recv i 65536).
Proof.
  split; [|apply quiet_recv]. intros s [[x Hx] _]%Forall_cons_1. eapply wp_mono; [by apply (recv_spec i x) | done | done].
Qed.

Lemma safe_verify i option expected text :
  option = SO_DOMAIN \/ option = SO_TYPE -> safe [i] (verify_option i option expected text).
Proof.
  intros Ho. split.
  - intros s [[x Hx] _]%Forall_cons_1. eapply wp_mono; [by apply (verify_option_spec i x) | done | done].
  - unfold verify_option. apply quiet_bind; [apply quiet_num|]. intros fd. apply quiet_bind.
    + apply quiet_call. intros w f. destruct (sys_getsockopt _ _ _ _ w) as [[[[ret errno] v] len] w'] eqn:E.
      apply law_getsockopt in E as (_ & _ & Hsame); [|done]. apply (Hsame f).
    + intros [[[ret errno] v] len]. quiet_steps.
Qed.

Lemma safe_socket_of_fd i domain type : safe [i] (socket_of_fd i domain type).
Proof.
  split.
  - intros s [[x Hx] _]%Forall_cons_1. eapply wp_mono; [by apply (socket_of_fd_spec i x) | done | done].
  - unfold socket_of_fd. apply quiet_bind; [apply safe_verify; by left|]. intros _.
    apply quiet_bind; [apply safe_verify; by right | intros; apply quiet_ret].
Qed.

(** A new socket. *)
Lemma wp_socket_new domain type was L s (Q : nat -> OS W -> Prop) (E : exception -> OS W -> Prop) :
  owns true was L s -> (forall i f s', owns true was ((i, Some f) :: L) s' -> Q i s') ->
  (forall e s', owns false was L s' -> E e s') -> wp (socket_new domain type) Q E s.
Proof.
  intros Hown HQ HE. apply wp_bind, wp_syscall. intros fd errno w Es. apply law_socket in Es as (Hint & Hother & Hok & Hbad).
  split; [done|]. split.
  - intros Hfd. apply wp_new_fd; [done|]. destruct (Hok Hfd) as (Hwas & Hnow & _). eapply HQ. by apply (owns_new was L s).
  - intros Hneg. eapply HE, owns_weaken, owns_keeps; [exact Hown|]. split; [done|]. intros f. simpl.
    destruct (decide (f = fd)) as [->|]; auto.
Qed.

(** [accept] on an object. *)
Lemma wp_accept i was L s (Q : nat -> OS W -> Prop) (E : exception -> OS W -> Prop) :
  owns true was L s -> i ∈ map fst L -> (forall j f s', owns true was ((j, Some f) :: L) s' -> Q j s') ->
  (forall e s', owns false was L s' -> E e s') -> wp (accept i) Q E s.
Proof.
  intros Hown Hi HQ HE. unfold accept. apply wp_bind.
  eapply wp_safe; [apply safe_register_read | exact Hown | by apply Forall_singleton | | done]. intros _ s1 Hown1. apply wp_bind. eapply wp_mono with (Q := fun _ s' => owns true was L s') (E := fun _ _ => False).
  { pose proof (own_entries _ _ _ _ _ Hown1) as He. rewrite Forall_forall in He. apply list_elem_of_fmap in Hi as (e & -> & Hin).
    destruct (He e Hin) as (x & Hx & _). by apply (wp_fd_num e.1 x). }
  2: { done. }
  intros fd s2 Hown2. apply wp_bind, wp_syscall. intros new errno w Es. apply law_accept in Es as (Hint & Hother & Hok & Hbad).
  split; [done|]. split.
  2: { intros Hneg. eapply HE, owns_weaken, owns_keeps; [exact Hown2|]. split; [done|]. intros f. simpl.
       destruct (decide (f = new)) as [->|]; auto. }
  intros Hnew. destruct (Hok Hnew) as [Hwas Hnow]. apply wp_bind, wp_new_fd; [done|]. cbn [fds set_world].
  assert (owns true was ((length (fds s2), Some new) :: L) {| fds := fds s2 ++ [fresh_fd new]; world := w |}) as Hown3
    by (by apply (owns_new was L s2)). apply wp_on_throw.
  eapply wp_mono; [apply (socket_of_fd_spec _ (fresh_fd new)), new_fd_lookup | |].
  - intros j s4 (-> & Hf & _ & _ & Hop). eapply HQ, owns_keeps; [exact Hown3|]. split; [by rewrite Hf | done].
  - intros e s4 (Hf & Hop & _).
    assert (owns true was ((length (fds s2), Some new) :: L) s4) as Hown4
      by (eapply owns_keeps; [exact Hown3|]; split; [by rewrite Hf | done]).
    destruct (owns_destroy _ _ _ _ _ _ Hown4) as (s5 & E5 & Hown5). unfold wp. rewrite E5. by eapply HE, owns_weaken.
Qed.

(** ** The examples *)

Lemma third_first {A} (a b c : A) l : a :: b :: c :: l ≡ₚ c :: a :: b :: l.
Proof. symmetry. apply (Permutation_middle [a; b] l c). Qed.

(** Goes through the calls of a program: [Hown] is what it owns. *)
Ltac own_objects :=
  first [eassumption | eexists; split; [|eassumption]; cbn [map fst];
    first [assumption | repeat apply perm_skip; (assumption || reflexivity)]].
Ltac in_objects := repeat (apply Forall_cons; split); try apply Forall_nil; cbn [map fst]; rewrite ?elem_of_cons; auto.
Ltac safe_call lem :=
  apply wp_bind; eapply wp_safe; [apply lem; try by_compute | eassumption | in_objects | | intros ? ? ?; own_objects];
  match goal with Hown : owns true _ _ _ |- _ => clear Hown end; intros ? ? ?.
Ltac last_call lem := eapply wp_safe; [apply lem | eassumption | in_objects | intros ? ? ?; own_objects | intros ? ? ?; own_objects].
Ltac scope_of i := eapply (wp_local i); [| intros ? ? ?; eassumption | intros ? ? ?; eassumption].
(** The third object first. *)
Ltac owned_third :=
  match goal with Hown : owns true _ _ _ |- _ => apply (owns_perm _ _ _ _ _ (third_first _ _ _ _)) in Hown end.
Ltac new_socket i f :=
  apply wp_bind; eapply wp_socket_new; [eassumption | | intros ? ? ?; own_objects];
  match goal with Hown : owns true _ _ _ |- _ => clear Hown end; intros i f ? ?.

Lemma example_1_sound random was hs s :
  null_copy = true -> objects true was hs s ->
  wp (socket_example_1 random) (fun _ s' => objects true was hs s') (fun _ s' => objects false was hs s') s.
Proof.
  intros Hnull (L & Hl & Hown). unfold socket_example_1. cbv zeta. new_socket i f. scope_of i.
  safe_call safe_address. safe_call safe_socket_bind. new_socket j g. scope_of j.
  safe_call safe_address. safe_call safe_sendmsg. safe_call (safe_recv Hnull). safe_call safe_connect. safe_call safe_sendmsg.
  safe_call (safe_recv Hnull). last_call safe_check.
Qed.

Lemma example_2_sound random was hs s :
  objects true was hs s ->
  wp (socket_example_2 random) (fun _ s' => objects true was hs s') (fun _ s' => objects false was hs s') s.
Proof.
  intros (L & Hl & Hown). unfold socket_example_2. cbv zeta. new_socket i f. scope_of i.
  safe_call safe_address. safe_call safe_socket_bind. safe_call safe_listen. new_socket j g. scope_of j.
  safe_call safe_address. safe_call safe_connect.
  apply wp_bind. eapply wp_accept; [eassumption | right; left | | intros ? ? ?; own_objects]. intros k h s1 Hown1. scope_of k.
  safe_call safe_write. safe_call safe_read. safe_call safe_write. safe_call safe_read. clear dependent s1.
  assert (i :: k :: j :: map fst L ≡ₚ k :: j :: i :: hs) as Hp1 by (rewrite Hl; apply (Permutation_middle [k; j] hs i)).
  assert (j :: i :: k :: map fst L ≡ₚ k :: j :: i :: hs) as Hp2
    by (rewrite Hl; rewrite (Permutation_middle [i; k] hs j); apply (Permutation_middle [k; j] hs i)).
  owned_third. apply wp_bind. eapply wp_close_object; [eassumption | | intros ? ? ?; own_objects].
  clear dependent a. intros _ s1 Hown1. owned_third.
  apply wp_bind. eapply wp_close_object; [eassumption | | intros ? ? ?; own_objects]. clear dependent s1. intros _ s1 Hown1.
  safe_call safe_shutdown. last_call safe_check.
Qed.

(** A local socket on a descriptor that is to belong to it. *)
Lemma wp_local_socket fd was L s (Q : nat -> OS W -> Prop) (E : exception -> OS W -> Prop) :
  0 <= fd -> owns true was ((length (fds s), Some fd) :: L) {| fds := fds s ++ [fresh_fd fd]; world := world s |} ->
  (forall i s', owns true was ((i, Some fd) :: L) s' -> Q i s') ->
  (forall e s', local_socket fd s = (Throw e, s') -> owns false was L s' -> E e s') -> wp (local_socket fd) Q E s.
Proof.
  intros Hfd Hown HQ HE. apply wp_result. apply wp_bind, wp_new_fd; [done|]. apply wp_on_throw.
  eapply wp_mono; [apply (socket_of_fd_spec _ (fresh_fd fd)), new_fd_lookup | |].
  - intros i s1 (-> & Hf & _ & _ & Hop) _. eapply HQ, owns_keeps; [exact Hown|]. split; [by rewrite Hf | done].
  - intros e s1 (Hf & Hop & _).
    assert (owns true was ((length (fds s), Some fd) :: L) s1) as Hown1
      by (eapply owns_keeps; [exact Hown|]; split; [by rewrite Hf | done]).
    destruct (owns_destroy _ _ _ _ _ _ Hown1) as (s2 & E2 & Hown2). unfold wp. rewrite E2. intros Er.
    by eapply HE, owns_weaken.
Qed.

(** What the third example does with the descriptor [f] of the second socket if the
    constructor of the first one throws: it is still open at the end [s']. *)
Definition pair_lost (f : Z) s' : Prop :=
  exists s ret errno fd0 w e, sys_socketpair AF_UNIX SOCK_STREAM 0 (world s) = (ret, errno, (fd0, f), w) /\
    0 <= ret /\ local_socket fd0 (set_world s w) = (Throw e, s').

Lemma example_3_sound was hs s :
  objects true was hs s -> wp socket_example_3 (fun _ s' => objects true was hs s')
    (fun _ s' => objects false was hs s' \/
      exists f, pair_lost f s' /\ was f = false /\ objects false (opened_too f was) hs s') s.
Proof.
  intros (L & Hl & Hown). unfold socket_example_3. apply wp_bind, wp_call. intros [[ret errno] [fd0 fd1]] w E.
  destruct (sys_socketpair _ _ _ _) as [[[ret' errno'] [fd0' fd1']] w'] eqn:E'. injection E as -> -> -> -> ->.
  pose proof E' as (Hint & Hbad & Hok)%law_socketpair. apply wp_bind, wp_system_call; [done| |].
  2: { intros Hneg. left. exists L. split; [done|]. eapply owns_weaken, owns_keeps; [exact Hown|]. split; [done | by apply Hbad]. }
  intros Hret. destruct (Hok Hret) as (Hp0 & Hp1 & Hne & Hw0 & Hw1 & Hn0 & Hn1 & Hrest & _).
  destruct (owned_out _ _ _ _ fd1 Hown Hw1) as [Hout1 Hwas1].
  apply wp_bind. eapply (wp_local_socket fd0 (opened_too fd1 was) L); [done | | |].
  - unfold opened_too. eapply (owned_new _ (fun g => (g =? fd1) || is_open g (world s)));
      [by apply owned_other | | done |]; cbn [world set_world].
    + rewrite Hw0. by replace (fd0 =? fd1) with false by lia.
    + intros g Hg. destruct (g =? fd1) eqn:Eg; [by replace g with fd1 by lia | apply Hrest; lia].
  - intros i s1 Hown1. eapply (wp_local i); [| intros ? ? ?; eassumption | intros ? ? ?; left; eassumption].
    apply wp_bind. eapply (wp_local_socket fd1 was ((i, Some fd0) :: L)); [done | | |].
    + apply owned_adopt; [done | simpl; rewrite not_elem_of_cons; auto | done].
    + clear Hown Hown1. intros j s2 Hown2. scope_of j. safe_call safe_write. safe_call safe_read. safe_call safe_write. safe_call safe_read.
      last_call safe_check.
    + intros e s2 _ Hown2. own_objects.
  - intros e s1 Hthrow Hown1. right. exists fd1. split; [by eexists s, _, _, _, _, _|]. split; [done|]. by exists L.
Qed.

(** And it does happen, whenever that constructor throws. *)
Lemma pair_leaks s ret errno fd0 f w e s' :
  sys_socketpair AF_UNIX SOCK_STREAM 0 (world s) = (ret, errno, (fd0, f), w) -> 0 <= ret ->
  local_socket fd0 (set_world s w) = (Throw e, s') -> socket_example_3 s = (Throw e, s') /\ is_open f (world s') = true.
Proof.
  intros Ep Hret El. pose proof Ep as (Hint & _ & Hok)%law_socketpair.
  destruct (Hok Hret) as (Hp0 & _ & Hne & Hw0 & _ & Hn0 & Hn1 & _). split.
  - unfold socket_example_3, mbind at 1, os_bind at 1, call_kernel. rewrite Ep. cbn. unfold mbind, os_bind, lift.
    destruct Hint as [Hr He]. rewrite system_call_spec by done. replace (0 <=? ret) with true by lia.
    change {| fds := fds s; world := w |} with (set_world s w). by rewrite El.
  - assert (wp (local_socket fd0) (fun _ _ => True) (fun _ s' => owns false (fun g => if g =? fd0 then false else is_open g w) [] s')
      (set_world s w)) as Hwp.
    { eapply (wp_local_socket fd0 _ []); [done | | done | done].
      eapply (owned_new _ (fun g => if g =? fd0 then false else is_open g w)); [by constructor; [done | constructor..] | | done |].
      - by rewrite Z.eqb_refl.
      - intros g Hg. by replace (g =? fd0) with false by lia. }
    unfold wp in Hwp. rewrite El in Hwp. rewrite (owns_end _ _ _ Hwp f). by replace (f =? fd0) with false by lia.
Qed.
End calls.

(** * Instances *)

#[global] Program Instance net_frame : KernelFrame net.
Next Obligation. intros fd n w f. simpl. by destruct (next_piece _ _). Qed.
Solve All Obligations with done.

Lemma net_socket_kind k w ret errno w' f : net_socket k w = (ret, errno, w') -> f <> ret -> kind w' f = kind w f.
Proof.
  unfold net_socket. case_if; intros [= <- _ <-] Hf; [|done]. simpl. unfold update. by replace (f =? next_fd w) with false by lia.
Qed.

#[global] Instance net_socket_frame : SocketFrame net.
Proof.
  constructor; try done.
  - intros fd size flags len w f. simpl. destruct (mail w) as [|[src data] rest]; [done|]. by case_if.
  - intros fd name iov flags w f. simpl. by case_if.
  - intros node service hints w f. simpl. unfold numeric_getaddrinfo. by destruct (read_quad node), (read_port service).
  - intros domain type w ret errno fd0 fd1 w'. unfold sys_socketpair, net_socketpair.
    destruct (net_socket (domain, type) w) as [[f0 e0] w0] eqn:E0. destruct (net_socket (domain, type) w0) as [[f1 e1] w1] eqn:E1.
    pose proof (net_socket_kind _ _ _ _ _ f0 E1) as Hkind.
    apply net_socket_law in E0 as (_ & Ho0 & Hok0 & _), E1 as (_ & Ho1 & Hok1 & _). unfold int_result.
    case_if; intros [= <- <- <- <- <-]; (split; [lia|]); (split; [done || lia|]); [|lia]. intros _.
    destruct Hok0 as (Hw0 & Hn0 & _ & Hk0); [lia|]. destruct Hok1 as (Hw1 & Hn1 & _ & Hk1); [lia|].
    assert (f0 <> f1) as Hne by congruence. cbn [is_open net_kernel_laws] in *.
    split; [lia|]. split; [lia|]. split; [done|]. split; [done|]. split; [by rewrite <- Ho0|].
    split; [by rewrite Ho1|]. split; [done|]. split; [intros f Hf0 Hf1; by rewrite Ho1, Ho0|].
    cbn [sock_domain sock_type net_laws]. by rewrite Hkind, Hk0, Hk1.
Qed.

(** A system like [net], except that getsockopt(2) fails for want of memory. *)
Definition no_options : SocketKernel net := {|
  sys_socket := sys_socket; sys_getsockopt fd level option len w := (-1, 12, 0, 0, w);
  sys_setsockopt := sys_setsockopt; sys_getname := sys_getname; sys_bind := sys_bind; sys_connect := sys_connect;
  sys_shutdown := sys_shutdown; sys_recvfrom := sys_recvfrom; sys_sendmsg := sys_sendmsg; sys_listen := sys_listen;
  sys_accept := sys_accept
|}.

(** There the third example throws, closes the first descriptor of its pair, 5, and leaves
    the second one, 6, open. *)
Example example_3_leaks :
  let '(r, s') := @socket_example_3 net net_kernel no_options net_socketpair script_os in
  r = Throw (unix_error (str "getsockopt") 12) /\ opened (world s') 5 = false /\ opened (world s') 6 = true.
Proof. vm_compute. done. Qed.

(** * Properties *)

(** C28: the program socket_dt, on any platform that allows to copy nothing from a null
    pointer, and any system that keeps the contracts of its calls. It has no undefined
    behaviour and ends with one of the two exit codes, whichever call fails and whichever
    check throws. Each descriptor that was opened for its sockets is closed again and no
    other one is touched, with one exception: if the constructor of the first socket of the
    local pair throws, the descriptor of the second one, and only that, stays open. *)
Theorem socket_dt_no_leak {W} `{SocketFrame W} `{!KernelFrame W} `{!ResolverLaws W} `{Platform} random1 random2 (s : OS W) :
  null_copy = true ->
  exists code s', socket_dt random1 random2 s = (Ok code, s') /\ (code = EXIT_SUCCESS \/ code = EXIT_FAILURE) /\
    ((forall f, is_open f (world s') = is_open f (world s)) \/
     exists f, pair_lost f s' /\ code = EXIT_FAILURE /\ is_open f (world s) = false /\ is_open f (world s') = true /\
       forall g, g <> f -> is_open g (world s') = is_open g (world s)).
Proof.
  intros Hnull. set (was := fun f => is_open f (world s)).
  assert (wp (_ ← socket_example_1 random1; _ ← socket_example_2 random2; socket_example_3)
    (fun _ s' => objects true was [] s')
    (fun _ s' => objects false was [] s' \/
      exists f, pair_lost f s' /\ was f = false /\ objects false (opened_too f was) [] s') s) as Hwp.
  { apply wp_bind. eapply wp_mono; [apply (example_1_sound random1 was []); [done | exists []; split; [done | apply owns_start]] | | by left].
    intros u1 s1 Ho1. apply wp_bind. eapply wp_mono; [by apply (example_2_sound random2 was []) | | by left].
    intros u2 s2 Ho2. by apply (example_3_sound was []). }
  unfold socket_dt, wp in *. match type of Hwp with context [mbind ?f ?c s] => destruct (mbind f c s) as [[[]|e|] s'] end;
    [| |done]; eexists _, s'; (split; [done|]).
  - split; [by left|]. left. by eapply objects_end.
  - split; [by right|]. destruct Hwp as [Hobj | (f & Hlost & Hwas & Hobj)]; [left; by eapply objects_end|]. right. exists f.
    split; [done|]. split; [done|]. split; [done|]. unfold opened_too in Hobj. split.
    + rewrite (objects_end _ _ _ Hobj f). by rewrite Z.eqb_refl.
    + intros g Hg. rewrite (objects_end _ _ _ Hobj g). by replace (g =? f) with false by lia.
Qed.

Lemma socket_dt_no_leak_witness :
  exists s', socket_dt 1 2 script_os = (Ok EXIT_SUCCESS, s') /\ forall f, is_open f (world s') = is_open f (world script_os).
Proof.
  destruct (socket_dt_no_leak 1 2 script_os (eq_refl : @null_copy usual_platform = true)) as (code & s' & E & _ & Hop). pose proof socket_dt_succeeds as Hs.
  rewrite E in Hs. exists s'. injection Hs as ->. destruct Hop as [Hop | (f & _ & [=] & _)]. split; [exact E | exact Hop].
Defined.
